(* ===== verification/_CoqProject ===== *)
-Q . S2P
Prelude.v
KState.v
Queue.v
Abs.v
Scheduler.v
Sleep.v
Semaphore.v
Invariant.v
Mutex.v
Pool.v
Tcb.v
Preserve.v
Inherit.v
Kernel.v
Spec.v
Boot.v
OneLock.v
Guarantees.v
Timing.v
Nested.v
Objects.v
KernelProps.v
ObjectProps.v
Heap.v
HeapSpec.v
HeapProps.v
Utils.v
Kprintf.v
KprintfSpec.v
FormatTypes.v
RingBuffer.v
Usart.v
Console.v
Cli.v
Syscall.v
Frame.v
SyscallProps.v
LibProps.v
Dhcp.v
DhcpSpec.v
DhcpParse.v
DhcpReply.v
Flash.v
FlashSpec.v
Lease.v
JournalSpec.v
Server.v
ServerSpec.v
DhcpProps.v
Spi.v
SpiSpec.v
W5500.v
W5500Spec.v
Net.v
NetLive.v
NetSpec.v
NetProps.v
Printers.v
UserCalls.v
Mailbox.v
MailboxProps.v
Shell.v
ShellSpec.v
ShellProps.v
Platform.v
PlatformSpec.v
PlatformProps.v
Bench.v
BenchProps.v
UsartDriver.v
Main.v
Startup.v
MainProps.v
Faults.v
UserTasks.v
UserTasksProps.v
