(* ===== verification/Prelude.v ===== *)
(** * Cortex-M4 kernel: a verification library

    The program is a preemptive kernel for an STM32F446 ([source/kernel],
    [source/drivers], [include/]) and the DHCP server that runs on it
    ([source/user]).  Tasks call the kernel through SVC; PendSV switches
    between them; a tick wakes the sleepers; the network task owns the W5500
    chip behind SPI; the DHCP task asks it for datagrams and keeps its leases
    in a journal in flash.

    ** How code is modelled

    A piece of C that works on a state [S] is a [prog S A] (below): a function
    from the state to a value and the next state, or to a [trap].  [Fault] is
    an access outside the object a pointer names, [Diverge] a loop that used up
    the fuel of its model or waits for an interrupt that does not come.  What C
    leaves undefined ([%s] with NULL, an argument of the wrong type) is [Fault]
    too.
    Pointers are their 32-bit addresses ([ptr]); objects live in typed stores
    (stdpp's [gmap]) keyed by address, so aliasing is that of the code.
    Machine integers are [Z] with their wrap-around written out ([u8], [u16],
    [u32], [s32]).  Byte buffers are [list Z].  Device registers are read and
    written through the class [Mmio]; its instances keep a log of all accesses
    and take what a read returns from a parameter, a function of the log, so
    the theorems hold for every hardware or state what they need of it.  Where
    only the output of a function matters (the shell, the printers, the user's
    tasks) it is the list of its calls, each a format and its arguments.

    ** The parts

    Kernel core.  [KState.v] holds the structures of [tcb.h], [semaphore.h],
    [scheduler.h] and the statics of the kernel as one record [kstate].  Each
    further file is one C file: [Queue.v] the intrusive lists of [scheduler.c]
    and [sleep.c]; [Scheduler.v] [scheduler.c], [arm.c] and the state part of
    [pend_sv_handler.S]; [Sleep.v] [sleep.c] and [systick.c]; [Semaphore.v] and
    [Mutex.v] [semaphore.c]; [Pool.v] [static_memory.c]; [Tcb.v] [tcb.c],
    [task_stack_init.S] and the register frames of [pend_sv_handler.S].
    [Abs.v] abstracts the linked queues to lists of tasks: [Abs s a].
    [Spec.v] states the list-level specification of each blocking operation and
    the class [Implements] that the refinement theorems are instances of.
    [Invariant.v] is the invariant [kinv] (every task in the one queue of its
    state, queues ordered, priorities exactly inherited); [Preserve.v] and
    [Inherit.v] show that each operation keeps it; [Kernel.v] collects the
    operations as events with their preconditions [may].  [Boot.v] has these
    conditions as the executable [allowed], reachability [reaches] by allowed
    events, and a concrete kernel for the witnesses.  [OneLock.v] replaces the
    conditions on the lists of owned mutexes by one on the callers: a task that
    asks for a mutex owns none.  [Guarantees.v], [Timing.v], [Nested.v] and
    [Objects.v] derive what the kernel promises and where it does not.

    Libraries.  [Heap.v] is [heap.c] (specification as a list of blocks in
    [HeapSpec.v]); [Utils.v] [utils.c]; [Kprintf.v] [kprintf.c] and the
    formatter of [uprintf.c] (reference rendering in [KprintfSpec.v]);
    [FormatTypes.v] types the format strings; [Printers.v] is the rest of
    [uprintf.c].  [RingBuffer.v], [Usart.v] are the serial port;
    [UsartDriver.v] the entries of [usart_driver.c] and the waiting calls of
    [usart.c], which take the interrupts that come while they wait as a list;
    [Console.v] [driver.c] and [console.c].

    Shell.  [Cli.v] is the line buffer and the command table of [cli.c],
    [Shell.v] the command functions, on the state of the whole system and the
    lease table (they run to their end before another task prints).  The
    command [link] makes the system call of [UserCalls.v], which blocks the
    shell; what happens until it runs again is a parameter ([others]).
    [ShellSpec.v] says what each of them reports.

    System calls.  [Syscall.v] is [svc_dispatch] with all its cases on the
    joint state of kernel, heap, console and network mailbox; [Frame.v] shows
    what the calls leave alone.  [UserCalls.v] is the user side: each call
    with the registers it fills.  [Mailbox.v] follows a network request from
    the call through the two semaphores of [net.c] and back ([unserved]: the
    states between the call and the first post or close that serves it).

    Start-up and processor.  [Platform.v] has the register accesses of
    [clock.c], [mpu.c], [fpu_init], [systick_init], [usart2_init] and the
    macros of [scb.h] and [nvic.h]; [PlatformSpec.v] what the registers mean
    (clock tree, MPU regions with their overlaps).  [Main.v] is [main] on the
    whole system, for a build without BENCH; [Startup.v] follows the kernel
    from the image of the program to the four tasks.  [Faults.v] is
    [debug_handlers.c]; [Bench.v] [bench.c] and the measuring parts of
    [arm.c], [arm.h], [pend_sv_handler.S] and [cli.c].

    Network.  [Spi.v] is [spi.c] with the macros of [gpio.h], written as
    accesses in a log; what a read returns is a parameter, a function of the
    log so far, so the theorems hold for every hardware.  Its lock calls are
    granted, and change the state of the driver in any way while they wait
    (parameter [after_wait]).  [W5500.v] is
    [w5500.c], against the class [SpiBus] of which the SPI driver ([spi_bus])
    is an instance.  [W5500Spec.v] states the documented behaviour of the chip
    that a receive relies on (classes [W5500Regs] and [W5500Chip]: what the
    registers and the ring of a socket hold, the read pointer as a plain
    register, and the RECV command, which takes effect with its write;
    datagrams arrive at any time and any frame may fail) and proves the receive
    against it.  [Net.v] is
    [net_task] and a turn of its loop; [NetLive.v] shows that every function of
    the driver ends on every hardware and keeps the rules of the bus (class
    [SteadyBus], of which the SPI driver is an instance), and says what a run of
    the task answers to each request ([turns_done]); [NetSpec.v] runs a turn
    over the SPI driver.

    DHCP.  [Dhcp.v] parses and builds messages; [DhcpParse.v] gives the option
    field a grammar and [DhcpReply.v] the layout of a reply.  [Flash.v] is
    [flash.c] (class [NorFlash]: an erased word takes the word that is
    programmed into it; what becomes of any other is the hardware's business);
    [Lease.v] the lease table and the journal; [Server.v] the handlers and one
    turn of the server.  [FlashSpec.v], [JournalSpec.v] and [ServerSpec.v]
    hold their specifications.  [UserTasks.v] is [user_main] and the whole of
    [dhcp_task], as lists of what they print, send and call.

    ** The theorems

    They are in the files named [...Props.v], and at the end of
    [UsartDriver.v] and [Faults.v]; every other file serves them.
    - [KernelProps.v]: from every well-formed state every allowed event ends in
      a well-formed state; the callers that hold one mutex at a time meet its
      conditions on hand-overs; reachable queues and inherited priorities;
      PendSV dispatches a task of the best priority; the tick wakes exactly the
      due sleepers; lock and unlock refine their specifications; and the cases
      in which they do not behave (sleeping across the wrap of the tick
      counter, unlocking with several mutexes held).
    - [ObjectProps.v]: priority queues are stable, semaphores refine counters
      with a queue, contexts survive saving and restoring, slots are reused,
      closing a semaphore strands its waiters, [get_socket] is off by one.
    - [HeapProps.v]: first fit, coalescing while the back links are right, and
      the two defects of [kmalloc].
    - [SyscallProps.v]: a call of the core runs exactly its event, with its
      answer and its switch; the pointer checks are exact; mutexes made by the
      system call are refused.
    - [MailboxProps.v]: a network call hands over its request, and its caller
      waits until it is answered; a second call before the task looks replaces
      the first.
    - [LibProps.v]: crc32, the formatter, the serial port as a FIFO, the shell
      as a line editor on lists.
    - [ShellProps.v]: the type checker of formats is exact; every command but
      [link] and every printer prints its report, well typed and uncut, when
      the names of the tasks can be read; [link] blocks in its system call.
    - [PlatformProps.v]: the clock reaches 84 MHz, within the limits of the
      buses and the flash after every access;
      the MPU regions confine tasks; the order of the interrupt priorities.
    - [UsartDriver.v]: writes and blocking reads end, complete and in order.
    - [MainProps.v]: [main] reaches its loop with the kernel's invariant, from
      which the theorems of [KernelProps.v] take over.
    - [Faults.v]: the memory fault report is complete and needs no kernel.
    - [BenchProps.v]: percentiles lie in their bucket; long readings alias.
    - [NetProps.v]: a frame is bounded, framed and complete or faults; a
      receive that succeeds takes the first datagram off the queue of the
      socket; on a bus left faulted one more request fails; the task answers
      every request, in order, with the result of one call of the driver.
    - [DhcpProps.v]: a turn is safe for every datagram; an offer is kept for a
      client without a released slot that asks in time; the journal replays;
      parsing accepts exactly the grammar; replies echo; a released lease can
      never be had again.
    - [UserTasksProps.v]: the server is started exactly when the link comes up
      before an error; [dhcp_task] serves from its start through any list of
      datagrams for which the journal has room (511 on an erased flash); the
      report of a failed offer hides its reason.

    ** Bounds and fuel

    A loop over a linked structure gets the size of its store plus one or two
    as fuel ([walk_fuel], [owned_fuel], [heap_fuel]); the well-formedness of
    the list bounds its length by that size, so the theorems conclude [Ok] and
    never assume that a loop ends.  The inheritance walk of
    [task_raise_priority] gets two more than the number of tasks; each step
    lowers the number of tasks that are still below the new priority.
    [parse_loop] gets the length of the datagram, [load_loop] the size of the
    flash.  Wait loops with a counter in the code ([spin], [retry],
    [stable_loop]) recurse on that counter.  A wait for a register flag
    ([poll], in [clock_init] and the panic output) gets the number of reads it
    may take; the theorems ask the hardware to show the flag within it.  The
    waiting calls of the serial port recurse on the interrupts that come, the
    tasks of the user on the answers they get.

    ** Assumptions worth knowing

    - [usart2_init] creates its semaphore with a system call, in the middle of
      [driver_register]; [Main.v] runs this last statement right after
      [driver_register], and the driver sees the semaphore as its count.
    - [sleep_until] and the workload of [Bench.v] let the other tasks run as a
      parameter, any function on the state.
    - The messages that the network task logs are left out of [Net.v].
    - PendSV does not call [mpu_switch_to_task] and [task_set_privilege] in the
      model; [main] never enables the MPU.
    - [spi1_lock] is not in the pool of mutexes, so the system call may refuse
      it; [Spi.v] takes it as granted.

    ** Not modelled

    - [startup_code.S], [handlers.S]: the vector table, the copying of the
      sections and the choice of the stack pointer for the fault report.
    - the empty handlers of [debug_handlers.c].
    - the floating-point sum of [fpu_task] in [bench.c].
    - the loop of [cli_task], which feeds the line editor.
    - the parts of [main] in a BENCH build, which leaves out two tasks.
    - failure of the allocations of [dhcp_task], and tests of pointers for NULL
      that no caller can trigger. *)
From Stdlib Require Export ZArith Lia Sorted.
From stdpp Require Export base tactics gmap functions list.
#[export] Set Default Goal Selector "!".
#[export] Set Warnings "-clear-no-such-hyp".
Open Scope Z_scope.

(** ** Pointers and machine integers *)

(** A pointer is its 32-bit address. *)
Abbreviation ptr := Z.
Definition NULL : ptr := 0.

Definition u8 (z : Z) : Z := z mod 2 ^ 8.
Definition u16 (z : Z) : Z := z mod 2 ^ 16.
Definition u32 (z : Z) : Z := z mod 2 ^ 32.

(** The value of the cast [(int32_t)z] of a 32-bit word. *)
Definition s32 (z : Z) : Z :=
  if u32 z <? 2 ^ 31 then u32 z else u32 z - 2 ^ 32.

Lemma u8_range z : 0 <= u8 z < 256.
Proof. unfold u8. apply Z.mod_pos_bound. lia. Qed.
Lemma u16_range z : 0 <= u16 z < 65536.
Proof. unfold u16. apply Z.mod_pos_bound. lia. Qed.
Lemma u32_range z : 0 <= u32 z < 2 ^ 32.
Proof. unfold u32. apply Z.mod_pos_bound. lia. Qed.
Lemma u8_small z : 0 <= z < 256 -> u8 z = z.
Proof. intros. unfold u8. apply Z.mod_small. lia. Qed.
Lemma u16_small z : 0 <= z < 65536 -> u16 z = z.
Proof. intros. unfold u16. apply Z.mod_small. lia. Qed.
Lemma u32_small z : 0 <= z < 2 ^ 32 -> u32 z = z.
Proof. intros. unfold u32. apply Z.mod_small. lia. Qed.

(** Putting bit fields side by side. *)
Lemma lor_shiftl a b k : 0 <= k -> 0 <= a < 2 ^ k -> Z.lor a (Z.shiftl b k) = a + b * 2 ^ k.
Proof.
  intros Hk Ha. rewrite <- Z.shiftl_mul_pow2 by done.
  assert (Z.land a (Z.shiftl b k) = 0) as Hd.
  { apply Z.bits_inj'. intros n Hn. rewrite Z.land_spec, Z.bits_0.
    destruct (Z.ltb_spec n k); [by rewrite Z.shiftl_spec_low, andb_false_r|].
    by rewrite <- (Z.mod_small a (2 ^ k)), Z.mod_pow2_bits_high by lia. }
  by rewrite <- Z.lxor_lor, <- Z.add_nocarry_lxor.
Qed.

(** Expands every wrap-around of the goal and the hypotheses into a linear
    constraint, then calls [lia]. *)
Ltac word_lia :=
  unfold s32, u32, u16, u8, NULL in *;
  repeat match goal with
         | |- context [?a <? ?b] => destruct (Z.ltb_spec a b)
         | H : context [?a <? ?b] |- _ => destruct (Z.ltb_spec a b)
         end; try lia;
  Z.to_euclidean_division_equations; lia.

(** ** Outcomes and state-passing programs *)

(** [Fault]: the code dereferences an address that holds no object of the type
    it expects.  [Diverge]: a loop used up the fuel of its model. *)
Inductive trap := Fault | Diverge.

Inductive result (A : Type) :=
| Ok (a : A)
| Trap (e : trap).
Arguments Ok {A} _.
Arguments Trap {A} _.

#[export] Instance result_ret : MRet result := fun A => @Ok A.
#[export] Instance result_bind : MBind result := fun A B f m =>
  match m with Ok a => f a | Trap e => Trap e end.

(** A program over a state [S]: it ends with a value and a state, or traps. *)
Definition prog (S A : Type) : Type := S -> result (A * S).

#[export] Instance prog_ret S : MRet (prog S) := fun A a s => Ok (a, s).
#[export] Instance prog_bind S : MBind (prog S) := fun A B f m s =>
  match m s with Ok (a, s') => f a s' | Trap e => Trap e end.

Definition raise {S A} (e : trap) : prog S A := fun _ => Trap e.
Definition gets {S A} (f : S -> A) : prog S A := fun s => Ok (f s, s).
Definition modify {S} (f : S -> S) : prog S unit := fun s => Ok (tt, f s).
(** Reads a partial field: the dereference of a pointer. *)
Definition fetch {S A} (f : S -> option A) : prog S A := fun s =>
  match f s with Some a => Ok (a, s) | None => Trap Fault end.
(** [if (b) m] *)
Definition whenb {S} (b : bool) (m : prog S unit) : prog S unit :=
  if b then m else mret tt.

Section prog_laws.
Context {S : Type}.

Lemma prog_bind_ok {A B} (m : prog S A) (k : A -> prog S B) s a s' :
  m s = Ok (a, s') -> (m ≫= k) s = k a s'.
Proof. intros E. unfold mbind, prog_bind. by rewrite E. Qed.

Lemma prog_bind_trap {A B} (m : prog S A) (k : A -> prog S B) s e :
  m s = Trap e -> (m ≫= k) s = Trap e.
Proof. intros E. unfold mbind, prog_bind. by rewrite E. Qed.

Lemma prog_bind_inv {A B} (m : prog S A) (k : A -> prog S B) s r :
  (m ≫= k) s = Ok r -> exists a s', m s = Ok (a, s') /\ k a s' = Ok r.
Proof.
  unfold mbind, prog_bind. destruct (m s) as [[a s']|]; [|done].
  intros. by exists a, s'.
Qed.

Lemma prog_bind_assoc {A B C} (m : prog S A) (f : A -> prog S B)
    (g : B -> prog S C) s :
  ((m ≫= f) ≫= g) s = (m ≫= fun a => f a ≫= g) s.
Proof. unfold mbind, prog_bind. by destruct (m s) as [[a s']|]. Qed.
End prog_laws.

(** Runs one primitive of a program whose result the context knows. *)
Ltac prun :=
  repeat first
    [ progress unfold gets, modify, fetch, whenb
    | progress simplify_option_eq
    | progress simplify_map_eq
    | progress cbn [mret prog_ret mbind prog_bind raise] ].

(** Decides the equalities of constants a condition tests. *)
Ltac bdec :=
  repeat match goal with
  | |- context [bool_decide ?P] =>
      first [ rewrite (bool_decide_true P) by (done || congruence || naive_solver)
            | rewrite (bool_decide_false P) by (done || congruence || naive_solver) ]
  end; cbn [andb orb negb whenb].

(** ** Lists *)

Section lists.
Context {A : Type}.
Implicit Types l : list A.

Lemma last_cons_cons l x y d :
  List.last (x :: y :: l) d = List.last (y :: l) d.
Proof. done. Qed.

Lemma last_default l d : List.last l d = default d (last l).
Proof.
  induction l as [|x l IH]; [done|]. destruct l as [|y l]; [done|]. exact IH.
Qed.

Lemma last_cons_default l x d : List.last (x :: l) d = List.last l x.
Proof. rewrite !last_default, last_cons. by destruct (last l). Qed.

Lemma last_app_cons l1 l2 x d :
  List.last (l1 ++ x :: l2) d = List.last (x :: l2) d.
Proof.
  induction l1 as [|y l1 IH]; [done|]. destruct l1 as [|z l1]; [done|]. exact IH.
Qed.

Lemma last_In l d : l <> [] -> In (List.last l d) l.
Proof.
  intros Hl. destruct (exists_last Hl) as (l' & x & ->).
  rewrite last_last. apply in_or_app. right. by left.
Qed.

Lemma exists_last_or_nil l : l = [] \/ exists l1 d, l = l1 ++ [d].
Proof. destruct l using rev_ind; eauto. Qed.

Lemma NoDup_snoc l x : NoDup (l ++ [x]) <-> (NoDup l /\ x ∉ l).
Proof.
  rewrite NoDup_app. split.
  - intros (? & Hx & _). split; [done|]. intros ?. by apply (Hx x); [|left].
  - intros [? ?]. split_and!; [done| |apply NoDup_singleton].
    intros y ? ->%list_elem_of_singleton. done.
Qed.

Lemma NoDup_length_subset `{Countable A} l (X : gset A) :
  NoDup l -> (forall x, x ∈ l -> x ∈ X) -> (length l <= size X)%nat.
Proof.
  intros Hl Hsub. rewrite <- (size_list_to_set (C := gset A)) by done.
  apply subseteq_size. intros x Hx. apply Hsub. set_solver.
Qed.
End lists.

(** The hints of the development: [kernel] for well-formedness side
    conditions, [wrap] for the wrap-around of words that are in range. *)
Create HintDb kernel.
Create HintDb wrap.
Create Rewrite HintDb wrap.
#[export] Hint Resolve u8_range u16_range u32_range : wrap.
#[export] Hint Rewrite u8_small u16_small u32_small using lia : wrap.
