(* ===== verification/KState.v ===== *)
(** * The shared state of the kernel

    The C structures of [include/kernel/{tcb,scheduler,semaphore}.h], the
    statics of [scheduler.c], [sleep.c], [systick.c] and the CPU registers the
    kernel reads and writes, as one record.  Objects live in typed stores keyed
    by address; links between objects are addresses, so aliasing is the code's
    own.  A program of type [K A] is a fragment of kernel code. *)
From S2P Require Import Prelude.

(** ** Enumerations *)

Inductive task_state :=
| TASK_UNUSED | TASK_READY | TASK_RUNNING | TASK_BLOCKED
| TASK_SUSPENDED | TASK_SLEEPING | TASK_FINISHED.

Inductive wait_type := NONE | SEM | MUTEX.

Inductive sem_state := SEM_UNUSED | SEM_OPEN | SEM_CLOSED.

Inductive sem_result :=
| SEM_CLOSE | SEM_OK | SEM_OK_YIELD | MUTEX_NOT_OWNER | MUTEX_DEADLOCK.

#[export] Instance task_state_eq_dec : EqDecision task_state.
Proof. solve_decision. Defined.
#[export] Instance wait_type_eq_dec : EqDecision wait_type.
Proof. solve_decision. Defined.
#[export] Instance sem_state_eq_dec : EqDecision sem_state.
Proof. solve_decision. Defined.
#[export] Instance sem_result_eq_dec : EqDecision sem_result.
Proof. solve_decision. Defined.

(** The value a C [switch] or cast sees. *)
Definition sem_result_code (r : sem_result) : Z :=
  match r with
  | SEM_CLOSE => 0 | SEM_OK => 1 | SEM_OK_YIELD => 2
  | MUTEX_NOT_OWNER => 3 | MUTEX_DEADLOCK => 4
  end.

(** ** Structures *)

Record tcb_list : Type := TcbList { q_head : ptr; q_tail : ptr }.
Definition empty_list : tcb_list := TcbList NULL NULL.

Record tcb : Type := MkTcb {
  t_sp : ptr; (* saved stack pointer *)
  t_state : task_state;
  t_base_priority : Z; (* uint8_t *)
  t_effective_priority : Z; (* uint8_t *)
  t_stack_base : ptr;
  t_stack_size : Z;
  t_next : ptr; (* intrusive link *)
  t_name : ptr;
  t_function : ptr;
  t_args : ptr;
  t_unprivileged : Z;
  t_wake_tick : Z; (* uint32_t *)
  t_waiting_on : ptr;
  t_waiting_on_type : wait_type;
  t_owned_mutexes : ptr;
}.

Definition set_t_sp (v : ptr) (x : tcb) : tcb :=
  {| t_sp := v; t_state := t_state x; t_base_priority := t_base_priority
     x; t_effective_priority := t_effective_priority x; t_stack_base :=
     t_stack_base x; t_stack_size := t_stack_size x; t_next := t_next x;
     t_name := t_name x; t_function := t_function x; t_args := t_args x;
     t_unprivileged := t_unprivileged x; t_wake_tick := t_wake_tick x;
     t_waiting_on := t_waiting_on x; t_waiting_on_type :=
     t_waiting_on_type x; t_owned_mutexes := t_owned_mutexes x |}.
Definition set_t_state (v : task_state) (x : tcb) : tcb :=
  {| t_sp := t_sp x; t_state := v; t_base_priority := t_base_priority x;
     t_effective_priority := t_effective_priority x; t_stack_base :=
     t_stack_base x; t_stack_size := t_stack_size x; t_next := t_next x;
     t_name := t_name x; t_function := t_function x; t_args := t_args x;
     t_unprivileged := t_unprivileged x; t_wake_tick := t_wake_tick x;
     t_waiting_on := t_waiting_on x; t_waiting_on_type :=
     t_waiting_on_type x; t_owned_mutexes := t_owned_mutexes x |}.
Definition set_t_base_priority (v : Z) (x : tcb) : tcb :=
  {| t_sp := t_sp x; t_state := t_state x; t_base_priority := v;
     t_effective_priority := t_effective_priority x; t_stack_base :=
     t_stack_base x; t_stack_size := t_stack_size x; t_next := t_next x;
     t_name := t_name x; t_function := t_function x; t_args := t_args x;
     t_unprivileged := t_unprivileged x; t_wake_tick := t_wake_tick x;
     t_waiting_on := t_waiting_on x; t_waiting_on_type :=
     t_waiting_on_type x; t_owned_mutexes := t_owned_mutexes x |}.
Definition set_t_effective_priority (v : Z) (x : tcb) : tcb :=
  {| t_sp := t_sp x; t_state := t_state x; t_base_priority :=
     t_base_priority x; t_effective_priority := v; t_stack_base :=
     t_stack_base x; t_stack_size := t_stack_size x; t_next := t_next x;
     t_name := t_name x; t_function := t_function x; t_args := t_args x;
     t_unprivileged := t_unprivileged x; t_wake_tick := t_wake_tick x;
     t_waiting_on := t_waiting_on x; t_waiting_on_type :=
     t_waiting_on_type x; t_owned_mutexes := t_owned_mutexes x |}.
Definition set_t_stack_base (v : ptr) (x : tcb) : tcb :=
  {| t_sp := t_sp x; t_state := t_state x; t_base_priority :=
     t_base_priority x; t_effective_priority := t_effective_priority x;
     t_stack_base := v; t_stack_size := t_stack_size x; t_next := t_next
     x; t_name := t_name x; t_function := t_function x; t_args := t_args
     x; t_unprivileged := t_unprivileged x; t_wake_tick := t_wake_tick x;
     t_waiting_on := t_waiting_on x; t_waiting_on_type :=
     t_waiting_on_type x; t_owned_mutexes := t_owned_mutexes x |}.
Definition set_t_stack_size (v : Z) (x : tcb) : tcb :=
  {| t_sp := t_sp x; t_state := t_state x; t_base_priority :=
     t_base_priority x; t_effective_priority := t_effective_priority x;
     t_stack_base := t_stack_base x; t_stack_size := v; t_next := t_next
     x; t_name := t_name x; t_function := t_function x; t_args := t_args
     x; t_unprivileged := t_unprivileged x; t_wake_tick := t_wake_tick x;
     t_waiting_on := t_waiting_on x; t_waiting_on_type :=
     t_waiting_on_type x; t_owned_mutexes := t_owned_mutexes x |}.
Definition set_t_next (v : ptr) (x : tcb) : tcb :=
  {| t_sp := t_sp x; t_state := t_state x; t_base_priority :=
     t_base_priority x; t_effective_priority := t_effective_priority x;
     t_stack_base := t_stack_base x; t_stack_size := t_stack_size x;
     t_next := v; t_name := t_name x; t_function := t_function x; t_args
     := t_args x; t_unprivileged := t_unprivileged x; t_wake_tick :=
     t_wake_tick x; t_waiting_on := t_waiting_on x; t_waiting_on_type :=
     t_waiting_on_type x; t_owned_mutexes := t_owned_mutexes x |}.
Definition set_t_name (v : ptr) (x : tcb) : tcb :=
  {| t_sp := t_sp x; t_state := t_state x; t_base_priority :=
     t_base_priority x; t_effective_priority := t_effective_priority x;
     t_stack_base := t_stack_base x; t_stack_size := t_stack_size x;
     t_next := t_next x; t_name := v; t_function := t_function x; t_args
     := t_args x; t_unprivileged := t_unprivileged x; t_wake_tick :=
     t_wake_tick x; t_waiting_on := t_waiting_on x; t_waiting_on_type :=
     t_waiting_on_type x; t_owned_mutexes := t_owned_mutexes x |}.
Definition set_t_function (v : ptr) (x : tcb) : tcb :=
  {| t_sp := t_sp x; t_state := t_state x; t_base_priority :=
     t_base_priority x; t_effective_priority := t_effective_priority x;
     t_stack_base := t_stack_base x; t_stack_size := t_stack_size x;
     t_next := t_next x; t_name := t_name x; t_function := v; t_args :=
     t_args x; t_unprivileged := t_unprivileged x; t_wake_tick :=
     t_wake_tick x; t_waiting_on := t_waiting_on x; t_waiting_on_type :=
     t_waiting_on_type x; t_owned_mutexes := t_owned_mutexes x |}.
Definition set_t_args (v : ptr) (x : tcb) : tcb :=
  {| t_sp := t_sp x; t_state := t_state x; t_base_priority :=
     t_base_priority x; t_effective_priority := t_effective_priority x;
     t_stack_base := t_stack_base x; t_stack_size := t_stack_size x;
     t_next := t_next x; t_name := t_name x; t_function := t_function x;
     t_args := v; t_unprivileged := t_unprivileged x; t_wake_tick :=
     t_wake_tick x; t_waiting_on := t_waiting_on x; t_waiting_on_type :=
     t_waiting_on_type x; t_owned_mutexes := t_owned_mutexes x |}.
Definition set_t_unprivileged (v : Z) (x : tcb) : tcb :=
  {| t_sp := t_sp x; t_state := t_state x; t_base_priority :=
     t_base_priority x; t_effective_priority := t_effective_priority x;
     t_stack_base := t_stack_base x; t_stack_size := t_stack_size x;
     t_next := t_next x; t_name := t_name x; t_function := t_function x;
     t_args := t_args x; t_unprivileged := v; t_wake_tick := t_wake_tick
     x; t_waiting_on := t_waiting_on x; t_waiting_on_type :=
     t_waiting_on_type x; t_owned_mutexes := t_owned_mutexes x |}.
Definition set_t_wake_tick (v : Z) (x : tcb) : tcb :=
  {| t_sp := t_sp x; t_state := t_state x; t_base_priority :=
     t_base_priority x; t_effective_priority := t_effective_priority x;
     t_stack_base := t_stack_base x; t_stack_size := t_stack_size x;
     t_next := t_next x; t_name := t_name x; t_function := t_function x;
     t_args := t_args x; t_unprivileged := t_unprivileged x; t_wake_tick
     := v; t_waiting_on := t_waiting_on x; t_waiting_on_type :=
     t_waiting_on_type x; t_owned_mutexes := t_owned_mutexes x |}.
Definition set_t_waiting_on (v : ptr) (x : tcb) : tcb :=
  {| t_sp := t_sp x; t_state := t_state x; t_base_priority :=
     t_base_priority x; t_effective_priority := t_effective_priority x;
     t_stack_base := t_stack_base x; t_stack_size := t_stack_size x;
     t_next := t_next x; t_name := t_name x; t_function := t_function x;
     t_args := t_args x; t_unprivileged := t_unprivileged x; t_wake_tick
     := t_wake_tick x; t_waiting_on := v; t_waiting_on_type :=
     t_waiting_on_type x; t_owned_mutexes := t_owned_mutexes x |}.
Definition set_t_waiting_on_type (v : wait_type) (x : tcb) : tcb :=
  {| t_sp := t_sp x; t_state := t_state x; t_base_priority :=
     t_base_priority x; t_effective_priority := t_effective_priority x;
     t_stack_base := t_stack_base x; t_stack_size := t_stack_size x;
     t_next := t_next x; t_name := t_name x; t_function := t_function x;
     t_args := t_args x; t_unprivileged := t_unprivileged x; t_wake_tick
     := t_wake_tick x; t_waiting_on := t_waiting_on x; t_waiting_on_type
     := v; t_owned_mutexes := t_owned_mutexes x |}.
Definition set_t_owned_mutexes (v : ptr) (x : tcb) : tcb :=
  {| t_sp := t_sp x; t_state := t_state x; t_base_priority :=
     t_base_priority x; t_effective_priority := t_effective_priority x;
     t_stack_base := t_stack_base x; t_stack_size := t_stack_size x;
     t_next := t_next x; t_name := t_name x; t_function := t_function x;
     t_args := t_args x; t_unprivileged := t_unprivileged x; t_wake_tick
     := t_wake_tick x; t_waiting_on := t_waiting_on x; t_waiting_on_type
     := t_waiting_on_type x; t_owned_mutexes := v |}.

Record semaphore : Type := MkSem {
  s_count : Z; (* uint32_t *)
  s_wait_queue : tcb_list;
  s_references : Z; (* uint32_t *)
  s_state : sem_state;
}.

Definition set_s_count (v : Z) (x : semaphore) : semaphore :=
  {| s_count := v; s_wait_queue := s_wait_queue x; s_references :=
     s_references x; s_state := s_state x |}.
Definition set_s_wait_queue (v : tcb_list) (x : semaphore) : semaphore :=
  {| s_count := s_count x; s_wait_queue := v; s_references := s_references
     x; s_state := s_state x |}.
Definition set_s_references (v : Z) (x : semaphore) : semaphore :=
  {| s_count := s_count x; s_wait_queue := s_wait_queue x; s_references :=
     v; s_state := s_state x |}.
Definition set_s_state (v : sem_state) (x : semaphore) : semaphore :=
  {| s_count := s_count x; s_wait_queue := s_wait_queue x; s_references :=
     s_references x; s_state := v |}.

Record mutex : Type := MkMutex {
  m_owner : ptr;
  m_wait_queue : tcb_list;
  m_state : sem_state;
  m_next_owned : ptr;
}.

Definition set_m_owner (v : ptr) (x : mutex) : mutex :=
  {| m_owner := v; m_wait_queue := m_wait_queue x; m_state := m_state x;
     m_next_owned := m_next_owned x |}.
Definition set_m_wait_queue (v : tcb_list) (x : mutex) : mutex :=
  {| m_owner := m_owner x; m_wait_queue := v; m_state := m_state x;
     m_next_owned := m_next_owned x |}.
Definition set_m_state (v : sem_state) (x : mutex) : mutex :=
  {| m_owner := m_owner x; m_wait_queue := m_wait_queue x; m_state := v;
     m_next_owned := m_next_owned x |}.
Definition set_m_next_owned (v : ptr) (x : mutex) : mutex :=
  {| m_owner := m_owner x; m_wait_queue := m_wait_queue x; m_state :=
     m_state x; m_next_owned := v |}.

(** ** The kernel state *)

Record kstate : Type := MkK {
  tasks : gmap ptr tcb; (* every tcb_t, by address *)
  sems : gmap ptr semaphore; (* every semaphore_t *)
  mutexes : gmap ptr mutex; (* every mutex_t *)
  ready_queue : tcb_list; (* scheduler.c *)
  sleep_list : tcb_list; (* sleep.c *)
  current_task : ptr;
  next_task : ptr;
  system_ticks : Z; (* uint32_t *)
  primask : Z; (* PRIMASK register *)
  icsr : Z; (* SCB->ICSR *)
  ipsr : Z; (* IPSR register *)
  stack_mem : gmap Z Z; (* words of task_stacks *)
}.

Definition set_tasks (v : gmap ptr tcb) (x : kstate) : kstate :=
  {| tasks := v; sems := sems x; mutexes := mutexes x; ready_queue :=
     ready_queue x; sleep_list := sleep_list x; current_task :=
     current_task x; next_task := next_task x; system_ticks :=
     system_ticks x; primask := primask x; icsr := icsr x; ipsr := ipsr x;
     stack_mem := stack_mem x |}.
Definition set_sems (v : gmap ptr semaphore) (x : kstate) : kstate :=
  {| tasks := tasks x; sems := v; mutexes := mutexes x; ready_queue :=
     ready_queue x; sleep_list := sleep_list x; current_task :=
     current_task x; next_task := next_task x; system_ticks :=
     system_ticks x; primask := primask x; icsr := icsr x; ipsr := ipsr x;
     stack_mem := stack_mem x |}.
Definition set_mutexes (v : gmap ptr mutex) (x : kstate) : kstate :=
  {| tasks := tasks x; sems := sems x; mutexes := v; ready_queue :=
     ready_queue x; sleep_list := sleep_list x; current_task :=
     current_task x; next_task := next_task x; system_ticks :=
     system_ticks x; primask := primask x; icsr := icsr x; ipsr := ipsr x;
     stack_mem := stack_mem x |}.
Definition set_ready_queue (v : tcb_list) (x : kstate) : kstate :=
  {| tasks := tasks x; sems := sems x; mutexes := mutexes x; ready_queue
     := v; sleep_list := sleep_list x; current_task := current_task x;
     next_task := next_task x; system_ticks := system_ticks x; primask :=
     primask x; icsr := icsr x; ipsr := ipsr x; stack_mem := stack_mem x
     |}.
Definition set_sleep_list (v : tcb_list) (x : kstate) : kstate :=
  {| tasks := tasks x; sems := sems x; mutexes := mutexes x; ready_queue
     := ready_queue x; sleep_list := v; current_task := current_task x;
     next_task := next_task x; system_ticks := system_ticks x; primask :=
     primask x; icsr := icsr x; ipsr := ipsr x; stack_mem := stack_mem x
     |}.
Definition set_current_task (v : ptr) (x : kstate) : kstate :=
  {| tasks := tasks x; sems := sems x; mutexes := mutexes x; ready_queue
     := ready_queue x; sleep_list := sleep_list x; current_task := v;
     next_task := next_task x; system_ticks := system_ticks x; primask :=
     primask x; icsr := icsr x; ipsr := ipsr x; stack_mem := stack_mem x
     |}.
Definition set_next_task (v : ptr) (x : kstate) : kstate :=
  {| tasks := tasks x; sems := sems x; mutexes := mutexes x; ready_queue
     := ready_queue x; sleep_list := sleep_list x; current_task :=
     current_task x; next_task := v; system_ticks := system_ticks x;
     primask := primask x; icsr := icsr x; ipsr := ipsr x; stack_mem :=
     stack_mem x |}.
Definition set_system_ticks (v : Z) (x : kstate) : kstate :=
  {| tasks := tasks x; sems := sems x; mutexes := mutexes x; ready_queue
     := ready_queue x; sleep_list := sleep_list x; current_task :=
     current_task x; next_task := next_task x; system_ticks := v; primask
     := primask x; icsr := icsr x; ipsr := ipsr x; stack_mem := stack_mem
     x |}.
Definition set_primask (v : Z) (x : kstate) : kstate :=
  {| tasks := tasks x; sems := sems x; mutexes := mutexes x; ready_queue
     := ready_queue x; sleep_list := sleep_list x; current_task :=
     current_task x; next_task := next_task x; system_ticks :=
     system_ticks x; primask := v; icsr := icsr x; ipsr := ipsr x;
     stack_mem := stack_mem x |}.
Definition set_icsr (v : Z) (x : kstate) : kstate :=
  {| tasks := tasks x; sems := sems x; mutexes := mutexes x; ready_queue
     := ready_queue x; sleep_list := sleep_list x; current_task :=
     current_task x; next_task := next_task x; system_ticks :=
     system_ticks x; primask := primask x; icsr := v; ipsr := ipsr x;
     stack_mem := stack_mem x |}.
Definition set_ipsr (v : Z) (x : kstate) : kstate :=
  {| tasks := tasks x; sems := sems x; mutexes := mutexes x; ready_queue
     := ready_queue x; sleep_list := sleep_list x; current_task :=
     current_task x; next_task := next_task x; system_ticks :=
     system_ticks x; primask := primask x; icsr := icsr x; ipsr := v;
     stack_mem := stack_mem x |}.
Definition set_stack_mem (v : gmap Z Z) (x : kstate) : kstate :=
  {| tasks := tasks x; sems := sems x; mutexes := mutexes x; ready_queue
     := ready_queue x; sleep_list := sleep_list x; current_task :=
     current_task x; next_task := next_task x; system_ticks :=
     system_ticks x; primask := primask x; icsr := icsr x; ipsr := ipsr x;
     stack_mem := v |}.

Abbreviation K := (prog kstate).

(** ** Field access: [task->f], [sem->f], [m->f] *)

Definition rd_task {A} (x : ptr) (f : tcb -> A) : K A :=
  fetch (fun s => f <$> tasks s !! x).
Definition upd_task (x : ptr) (f : tcb -> tcb) : K unit :=
  t ← fetch (fun s => tasks s !! x);
  modify (fun s => set_tasks (<[x := f t]> (tasks s)) s).
Definition rd_sem {A} (p : ptr) (f : semaphore -> A) : K A :=
  fetch (fun s => f <$> sems s !! p).
Definition upd_sem (p : ptr) (f : semaphore -> semaphore) : K unit :=
  v ← fetch (fun s => sems s !! p);
  modify (fun s => set_sems (<[p := f v]> (sems s)) s).
Definition rd_mutex {A} (p : ptr) (f : mutex -> A) : K A :=
  fetch (fun s => f <$> mutexes s !! p).
Definition upd_mutex (p : ptr) (f : mutex -> mutex) : K unit :=
  v ← fetch (fun s => mutexes s !! p);
  modify (fun s => set_mutexes (<[p := f v]> (mutexes s)) s).

(** ** Interrupt masking (arm.h) *)

(** [mrs primask; cpsid i] *)
Definition irq_save : K Z :=
  p ← gets primask;
  modify (set_primask 1);;
  mret p.
(** [msr primask] *)
Definition irq_restore (p : Z) : K unit := modify (set_primask p).

(** ** The queues a [tcb_list_t *] can point to *)

Inductive qref := QReady | QSleep | QSem (p : ptr) | QMutex (p : ptr).

#[export] Instance qref_eq_dec : EqDecision qref.
Proof. solve_decision. Defined.

Definition load_list (r : qref) (s : kstate) : option tcb_list :=
  match r with
  | QReady => Some (ready_queue s)
  | QSleep => Some (sleep_list s)
  | QSem p => s_wait_queue <$> sems s !! p
  | QMutex p => m_wait_queue <$> mutexes s !! p
  end.

Definition store_list (r : qref) (q : tcb_list) (s : kstate) : kstate :=
  match r with
  | QReady => set_ready_queue q s
  | QSleep => set_sleep_list q s
  | QSem p => set_sems (alter (set_s_wait_queue q) p (sems s)) s
  | QMutex p => set_mutexes (alter (set_m_wait_queue q) p (mutexes s)) s
  end.

(** A queue routine sees the tcbs and the one list it is called on. *)
Definition qenv : Type := gmap ptr tcb * tcb_list.
Abbreviation QM := (prog qenv).

(** Calls a queue routine on [&r]. *)
Definition on_queue {A} (r : qref) (m : QM A) : K A := fun s =>
  match load_list r s with
  | None => Trap Fault
  | Some q =>
      match m (tasks s, q) with
      | Ok (a, (T', q')) => Ok (a, store_list r q' (set_tasks T' s))
      | Trap e => Trap e
      end
  end.
