(* ===== verification/Queue.v ===== *)
(** * Intrusive task queues ([scheduler.c], [sleep.c])

    The list routines the scheduler, the sleep list, the semaphores and the
    mutexes share, as the code writes them (pointer surgery on [t_next],
    [q_head], [q_tail]), and their specification as operations on lists of
    tasks. *)
From S2P Require Import Prelude KState.

(** ** The code *)

(** [x->f] and [x->f = v] inside a queue routine. *)
Definition rd {A} (x : ptr) (f : tcb -> A) : QM A :=
  fetch (fun e => f <$> e.1 !! x).
Definition wr (x : ptr) (g : tcb -> tcb) : QM unit :=
  t ← fetch (fun e : qenv => e.1 !! x);
  modify (fun e => (<[x := g t]> e.1, e.2)).
Definition rd_head : QM ptr := gets (fun e => q_head e.2).
Definition rd_tail : QM ptr := gets (fun e => q_tail e.2).
Definition wr_head (p : ptr) : QM unit :=
  modify (fun e => (e.1, TcbList p (q_tail e.2))).
Definition wr_tail (p : ptr) : QM unit :=
  modify (fun e => (e.1, TcbList (q_head e.2) p)).

(** A walk visits each task at most once, so the number of tasks bounds it. *)
Definition walk_fuel : QM nat := gets (fun e : qenv => S (size e.1)).

Definition queue_pop : QM ptr :=
  ret ← rd_head;
  if ret =? NULL then mret NULL
  else
    n ← rd ret t_next;
    wr_head n;;
    h ← rd_head;
    whenb (h =? NULL) (wr_tail NULL);;
    wr ret (set_t_next NULL);;
    mret ret.

Definition queue_push (task : ptr) : QM unit :=
  tl ← rd_tail;
  if tl =? NULL then wr_tail task;; wr_head task
  else wr tl (set_t_next task);; wr_tail task.

(** [priority_queue_push] and [sleep_queue_push] differ only in the field
    that orders the queue. *)
Section keyed_push.
Variable key : tcb -> Z.

(** [while (current->next != 0 && current->next->key <= task->key)
     current = current->next;] *)
Fixpoint push_scan (fuel : nat) (task current : ptr) : QM ptr :=
match fuel with
| O => raise Diverge
| S fuel =>
    n ← rd current t_next;
    if n =? NULL then mret current
    else
      kn ← rd n key;
      kt ← rd task key;
      if kn <=? kt then push_scan fuel task n else mret current
end.

Definition keyed_push (task : ptr) : QM unit :=
wr task (set_t_next NULL);;
h ← rd_head;
if h =? NULL then wr_head task;; wr_tail task
else
  kt ← rd task key;
  kh ← rd h key;
  if kt <? kh then wr task (set_t_next h);; wr_head task
  else
    fuel ← walk_fuel;
    current ← push_scan fuel task h;
    n ← rd current t_next;
    wr task (set_t_next n);;
    wr current (set_t_next task);;
    n' ← rd task t_next;
    whenb (n' =? NULL) (wr_tail task).
End keyed_push.

Definition priority_queue_push (task : ptr) : QM unit :=
  keyed_push t_effective_priority task.

Definition sleep_queue_push (task : ptr) : QM unit :=
  keyed_push t_wake_tick task.

Definition priority_queue_pop : QM ptr :=
  task ← rd_head;
  if task =? NULL then mret NULL
  else
    n ← rd task t_next;
    wr_head n;;
    h ← rd_head;
    whenb (h =? NULL) (wr_tail NULL);;
    wr task (set_t_next NULL);;
    mret task.

(** [while (prev->next != 0) ...] *)
Fixpoint remove_scan (fuel : nat) (task prev : ptr) : QM unit :=
  match fuel with
  | O => raise Diverge
  | S fuel =>
      n ← rd prev t_next;
      if n =? NULL then mret tt
      else if n =? task then
        n' ← rd task t_next;
        wr prev (set_t_next n');;
        tl ← rd_tail;
        whenb (tl =? task) (wr_tail prev);;
        wr task (set_t_next NULL)
      else remove_scan fuel task n
  end.

Definition priority_queue_remove (task : ptr) : QM unit :=
  h ← rd_head;
  if h =? NULL then mret tt
  else if h =? task then
    n ← rd task t_next;
    wr_head n;;
    tl ← rd_tail;
    whenb (tl =? task) (wr_tail NULL);;
    wr task (set_t_next NULL)
  else
    fuel ← walk_fuel;
    remove_scan fuel task h.

Definition priority_queue_reoder (task : ptr) : QM unit :=
  priority_queue_remove task;;
  priority_queue_push task.

(** ** Representation *)

(** The links from [p] visit exactly [l] and then reach [e]. *)
Fixpoint lseg (T : gmap ptr tcb) (p : ptr) (l : list ptr) (e : ptr) : Prop :=
  match l with
  | [] => p = e
  | x :: l' =>
      p = x /\ x <> NULL /\ exists t, T !! x = Some t /\ lseg T (t_next t) l' e
  end.

Definition queue_rep (T : gmap ptr tcb) (q : tcb_list) (l : list ptr) : Prop :=
  lseg T (q_head q) l NULL /\ q_tail q = List.last l NULL /\ NoDup l.

(** A tcb without its link. *)
Definition strip (t : tcb) : tcb := set_t_next NULL t.

(** [T'] differs from [T] only in the links of tasks of [L]. *)
Definition links_only (L : list ptr) (T T' : gmap ptr tcb) : Prop :=
  strip <$> T' = strip <$> T /\ (forall x, x ∉ L -> T' !! x = T !! x).

(** Ordered insertion behind equal keys, and removal, on lists. *)
Fixpoint ins (k : ptr -> Z) (x : ptr) (l : list ptr) : list ptr :=
  match l with
  | [] => [x]
  | y :: l' => if k y <=? k x then y :: ins k x l' else x :: l
  end.

Definition del (x : ptr) (l : list ptr) : list ptr := filter (fun y => y <> x) l.

Arguments del : simpl never.

Definition key_of (key : tcb -> Z) (T : gmap ptr tcb) (x : ptr) : Z :=
  default 0 (key <$> T !! x).

(** ** Stepping through the code *)

Section steps.
Implicit Types (T : gmap ptr tcb) (q : tcb_list).

Lemma rd_ok {A} T q x t (f : tcb -> A) :
  T !! x = Some t -> rd x f (T, q) = Ok (f t, (T, q)).
Proof. intros E. unfold rd, fetch. cbn. by rewrite E. Qed.

Lemma wr_ok T q x t g :
  T !! x = Some t -> wr x g (T, q) = Ok (tt, (<[x := g t]> T, q)).
Proof.
  intros E. unfold wr, mbind, prog_bind, fetch. cbn. by rewrite E.
Qed.
End steps.

(** One statement of a queue routine. *)
Ltac qstep :=
  unfold mbind, prog_bind, rd_head, rd_tail, wr_head, wr_tail, walk_fuel,
    gets, modify, whenb, mret, prog_ret; cbn [fst snd q_head q_tail];
  repeat first
    [ erewrite rd_ok by (simplify_map_eq; reflexivity); cbn [fst snd q_head q_tail]
    | erewrite wr_ok by (simplify_map_eq; reflexivity); cbn [fst snd q_head q_tail] ].

(** ** List segments *)

Section segments.
Implicit Types (T : gmap ptr tcb) (l : list ptr).

Lemma lseg_app T p l1 l2 e :
  lseg T p (l1 ++ l2) e <-> exists m, lseg T p l1 m /\ lseg T m l2 e.
Proof.
  revert p. induction l1 as [|x l1 IH]; intros p; cbn.
  - split; [eauto|]. by intros (m & -> & ?).
  - split.
    + intros (-> & ? & t & ? & (m & ? & ?)%IH). exists m. eauto 10.
    + intros (m & (-> & ? & t & ? & ?) & ?). split_and!; [done..|].
      exists t. split; [done|]. apply IH. eauto.
Qed.

Lemma lseg_ext T T' p l e :
  (forall x, x ∈ l -> t_next <$> T !! x = t_next <$> T' !! x) ->
  lseg T p l e -> lseg T' p l e.
Proof.
  revert p. induction l as [|x l IH]; intros p Hext; [done|].
  intros (-> & ? & t & Ht & Hl). split_and!; [done..|].
  pose proof (Hext x ltac:(set_solver)) as Hx. rewrite Ht in Hx. cbn in Hx.
  destruct (T' !! x) as [t'|] eqn:E; [|done]. injection Hx as Hx.
  exists t'. split; [done|]. rewrite <- Hx.
  apply IH; [|done]. intros y ?. apply Hext. set_solver.
Qed.

Lemma lseg_insert T p l e x t :
  x ∉ l -> lseg T p l e -> lseg (<[x := t]> T) p l e.
Proof.
  intros Hx. apply lseg_ext. intros y Hy.
  rewrite lookup_insert_ne; [done|]. by intros ->.
Qed.

Lemma lseg_elem T p l e x :
  lseg T p l e -> x ∈ l -> x <> NULL /\ is_Some (T !! x).
Proof.
  revert p. induction l as [|y l IH]; intros p; [set_solver|].
  intros (-> & ? & t & ? & Hl) [->|?]%elem_of_cons; [eauto|].
  by eapply IH.
Qed.

Lemma lseg_null T p l : lseg T p l NULL -> p = NULL <-> l = [].
Proof. destruct l; cbn; [naive_solver|]. intros (-> & ? & _). naive_solver. Qed.

Lemma lseg_length T p l e :
  lseg T p l e -> NoDup l -> (length l <= size T)%nat.
Proof.
  intros Hl Hnd. rewrite <- size_dom. apply NoDup_length_subset; [done|].
  intros x Hx. apply elem_of_dom. by apply (lseg_elem _ _ _ _ _ Hl).
Qed.
End segments.

Section links.
Implicit Types (T : gmap ptr tcb) (L : list ptr).

#[export] Instance links_only_refl L : Reflexive (links_only L).
Proof. by split. Qed.

#[export] Instance links_only_trans L : Transitive (links_only L).
Proof.
  intros T1 T2 T3 [E1 F1] [E2 F2]. split; [congruence|].
  intros x Hx. by rewrite F2, F1.
Qed.

Lemma links_only_set L T x t p :
  T !! x = Some t -> x ∈ L -> links_only L T (<[x := set_t_next p t]> T).
Proof.
  intros Ht Hx. split.
  - rewrite fmap_insert. apply insert_id. by rewrite lookup_fmap, Ht.
  - intros y Hy. rewrite lookup_insert_ne; [done|]. by intros ->.
Qed.

Lemma links_only_weaken L L' T T' :
  (forall x, x ∈ L -> x ∈ L') -> links_only L T T' -> links_only L' T T'.
Proof. intros Hsub [E F]. split; [done|]. intros x Hx. apply F. auto. Qed.

Lemma links_only_lookup L T T' x t :
  links_only L T T' -> T !! x = Some t ->
  exists t', T' !! x = Some t' /\ strip t' = strip t.
Proof.
  intros [E _] Ht. pose proof (f_equal (.!! x) E) as Ex.
  rewrite !lookup_fmap, Ht in Ex. destruct (T' !! x) as [t'|]; [|done].
  apply (inj Some) in Ex. eauto.
Qed.
End links.

(** ** FIFO routines *)

Section fifo.
Implicit Types (T : gmap ptr tcb) (q : tcb_list) (l : list ptr).

Lemma queue_rep_nil T q : queue_rep T q [] <-> q = empty_list.
Proof.
  unfold queue_rep. destruct q as [h tl]; cbn. split.
  - by intros (-> & -> & _).
  - intros [= -> ->]. by repeat constructor.
Qed.

Lemma queue_rep_head T q x l : queue_rep T q (x :: l) -> q_head q = x /\ x <> NULL.
Proof. by intros ((? & ? & _) & _). Qed.

Lemma queue_rep_elem T q l x :
  queue_rep T q l -> x ∈ l -> x <> NULL /\ is_Some (T !! x).
Proof. intros [Hl _] Hx. by apply (lseg_elem _ _ _ _ _ Hl). Qed.

Lemma queue_rep_frame L T T' q l :
  links_only L T T' -> (forall x, x ∈ l -> x ∉ L) ->
  queue_rep T q l -> queue_rep T' q l.
Proof.
  intros [_ F] Hd (Hl & ? & ?). split_and!; [|done..].
  eapply lseg_ext; [|done]. intros x Hx. by rewrite F by auto.
Qed.

(** Popping takes the head, unlinks it and keeps the rest. *)
Lemma pop_cons T q x l :
  queue_rep T q (x :: l) ->
  exists T' q', queue_pop (T, q) = Ok (x, (T', q')) /\
    queue_rep T' q' l /\ links_only [x] T T' /\
    t_next <$> T' !! x = Some NULL.
Proof.
  intros ((Hh & Hx & t & Ht & Hl) & Htl & Hnd).
  destruct q as [h tl]; cbn in *. subst h.
  assert (x ∉ l) as Hxl by (by apply NoDup_cons in Hnd as [? _]).
  assert (NoDup l) by (by apply NoDup_cons in Hnd as [_ ?]).
  exists (<[x := set_t_next NULL t]> T),
    (TcbList (t_next t) (if t_next t =? NULL then NULL else tl)).
  split_and!.
  - unfold queue_pop. qstep. rewrite (proj2 (Z.eqb_neq _ _) Hx). qstep.
    destruct (t_next t =? NULL); qstep; done.
  - unfold queue_rep; cbn. split_and!; [by apply lseg_insert| |done].
    destruct (Z.eqb_spec (t_next t) NULL) as [E|E].
    + by rewrite (proj1 (lseg_null _ _ _ Hl) E).
    + destruct l as [|y l]; [by destruct E|].
      exact Htl.
  - apply links_only_set; set_solver.
  - by simplify_map_eq.
Qed.

Lemma pop_nil T q :
  queue_rep T q [] -> queue_pop (T, q) = Ok (NULL, (T, q)).
Proof. by intros ->%queue_rep_nil. Qed.

(** [priority_queue_pop] is the same code. *)
Lemma priority_queue_pop_eq : priority_queue_pop = queue_pop.
Proof. done. Qed.

Lemma push_snoc T q l x t :
  queue_rep T q l -> T !! x = Some t -> t_next t = NULL -> x <> NULL -> x ∉ l ->
  exists T' q', queue_push x (T, q) = Ok (tt, (T', q')) /\
    queue_rep T' q' (l ++ [x]) /\ links_only (x :: l) T T' /\
    T' !! x = Some t.
Proof.
  intros (Hl & Htl & Hnd) Ht Hn Hx Hxl. destruct q as [h tl]; cbn in *.
  assert (NoDup (l ++ [x])) as Hnd'.
  { apply NoDup_snoc. done. }
  destruct (exists_last_or_nil l) as [->|(l1 & d & ->)]; cbn in *.
  - subst. exists T, (TcbList x x). split; [done|]. split; [|done].
    unfold queue_rep; cbn. split; [|done]. eauto 10.
  - rewrite last_last in Htl. subst tl.
    apply lseg_app in Hl as (m & Hl1 & (-> & Hd & td & Htd & Hnil)). cbn in Hnil.
    assert (x <> d) by set_solver.
    assert (d ∉ l1) by (by apply NoDup_snoc in Hnd as [_ ?]).
    exists (<[d := set_t_next x td]> T), (TcbList h x). split_and!.
    + unfold queue_push. qstep. rewrite (proj2 (Z.eqb_neq _ _) Hd). by qstep.
    + unfold queue_rep; cbn. rewrite last_last. split_and!; [|done..].
      apply lseg_app. exists x. split.
      * apply lseg_app. exists d. split; [by apply lseg_insert|].
        cbn. split_and!; [done..|]. exists (set_t_next x td).
        by simplify_map_eq.
      * cbn. split_and!; [done..|]. exists t. by simplify_map_eq.
    + apply links_only_set; set_solver.
    + by simplify_map_eq.
Qed.
End fifo.

(** ** Ordered insertion and removal on lists *)

Section dels.
Implicit Types (l : list ptr) (x : ptr).

Lemma elem_of_del x y l : y ∈ del x l <-> y <> x /\ (y ∈ l).
Proof. unfold del. by rewrite list_elem_of_filter. Qed.

Lemma NoDup_del x l : NoDup l -> NoDup (del x l).
Proof. apply NoDup_filter. Qed.

Lemma del_notin x l : x ∉ l -> del x l = l.
Proof.
  unfold del. induction l as [|y l IH]; intros Hx; [done|].
  rewrite filter_cons_True by set_solver. f_equal. apply IH. set_solver.
Qed.

Lemma del_mid x l1 l2 : x ∉ l1 -> x ∉ l2 -> del x (l1 ++ x :: l2) = l1 ++ l2.
Proof.
  intros. unfold del. rewrite filter_app, filter_cons_False by naive_solver.
  fold (del x l1) (del x l2). by rewrite !del_notin.
Qed.

End dels.

Section ins_del.
Variable k : ptr -> Z.
Implicit Types (l : list ptr) (x : ptr).

Lemma ins_perm x l : ins k x l ≡ₚ x :: l.
Proof.
  induction l as [|y l IH]; cbn; [done|].
  destruct (k y <=? k x); [|done]. rewrite IH. apply Permutation_swap.
Qed.

Lemma elem_of_ins x y l : y ∈ ins k x l <-> y = x \/ y ∈ l.
Proof. rewrite (ins_perm x l). apply elem_of_cons. Qed.

Lemma NoDup_ins x l : x ∉ l -> NoDup l -> NoDup (ins k x l).
Proof. intros. rewrite (ins_perm x l). by constructor. Qed.

(** The queue stays ordered. *)
Definition ordered : list ptr -> Prop := StronglySorted (fun x y => k x <= k y).

Lemma ordered_ins x l : ordered l -> ordered (ins k x l).
Proof.
  unfold ordered. induction l as [|y l IH]; cbn; intros Hs.
  - repeat constructor.
  - inversion Hs as [|? ? Hs' Hall]; subst. destruct (Z.leb_spec (k y) (k x)).
    + constructor; [by apply IH|]. apply Forall_forall. intros z Hz.
      apply elem_of_ins in Hz as [->|Hz]; [done|].
      by apply (proj1 (Forall_forall _ _) Hall).
    + constructor; [done|]. constructor; [lia|].
      eapply Forall_impl; [done|]. cbn. lia.
Qed.

(** Every task with the same key that was queued stays in front. *)
Lemma ins_behind x l :
  ordered l ->
  exists l1 l2, l = l1 ++ l2 /\ ins k x l = l1 ++ x :: l2 /\
    Forall (fun y => k y <= k x) l1 /\ Forall (fun y => k x < k y) l2.
Proof.
  unfold ordered. induction l as [|y l IH]; cbn; intros Hs.
  - by exists [], [].
  - inversion Hs as [|? ? Hs' Hall]; subst.
    destruct (Z.leb_spec (k y) (k x)).
    + destruct (IH Hs') as (l1 & l2 & -> & -> & ? & ?).
      exists (y :: l1), l2. split_and!; [done..| |done]. by constructor.
    + exists [], (y :: l). split_and!; [done..|]. constructor; [done|].
      eapply Forall_impl; [done|]. cbn. lia.
Qed.

Lemma ordered_del x l : ordered l -> ordered (del x l).
Proof.
  unfold ordered, del. induction 1 as [|y l Hs IH Hall]; [constructor|].
  rewrite filter_cons. case_decide; [|done]. constructor; [done|].
  apply Forall_forall. intros z [_ Hz]%list_elem_of_filter.
  by apply (proj1 (Forall_forall _ _) Hall).
Qed.
End ins_del.

Lemma ins_ext k k' x l :
  (forall y, y = x \/ y ∈ l -> k y = k' y) -> ins k x l = ins k' x l.
Proof.
  induction l as [|y l IH]; cbn; intros E; [done|].
  rewrite (E x), (E y), IH; [done|..]; set_solver.
Qed.

Lemma ordered_ext k k' l :
  (forall y, y ∈ l -> k y = k' y) -> ordered k l -> ordered k' l.
Proof.
  unfold ordered. intros E. induction 1 as [|y l Hs IH Hall]; [constructor|].
  constructor; [apply IH; set_solver|]. apply Forall_forall. intros z Hz.
  rewrite <- !E by set_solver. by apply (proj1 (Forall_forall _ _) Hall).
Qed.

(** ** Ordered push and removal implement them *)

Section keyed_push_spec.
Context (key : tcb -> Z) (key_strip : forall t, key (strip t) = key t).
Implicit Types (T : gmap ptr tcb) (q : tcb_list) (l : list ptr).

Lemma key_of_links L T T' x : links_only L T T' -> key_of key T' x = key_of key T x.
Proof using key_strip.
  intros [E _]. unfold key_of. pose proof (f_equal (.!! x) E) as Ex.
  rewrite !lookup_fmap in Ex.
  destruct (T' !! x) as [t'|], (T !! x) as [t|]; try done.
  apply (inj Some) in Ex. cbn. by rewrite <- key_strip, Ex, key_strip.
Qed.

(** The scan stops at the last task of the prefix that stays in front. *)
Lemma push_scan_spec T q x t c l fuel :
  lseg T c (c :: l) NULL -> T !! x = Some t -> (length l < fuel)%nat ->
  key_of key T c <= key t ->
  exists l1 d l2, c :: l = l1 ++ d :: l2 /\
    push_scan key fuel x c (T, q) = Ok (d, (T, q)) /\
    ins (key_of key T) x (c :: l) = l1 ++ d :: x :: l2.
Proof.
  intros Hseg Hx. revert c Hseg fuel. induction l as [|y l IH];
    intros c (_ & Hc & tc & Htc & Hl) fuel Hf Hk;
    (destruct fuel as [|fuel]; [cbn in Hf; lia|]).
  - cbn in Hl. exists [], c, []. split; [done|]. split.
    + cbn [push_scan]. qstep. by rewrite Hl.
    + cbn. unfold key_of at 2. rewrite Hx. cbn.
      by rewrite (proj2 (Z.leb_le _ _) Hk).
  - pose proof Hl as (Hn & Hy & ty & Hty & Hl'). rewrite Hn in Hl.
    assert (key_of key T x = key t) as Ekx by (unfold key_of; by rewrite Hx).
    assert (key_of key T y = key ty) as Eky by (unfold key_of; by rewrite Hty).
    cbn [push_scan]. qstep. rewrite Hn, (proj2 (Z.eqb_neq _ _) Hy). qstep.
    assert (forall ll, ins (key_of key T) x (c :: ll) =
      c :: ins (key_of key T) x ll) as Eins0.
    { intros ll. cbn. by rewrite Ekx, (proj2 (Z.leb_le _ _) Hk). }
    destruct (Z.leb_spec (key ty) (key t)) as [Hle|Hgt].
    + destruct (IH y Hl fuel ltac:(cbn in Hf; lia) ltac:(lia))
        as (l1 & d & l2 & El & Escan & Eins).
      exists (c :: l1), d, l2. rewrite El. split; [done|]. split; [done|].
      rewrite <- El, Eins0, Eins. done.
    + exists [], c, (y :: l). split; [done|]. split; [done|].
      rewrite Eins0. cbn. by rewrite Eky, Ekx, (proj2 (Z.leb_gt _ _) Hgt).
Qed.

Lemma lseg_splice T h l1 d l2 x t :
  lseg T h (l1 ++ d :: l2) NULL -> NoDup (l1 ++ d :: l2) ->
  x ∉ l1 ++ d :: l2 -> x <> NULL -> T !! x = Some t ->
  exists td, T !! d = Some td /\ lseg T (t_next td) l2 NULL /\
    lseg (<[d := set_t_next x td]> (<[x := set_t_next (t_next td) t]> T)) h
      (l1 ++ d :: x :: l2) NULL.
Proof.
  intros Hl (_ & Hd & Hnd)%NoDup_app Hx Hx0 Ht.
  apply lseg_app in Hl as (m & Hl1 & (-> & Hd0 & td & Htd & Hl2)).
  apply NoDup_cons in Hnd as [Hd2 _].
  assert (d ∉ l1) by (intros ?; by apply (Hd d); [|left]).
  assert (x <> d) by set_solver.
  exists td. split_and!; [done..|].
  apply lseg_app. exists d. split.
  - apply lseg_insert; [done|]. apply lseg_insert; [set_solver|done].
  - cbn. split_and!; [done..|]. exists (set_t_next x td).
    split; [by simplify_map_eq|]. split_and!; [done..|].
    exists (set_t_next (t_next td) t). split; [by simplify_map_eq|].
    apply lseg_insert; [done|]. apply lseg_insert; [set_solver|done].
Qed.

Lemma keyed_push_ok T q l x t :
  queue_rep T q l -> T !! x = Some t -> x <> NULL -> x ∉ l ->
  exists T' q', keyed_push key x (T, q) = Ok (tt, (T', q')) /\
    queue_rep T' q' (ins (key_of key T) x l) /\ links_only (x :: l) T T'.
Proof using key_strip.
  intros (Hl & Htl & Hnd) Ht Hx Hxl. destruct q as [h tl]; cbn in Hl, Htl.
  set (T1 := <[x := set_t_next NULL t]> T).
  assert (links_only (x :: l) T T1) as HL1 by (apply links_only_set; set_solver).
  assert (T1 !! x = Some (set_t_next NULL t)) as Ht1 by (by subst T1; simplify_map_eq).
  assert (lseg T1 h l NULL) as Hl1 by (by apply lseg_insert).
  assert (forall y, key_of key T1 y = key_of key T y) as Ek1.
  { intros y. by eapply key_of_links. }
  assert (NoDup (ins (key_of key T) x l)) as Hnd' by (by apply NoDup_ins).
  unfold keyed_push. erewrite prog_bind_ok by (by apply wr_ok). fold T1.
  destruct l as [|h' l].
  { cbn in Hl. subst h tl. exists T1, (TcbList x x). qstep.
    split; [done|]. split; [|done]. unfold queue_rep; cbn. eauto 10. }
  pose proof Hl1 as (Hh & Hh0 & th & Hth & Hl2). subst h'.
  qstep. rewrite (proj2 (Z.eqb_neq _ _) Hh0). qstep.
  assert (key_of key T x = key (set_t_next NULL t)) as Ekx.
  { unfold key_of. rewrite Ht. cbn. symmetry. apply (key_strip t). }
  assert (key_of key T h = key th) as Ekh by (rewrite <- Ek1; unfold key_of; by rewrite Hth).
  destruct (Z.ltb_spec (key (set_t_next NULL t)) (key th)) as [Hlt|Hge].
  { set (T2 := <[x := set_t_next h (set_t_next NULL t)]> T1).
    exists T2, (TcbList x tl). qstep. split; [done|].
    assert (ins (key_of key T) x (h :: l) = x :: h :: l) as Eins.
    { cbn. by rewrite Ekx, Ekh, (proj2 (Z.leb_gt _ _) Hlt). }
    rewrite Eins in *. split.
    - unfold queue_rep; cbn [q_head q_tail]. split_and!; [|done..].
      cbn [lseg]. split_and!; [done..|]. exists (set_t_next h (set_t_next NULL t)).
      split; [by subst T2; simplify_map_eq|].
      change (lseg T2 h (h :: l) NULL). by apply lseg_insert.
    - etrans; [exact HL1|]. apply links_only_set; [done|set_solver]. }
  destruct (push_scan_spec T1 (TcbList h tl) x (set_t_next NULL t) h l
    (S (size T1)) Hl1 Ht1) as (l1 & d & l2 & El & Escan & Eins).
  { apply lseg_length in Hl1; [|done]. cbn in Hl1. lia. }
  { rewrite Ek1, Ekh. lia. }
  qstep. rewrite Escan. rewrite (ins_ext _ (key_of key T)) in Eins by (intros; apply Ek1).
  rewrite El in *.
  destruct (lseg_splice T1 h l1 d l2 x (set_t_next NULL t)) as (td & Htd & Hl2' & Hl');
    [done..|].
  assert (x <> d) by set_solver.
  qstep. set (T' := <[d := set_t_next x td]> _) in *.
  exists T', (TcbList h (if t_next td =? NULL then x else tl)).
  split; [cbn; by destruct (t_next td =? NULL)|]. rewrite Eins in *. split.
  - unfold queue_rep; cbn [q_head q_tail]. split; [done|]. split; [|done].
    rewrite Htl, !last_app_cons, last_cons_cons.
    destruct (Z.eqb_spec (t_next td) NULL) as [E|E].
    + by rewrite (proj1 (lseg_null _ _ _ Hl2') E).
    + destruct l2 as [|z l2]; [by destruct E|]. by rewrite !last_cons_cons.
  - etrans; [exact HL1|]. subst T'. etrans; apply links_only_set.
    + exact Ht1.
    + set_solver.
    + by simplify_map_eq.
    + set_solver.
Qed.
End keyed_push_spec.

Section remove_spec.
Implicit Types (T : gmap ptr tcb) (q : tcb_list) (l : list ptr).

(** What the walk does when it meets [x] behind [d]. *)
Definition unlinked (x d : ptr) (tx td : tcb) (T : gmap ptr tcb) : gmap ptr tcb :=
  <[x := set_t_next NULL tx]> (<[d := set_t_next (t_next tx) td]> T).

Lemma remove_scan_spec T q x p l fuel :
  lseg T p (p :: l) NULL -> NoDup (p :: l) -> x <> p -> (length l < fuel)%nat ->
  ((x ∉ l) /\ remove_scan fuel x p (T, q) = Ok (tt, (T, q))) \/
  (exists l1 d l2 td tx, p :: l = l1 ++ d :: x :: l2 /\
    T !! d = Some td /\ T !! x = Some tx /\
    remove_scan fuel x p (T, q) = Ok (tt, (unlinked x d tx td T,
      TcbList (q_head q) (if q_tail q =? x then d else q_tail q)))).
Proof.
  revert p fuel. induction l as [|y l IH];
    intros p fuel (_ & Hp & tp & Htp & Hl) Hnd Hxp Hf;
    (destruct fuel as [|fuel]; [cbn in Hf; lia|]).
  - cbn in Hl. left. split; [set_solver|]. cbn [remove_scan]. qstep. by rewrite Hl.
  - pose proof Hl as (Hn & Hy & ty & Hty & Hl'). rewrite Hn in Hl.
    apply NoDup_cons in Hnd as [Hpy Hnd].
    cbn [remove_scan]. qstep. rewrite Hn, (proj2 (Z.eqb_neq _ _) Hy).
    destruct (Z.eqb_spec y x) as [->|Hyx].
    + right. exists [], p, l, tp, ty. split_and!; [done..|]. qstep.
      assert (x <> p) by set_solver.
      destruct q as [h tl]; cbn. destruct (tl =? x); cbn; by qstep.
    + destruct (IH y fuel Hl Hnd ltac:(done) ltac:(cbn in Hf; lia))
        as [[Hx E]|(l1 & d & l2 & td & tx & El & Hd & Htx & E)].
      * left. split; [set_solver|done].
      * right. exists (p :: l1), d, l2, td, tx. rewrite El. by split_and!.
Qed.

Lemma remove_ok T q l x :
  queue_rep T q l ->
  exists T' q', priority_queue_remove x (T, q) = Ok (tt, (T', q')) /\
    queue_rep T' q' (del x l) /\ links_only l T T' /\
    (x ∈ l -> t_next <$> T' !! x = Some NULL).
Proof.
  intros (Hl & Htl & Hnd). destruct q as [h tl]; cbn in Hl, Htl.
  unfold priority_queue_remove. qstep.
  destruct l as [|h' l].
  { cbn in Hl. subst h tl. cbn. exists T, empty_list. split; [done|].
    split; [by apply queue_rep_nil|]. split; [done|set_solver]. }
  pose proof Hl as (Hh & Hh0 & th & Hth & Hl2). subst h'.
  rewrite (proj2 (Z.eqb_neq _ _) Hh0).
  destruct (Z.eqb_spec h x) as [->|Hhx].
  { pose proof Hnd as [Hxl Hnd']%NoDup_cons.
    exists (<[x := set_t_next NULL th]> T),
      (TcbList (t_next th) (if tl =? x then NULL else tl)). split.
    { qstep. destruct (tl =? x); cbn; by qstep. }
    pose proof (del_mid x [] l ltac:(set_solver) Hxl) as Edel. cbn [app] in Edel.
    rewrite Edel. split.
    { unfold queue_rep; cbn [q_head q_tail]. split; [by apply lseg_insert|].
      split; [|done]. rewrite Htl. destruct l as [|y l].
      - cbn. by rewrite Z.eqb_refl.
      - rewrite last_cons_cons. destruct (Z.eqb_spec (List.last (y :: l) NULL) x) as [E|];
          [|done].
        destruct Hxl. rewrite <- E. apply list_elem_of_In, last_In. done. }
    split; [apply links_only_set; set_solver|]. intros _. by simplify_map_eq. }
  destruct (remove_scan_spec T (TcbList h tl) x h l (S (size T)) Hl Hnd)
    as [[Hx E]|(l1 & d & l2 & td & tx & El & Hd & Htx & E)]; [done| | |].
  { apply lseg_length in Hl; [|done]. cbn in Hl. lia. }
  { exists T, (TcbList h tl). split; [done|]. rewrite del_notin by set_solver.
    split; [done|]. split; [done|set_solver]. }
  rewrite El in *.
  assert ((x ∉ l1) /\ (x ∉ d :: l2) /\ (d ∉ l1) /\ (d ∉ l2)) as (Hx1 & Hx2 & Hd1 & Hd2).
  { apply NoDup_app in Hnd as (_ & Hd12 & Hnd). inversion Hnd as [|? ? H1 H2].
    inversion H2. set_solver. }
  assert (x <> d) by set_solver.
  pose proof Hl as (m & Hl1 & (-> & Hd0 & td' & Htd' & Hl3))%lseg_app.
  destruct Hl3 as (Ex & Hx0 & tx' & Htx' & Hl4).
  assert (td' = td) as -> by congruence. assert (tx' = tx) as -> by congruence.
  exists (unlinked x d tx td T), (TcbList h (if tl =? x then d else tl)).
  split; [exact E|].
  change (l1 ++ d :: x :: l2) with (l1 ++ [d] ++ x :: l2) in *. rewrite app_assoc in *.
  rewrite del_mid by set_solver. rewrite <- app_assoc. split; [|split].
  - unfold queue_rep; cbn [q_head q_tail]. split; [|split].
    + apply lseg_app. exists d. unfold unlinked. split.
      * do 2 (apply lseg_insert; [done|]). done.
      * cbn. split_and!; [done..|]. exists (set_t_next (t_next tx) td).
        split; [by simplify_map_eq|].
        apply lseg_insert; [set_solver|]. apply lseg_insert; [done|]. done.
    + subst tl. rewrite last_app_cons. cbn [app]. rewrite last_app_cons.
      destruct l2 as [|z l2]; [cbn; by rewrite Z.eqb_refl|].
      rewrite !last_cons_cons.
      destruct (Z.eqb_spec (List.last (z :: l2) NULL) x) as [E'|]; [|done].
      destruct Hx2. rewrite <- E'. right. apply list_elem_of_In, last_In. done.
    + apply NoDup_app in Hnd as (Hnd1 & Hnd2 & Hnd3). rewrite app_assoc.
      apply NoDup_app. split_and!; [done| |by inversion Hnd3]. set_solver.
  - unfold unlinked. etrans; apply links_only_set; [done|set_solver| |set_solver].
    by simplify_map_eq.
  - intros _. unfold unlinked. by simplify_map_eq.
Qed.
End remove_spec.
