(* ===== verification/Abs.v ===== *)
(** * The abstract kernel: queues as lists

    The pointer-linked queues of a kernel state are abstracted to lists of
    tasks; [Abs s a] says that the concrete state [s] represents the abstract
    one [a].  [runs a m v a'] is total correctness over that relation: from
    every state that represents [a] the code [m] ends, without a fault and
    within its fuel, with the value [v] in a state that represents [a'].  The
    lemmas give the effect of every primitive the kernel's code is made of. *)
From S2P Require Import Prelude KState Queue.

(** ** Abstract states *)

Definition strip_sem (v : semaphore) : semaphore := set_s_wait_queue empty_list v.
Definition strip_mutex (m : mutex) : mutex := set_m_wait_queue empty_list m.

(** A kernel state without its links, list heads and list tails. *)
Definition strip_k (s : kstate) : kstate :=
  set_tasks (strip <$> tasks s)
    (set_sems (strip_sem <$> sems s)
      (set_mutexes (strip_mutex <$> mutexes s)
        (set_ready_queue empty_list (set_sleep_list empty_list s)))).

(** The link-free part of the state, the contents of every queue, and the
    tasks that [sleep_queue_pop] took out without clearing their link. *)
Record aview : Type := AV {
  av : kstate;
  aq : qref -> list ptr;
  astale : gset ptr;
}.

Definition amap (g : kstate -> kstate) (a : aview) : aview :=
  AV (g (av a)) (aq a) (astale a).
Definition aset (r : qref) (l : list ptr) (a : aview) : aview :=
  AV (av a) (<[r := l]> (aq a)) (astale a).
Definition astale_set (X : gset ptr) (a : aview) : aview := AV (av a) (aq a) X.
(** [x] is in no queue. *)
Definition unqueued (x : ptr) (a : aview) : Prop := forall r, x ∉ aq a r.
(** [x] is in no queue and its link is clear. *)
Definition idle (x : ptr) (a : aview) : Prop := unqueued x a /\ x ∉ astale a.
Definition has_queue (r : qref) (a : aview) : Prop := is_Some (load_list r (av a)).

Record Abs (s : kstate) (a : aview) : Prop := {
  abs_strip : strip_k s = av a;
  abs_queue : forall r q, load_list r s = Some q -> queue_rep (tasks s) q (aq a r);
  abs_none : forall r, load_list r s = None -> aq a r = [];
  abs_disj : forall r1 r2 x, x ∈ aq a r1 -> x ∈ aq a r2 -> r1 = r2;
  abs_idle : forall x t, tasks s !! x = Some t -> idle x a -> t_next t = NULL;
  abs_null : tasks s !! NULL = None;
}.

(** Abstract states are compared queue by queue. *)
#[export] Instance aview_equiv : Equiv aview := fun a b =>
  av a = av b /\ (forall r, aq a r = aq b r) /\ astale a = astale b.
#[export] Instance aview_equivalence : Equivalence (≡@{aview}).
Proof.
  split.
  - by intros a.
  - intros a b (E1 & E2 & E3). by split.
  - intros a b c (E1 & E2 & E3) (E4 & E5 & E6).
    split_and!; [congruence| |congruence]. intros r. by rewrite E2.
Qed.

Lemma Abs_equiv s a b : a ≡ b -> Abs s a -> Abs s b.
Proof.
  intros (E & Eq & Ed) [H1 H2 H3 H4 H5 H6]. split.
  - congruence.
  - intros r q. rewrite <- Eq. auto.
  - intros r. rewrite <- Eq. auto.
  - intros r1 r2 x. rewrite <- !Eq. eauto.
  - intros x t Ht [Hi Hx]. eapply H5; [done|].
    split; [intros r; rewrite Eq; apply Hi|by rewrite Ed].
  - done.
Qed.
#[export] Instance Abs_proper s : Proper ((≡) ==> iff) (Abs s).
Proof. intros a b E. split; by apply Abs_equiv. Qed.

Lemma no_stale (x : ptr) : (∅ : gset ptr) ∖ {[x]} = ∅.
Proof. set_solver. Qed.

(** ** Total correctness over the abstraction *)

Definition runs {A} (a : aview) (m : K A) (v : A) (a' : aview) : Prop :=
  forall s, Abs s a -> exists s', m s = Ok (v, s') /\ Abs s' a'.

Lemma runs_ret {A} a (v : A) : runs a (mret v) v a.
Proof. intros s Hs. by exists s. Qed.

Lemma runs_bind {A B} a (m : K A) v a1 (k : A -> K B) w a2 :
  runs a m v a1 -> runs a1 (k v) w a2 -> runs a (m ≫= k) w a2.
Proof.
  intros Hm Hk s Hs. destruct (Hm s Hs) as (s1 & E & Hs1).
  rewrite (prog_bind_ok _ _ _ _ _ E). by apply Hk.
Qed.

Lemma runs_equiv {A} a (m : K A) v a1 a2 : a1 ≡ a2 -> runs a m v a1 -> runs a m v a2.
Proof.
  intros E Hm s Hs. destruct (Hm s Hs) as (s' & ? & ?). exists s'.
  by rewrite <- E.
Qed.

#[export] Instance runs_proper {A} : Proper ((≡) ==> (=) ==> (=) ==> (≡) ==> iff) (@runs A).
Proof.
  intros a b E m _ <- v _ <- a' b' E'. unfold runs. split; intros H s Hs.
  - destruct (H s) as (s' & ? & ?); [by rewrite E|]. exists s'. by rewrite <- E'.
  - destruct (H s) as (s' & ? & ?); [by rewrite <- E|]. exists s'. by rewrite E'.
Qed.

Lemma runs_pre {A} a b (m : K A) v a' : a ≡ b -> runs b m v a' -> runs a m v a'.
Proof. intros E H s Hs. apply H. by rewrite <- E. Qed.

(** The value is determined by the abstract state. *)
Lemma runs_det {A} a (m : K A) v v' a1 a2 s :
  Abs s a -> runs a m v a1 -> runs a m v' a2 -> v = v'.
Proof.
  intros Hs H1 H2. destruct (H1 s Hs) as (s1 & E1 & _), (H2 s Hs) as (s2 & E2 & _).
  congruence.
Qed.

(** What a represented state knows may be used in proving the run. *)
Lemma runs_abs {A} a (m : K A) v a' :
  (forall s, Abs s a -> runs a m v a') -> runs a m v a'.
Proof. intros H s Hs. by apply (H s). Qed.

Lemma Abs_null_view s a : Abs s a -> tasks (av a) !! NULL = None.
Proof.
  intros Hs. rewrite <- (abs_strip _ _ Hs). cbn. by rewrite lookup_fmap, (abs_null _ _ Hs).
Qed.

Lemma Abs_queued s a r x :
  Abs s a -> x ∈ aq a r -> x <> NULL /\ exists t, tasks (av a) !! x = Some t.
Proof.
  intros Hs Hx. destruct (load_list r s) as [q|] eqn:Hq.
  - destruct (queue_rep_elem _ _ _ _ (abs_queue _ _ Hs r q Hq) Hx) as [? [t Ht]].
    split; [done|]. rewrite <- (abs_strip _ _ Hs). cbn. rewrite lookup_fmap, Ht. cbn. eauto.
  - rewrite (abs_none _ _ Hs r Hq) in Hx. by apply elem_of_nil in Hx.
Qed.

(** The queues of a represented state hold no task twice. *)
Lemma Abs_NoDup s a r : Abs s a -> NoDup (aq a r).
Proof.
  intros Hs. destruct (load_list r s) as [q|] eqn:E.
  - by destruct (abs_queue _ _ Hs _ _ E) as (_ & _ & ?).
  - rewrite (abs_none _ _ Hs _ E). constructor.
Qed.

(** A task is a known one, and in no queue but [r] and there once. *)
Record head_ok (a : aview) (r : qref) (x : ptr) (l : list ptr) (t : tcb) : Prop := {
  head_nonnull : x <> NULL;
  head_task : tasks (av a) !! x = Some t;
  head_once : x ∉ l;
  head_only : forall r', r' <> r -> x ∉ aq a r';
}.

Lemma Abs_head s a r x l :
  Abs s a -> aq a r = x :: l -> exists t, head_ok a r x l t.
Proof.
  intros Hs El. assert (x ∈ aq a r) as Hx by (rewrite El; by left).
  destruct (Abs_queued _ _ _ _ Hs Hx) as [? [t ?]]. exists t. split; [done..| |].
  - pose proof (Abs_NoDup _ _ r Hs) as Hnd. rewrite El in Hnd.
    by apply NoDup_cons in Hnd as [? _].
  - intros r' Hr Hx'. apply Hr. by eapply abs_disj.
Qed.

Lemma runs_whenb a (b : bool) m a' :
  (b = true -> runs a m tt a') -> (b = false -> a' ≡ a) -> runs a (whenb b m) tt a'.
Proof.
  intros Ht Hf. destruct b; [by apply Ht|]. eapply runs_equiv; [|apply runs_ret].
  symmetry. by apply Hf.
Qed.

(** ** Registers and scalars *)

Lemma runs_gets {A} a (f : kstate -> A) :
  (forall s, f (strip_k s) = f s) -> runs a (gets f) (f (av a)) a.
Proof. intros E s Hs. exists s. unfold gets. by rewrite <- (abs_strip _ _ Hs), E. Qed.

(** An update that leaves the stores and the lists alone. *)
Record scalar (g : kstate -> kstate) : Prop := {
  scalar_strip : forall s, strip_k (g s) = g (strip_k s);
  scalar_tasks : forall s, tasks (g s) = tasks s;
  scalar_lists : forall r s, load_list r (g s) = load_list r s;
}.

Lemma runs_modify a g : scalar g -> runs a (modify g) tt (amap g a).
Proof.
  intros [E1 E2 E3] s [H1 H2 H3 H4 H5 H6]. exists (g s). split; [done|].
  split; cbn; rewrite ?E2; try done.
  - by rewrite E1, H1.
  - intros r q. rewrite E3. auto.
  - intros r. rewrite E3. auto.
Qed.

(** ** Objects *)

Lemma Abs_task s a x t :
  Abs s a -> tasks (av a) !! x = Some t ->
  exists t', tasks s !! x = Some t' /\ strip t' = t.
Proof.
  intros Hs. rewrite <- (abs_strip _ _ Hs). cbn. rewrite lookup_fmap.
  destruct (tasks s !! x); cbn; [|done]. intros. simplify_eq. eauto.
Qed.

Lemma Abs_task_stripped s a x t : Abs s a -> tasks (av a) !! x = Some t -> strip t = t.
Proof. intros Hs (t' & _ & <-)%(Abs_task _ _ _ _ Hs). done. Qed.

Lemma runs_rd_task {A} a x t (f : tcb -> A) :
  tasks (av a) !! x = Some t -> (forall t', f (strip t') = f t') ->
  runs a (rd_task x f) (f t) a.
Proof.
  intros Ht E s Hs. destruct (Abs_task _ _ _ _ Hs Ht) as (t' & Ht' & <-).
  exists s. split; [|done]. unfold rd_task, fetch. by rewrite Ht', E.
Qed.

Lemma runs_upd_task a x t g :
  tasks (av a) !! x = Some t ->
  (forall t', strip (g t') = g (strip t')) -> (forall t', t_next (g t') = t_next t') ->
  runs a (upd_task x g) tt (amap (set_tasks (<[x := g t]> (tasks (av a)))) a).
Proof.
  intros Ht Es En s Hs. destruct (Abs_task _ _ _ _ Hs Ht) as (t' & Ht' & <-).
  pose proof Hs as [H1 H2 H3 H4 H5 H6].
  exists (set_tasks (<[x := g t']> (tasks s)) s). split.
  { unfold upd_task, fetch. cbn. unfold mbind, prog_bind. by rewrite Ht'. }
  assert (forall y, t_next <$> <[x := g t']> (tasks s) !! y = t_next <$> tasks s !! y) as Enext.
  { intros y. destruct (decide (x = y)) as [->|]; simplify_map_eq; [|done].
    by rewrite En. }
  split; cbn.
  - rewrite <- H1. unfold strip_k. cbn. by rewrite fmap_insert, Es.
  - intros r q Hr. destruct (H2 r q) as (Hl & ? & ?); [by destruct r|].
    split_and!; [|done..]. eapply lseg_ext; [|done]. by intros.
  - intros r Hr. apply H3. by destruct r.
  - done.
  - intros y ty Hy Hi. pose proof (Enext y) as Ey. rewrite Hy in Ey.
    destruct (tasks s !! y) as [ty'|] eqn:Ety; [|done]. apply (inj Some) in Ey.
    rewrite Ey. by eapply H5.
  - rewrite lookup_insert_None. split; [done|]. intros ->. congruence.
Qed.

(** The link of an idle task is clear already. *)
Lemma runs_clear_next a x t :
  tasks (av a) !! x = Some t -> idle x a -> runs a (upd_task x (set_t_next NULL)) tt a.
Proof.
  intros Ht Hi s Hs. destruct (Abs_task _ _ _ _ Hs Ht) as (t' & Ht' & <-).
  pose proof (abs_idle _ _ Hs _ _ Ht' Hi) as En. exists s. split; [|done].
  unfold upd_task, fetch, mbind, prog_bind, modify. cbn. rewrite Ht'.
  assert (set_t_next NULL t' = t') as -> by (destruct t'; cbn in *; by rewrite En).
  rewrite insert_id by done. by destruct s.
Qed.

Lemma Abs_sem s a p v :
  Abs s a -> sems (av a) !! p = Some v ->
  exists v', sems s !! p = Some v' /\ strip_sem v' = v.
Proof.
  intros Hs. rewrite <- (abs_strip _ _ Hs). cbn. rewrite lookup_fmap.
  destruct (sems s !! p); cbn; [|done]. intros. simplify_eq. eauto.
Qed.

Lemma runs_rd_sem {A} a p v (f : semaphore -> A) :
  sems (av a) !! p = Some v -> (forall v', f (strip_sem v') = f v') ->
  runs a (rd_sem p f) (f v) a.
Proof.
  intros Hv E s Hs. destruct (Abs_sem _ _ _ _ Hs Hv) as (v' & Hv' & <-).
  exists s. split; [|done]. unfold rd_sem, fetch. by rewrite Hv', E.
Qed.

Lemma runs_upd_sem a p v g :
  sems (av a) !! p = Some v ->
  (forall v', strip_sem (g v') = g (strip_sem v')) ->
  (forall v', s_wait_queue (g v') = s_wait_queue v') ->
  runs a (upd_sem p g) tt (amap (set_sems (<[p := g v]> (sems (av a)))) a).
Proof.
  intros Hv Es Eq s Hs. destruct (Abs_sem _ _ _ _ Hs Hv) as (v' & Hv' & <-).
  pose proof Hs as [H1 H2 H3 H4 H5 H6].
  exists (set_sems (<[p := g v']> (sems s)) s). split.
  { unfold upd_sem, fetch. cbn. unfold mbind, prog_bind. by rewrite Hv'. }
  assert (forall r, load_list r (set_sems (<[p := g v']> (sems s)) s) = load_list r s) as El.
  { intros []; try done. cbn. destruct (decide (p = p0)) as [->|]; simplify_map_eq; [|done].
    by rewrite Eq. }
  split; cbn; try done.
  - rewrite <- H1. unfold strip_k. cbn. by rewrite fmap_insert, Es.
  - intros r q. rewrite El. auto.
  - intros r. rewrite El. auto.
Qed.

Lemma Abs_mutex s a p v :
  Abs s a -> mutexes (av a) !! p = Some v ->
  exists v', mutexes s !! p = Some v' /\ strip_mutex v' = v.
Proof.
  intros Hs. rewrite <- (abs_strip _ _ Hs). cbn. rewrite lookup_fmap.
  destruct (mutexes s !! p); cbn; [|done]. intros. simplify_eq. eauto.
Qed.

Lemma runs_rd_mutex {A} a p v (f : mutex -> A) :
  mutexes (av a) !! p = Some v -> (forall v', f (strip_mutex v') = f v') ->
  runs a (rd_mutex p f) (f v) a.
Proof.
  intros Hv E s Hs. destruct (Abs_mutex _ _ _ _ Hs Hv) as (v' & Hv' & <-).
  exists s. split; [|done]. unfold rd_mutex, fetch. by rewrite Hv', E.
Qed.

Lemma runs_upd_mutex a p v g :
  mutexes (av a) !! p = Some v ->
  (forall v', strip_mutex (g v') = g (strip_mutex v')) ->
  (forall v', m_wait_queue (g v') = m_wait_queue v') ->
  runs a (upd_mutex p g) tt (amap (set_mutexes (<[p := g v]> (mutexes (av a)))) a).
Proof.
  intros Hv Es Eq s Hs. destruct (Abs_mutex _ _ _ _ Hs Hv) as (v' & Hv' & <-).
  pose proof Hs as [H1 H2 H3 H4 H5 H6].
  exists (set_mutexes (<[p := g v']> (mutexes s)) s). split.
  { unfold upd_mutex, fetch. cbn. unfold mbind, prog_bind. by rewrite Hv'. }
  assert (forall r, load_list r (set_mutexes (<[p := g v']> (mutexes s)) s)
                    = load_list r s) as El.
  { intros []; try done. cbn. destruct (decide (p = p0)) as [->|]; simplify_map_eq; [|done].
    by rewrite Eq. }
  split; cbn; try done.
  - rewrite <- H1. unfold strip_k. cbn. by rewrite fmap_insert, Es.
  - intros r q. rewrite El. auto.
  - intros r. rewrite El. auto.
Qed.

(** ** Queues *)

Lemma load_list_strip r s : is_Some (load_list r (strip_k s)) <-> is_Some (load_list r s).
Proof.
  destruct r; cbn; rewrite ?lookup_fmap; [done|done|..].
  - by destruct (sems s !! p).
  - by destruct (mutexes s !! p).
Qed.

Lemma Abs_load s a r : Abs s a -> has_queue r a -> exists q, load_list r s = Some q.
Proof. intros Hs. unfold has_queue. rewrite <- (abs_strip _ _ Hs). apply load_list_strip. Qed.

Lemma load_store_eq r q q0 T s :
  load_list r s = Some q0 -> load_list r (store_list r q (set_tasks T s)) = Some q.
Proof.
  destruct r; cbn; try done.
  - intros Hq. destruct (sems s !! p) eqn:E; [|done]. by rewrite lookup_alter_eq, E.
  - intros Hq. destruct (mutexes s !! p) eqn:E; [|done]. by rewrite lookup_alter_eq, E.
Qed.

Lemma load_store_ne r r' q T s :
  r <> r' -> load_list r' (store_list r q (set_tasks T s)) = load_list r' s.
Proof.
  intros Hr. destruct r, r'; cbn; try done; rewrite lookup_alter_ne; congruence.
Qed.

Lemma strip_sem_alter q p (m : gmap ptr semaphore) :
  strip_sem <$> alter (set_s_wait_queue q) p m = strip_sem <$> m.
Proof.
  apply map_eq. intros i. rewrite !lookup_fmap, lookup_alter.
  case_decide; [subst; by destruct (m !! i)|done].
Qed.
Lemma strip_mutex_alter q p (m : gmap ptr mutex) :
  strip_mutex <$> alter (set_m_wait_queue q) p m = strip_mutex <$> m.
Proof.
  apply map_eq. intros i. rewrite !lookup_fmap, lookup_alter.
  case_decide; [subst; by destruct (m !! i)|done].
Qed.

Lemma strip_store r q T s :
  strip_k (store_list r q (set_tasks T s)) = set_tasks (strip <$> T) (strip_k s).
Proof.
  destruct s, r; unfold strip_k, set_tasks; cbn; try done.
  - by rewrite strip_sem_alter.
  - by rewrite strip_mutex_alter.
Qed.

Lemma tasks_store r q T s : tasks (store_list r q (set_tasks T s)) = T.
Proof. by destruct r. Qed.

(** A queue routine that turns the list [aq a r] into [l], touching only links
    of tasks of that queue or of no queue, and leaves the links of [X] stale. *)
Lemma runs_on_queue {A} a r (m : QM A) v l L X :
  has_queue r a ->
  (forall T q, strip <$> T = tasks (av a) -> queue_rep T q (aq a r) ->
    (forall x t, T !! x = Some t -> idle x a -> t_next t = NULL) ->
    exists T' q', m (T, q) = Ok (v, (T', q')) /\ queue_rep T' q' l /\
      links_only L T T' /\
      (forall x, x ∈ aq a r -> x ∉ l -> x ∉ X -> t_next <$> T' !! x = Some NULL)) ->
  (forall x, x ∈ L -> x ∈ l \/ x ∈ aq a r) ->
  (forall x, x ∈ l -> x ∈ aq a r \/ unqueued x a) ->
  (forall x, x ∈ astale a -> x ∈ l \/ x ∈ X) ->
  runs a (on_queue r m) v (astale_set X (aset r l a)).
Proof.
  intros Hr Hm HL Hl HX s Hs. destruct (Abs_load _ _ _ Hs Hr) as (q & Hq).
  pose proof Hs as [H1 H2 H3 H4 H5 H6].
  destruct (Hm (tasks s) q) as (T' & q' & E & Hrep & HT & Hout).
  { by rewrite <- H1. } { by apply H2. } { done. }
  exists (store_list r q' (set_tasks T' s)). split.
  { unfold on_queue. by rewrite Hq, E. }
  assert (forall x r', r' <> r -> x ∈ aq a r' -> x ∉ L) as Hfr.
  { intros x r' Hne Hx HxL. apply HL in HxL as [[Hx'|Hx']%Hl|Hx'].
    - apply Hne. eauto. - by apply (Hx' r'). - apply Hne. eauto. }
  assert (forall x, x ∉ L -> T' !! x = tasks s !! x) as HT' by (by destruct HT).
  split; cbn.
  - rewrite strip_store, H1. destruct HT as [HT _]. rewrite HT.
    rewrite <- H1. unfold strip_k. by destruct s.
  - intros r' q1. rewrite tasks_store. destruct (decide (r = r')) as [<-|Hne].
    + rewrite (load_store_eq _ _ _ _ _ Hq), fn_lookup_insert. congruence.
    + rewrite load_store_ne, fn_lookup_insert_ne by done. intros Hq1.
      eapply queue_rep_frame; [done| |by apply H2].
      intros x. by apply Hfr.
  - intros r'. destruct (decide (r = r')) as [<-|Hne].
    + by rewrite (load_store_eq _ _ _ _ _ Hq).
    + rewrite load_store_ne, fn_lookup_insert_ne by done. apply H3.
  - assert (forall x r', r <> r' -> x ∈ l -> x ∉ aq a r') as Hdis.
    { intros x r' Hne [Hx|Hx]%Hl Hx'; [by eapply Hne, H4|by apply (Hx r')]. }
    intros r1 r2 x. destruct (decide (r = r1)) as [<-|], (decide (r = r2)) as [<-|];
      rewrite ?fn_lookup_insert, ?fn_lookup_insert_ne by done; try done.
    + intros ? ?. by destruct (Hdis x r2).
    + intros ? ?. by destruct (Hdis x r1).
    + apply H4.
  - rewrite tasks_store. intros x t Hx [Hi HxX]. cbn in HxX.
    assert (x ∉ l) as Hxl by (pose proof (Hi r) as Hir; cbn in Hir;
      by rewrite fn_lookup_insert in Hir).
    assert (forall r', r <> r' -> x ∉ aq a r') as Hxo.
    { intros r' Hne. pose proof (Hi r') as Hir; cbn in Hir.
      by rewrite fn_lookup_insert_ne in Hir. }
    destruct (decide (x ∈ aq a r)) as [Hxr|Hxr].
    + pose proof (Hout x Hxr Hxl HxX) as Ho. rewrite Hx in Ho. by apply (inj Some) in Ho.
    + apply (H5 x).
      * rewrite <- HT'; [done|]. intros [?|?]%HL; eauto.
      * split; [intros r'; destruct (decide (r = r')) as [<-|]; eauto|].
        intros [?|?]%HX; done.
  - rewrite tasks_store. destruct HT as [HT _].
    pose proof (f_equal (.!! NULL) HT) as EN. rewrite !lookup_fmap, H6 in EN.
    by destruct (T' !! NULL).
Qed.

(** Two routines on one queue run as one routine. *)
Lemma store_store r q q' T T' s :
  store_list r q' (set_tasks T' (store_list r q (set_tasks T s)))
  = store_list r q' (set_tasks T' s).
Proof.
  destruct s, r; unfold set_tasks; cbn; try done; unfold set_sems, set_mutexes; cbn; f_equal;
    by rewrite alter_alter_eq.
Qed.

Lemma on_queue_bind {A B} r (m : QM A) (k : A -> QM B) s :
  is_Some (load_list r s) ->
  on_queue r (m ≫= k) s = (on_queue r m ≫= fun x => on_queue r (k x)) s.
Proof.
  intros [q Hq]. unfold on_queue, mbind, prog_bind. rewrite Hq.
  destruct (m (tasks s, q)) as [[x [T1 q1]]|]; [|done].
  rewrite (load_store_eq _ _ _ _ _ Hq), tasks_store.
  destruct (k x (T1, q1)) as [[y [T2 q2]]|]; [|done]. by rewrite store_store.
Qed.

Lemma runs_on_queue_bind {A B} a r (m : QM A) (k : A -> QM B) v a1 w a2 :
  has_queue r a -> runs a (on_queue r m) v a1 -> runs a1 (on_queue r (k v)) w a2 ->
  runs a (on_queue r (m ≫= k)) w a2.
Proof.
  intros Hr Hm Hk s Hs. destruct (Abs_load _ _ _ Hs Hr) as [q Hq].
  rewrite on_queue_bind by eauto. by apply (runs_bind _ _ _ _ _ _ _ Hm Hk).
Qed.

(** ** The queue routines of scheduler.c and sleep.c *)

Lemma aset_stale_id r l a : astale_set (astale a) (aset r l a) ≡ aset r l a.
Proof. by split. Qed.

(** Orders of the abstract queues. *)
Definition prio (a : aview) : ptr -> Z := key_of t_effective_priority (tasks (av a)).
Definition tick (a : aview) : ptr -> Z := key_of t_wake_tick (tasks (av a)).

Lemma prio_lookup a x t :
  tasks (av a) !! x = Some t -> prio a x = t_effective_priority t.
Proof. intros E. unfold prio, key_of. by rewrite E. Qed.

Lemma key_of_strip key T x :
  (forall t, key (strip t) = key t) -> key_of key (strip <$> T) x = key_of key T x.
Proof. intros E. unfold key_of. rewrite lookup_fmap. destruct (T !! x); cbn; congruence. Qed.

Lemma runs_ready_head a :
  runs a (gets (fun s => q_head (ready_queue s))) (List.hd NULL (aq a QReady)) a.
Proof.
  intros s Hs. exists s. split; [|done]. unfold gets. do 2 f_equal.
  destruct (abs_queue _ _ Hs QReady _ eq_refl) as (Hl & _).
  destruct (aq a QReady); [done|]. by destruct Hl.
Qed.

Lemma runs_queue_pop_nil a r :
  has_queue r a -> aq a r = [] -> runs a (on_queue r queue_pop) NULL a.
Proof.
  intros Hr E. eapply runs_equiv; [|apply (runs_on_queue _ _ _ _ [] [] (astale a))]; try done.
  - split; cbn; [done|]. split; [|done]. intros r'.
    destruct (decide (r = r')) as [<-|]; [by rewrite fn_lookup_insert|by rewrite fn_lookup_insert_ne].
  - intros T q _ Hq _. rewrite E in Hq. exists T, q. rewrite (pop_nil _ _ Hq).
    split_and!; [done..|]. rewrite E. intros x Hx. by apply elem_of_nil in Hx.
  - intros x Hx. by apply elem_of_nil in Hx.
  - intros x Hx. by apply elem_of_nil in Hx.
  - auto.
Qed.

Lemma runs_queue_pop a r x l :
  has_queue r a -> aq a r = x :: l -> runs a (on_queue r queue_pop) x (aset r l a).
Proof.
  intros Hr E. eapply runs_equiv; [apply aset_stale_id|].
  apply (runs_on_queue _ _ _ _ _ [x]); try done.
  - intros T q _ Hq _. rewrite E in Hq.
    destruct (pop_cons _ _ _ _ Hq) as (T' & q' & ? & ? & ? & ?).
    exists T', q'. split_and!; [done..|]. rewrite E.
    intros y [-> | ?]%elem_of_cons ??; done.
  - intros y ->%list_elem_of_singleton. rewrite E. right. by left.
  - intros y Hy. rewrite E. left. by right.
  - auto.
Qed.

Lemma runs_queue_push a r x t :
  has_queue r a -> tasks (av a) !! x = Some t -> x <> NULL -> idle x a ->
  runs a (on_queue r (queue_push x)) tt (aset r (aq a r ++ [x]) a).
Proof.
  intros Hr Ht Hx [Hq Hst]. eapply runs_equiv; [apply aset_stale_id|].
  apply (runs_on_queue _ _ _ _ _ (x :: aq a r)); try done.
  - intros T q ET Hrep Hi. rewrite <- ET, lookup_fmap in Ht.
    destruct (T !! x) as [t'|] eqn:Ht'; [|done].
    destruct (push_snoc T q (aq a r) x t') as (T' & q' & ? & ? & ? & ?);
      [done|done|by apply (Hi x)|done|apply Hq|].
    exists T', q'. split_and!; [done..|]. intros y Hy Hyl. destruct Hyl. apply elem_of_app. by left.
  - intros y. rewrite elem_of_app, elem_of_cons, list_elem_of_singleton. tauto.
  - intros y. rewrite elem_of_app, list_elem_of_singleton. intros [? | ->]; auto.
  - auto.
Qed.

(** An ordered push also settles the link of a task whose link was stale. *)
Lemma runs_keyed_push key a r x t :
  (forall t, key (strip t) = key t) ->
  has_queue r a -> tasks (av a) !! x = Some t -> x <> NULL -> unqueued x a ->
  runs a (on_queue r (keyed_push key x)) tt
    (astale_set (astale a ∖ {[x]})
      (aset r (ins (key_of key (tasks (av a))) x (aq a r)) a)).
Proof.
  intros Hkey Hr Ht Hx Hq.
  apply (runs_on_queue _ _ _ _ _ (x :: aq a r)); try done.
  - intros T q ET Hrep Hi. rewrite <- ET, lookup_fmap in Ht.
    destruct (T !! x) as [t'|] eqn:Ht'; [|done].
    destruct (keyed_push_ok key Hkey T q (aq a r) x t') as (T' & q' & ? & Hrep' & ?);
      [done|done|done|apply Hq|].
    exists T', q'. split; [done|].
    erewrite (ins_ext _ (key_of key T)) by (intros; rewrite <- ET; by apply key_of_strip).
    split_and!; [done..|]. intros y Hy Hyl. destruct Hyl. apply elem_of_ins. by right.
  - intros y. rewrite elem_of_ins, elem_of_cons. tauto.
  - intros y [-> | ?]%elem_of_ins; auto.
  - intros y Hy. destruct (decide (y = x)) as [->|]; [left; apply elem_of_ins; auto|].
    right. set_solver.
Qed.

Lemma runs_priority_queue_push a r x t :
  has_queue r a -> tasks (av a) !! x = Some t -> x <> NULL -> unqueued x a ->
  runs a (on_queue r (priority_queue_push x)) tt
    (astale_set (astale a ∖ {[x]}) (aset r (ins (prio a) x (aq a r)) a)).
Proof. by apply runs_keyed_push. Qed.

Lemma runs_sleep_queue_push a r x t :
  has_queue r a -> tasks (av a) !! x = Some t -> x <> NULL -> unqueued x a ->
  runs a (on_queue r (sleep_queue_push x)) tt
    (astale_set (astale a ∖ {[x]}) (aset r (ins (tick a) x (aq a r)) a)).
Proof. by apply runs_keyed_push. Qed.

Lemma runs_priority_queue_remove a r x :
  has_queue r a ->
  runs a (on_queue r (priority_queue_remove x)) tt (aset r (del x (aq a r)) a).
Proof.
  intros Hr. eapply runs_equiv; [apply aset_stale_id|].
  destruct (decide (x ∈ aq a r)) as [Hx|Hx].
  - apply (runs_on_queue _ _ _ _ _ (aq a r)); try done; auto.
    + intros T q _ Hrep _. destruct (remove_ok T q _ x Hrep) as (T' & q' & ? & ? & ? & Hn).
      exists T', q'. split_and!; [done..|]. intros y Hy Hyl _.
      destruct (decide (y = x)) as [->|]; [auto|]. destruct Hyl. by apply elem_of_del.
    + intros y [_ ?]%elem_of_del. auto.
  - apply (runs_on_queue _ _ _ _ _ (aq a r)); try done; auto.
    + intros T q _ Hrep _. destruct (remove_ok T q _ x Hrep) as (T' & q' & ? & ? & ? & Hn).
      exists T', q'. split_and!; [done..|]. intros y Hy Hyl _.
      destruct Hyl. apply elem_of_del. split; [by intros ->|done].
    + intros y [_ ?]%elem_of_del. auto.
Qed.

(** The number of tasks bounds the length of a queue. *)
Lemma Abs_length s a r : Abs s a -> (length (aq a r) <= size (tasks (av a)))%nat.
Proof.
  intros Hs. rewrite <- size_dom. apply NoDup_length_subset; [by eapply Abs_NoDup|].
  intros x [_ [t Ht]]%(Abs_queued _ _ _ _ Hs). by eapply elem_of_dom_2.
Qed.

(** The routine that moves a task behind the tasks of its new priority. *)
Definition areorder (r : qref) (x : ptr) (a : aview) : aview :=
  aset r (ins (prio a) x (del x (aq a r))) a.

Lemma runs_priority_queue_reoder a r x :
  x ∈ aq a r -> x ∉ astale a ->
  runs a (on_queue r (priority_queue_reoder x)) tt (areorder r x a).
Proof.
  intros Hx HX. apply runs_abs. intros s Hs.
  assert (has_queue r a) as Hr.
  { unfold has_queue. rewrite <- (abs_strip _ _ Hs), load_list_strip.
    destruct (load_list r s) eqn:E; [eauto|]. rewrite (abs_none _ _ Hs _ E) in Hx.
    by apply elem_of_nil in Hx. }
  destruct (Abs_queued _ _ _ _ Hs Hx) as [Hn [t Ht]].
  eapply runs_on_queue_bind; [done|by apply runs_priority_queue_remove|]. cbn beta.
  eapply runs_equiv; [|eapply runs_priority_queue_push; [done|exact Ht|done|]].
  - split; [done|]. split; [|cbn; set_solver]. intros r'. cbn.
    destruct (decide (r = r')) as [<-|]; rewrite ?fn_lookup_insert, ?fn_lookup_insert_ne by done;
      done.
  - intros r'. cbn. destruct (decide (r = r')) as [<-|].
    + rewrite fn_lookup_insert. by intros [? _]%elem_of_del.
    + rewrite fn_lookup_insert_ne by done. intros Hx'. by destruct (abs_disj _ _ Hs r r' x).
Qed.

(** The fuel of a loop that takes tasks out of a queue. *)
Lemma runs_task_fuel a :
  runs a (gets (fun s => S (S (size (tasks s))))) (S (S (size (tasks (av a))))) a.
Proof. apply runs_gets. intros s. cbn. by rewrite map_size_fmap. Qed.

(** ** Automation: symbolic execution of kernel code *)

Lemma runs_irq_save a : runs a irq_save (primask (av a)) (amap (set_primask 1) a).
Proof.
  unfold irq_save. eapply runs_bind; [by apply runs_gets|].
  eapply runs_bind; [|apply runs_ret]. apply runs_modify.
  by split; [intros []|intros []|intros [] []].
Qed.

Lemma runs_irq_restore a p : runs a (irq_restore p) tt (amap (set_primask p) a).
Proof. apply runs_modify. by split; [intros []|intros []|intros [] []]. Qed.

(** The ready and the sleep queue are always there. *)
Lemma has_ready a : has_queue QReady a.
Proof. eexists. reflexivity. Qed.
Lemma has_sleep a : has_queue QSleep a.
Proof. eexists. reflexivity. Qed.
Lemma has_sem a p v : sems (av a) !! p = Some v -> has_queue (QSem p) a.
Proof. intros E. unfold has_queue. cbn. rewrite E. eexists. reflexivity. Qed.
Lemma has_mutex a p v : mutexes (av a) !! p = Some v -> has_queue (QMutex p) a.
Proof. intros E. unfold has_queue. cbn. rewrite E. eexists. reflexivity. Qed.
#[export] Hint Resolve has_ready has_sleep has_sem has_mutex : kernel.

Ltac scalar_solve := by split; [intros []|intros []|intros [] []].

(** The tasks a program reads stay where an update of another one, or of
    themselves, left them. *)
Ltac look := cbn; simplify_map_eq; reflexivity || eassumption.

Ltac run_prim :=
  first
    [ apply runs_ret
    | apply runs_irq_save
    | apply runs_irq_restore
    | apply runs_gets; intros []; reflexivity
    | apply runs_modify; scalar_solve
    | eapply runs_rd_task; [look|done]
    | eapply runs_upd_task; [look|done|done]
    | eapply runs_rd_sem; [look|done]
    | eapply runs_upd_sem; [look|done|done]
    | eapply runs_rd_mutex; [look|done]
    | eapply runs_upd_mutex; [look|done|done] ].

(** One statement; the goal left is the rest of the program. *)
Ltac run_step := eapply runs_bind; [run_prim|]; cbn beta.

Lemma alter_lookup {A} (g : A -> A) (x : ptr) (t : A) (m : gmap ptr A) :
  m !! x = Some t -> alter g x m = <[x := g t]> m.
Proof.
  intros E. apply map_eq. intros y. rewrite lookup_alter, lookup_insert.
  case_decide; [subst; by rewrite E|done].
Qed.

Lemma key_of_insert key (T : gmap ptr tcb) x t t' y :
  T !! x = Some t -> key t' = key t -> key_of key (<[x := t']> T) y = key_of key T y.
Proof.
  intros Ht E. unfold key_of. destruct (decide (x = y)) as [->|]; simplify_map_eq; done.
Qed.

(** Compares two abstract states built by updates. *)
Ltac aview_solve :=
  split; [|split];
  [ cbn; rewrite ?insert_insert_eq;
    try match goal with |- context [av ?a] => is_var a; destruct (av a) end;
    cbn in *; rewrite ?insert_insert_eq; reflexivity
  | let r := fresh "r" in intros r; cbn;
    repeat match goal with
    | |- context [<[?r1 := _]> _ ?r2] =>
        destruct (decide (r1 = r2));
        [ first [discriminate | subst; rewrite !fn_lookup_insert]
        | first [congruence | rewrite !(fn_lookup_insert_ne _ r1 r2) by done] ]
    end; try done
  | cbn; try set_solver ].
