(* ===== verification/Scheduler.v ===== *)
(** * The scheduler ([scheduler.c], [arm.c], [pend_sv_handler.S]) *)
From S2P Require Import Prelude KState Queue Abs.

(** ** The code *)

Definition scheduler_init : K unit :=
  modify (set_ready_queue empty_list);;
  modify (set_current_task NULL);;
  modify (set_next_task NULL).

Definition scheduler_put_task (task : ptr) : K unit :=
  if task =? NULL then mret tt
  else
    st ← rd_task task t_state;
    if bool_decide (st = TASK_FINISHED \/ st = TASK_BLOCKED \/ st = TASK_SLEEPING)
    then mret tt
    else
      irq_state ← irq_save;
      upd_task task (set_t_state TASK_READY);;
      on_queue QReady (priority_queue_remove task);;
      on_queue QReady (priority_queue_push task);;
      irq_restore irq_state.

Definition scheduler_select_next : K unit :=
  irq_state ← irq_save;
  c ← gets current_task;
  scheduler_put_task c;;
  h ← gets (fun s => q_head (ready_queue s));
  if negb (h =? NULL) then
    n ← on_queue QReady priority_queue_pop;
    modify (set_next_task n);;
    upd_task n (set_t_state TASK_RUNNING);;
    irq_restore irq_state
  else
    c ← gets current_task;
    modify (set_next_task c);;
    irq_restore irq_state.

Definition scheduler_next_task : K ptr := gets (fun s => q_head (ready_queue s)).

Definition scheduler_reorder (task : ptr) : K unit :=
  irq_state ← irq_save;
  on_queue QReady (priority_queue_reoder task);;
  irq_restore irq_state.

Definition PENDSVSET_Pos : Z := 28.
Definition PENDSV_IRQ : Z := 14.
(** [(SCB->ICSR >> PENDSVSET_Pos) & 1u] *)
Definition SCB_PENDSV_PENDING (s : kstate) : bool :=
  negb (Z.land (Z.shiftr (icsr s) PENDSVSET_Pos) 1 =? 0).

Definition request_context_switch : K unit :=
  candidate ← scheduler_next_task;
  ip ← gets ipsr;
  pending ← gets SCB_PENDSV_PENDING;
  if pending || (ip =? PENDSV_IRQ) || (candidate =? NULL) then mret tt
  else
    c ← gets current_task;
    st ← rd_task c t_state;
    if bool_decide (st = TASK_RUNNING) then
      pc ← rd_task candidate t_effective_priority;
      pt ← rd_task c t_effective_priority;
      if pc >? pt then mret tt
      else modify (fun s => set_icsr (Z.lor (icsr s) (2 ^ PENDSVSET_Pos)) s)
    else modify (fun s => set_icsr (Z.lor (icsr s) (2 ^ PENDSVSET_Pos)) s).

(** The handler's effect on the kernel state: taking the exception clears the
    pending bit, the outgoing task's [sp] receives the stack pointer [psp]
    that the register save left, and the value is the stack pointer the
    incoming task's registers are restored from. *)
Definition pend_sv_handler (psp : ptr) : K ptr :=
  modify (fun s => set_icsr (Z.ldiff (icsr s) (2 ^ PENDSVSET_Pos)) s);;
  c ← gets current_task;
  whenb (negb (c =? NULL)) (upd_task c (set_t_sp psp));;
  scheduler_select_next;;
  n ← gets next_task;
  modify (set_current_task n);;
  rd_task n t_sp.

(** ** Its specification on lists *)

Definition runnable (st : task_state) : Prop :=
  ~ (st = TASK_FINISHED \/ st = TASK_BLOCKED \/ st = TASK_SLEEPING).

Definition aupd_task (x : ptr) (g : tcb -> tcb) (a : aview) : aview :=
  amap (set_tasks (alter g x (tasks (av a)))) a.

(** [x] becomes ready, behind the tasks of its priority. *)
Definition aready (x : ptr) (a : aview) : aview :=
  astale_set (astale a ∖ {[x]})
    (aset QReady (ins (prio a) x (del x (aq a QReady)))
      (aupd_task x (set_t_state TASK_READY) a)).

(** The task at the head of the ready queue becomes the running one. *)
Definition adispatch (a : aview) : aview :=
  match aq a QReady with
  | [] => amap (fun k => set_next_task (current_task k) k) a
  | x :: l =>
      amap (set_next_task x)
        (aset QReady l (aupd_task x (set_t_state TASK_RUNNING) a))
  end.

Lemma runs_put_task_skip a x t :
  tasks (av a) !! x = Some t -> ~ runnable (t_state t) ->
  runs a (scheduler_put_task x) tt a.
Proof.
  intros Ht Hr. unfold scheduler_put_task.
  destruct (Z.eqb_spec x NULL); [apply runs_ret|]. run_step.
  rewrite bool_decide_true; [apply runs_ret|]. unfold runnable in Hr.
  apply dec_stable. exact Hr.
Qed.

Lemma runs_put_task a x t :
  tasks (av a) !! x = Some t -> x <> NULL -> runnable (t_state t) ->
  (forall r, r <> QReady -> x ∉ aq a r) ->
  runs a (scheduler_put_task x) tt (aready x a).
Proof.
  intros Ht Hx Hst Hq. unfold scheduler_put_task.
  rewrite (proj2 (Z.eqb_neq _ _) Hx). run_step. rewrite bool_decide_false by done.
  run_step. run_step.
  eapply runs_bind; [apply runs_priority_queue_remove, has_ready|]. cbn beta.
  eapply runs_bind.
  { eapply runs_priority_queue_push; [apply has_ready|look|done|].
    intros r. cbn. destruct (decide (QReady = r)) as [<-|].
    - rewrite fn_lookup_insert. by intros [? _]%elem_of_del.
    - rewrite fn_lookup_insert_ne by done. by apply Hq. }
  cbn beta. eapply runs_equiv; [|apply runs_irq_restore].
  unfold aready, aupd_task. rewrite (alter_lookup _ _ _ _ Ht). aview_solve.
  apply ins_ext. intros y _. by eapply key_of_insert.
Qed.

(** What the running task gives up when the scheduler is asked for the next
    one: a runnable task is queued again, any other stays where it is. *)
Definition arequeue (a : aview) : aview :=
  match tasks (av a) !! current_task (av a) with
  | Some t =>
      if bool_decide (t_state t = TASK_FINISHED \/ t_state t = TASK_BLOCKED \/
                      t_state t = TASK_SLEEPING)
      then a else aready (current_task (av a)) a
  | None => a
  end.

Definition aselect (a : aview) : aview := adispatch (arequeue a).

(** [current_task] is NULL, or a task that is in no other queue if it can run. *)
Definition current_ok (a : aview) : Prop :=
  current_task (av a) = NULL \/
  exists t, tasks (av a) !! current_task (av a) = Some t /\
    (runnable (t_state t) -> forall r, r <> QReady -> current_task (av a) ∉ aq a r).

Lemma runs_requeue a :
  current_ok a -> runs a (scheduler_put_task (current_task (av a))) tt (arequeue a).
Proof.
  intros Hc. apply runs_abs. intros s Hs. pose proof (Abs_null_view _ _ Hs) as HN.
  unfold arequeue. destruct Hc as [E|(t & Ht & Hq)].
  - rewrite E, HN. unfold scheduler_put_task. cbn. apply runs_ret.
  - rewrite Ht. destruct (bool_decide_reflect (t_state t = TASK_FINISHED \/
      t_state t = TASK_BLOCKED \/ t_state t = TASK_SLEEPING)) as [Hb|Hb].
    + eapply runs_put_task_skip; [done|]. by intros [].
    + eapply runs_put_task; [done| |done|by apply Hq]. congruence.
Qed.

Lemma runs_select_next a :
  current_ok a -> runs a scheduler_select_next tt (aselect a).
Proof.
  intros Hc. apply runs_abs. intros s Hs. unfold scheduler_select_next.
  run_step. run_step.
  set (a1 := amap (set_primask 1) a).
  eapply runs_bind; [apply (runs_requeue a1), Hc|]. cbn beta.
  eapply runs_bind; [apply runs_ready_head|]. cbn beta.
  assert (arequeue a1 = amap (set_primask 1) (arequeue a)) as ->.
  { unfold arequeue; cbn. destruct (tasks (av a) !! current_task (av a)) as [t|]; [|done].
    case_bool_decide; [done|]. unfold aready, aupd_task, prio, astale_set, aset, amap. cbn.
    by destruct (av a). }
  clear a1. unfold aselect, adispatch.
  assert (primask (av (arequeue a)) = primask (av a)) as Ep.
  { unfold arequeue. destruct (tasks (av a) !! current_task (av a)); [|done].
    by case_bool_decide. }
  set (b := arequeue a) in *. clearbody b. rewrite <- Ep.
  apply runs_abs. intros s1 Hs1. cbn.
  destruct (aq b QReady) as [|x l] eqn:El; cbn.
  - run_step. run_step. eapply runs_equiv; [|apply runs_irq_restore]. aview_solve.
  - destruct (Abs_queued _ _ QReady x Hs1) as [Hx [t Ht]].
    { cbn. rewrite El. by left. }
    cbn in Ht. rewrite (proj2 (Z.eqb_neq _ _) Hx). cbn.
    eapply runs_bind; [by eapply runs_queue_pop, El; apply has_ready|]. cbn beta.
    run_step. run_step.
    eapply runs_equiv; [|apply runs_irq_restore].
    unfold aupd_task. rewrite (alter_lookup _ _ _ _ Ht). aview_solve.
Qed.
