(* ===== verification/Sleep.v ===== *)
(** * Sleeping tasks and the tick ([sleep.c], [systick.c]) *)
From S2P Require Import Prelude KState Queue Abs Scheduler.

(** ** The code *)

Definition sleep_for_ticks (ticks : Z) : K unit :=
  c ← gets current_task;
  if (ticks =? 0) || (c =? NULL) then mret tt
  else
    st ← rd_task c t_state;
    if negb (bool_decide (st = TASK_RUNNING)) then mret tt
    else
      irq_state ← irq_save;
      upd_task c (set_t_state TASK_SLEEPING);;
      now ← gets system_ticks;
      upd_task c (set_t_wake_tick (u32 (now + ticks)));;
      on_queue QSleep (sleep_queue_push c);;
      irq_restore irq_state.

(** [sleep_queue_pop(&sleep_list)]; the link of the popped task is kept. *)
Definition sleep_queue_unlink : QM unit :=
  task ← rd_head;
  n ← rd task t_next;
  wr_head n;;
  h ← rd_head;
  whenb (h =? NULL) (wr_tail NULL).

Definition sleep_queue_pop (now : Z) : QM ptr :=
  task ← rd_head;
  if task =? NULL then mret NULL
  else
    w ← rd task t_wake_tick;
    if s32 (now - w) >=? 0 then sleep_queue_unlink;; mret task else mret NULL.

Fixpoint sleep_tick_loop (fuel : nat) (to_wakeup : ptr) : K unit :=
  match fuel with
  | O => raise Diverge
  | S fuel =>
      if to_wakeup =? NULL then mret tt
      else
        upd_task to_wakeup (set_t_state TASK_READY);;
        scheduler_put_task to_wakeup;;
        now ← gets system_ticks;
        w ← on_queue QSleep (sleep_queue_pop now);
        sleep_tick_loop fuel w
  end.

(** Every turn of the loop takes a task out of the list, so the number of
    tasks bounds the turns. *)
Definition sleep_tick : K unit :=
  irq_state ← irq_save;
  now ← gets system_ticks;
  to_wakeup ← on_queue QSleep (sleep_queue_pop now);
  fuel ← gets (fun s => S (S (size (tasks s))));
  sleep_tick_loop fuel to_wakeup;;
  irq_restore irq_state.

Definition systick_handler : K unit :=
  modify (fun s => set_system_ticks (u32 (system_ticks s + 1)) s);;
  sleep_tick;;
  request_context_switch.

(** ** Its specification on lists *)

(** The task is due: its wake tick is reached in the 32-bit circle. *)
Definition due (a : aview) (x : ptr) : bool := s32 (system_ticks (av a) - tick a x) >=? 0.

Definition asleep (ticks : Z) (a : aview) : aview :=
  let x := current_task (av a) in
  let a1 := aupd_task x (fun t => set_t_wake_tick (u32 (system_ticks (av a) + ticks))
                                    (set_t_state TASK_SLEEPING t)) a in
  aset QSleep (ins (tick a1) x (aq a1 QSleep)) a1.

(** Wakes the due prefix of the sleep list, one task after the other. *)
Fixpoint awake (l : list ptr) (a : aview) : aview :=
  match l with
  | [] => a
  | x :: l' => if due a x then awake l' (aready x (aset QSleep l' a)) else a
  end.

Lemma runs_sleep_for_ticks a ticks t :
  tasks (av a) !! current_task (av a) = Some t -> current_task (av a) <> NULL ->
  t_state t = TASK_RUNNING -> unqueued (current_task (av a)) a ->
  ticks <> 0 -> astale a = ∅ ->
  runs a (sleep_for_ticks ticks) tt (asleep ticks a).
Proof.
  intros Ht Hc Hst Hq Htk HX. unfold sleep_for_ticks. run_step.
  rewrite (proj2 (Z.eqb_neq _ _) Hc), (proj2 (Z.eqb_neq _ _) Htk). cbn [orb].
  run_step. rewrite bool_decide_true by done. cbn [negb].
  do 4 run_step.
  eapply runs_bind.
  { eapply runs_sleep_queue_push; [apply has_sleep|look|done|exact Hq]. }
  cbn beta. eapply runs_equiv; [|apply runs_irq_restore].
  unfold asleep, aupd_task. rewrite (alter_lookup _ _ _ _ Ht). cbn zeta.
  aview_solve.
  unfold tick. cbn. by rewrite insert_insert_eq.
Qed.

Lemma runs_sleep_pop_none a now :
  match aq a QSleep with
  | [] => True
  | x :: _ => s32 (now - tick a x) < 0
  end ->
  runs a (on_queue QSleep (sleep_queue_pop now)) NULL a.
Proof.
  intros Hd. eapply runs_equiv; [|apply (runs_on_queue _ _ _ _ (aq a QSleep) [] (astale a))];
    auto using has_sleep.
  - aview_solve. 
  - intros T q ET Hq _. exists T, q. split_and!; [|done|done|].
    + destruct Hq as (Hl & _). unfold sleep_queue_pop. qstep.
      destruct (aq a QSleep) as [|x l] eqn:El.
      * cbn in Hl. by rewrite Hl.
      * destruct Hl as (E & Hx & t & Ht & _). rewrite E.
        rewrite (proj2 (Z.eqb_neq _ _) Hx). qstep.
        unfold tick in Hd. rewrite <- ET, key_of_strip in Hd by done.
        unfold key_of in Hd. rewrite Ht in Hd. cbn in Hd.
        destruct (Z.geb_spec (s32 (now - t_wake_tick t)) 0); [lia|done].
    + by intros x Hx.
  - set_solver.
Qed.

Lemma runs_sleep_pop_due a now x l :
  aq a QSleep = x :: l -> s32 (now - tick a x) >= 0 ->
  runs a (on_queue QSleep (sleep_queue_pop now)) x
    (astale_set (astale a ∪ {[x]}) (aset QSleep l a)).
Proof.
  intros El Hd. apply (runs_on_queue _ _ _ _ _ [x]); auto using has_sleep.
  - intros T q ET (Hl & Htl & Hnd) _. rewrite El in Hl, Htl, Hnd.
    destruct Hl as (E & Hx & t & Ht & Hl).
    unfold tick in Hd. rewrite <- ET, key_of_strip in Hd by done.
    unfold key_of in Hd. rewrite Ht in Hd. cbn in Hd.
    unfold sleep_queue_pop, sleep_queue_unlink. qstep. rewrite E.
    rewrite (proj2 (Z.eqb_neq _ _) Hx). qstep.
    destruct (Z.geb_spec (s32 (now - t_wake_tick t)) 0); [|lia]. qstep.
    exists T, (TcbList (t_next t) (if t_next t =? NULL then NULL else q_tail q)).
    split_and!.
    + by destruct (t_next t =? NULL).
    + split_and!; [done| |by apply NoDup_cons in Hnd as [_ ?]]. cbn.
      destruct (Z.eqb_spec (t_next t) NULL) as [E'|E'].
      * by rewrite (proj1 (lseg_null _ _ _ Hl) E').
      * destruct l as [|y l]; [by destruct E'|exact Htl].
    + done.
    + intros y. rewrite El. set_solver.
  - rewrite El. set_solver.
  - rewrite El. set_solver.
  - set_solver.
Qed.

Lemma awake_primask l p a : awake l (amap (set_primask p) a) = amap (set_primask p) (awake l a).
Proof.
  revert a. induction l as [|x l IH]; intros a; [done|]. cbn.
  change (due (amap (set_primask p) a) x) with (due a x). destruct (due a x); [|done].
  by rewrite <- IH.
Qed.

Lemma awake_primask_same l a : primask (av (awake l a)) = primask (av a).
Proof.
  revert a. induction l as [|x l IH]; intros a; [done|]. cbn.
  destruct (due a x); [|done]. by rewrite IH.
Qed.

(** One turn of the loop: the popped task becomes ready. *)
Lemma runs_wake_one {A} a x l t (k : K A) v a' :
  head_ok a QSleep x l t ->
  runs (aready x (aset QSleep l a)) k v a' ->
  runs (astale_set (astale a ∪ {[x]}) (aset QSleep l a))
    (upd_task x (set_t_state TASK_READY);; scheduler_put_task x;; k) v a'.
Proof.
  intros [Hx Ht Hl Hq] Hk. run_step. eapply runs_bind.
  { eapply runs_put_task; [look|done| |].
    - cbn. unfold runnable. naive_solver.
    - intros r Hr. cbn. destruct (decide (QSleep = r)) as [<-|].
      + by rewrite fn_lookup_insert.
      + rewrite fn_lookup_insert_ne by done. by apply Hq. }
  cbn beta. eapply runs_pre; [|exact Hk].
  unfold aready, aupd_task. cbn.
  rewrite (alter_lookup _ _ _ _ Ht), (alter_lookup _ x (set_t_state TASK_READY t)) by look.
  aview_solve.
  apply ins_ext. intros y _. by eapply key_of_insert.
Qed.

Lemma runs_sleep_loop fuel a x l t :
  aq a QSleep = x :: l -> head_ok a QSleep x l t -> (length l < fuel)%nat ->
  runs (astale_set (astale a ∪ {[x]}) (aset QSleep l a)) (sleep_tick_loop (S fuel) x) tt
    (awake l (aready x (aset QSleep l a))).
Proof.
  revert a x l t. induction fuel as [|fuel IH]; intros a x l t El Hh Hf; [lia|].
  assert (x <> NULL) as Hx by apply Hh.
  cbn [sleep_tick_loop]. rewrite (proj2 (Z.eqb_neq _ _) Hx).
  eapply runs_wake_one; [done|]. clear Hh.
  set (b := aready x (aset QSleep l a)).
  assert (aq b QSleep = l) as Eb by done.
  apply runs_abs. intros s Hs. run_step.
  clearbody b. destruct l as [|y l]; cbn [awake].
  { eapply runs_bind; [apply runs_sleep_pop_none; by rewrite Eb|]. cbn. apply runs_ret. }
  unfold due. destruct (Z.geb_spec (s32 (system_ticks (av b) - tick b y)) 0).
  - eapply runs_bind; [apply (runs_sleep_pop_due _ _ _ _ Eb); lia|]. cbn beta.
    destruct (Abs_head _ _ _ _ _ Hs Eb) as [ty Hty]. eapply IH; [done..|].
    cbn in Hf. lia.
  - eapply runs_bind; [apply runs_sleep_pop_none; by rewrite Eb|]. cbn. apply runs_ret.
Qed.

Lemma runs_sleep_tick a : runs a sleep_tick tt (awake (aq a QSleep) a).
Proof.
  apply runs_abs. intros s Hs. unfold sleep_tick. run_step. run_step.
  assert (awake (aq a QSleep) a ≡
    amap (set_primask (primask (av a))) (awake (aq a QSleep) (amap (set_primask 1) a))) as E.
  { rewrite awake_primask, <- (awake_primask_same (aq a QSleep) a).
    destruct (awake (aq a QSleep) a) as [[] q X]. aview_solve. }
  eapply runs_equiv; [symmetry; exact E|]. clear E.
  set (b := amap (set_primask 1) a).
  pose proof (Abs_length _ _ QSleep Hs) as Hlen.
  change (aq a QSleep) with (aq b QSleep) in *. change (tasks (av a)) with (tasks (av b)) in Hlen.
  destruct (aq b QSleep) as [|x l] eqn:El.
  { eapply runs_bind; [apply runs_sleep_pop_none; by rewrite El|]. cbn beta.
    eapply runs_bind; [apply runs_task_fuel|]. eapply runs_bind; [apply runs_ret|].
    apply runs_irq_restore. }
  cbn [awake]. unfold due. change (system_ticks (av a)) with (system_ticks (av b)).
  destruct (Z.geb_spec (s32 (system_ticks (av b) - tick b x)) 0).
  - eapply runs_bind; [eapply (runs_sleep_pop_due _ _ _ _ El); lia|]. cbn beta.
    eapply runs_bind; [apply runs_task_fuel|]. cbn beta.
    destruct (Abs_head _ _ _ _ _ Hs El) as [t Ht].
    eapply runs_bind; [|apply runs_irq_restore].
    eapply (runs_sleep_loop _ b _ _ t); [done|destruct Ht; by split|].
    clear Ht. unfold b in *. cbn in *. lia.
  - eapply runs_bind; [apply runs_sleep_pop_none; rewrite El; lia|]. cbn beta.
    eapply runs_bind; [apply runs_task_fuel|]. eapply runs_bind; [apply runs_ret|].
    apply runs_irq_restore.
Qed.
