(* ===== verification/Semaphore.v ===== *)
(** * Counting semaphores ([semaphore.c]) *)
From S2P Require Import Prelude KState Queue Abs Scheduler.

(** ** The code *)

(** [list.head = 0; list.tail = 0] *)
Definition list_reset : QM unit := wr_head NULL;; wr_tail NULL.

Definition semaphore_init (sem : ptr) (count : Z) : K unit :=
  upd_sem sem (set_s_state SEM_OPEN);;
  upd_sem sem (set_s_count (u32 count));;
  on_queue (QSem sem) list_reset.

Definition semaphore_wait (sem : ptr) : K sem_result :=
  irq_state ← irq_save;
  st ← rd_sem sem s_state;
  if negb (bool_decide (st = SEM_OPEN)) then
    irq_restore irq_state;; mret SEM_CLOSE
  else
    count ← rd_sem sem s_count;
    if count >? 0 then
      upd_sem sem (fun v => set_s_count (u32 (s_count v - 1)) v);;
      irq_restore irq_state;; mret SEM_OK
    else
      task ← gets current_task;
      upd_task task (set_t_state TASK_BLOCKED);;
      upd_task task (set_t_waiting_on sem);;
      upd_task task (set_t_waiting_on_type SEM);;
      w ← rd_task task t_waiting_on;
      upd_sem w (fun v => set_s_references (u32 (s_references v + 1)) v);;
      on_queue (QSem sem) (queue_push task);;
      irq_restore irq_state;; mret SEM_OK_YIELD.

Definition semaphore_post (sem : ptr) : K sem_result :=
  irq_state ← irq_save;
  st ← rd_sem sem s_state;
  if negb (bool_decide (st = SEM_OPEN)) then
    irq_restore irq_state;; mret SEM_CLOSE
  else
    task ← on_queue (QSem sem) queue_pop;
    if negb (task =? NULL) then
      upd_task task (set_t_state TASK_READY);;
      w ← rd_task task t_waiting_on;
      upd_sem w (fun v => set_s_references (u32 (s_references v - 1)) v);;
      upd_task task (set_t_waiting_on NULL);;
      upd_task task (set_t_waiting_on_type NONE);;
      scheduler_put_task task;;
      irq_restore irq_state;; mret SEM_OK_YIELD
    else
      upd_sem sem (fun v => set_s_count (u32 (s_count v + 1)) v);;
      irq_restore irq_state;; mret SEM_OK_YIELD.

Fixpoint semaphore_close_loop (fuel : nat) (sem task : ptr) : K unit :=
  match fuel with
  | O => raise Diverge
  | S fuel =>
      if task =? NULL then mret tt
      else
        upd_task task (set_t_waiting_on NULL);;
        upd_task task (set_t_waiting_on_type NONE);;
        scheduler_put_task task;;
        next ← on_queue (QSem sem) queue_pop;
        semaphore_close_loop fuel sem next
  end.

(** Every turn of the loop takes a task out of the queue, so the number of
    tasks bounds the turns. *)
Definition semaphore_close (sem : ptr) : K unit :=
  irq_state ← irq_save;
  task ← on_queue (QSem sem) queue_pop;
  fuel ← gets (fun s => S (S (size (tasks s))));
  semaphore_close_loop fuel sem task;;
  upd_sem sem (set_s_state SEM_CLOSED);;
  irq_restore irq_state.

(** ** Its specification on lists *)

Definition aupd_sem (p : ptr) (g : semaphore -> semaphore) (a : aview) : aview :=
  amap (set_sems (alter g p (sems (av a)))) a.

Definition block_on (p : ptr) (w : wait_type) (t : tcb) : tcb :=
  set_t_waiting_on_type w (set_t_waiting_on p (set_t_state TASK_BLOCKED t)).
(** A waiter that was granted what it waits for. *)
Definition unwait (t : tcb) : tcb :=
  set_t_waiting_on_type NONE (set_t_waiting_on NULL (set_t_state TASK_READY t)).

Definition asem_take (p : ptr) (a : aview) : aview :=
  aupd_sem p (fun v => set_s_count (s_count v - 1) v) a.
(** The running task goes to the end of the wait queue. *)
Definition asem_block (p : ptr) (a : aview) : aview :=
  aset (QSem p) (aq a (QSem p) ++ [current_task (av a)])
    (aupd_sem p (fun v => set_s_references (u32 (s_references v + 1)) v)
      (aupd_task (current_task (av a)) (block_on p SEM) a)).
(** The task that waits longest becomes ready. *)
Definition asem_grant (p x : ptr) (l : list ptr) (a : aview) : aview :=
  aready x (aset (QSem p) l
    (aupd_sem p (fun v => set_s_references (u32 (s_references v - 1)) v)
      (aupd_task x unwait a))).
Definition asem_bump (p : ptr) (a : aview) : aview :=
  aupd_sem p (fun v => set_s_count (u32 (s_count v + 1)) v) a.

(** [semaphore_close]: the queue is emptied and its tasks stay blocked. *)
Definition forget_wait (t : tcb) : tcb := set_t_waiting_on_type NONE (set_t_waiting_on NULL t).
Fixpoint aforget (l : list ptr) (a : aview) : aview :=
  match l with [] => a | x :: l' => aforget l' (aupd_task x forget_wait a) end.
Definition asem_close (p : ptr) (a : aview) : aview :=
  aupd_sem p (set_s_state SEM_CLOSED) (aset (QSem p) [] (aforget (aq a (QSem p)) a)).

Lemma runs_list_reset a r :
  has_queue r a -> aq a r = [] -> runs a (on_queue r list_reset) tt a.
Proof.
  intros Hr E. eapply runs_equiv; [|apply (runs_on_queue _ _ _ _ [] [] (astale a))]; auto.
  - aview_solve.
  - intros T q _ Hq _. rewrite E in Hq. exists T, q. split_and!; [|done|done|].
    + apply queue_rep_nil in Hq. by subst q.
    + rewrite E. intros x Hx. by apply elem_of_nil in Hx.
  - intros x Hx. by apply elem_of_nil in Hx.
Qed.

Lemma runs_sem_wait_closed a p v :
  sems (av a) !! p = Some v -> s_state v <> SEM_OPEN ->
  runs a (semaphore_wait p) SEM_CLOSE a.
Proof.
  intros Hv Hst. unfold semaphore_wait. run_step. run_step.
  rewrite bool_decide_false by done. cbn [negb].
  eapply runs_bind; [apply runs_irq_restore|]. eapply runs_equiv; [|apply runs_ret].
  aview_solve.
Qed.

Lemma runs_sem_wait_take a p v :
  sems (av a) !! p = Some v -> s_state v = SEM_OPEN -> 0 < s_count v < 2 ^ 32 ->
  runs a (semaphore_wait p) SEM_OK (asem_take p a).
Proof.
  intros Hv Hst Hc. unfold semaphore_wait. run_step. run_step.
  rewrite bool_decide_true by done. cbn [negb]. run_step.
  destruct (Z.gtb_spec (s_count v) 0); [|lia]. run_step.
  eapply runs_bind; [apply runs_irq_restore|]. eapply runs_equiv; [|apply runs_ret].
  unfold asem_take, aupd_sem. rewrite (alter_lookup _ _ _ _ Hv), u32_small by lia. aview_solve.
Qed.

Lemma runs_sem_wait_block a p v t :
  sems (av a) !! p = Some v -> s_state v = SEM_OPEN -> s_count v <= 0 ->
  tasks (av a) !! current_task (av a) = Some t -> current_task (av a) <> NULL ->
  idle (current_task (av a)) a ->
  runs a (semaphore_wait p) SEM_OK_YIELD (asem_block p a).
Proof.
  intros Hv Hst Hc Ht Hn Hi. unfold semaphore_wait. run_step. run_step.
  rewrite bool_decide_true by done. cbn [negb]. run_step.
  destruct (Z.gtb_spec (s_count v) 0); [lia|]. do 5 run_step. cbn [t_waiting_on set_t_waiting_on_type set_t_waiting_on]. run_step.
  eapply runs_bind.
  { eapply runs_queue_push; [eapply has_sem; look|look|done|exact Hi]. }
  cbn beta. eapply runs_bind; [apply runs_irq_restore|]. eapply runs_equiv; [|apply runs_ret].
  unfold asem_block, aupd_sem, aupd_task. cbn.
  rewrite (alter_lookup _ _ _ _ Hv), (alter_lookup _ _ _ _ Ht). aview_solve.
Qed.

Lemma runs_sem_post_closed a p v :
  sems (av a) !! p = Some v -> s_state v <> SEM_OPEN ->
  runs a (semaphore_post p) SEM_CLOSE a.
Proof.
  intros Hv Hst. unfold semaphore_post. run_step. run_step.
  rewrite bool_decide_false by done. cbn [negb].
  eapply runs_bind; [apply runs_irq_restore|]. eapply runs_equiv; [|apply runs_ret].
  aview_solve.
Qed.

Lemma runs_sem_post_bump a p v :
  sems (av a) !! p = Some v -> s_state v = SEM_OPEN -> aq a (QSem p) = [] ->
  runs a (semaphore_post p) SEM_OK_YIELD (asem_bump p a).
Proof.
  intros Hv Hst Hq. unfold semaphore_post. run_step. run_step.
  rewrite bool_decide_true by done. cbn [negb].
  eapply runs_bind; [apply runs_queue_pop_nil; [eapply has_sem; look|done]|]. cbn.
  run_step. eapply runs_bind; [apply runs_irq_restore|]. eapply runs_equiv; [|apply runs_ret].
  unfold asem_bump, aupd_sem. rewrite (alter_lookup _ _ _ _ Hv). aview_solve.
Qed.

Lemma runs_sem_post_grant a p v x l t :
  sems (av a) !! p = Some v -> s_state v = SEM_OPEN -> aq a (QSem p) = x :: l ->
  head_ok a (QSem p) x l t -> t_waiting_on t = p ->
  runs a (semaphore_post p) SEM_OK_YIELD (asem_grant p x l a).
Proof.
  intros Hv Hst Hq [Hx Ht Hl Ho] Hw. unfold semaphore_post. run_step. run_step.
  rewrite bool_decide_true by done. cbn [negb].
  eapply runs_bind; [eapply runs_queue_pop; [eapply has_sem; look|done]|]. cbn beta.
  rewrite (proj2 (Z.eqb_neq _ _) Hx). cbn [negb]. run_step. run_step.
  cbn [t_waiting_on set_t_state]. rewrite Hw. do 3 run_step.
  eapply runs_bind.
  { eapply runs_put_task; [look|done| |].
    - cbn. unfold runnable. naive_solver.
    - intros r Hr. cbn. destruct (decide (QSem p = r)) as [<-|].
      + by rewrite fn_lookup_insert.
      + rewrite fn_lookup_insert_ne by done. by apply Ho. }
  cbn beta. eapply runs_bind; [apply runs_irq_restore|].
  eapply runs_equiv; [|apply runs_ret].
  unfold asem_grant, aready, aupd_sem, aupd_task. cbn.
  rewrite (alter_lookup _ _ _ _ Hv), (alter_lookup _ _ _ _ Ht),
    !(alter_lookup _ x (unwait t)) by look.
  aview_solve.
  apply ins_ext. intros y _. unfold prio. cbn. by rewrite ?insert_insert_eq.
Qed.

Lemma runs_sem_init a p v count :
  sems (av a) !! p = Some v -> aq a (QSem p) = [] ->
  runs a (semaphore_init p count) tt
    (aupd_sem p (fun v => set_s_count (u32 count) (set_s_state SEM_OPEN v)) a).
Proof.
  intros Hv Hq. unfold semaphore_init. run_step. run_step.
  eapply runs_equiv; [|apply runs_list_reset; [eapply has_sem; look|done]].
  unfold aupd_sem. rewrite (alter_lookup _ _ _ _ Hv). aview_solve.
Qed.

Definition blocked (a : aview) (x : ptr) : Prop :=
  x <> NULL /\ exists t, tasks (av a) !! x = Some t /\ t_state t = TASK_BLOCKED.

Lemma blocked_forget a x y l r :
  blocked a y -> blocked (aset r l (aupd_task x forget_wait a)) y.
Proof.
  intros [? (t & Ht & Hst)]. split; [done|]. cbn. rewrite lookup_alter.
  case_decide as E; [|by eauto]. rewrite E, Ht. cbn. eauto.
Qed.

Lemma aforget_aset l r q a : aforget l (aset r q a) = aset r q (aforget l a).
Proof. revert a. induction l as [|x l IH]; intros a; [done|]. cbn. by rewrite <- IH. Qed.

Lemma runs_close_loop fuel p x l a :
  has_queue (QSem p) a -> aq a (QSem p) = l -> Forall (blocked a) (x :: l) ->
  (length l < fuel)%nat ->
  runs a (semaphore_close_loop (S fuel) p x) tt (aset (QSem p) [] (aforget (x :: l) a)).
Proof.
  revert x l a. induction fuel as [|fuel IH]; intros x l a Hp Hl Hb Hf; [lia|].
  apply Forall_cons in Hb as [[Hx (t & Ht & Hst)] Hb].
  cbn [semaphore_close_loop]. rewrite (proj2 (Z.eqb_neq _ _) Hx). run_step. run_step.
  eapply runs_bind.
  { eapply runs_put_task_skip; [look|]. cbn. unfold runnable. rewrite Hst. naive_solver. }
  cbn beta. cbn [aforget].
  set (b := aupd_task x forget_wait a).
  assert (amap (set_tasks (<[x := set_t_waiting_on_type NONE (set_t_waiting_on NULL t)]>
      (<[x := set_t_waiting_on NULL t]> (tasks (av a)))))
      (amap (set_tasks (<[x := set_t_waiting_on NULL t]> (tasks (av a)))) a) ≡ b) as E.
  { unfold b, aupd_task. rewrite (alter_lookup _ _ _ _ Ht). aview_solve. }
  eapply runs_pre; [exact E|]. clear E.
  destruct l as [|y l].
  - eapply runs_bind; [by apply runs_queue_pop_nil|]. cbn beta.
    eapply runs_equiv; [|apply runs_ret].
    aview_solve.
  - eapply runs_bind; [by apply runs_queue_pop|]. cbn beta.
    eapply runs_equiv; [|eapply (IH y l)].
    + rewrite aforget_aset. aview_solve.
    + done.
    + cbn. by rewrite fn_lookup_insert.
    + eapply Forall_impl; [exact Hb|]. intros z. apply blocked_forget.
    + cbn in Hf. lia.
Qed.

Lemma aforget_same l a :
  aq (aforget l a) = aq a /\ sems (av (aforget l a)) = sems (av a) /\
  size (tasks (av (aforget l a))) = size (tasks (av a)) /\
  primask (av (aforget l a)) = primask (av a).
Proof.
  revert a. induction l as [|x l IH]; intros a; [done|]. cbn.
  destruct (IH (aupd_task x forget_wait a)) as (-> & -> & -> & ->). cbn.
  split_and!; [done..| |done]. rewrite <- !size_dom. by rewrite dom_alter_L.
Qed.

Lemma aforget_primask l p a :
  aforget l (amap (set_primask p) a) = amap (set_primask p) (aforget l a).
Proof. revert a. induction l as [|x l IH]; intros a; [done|]. cbn. by rewrite <- IH. Qed.

Lemma runs_sem_close a p v :
  sems (av a) !! p = Some v -> Forall (blocked a) (aq a (QSem p)) ->
  runs a (semaphore_close p) tt (asem_close p a).
Proof.
  intros Hv Hb. apply runs_abs. intros s Hs. pose proof (Abs_length _ _ (QSem p) Hs) as Hlen.
  unfold semaphore_close. run_step.
  set (b := amap (set_primask 1) a). change (aq a) with (aq b) in *.
  eapply runs_equiv with (a1 := amap (set_primask (primask (av a)))
    (aupd_sem p (set_s_state SEM_CLOSED) (aset (QSem p) [] (aforget (aq b (QSem p)) b)))).
  { unfold asem_close, b. cbn. rewrite aforget_primask.
    destruct (aforget_same (aq a (QSem p)) a) as (_ & _ & _ & <-).
    destruct (aforget (aq a (QSem p)) a) as [[] q X]. aview_solve. }
  pose proof (has_sem b p v Hv) as Hp.
  assert (forall c, sems (av c) = sems (av b) ->
    runs c (upd_sem p (set_s_state SEM_CLOSED);; irq_restore (primask (av a))) tt
      (amap (set_primask (primask (av a))) (aupd_sem p (set_s_state SEM_CLOSED) c))) as Hend.
  { intros c Ec. unfold aupd_sem. rewrite Ec, (alter_lookup _ _ _ _ Hv).
    eapply runs_bind; [|apply runs_irq_restore]. eapply runs_equiv; [|eapply runs_upd_sem].
    - by rewrite Ec. - by rewrite Ec. - done. - done. }
  destruct (aq b (QSem p)) as [|x l] eqn:El.
  - eapply runs_bind; [by apply runs_queue_pop_nil|]. cbn beta.
    eapply runs_bind; [apply runs_task_fuel|]. eapply runs_bind; [apply runs_ret|].
    eapply runs_equiv; [|by apply Hend]. aview_solve.
  - eapply runs_bind; [by apply runs_queue_pop|]. cbn beta.
    eapply runs_bind; [apply runs_task_fuel|]. cbn beta.
    eapply runs_bind.
    { apply (runs_close_loop _ p x l); [done|apply fn_lookup_insert| |].
      - eapply Forall_impl; [exact Hb|]. by intros y.
      - cbn [length] in Hlen. cbn. lia. }
    eapply runs_equiv; [|apply Hend].
    + rewrite aforget_aset. aview_solve.
    + cbn [aset av]. apply (aforget_same (x :: l) (aset _ _ b)).
Qed.
