(* ===== verification/Invariant.v ===== *)
(** * The invariant of the kernel state

    A well-formed kernel state keeps every task in the one queue its state
    names, keeps the ready and the mutex queues in priority order, links the
    mutexes of each owner, and gives every task exactly the priority it
    inherits.  The scheduler, the sleep list, semaphores and mutexes preserve
    it; see [Kernel.v]. *)
From S2P Require Import Prelude KState Queue Abs Scheduler Sleep Semaphore.

(** ** Lists of owned mutexes *)

Fixpoint mseg (M : gmap ptr mutex) (p : ptr) (l : list ptr) : Prop :=
  match l with
  | [] => p = NULL
  | m :: l' => p = m /\ m <> NULL /\ exists v, M !! m = Some v /\ mseg M (m_next_owned v) l'
  end.

Lemma mseg_ext M M' p l :
  (forall m, m ∈ l -> m_next_owned <$> M' !! m = m_next_owned <$> M !! m) ->
  mseg M p l -> mseg M' p l.
Proof.
  revert p. induction l as [|m l IH]; intros p E; [done|].
  intros (-> & ? & v & Hv & Hl). split_and!; [done..|].
  pose proof (E m ltac:(set_solver)) as Em. rewrite Hv in Em.
  destruct (M' !! m) as [v'|]; [|done]. apply (inj Some) in Em. exists v'.
  split; [done|]. rewrite Em. apply IH; [|done]. set_solver.
Qed.

Lemma mseg_elem M p l m :
  mseg M p l -> m ∈ l -> m <> NULL /\ exists v, M !! m = Some v.
Proof.
  revert p. induction l as [|m' l IH]; intros p; [by intros _ ?%elem_of_nil|].
  intros (_ & ? & v & ? & ?) [-> | ?]%elem_of_cons; [by eauto|]. by eapply IH.
Qed.

Lemma mseg_length M p l : mseg M p l -> NoDup l -> (length l <= size M)%nat.
Proof.
  intros Hl Hnd. rewrite <- size_dom. apply NoDup_length_subset; [done|].
  intros m [_ [v ?]]%(mseg_elem _ _ _ _ Hl). by eapply elem_of_dom_2.
Qed.

(** The address a list starts at. *)
Lemma mseg_hd M p l : mseg M p l -> p = List.hd NULL l.
Proof. destruct l; cbn; [done|]. by intros [? _]. Qed.

(** ** The invariant *)

(** The queue a task belongs to. *)
Definition place (t : tcb) : option qref :=
  match t_state t, t_waiting_on_type t with
  | TASK_READY, _ => Some QReady
  | TASK_SLEEPING, _ => Some QSleep
  | TASK_BLOCKED, SEM => Some (QSem (t_waiting_on t))
  | TASK_BLOCKED, MUTEX => Some (QMutex (t_waiting_on t))
  | _, _ => None
  end.

(** What holds of every abstract state that represents a concrete one. *)
Record kbase (a : aview) : Prop := {
  kb_known : forall x r, x ∈ aq a r -> x <> NULL /\ exists t, tasks (av a) !! x = Some t;
  kb_queue : forall x r, x ∈ aq a r -> has_queue r a;
  kb_nodup : forall r, NoDup (aq a r);
  kb_null : tasks (av a) !! NULL = None;
}.

Lemma Abs_base s a : Abs s a -> kbase a.
Proof.
  intros Hs. split.
  - intros x r. by apply (Abs_queued s).
  - intros x r Hx. unfold has_queue. rewrite <- (abs_strip _ _ Hs), load_list_strip.
    destruct (load_list r s) eqn:E; [eauto|].
    rewrite (abs_none _ _ Hs _ E) in Hx. by apply elem_of_nil in Hx.
  - intros r. by eapply Abs_NoDup.
  - by eapply Abs_null_view.
Qed.

Record kwf (a : aview) : Prop := {
  wf_place : forall x t r, tasks (av a) !! x = Some t -> x ∈ aq a r <-> place t = Some r;
  wf_free : forall m v, mutexes (av a) !! m = Some v -> m_owner v = NULL ->
    aq a (QMutex m) = [];
  wf_owner : forall m v, mutexes (av a) !! m = Some v -> m_owner v <> NULL ->
    exists t, tasks (av a) !! m_owner v = Some t;
}.

Record kord (a : aview) : Prop := {
  ord_ready : ordered (prio a) (aq a QReady);
  ord_mutex : forall m, ordered (prio a) (aq a (QMutex m));
}.

(** The mutexes a task links are those it owns. *)
Definition owned_list (a : aview) (x : ptr) (t : tcb) (l : list ptr) : Prop :=
  mseg (mutexes (av a)) (t_owned_mutexes t) l /\ NoDup l /\
  forall m, m ∈ l <-> exists v, mutexes (av a) !! m = Some v /\ m_owner v = x.
Definition kowned (a : aview) : Prop :=
  forall x t, tasks (av a) !! x = Some t -> exists l, owned_list a x t l.

(** A task blocks on a semaphore only while it is open and has no units. *)
Record ksem (a : aview) : Prop := {
  sem_wait : forall p v, sems (av a) !! p = Some v -> aq a (QSem p) <> [] ->
    s_state v = SEM_OPEN /\ s_count v = 0;
  sem_word : forall p v, sems (av a) !! p = Some v -> 0 <= s_count v < 2 ^ 32;
}.

(** [w] waits for a mutex that [x] owns. *)
Definition waits_for (a : aview) (w x : ptr) : Prop :=
  exists m v, mutexes (av a) !! m = Some v /\ m_owner v = x /\ w ∈ aq a (QMutex m).

(** The effective priority of [x] is the highest of its own and of those of
    the tasks that wait for it. *)
Record inherits (a : aview) (x : ptr) (t : tcb) : Prop := {
  inh_base : t_effective_priority t <= t_base_priority t;
  inh_wait : forall w, waits_for a w x -> t_effective_priority t <= prio a w;
  inh_exact : t_effective_priority t = t_base_priority t \/
    exists w, waits_for a w x /\ t_effective_priority t = prio a w;
}.
Definition kpi (a : aview) : Prop :=
  forall x t, tasks (av a) !! x = Some t -> inherits a x t.

Record kinv (a : aview) : Prop := {
  ki_wf : kwf a;
  ki_ord : kord a;
  ki_sleep : ordered (tick a) (aq a QSleep);
  ki_owned : kowned a;
  ki_sem : ksem a;
  ki_pi : kpi a;
  ki_stale : astale a = ∅;
}.

(** The state of a slot that holds no live task. *)
Definition dead (t : tcb) : Prop := t_state t = TASK_UNUSED \/ t_state t = TASK_FINISHED.

(** The running task is the current one, and a slot without a live task owns
    no mutex. *)
Record kcur (a : aview) : Prop := {
  kc_running : forall x t, tasks (av a) !! x = Some t -> t_state t = TASK_RUNNING ->
    x = current_task (av a);
  kc_current : current_task (av a) = NULL \/
    exists t, tasks (av a) !! current_task (av a) = Some t;
  kc_dead : forall x t, tasks (av a) !! x = Some t -> dead t -> t_owned_mutexes t = NULL;
}.

(** ** Moving one task

    Most operations take one task out of a queue, change its state and put it
    into another queue.  [moved a a' x t t'] says that [a'] differs from [a] in
    that way only, as far as queues ordered by priority and mutexes go. *)
Record moved (a a' : aview) (x : ptr) (t t' : tcb) : Prop := {
  mv_task : tasks (av a) !! x = Some t;
  mv_tasks : tasks (av a') = <[x := t']> (tasks (av a));
  mv_mutexes : mutexes (av a') = mutexes (av a);
  mv_eff : t_effective_priority t' = t_effective_priority t;
  mv_base : t_base_priority t' = t_base_priority t;
  mv_owned : t_owned_mutexes t' = t_owned_mutexes t;
  mv_qmutex : forall m, aq a' (QMutex m) = aq a (QMutex m);
  mv_others : forall r y, y <> x -> y ∈ aq a' r <-> y ∈ aq a r;
  mv_place : forall r, x ∈ aq a' r <-> place t' = Some r;
  mv_stale : astale a' = ∅;
}.

Section moved.
Context (a a' : aview) (x : ptr) (t t' : tcb) (H : moved a a' x t t').

Lemma moved_lookup y ty :
  tasks (av a') !! y = Some ty ->
  (y = x /\ ty = t') \/ (y <> x /\ tasks (av a) !! y = Some ty).
Proof using H.
  rewrite (mv_tasks _ _ _ _ _ H). intros [[<- <-]|[? ?]]%lookup_insert_Some; auto.
Qed.

Lemma moved_prio y : prio a' y = prio a y.
Proof using H.
  unfold prio. rewrite (mv_tasks _ _ _ _ _ H).
  eapply key_of_insert; [apply (mv_task _ _ _ _ _ H)|apply (mv_eff _ _ _ _ _ H)].
Qed.

Lemma moved_waits w z : waits_for a' w z <-> waits_for a w z.
Proof using H.
  unfold waits_for. rewrite (mv_mutexes _ _ _ _ _ H).
  by setoid_rewrite (mv_qmutex _ _ _ _ _ H).
Qed.

(** Only the priorities and the owned mutexes of [x] matter for inheritance. *)
Lemma moved_inherits y ty : tasks (av a') !! y = Some ty -> kpi a -> inherits a' y ty.
Proof using H.
  intros Hy Hpi.
  assert (exists ty0, tasks (av a) !! y = Some ty0 /\
    t_effective_priority ty0 = t_effective_priority ty /\
    t_base_priority ty0 = t_base_priority ty) as (ty0 & Hy0 & E1 & E2).
  { apply moved_lookup in Hy as [[-> ->]|[_ Hy]]; [|by eauto].
    exists t. by rewrite (mv_eff _ _ _ _ _ H), (mv_base _ _ _ _ _ H), (mv_task _ _ _ _ _ H). }
  destruct (Hpi _ _ Hy0) as [H1 H2 H3]. rewrite E1, ?E2 in *. split; [done| |].
  - intros w Hw%moved_waits. rewrite moved_prio. auto.
  - destruct H3 as [?|(w & Hw & E)]; [auto|right]. exists w. by rewrite moved_waits, moved_prio.
Qed.

Lemma moved_kinv :
  kinv a -> ordered (prio a) (aq a' QReady) -> ordered (tick a') (aq a' QSleep) -> ksem a' ->
  kinv a'.
Proof using H.
  intros [[P1 P2 P3] [O1 O2] _ Hown _ Hpi _] HR HS Hsem. split; [split|split|..]; try done.
  - intros y ty r [[-> ->]|[Hne Hy]]%moved_lookup; [apply (mv_place _ _ _ _ _ H)|].
    rewrite (mv_others _ _ _ _ _ H) by done. by apply P1.
  - intros m v. rewrite (mv_mutexes _ _ _ _ _ H), (mv_qmutex _ _ _ _ _ H). apply P2.
  - intros m v. rewrite (mv_mutexes _ _ _ _ _ H), (mv_tasks _ _ _ _ _ H). intros Hv Ho.
    destruct (P3 m v Hv Ho). rewrite lookup_insert. case_decide; eauto.
  - eapply ordered_ext; [|exact HR]. intros. by rewrite moved_prio.
  - intros m. rewrite (mv_qmutex _ _ _ _ _ H). eapply ordered_ext; [|apply O2].
    intros. by rewrite moved_prio.
  - intros y ty Hy. unfold owned_list. rewrite (mv_mutexes _ _ _ _ _ H).
    apply moved_lookup in Hy as [[-> ->]|[_ Hy]]; [|by apply Hown].
    rewrite (mv_owned _ _ _ _ _ H). apply Hown, H.
  - intros y ty Hy. by apply moved_inherits.
  - apply (mv_stale _ _ _ _ _ H).
Qed.

Lemma moved_kcur :
  kcur a -> current_task (av a') = current_task (av a) ->
  (t_state t' = TASK_RUNNING -> x = current_task (av a)) ->
  (dead t' -> t_owned_mutexes t = NULL) -> kcur a'.
Proof using H.
  intros [C1 C2 C3] Ec Hr Hd. split; rewrite ?Ec.
  - intros y ty [[-> ->]|[_ Hy]]%moved_lookup; [done|by eapply C1].
  - destruct C2 as [?|[tc Htc]]; [auto|right]. rewrite (mv_tasks _ _ _ _ _ H), lookup_insert.
    case_decide; eauto.
  - intros y ty [[-> ->]|[_ Hy]]%moved_lookup; [|by eapply C3].
    rewrite (mv_owned _ _ _ _ _ H). done.
Qed.
End moved.
