(* ===== verification/Mutex.v ===== *)
(** * Mutexes with priority inheritance ([semaphore.c], [tcb.c]) *)
From S2P Require Import Prelude KState Queue Abs Scheduler Semaphore Invariant.

(** ** The code *)

Definition mutex_init (m : ptr) : K unit :=
  upd_mutex m (set_m_state SEM_OPEN);;
  upd_mutex m (set_m_owner NULL);;
  on_queue (QMutex m) list_reset;;
  upd_mutex m (set_m_next_owned NULL).

(** [mutex_queue_push(&task->owned_mutexes, m)] *)
Definition mutex_queue_push (task m : ptr) : K unit :=
  h ← rd_task task t_owned_mutexes;
  upd_mutex m (set_m_next_owned h);;
  upd_task task (set_t_owned_mutexes m).

(** A list of owned mutexes without repetition is no longer than the number of
    mutexes; a cyclic one exhausts the fuel. *)
Definition owned_fuel : K nat := gets (fun s => S (size (mutexes s))).

Fixpoint mutex_queue_remove_loop (fuel : nat) (m tmp prev : ptr) : K unit :=
  match fuel with
  | O => raise Diverge
  | S fuel =>
      if tmp =? NULL then mret tt
      else if tmp =? m then
        n ← rd_mutex tmp m_next_owned;
        upd_mutex prev (set_m_next_owned n);;
        upd_mutex tmp (set_m_next_owned NULL)
      else
        n ← rd_mutex tmp m_next_owned;
        mutex_queue_remove_loop fuel m n tmp
  end.

(** [mutex_queue_remove(&task->owned_mutexes, m)] *)
Definition mutex_queue_remove (task m : ptr) : K unit :=
  h ← rd_task task t_owned_mutexes;
  if m =? h then
    n ← rd_mutex m m_next_owned;
    upd_task task (set_t_owned_mutexes n);;
    upd_mutex m (set_m_next_owned NULL)
  else
    fuel ← owned_fuel;
    mutex_queue_remove_loop fuel m h NULL.

(** [priority_queue_reoder] on the wait queue of a mutex is done with the
    interrupts masked by the caller. *)
Fixpoint task_raise_priority (fuel : nat) (task : ptr) (prio : Z) : K unit :=
  match fuel with
  | O => raise Diverge
  | S fuel =>
      ep ← rd_task task t_effective_priority;
      if ep <=? prio then mret tt
      else
        upd_task task (set_t_effective_priority prio);;
        st ← rd_task task t_state;
        whenb (bool_decide (st = TASK_READY)) (scheduler_reorder task);;
        st ← rd_task task t_state;
        wt ← rd_task task t_waiting_on_type;
        if bool_decide (st = TASK_BLOCKED) && bool_decide (wt = MUTEX) then
          w ← rd_task task t_waiting_on;
          on_queue (QMutex w) (priority_queue_reoder task);;
          o ← rd_mutex w m_owner;
          if negb (o =? NULL) then task_raise_priority fuel o prio else mret tt
        else mret tt
  end.

(** Every call of the recursion lowers the priority value of one more task to
    [prio], so the number of tasks bounds its depth. *)
Definition mutex_lock (m : ptr) : K sem_result :=
  irq_state ← irq_save;
  o ← rd_mutex m m_owner;
  task ← gets current_task;
  if o =? NULL then
    upd_mutex m (set_m_owner task);;
    mutex_queue_push task m;;
    irq_restore irq_state;; mret SEM_OK
  else if o =? task then
    irq_restore irq_state;; mret MUTEX_DEADLOCK
  else
    upd_task task (set_t_state TASK_BLOCKED);;
    upd_task task (set_t_waiting_on m);;
    upd_task task (set_t_waiting_on_type MUTEX);;
    on_queue (QMutex m) (priority_queue_push task);;
    o ← rd_mutex m m_owner;
    ep ← rd_task task t_effective_priority;
    fuel ← gets (fun s => S (S (size (tasks s))));
    task_raise_priority fuel o ep;;
    irq_restore irq_state;; mret SEM_OK_YIELD.

(** [tcb.c] *)
Fixpoint task_recalculate_loop (fuel : nat) (mutex : ptr) (priority : Z) : K Z :=
  match fuel with
  | O => raise Diverge
  | S fuel =>
      if mutex =? NULL then mret priority
      else
        waiter ← rd_mutex mutex (fun v => q_head (m_wait_queue v));
        priority' ← (if negb (waiter =? NULL) then
                       ep ← rd_task waiter t_effective_priority;
                       mret (if priority >? ep then ep else priority)
                     else mret priority);
        n ← rd_mutex mutex m_next_owned;
        task_recalculate_loop fuel n priority'
  end.

Definition task_recalculate_priority (task : ptr) : K Z :=
  p ← rd_task task t_base_priority;
  m ← rd_task task t_owned_mutexes;
  fuel ← owned_fuel;
  task_recalculate_loop fuel m p.

Definition mutex_unlock (m : ptr) : K sem_result :=
  irq_state ← irq_save;
  o ← rd_mutex m m_owner;
  cur ← gets current_task;
  if negb (o =? cur) then
    irq_restore irq_state;; mret MUTEX_NOT_OWNER
  else
    next ← on_queue (QMutex m) priority_queue_pop;
    upd_mutex m (set_m_owner next);;
    whenb (negb (next =? NULL))
      (upd_task next (set_t_state TASK_READY);;
       upd_task next (set_t_waiting_on NULL);;
       upd_task next (set_t_waiting_on_type NONE);;
       mutex_queue_push next m;;
       p ← task_recalculate_priority next;
       upd_task next (set_t_effective_priority p);;
       scheduler_put_task next);;
    mutex_queue_remove cur m;;
    p ← task_recalculate_priority cur;
    upd_task cur (set_t_effective_priority p);;
    lower ← ((if negb (next =? NULL) then
                pn ← rd_task next t_effective_priority;
                pc ← rd_task cur t_effective_priority;
                mret (pn <? pc)
              else mret false) : K bool);
    irq_restore irq_state;;
    mret (if lower : bool then SEM_OK_YIELD else SEM_OK).

Fixpoint get_waiting_loop (fuel : nat) (tmp : ptr) (count : Z) : K Z :=
  match fuel with
  | O => raise Diverge
  | S fuel =>
      if tmp =? NULL then mret count
      else
        n ← rd_task tmp t_next;
        get_waiting_loop fuel n (u32 (count + 1))
  end.

Definition mutex_get_waiting (m : ptr) : K Z :=
  tmp ← rd_mutex m (fun v => q_head (m_wait_queue v));
  fuel ← gets (fun s => S (S (size (tasks s))));
  get_waiting_loop fuel tmp 0.

Fixpoint unlock_all_loop (fuel : nat) (tmp : ptr) : K unit :=
  match fuel with
  | O => raise Diverge
  | S fuel =>
      if tmp =? NULL then mret tt
      else
        r ← mutex_unlock tmp;
        n ← rd_mutex tmp m_next_owned;
        unlock_all_loop fuel n
  end.

Definition mutex_unlock_all_owned (m : ptr) : K unit :=
  fuel ← owned_fuel;
  unlock_all_loop fuel m.

(** ** Priorities of waiters *)

(** The highest priority of a task that waits for [m], against [p]. *)
Definition wait_min (a : aview) (p : Z) (m : ptr) : Z :=
  match aq a (QMutex m) with
  | [] => p
  | w :: _ => if p >? prio a w then prio a w else p
  end.
Definition recalc (a : aview) (l : list ptr) (p : Z) : Z := foldl (wait_min a) p l.

Lemma runs_mutex_head a m v :
  mutexes (av a) !! m = Some v ->
  runs a (rd_mutex m (fun v => q_head (m_wait_queue v))) (List.hd NULL (aq a (QMutex m))) a.
Proof.
  intros Hv s Hs. destruct (Abs_mutex _ _ _ _ Hs Hv) as (v' & Hv' & _).
  exists s. split; [|done]. unfold rd_mutex, fetch. rewrite Hv'. cbn. do 2 f_equal.
  destruct (abs_queue _ _ Hs (QMutex m) (m_wait_queue v')) as (Hl & _).
  { cbn. by rewrite Hv'. }
  destruct (aq a (QMutex m)); [done|]. by destruct Hl.
Qed.

Lemma runs_recalc_loop a fuel m l p :
  mseg (mutexes (av a)) m l -> (length l < fuel)%nat ->
  runs a (task_recalculate_loop fuel m p) (recalc a l p) a.
Proof.
  revert m l p. induction fuel as [|fuel IH]; intros m l p Hl Hf; [lia|].
  cbn [task_recalculate_loop]. destruct l as [|m' l].
  { cbn in Hl. subst m. apply runs_ret. }
  destruct Hl as (-> & Hn & v & Hv & Hl). rewrite (proj2 (Z.eqb_neq _ _) Hn).
  eapply runs_bind; [by eapply runs_mutex_head|]. cbn beta.
  assert (recalc a (m' :: l) p = recalc a l (wait_min a p m')) as -> by done.
  apply runs_abs. intros s Hs.
  eapply runs_bind with (v := wait_min a p m') (a1 := a).
  { unfold wait_min. destruct (aq a (QMutex m')) as [|w ws] eqn:Ew; [apply runs_ret|]. cbn [List.hd].
    destruct (Abs_queued s a (QMutex m') w Hs) as [Hw [t Ht]]; [rewrite Ew; by left|].
    rewrite (proj2 (Z.eqb_neq _ _) Hw). cbn [negb]. run_step.
    rewrite (prio_lookup _ _ _ Ht). apply runs_ret. }
  run_step. apply IH; [done|]. cbn in Hf. lia.
Qed.

Lemma runs_owned_fuel a : runs a owned_fuel (S (size (mutexes (av a)))) a.
Proof. apply runs_gets. intros s. cbn. by rewrite map_size_fmap. Qed.

Lemma runs_recalculate a x t l :
  tasks (av a) !! x = Some t -> mseg (mutexes (av a)) (t_owned_mutexes t) l -> NoDup l ->
  runs a (task_recalculate_priority x) (recalc a l (t_base_priority t)) a.
Proof.
  intros Ht Hl Hnd. unfold task_recalculate_priority. run_step. run_step.
  eapply runs_bind; [apply runs_owned_fuel|]. cbn beta.
  apply runs_recalc_loop; [done|]. pose proof (mseg_length _ _ _ Hl Hnd). lia.
Qed.

(** ** Raising priorities along a chain of owners *)

Definition aupd_mutex (m : ptr) (g : mutex -> mutex) (a : aview) : aview :=
  amap (set_mutexes (alter g m (mutexes (av a)))) a.

(** Sets the priority of [x] and moves [x] behind the tasks of its new
    priority in the queue that is ordered by priority, if it is in one. *)
Definition aset_prio (x : ptr) (t : tcb) (p : Z) (a : aview) : aview :=
  let a1 := aupd_task x (set_t_effective_priority p) a in
  match place t with
  | Some QReady => areorder QReady x a1
  | Some (QMutex m) => areorder (QMutex m) x a1
  | _ => a1
  end.

(** The owner of the mutex a task waits for. *)
Definition blocker (a : aview) (t : tcb) : option ptr :=
  match place t with
  | Some (QMutex m) =>
      match mutexes (av a) !! m with
      | Some v => if m_owner v =? NULL then None else Some (m_owner v)
      | None => None
      end
  | _ => None
  end.

Fixpoint araise (fuel : nat) (x : ptr) (p : Z) (a : aview) : aview :=
  match fuel, tasks (av a) !! x with
  | S fuel, Some t =>
      if t_effective_priority t <=? p then a
      else
        match blocker a t with
        | Some o => araise fuel o p (aset_prio x t p a)
        | None => aset_prio x t p a
        end
  | _, _ => a
  end.

(** The tasks whose priority is still to be raised to [p]. *)
Definition below (p : Z) (a : aview) : nat :=
  size (filter (fun '(_, t) => p < t_effective_priority t) (tasks (av a))).

Lemma tasks_set_prio x t p a :
  tasks (av (aset_prio x t p a)) = alter (set_t_effective_priority p) x (tasks (av a)).
Proof. unfold aset_prio. by destruct (place t) as [[]|]. Qed.
Lemma mutexes_set_prio x t p a : mutexes (av (aset_prio x t p a)) = mutexes (av a).
Proof. unfold aset_prio. by destruct (place t) as [[]|]. Qed.
Lemma sems_set_prio x t p a : sems (av (aset_prio x t p a)) = sems (av a).
Proof. unfold aset_prio. by destruct (place t) as [[]|]. Qed.
Lemma astale_set_prio x t p a : astale (aset_prio x t p a) = astale a.
Proof. unfold aset_prio. by destruct (place t) as [[]|]. Qed.

Lemma below_raise x t p a :
  tasks (av a) !! x = Some t -> p < t_effective_priority t ->
  (S (below p (aset_prio x t p a)) <= below p a)%nat.
Proof.
  intros Ht Hp. unfold below. rewrite tasks_set_prio, (alter_lookup _ _ _ _ Ht).
  rewrite map_filter_insert_False by (cbn; lia).
  rewrite map_filter_delete, map_size_delete_Some by
    (eexists; apply map_lookup_filter_Some; split; [exact Ht|done]).
  assert (filter (fun '(_, t) => p < t_effective_priority t) (tasks (av a)) !! x = Some t) as E
    by (by apply map_lookup_filter_Some).
  set (M := filter _ _) in *.
  destruct (size _) eqn:Es; [|lia]. apply map_size_empty_inv in Es. rewrite Es in E. done.
Qed.

Lemma elem_areorder r x a y r' :
  x ∈ aq a r -> y ∈ aq (areorder r x a) r' <-> y ∈ aq a r'.
Proof.
  intros Hx. unfold areorder. cbn. destruct (decide (r = r')) as [<-|].
  - rewrite fn_lookup_insert, elem_of_ins, elem_of_del. split.
    + by intros [-> | [_ ?]].
    + intros Hy. destruct (decide (y = x)); tauto.
  - by rewrite fn_lookup_insert_ne.
Qed.

Lemma elem_set_prio x t p a y r :
  kwf a -> tasks (av a) !! x = Some t -> y ∈ aq (aset_prio x t p a) r <-> y ∈ aq a r.
Proof.
  intros Ha Ht. unfold aset_prio. destruct (place t) as [r0|] eqn:E; [|done].
  assert (x ∈ aq a r0) by (by eapply wf_place).
  destruct r0; try done; by rewrite elem_areorder.
Qed.

Lemma place_prio p t : place (set_t_effective_priority p t) = place t.
Proof. done. Qed.

Lemma lookup_set_prio x t p a y ty :
  tasks (av (aset_prio x t p a)) !! y = Some ty ->
  exists ty0, tasks (av a) !! y = Some ty0 /\
    ty = if decide (y = x) then set_t_effective_priority p ty0 else ty0.
Proof.
  rewrite tasks_set_prio, lookup_alter. case_decide as E.
  - subst. destruct (tasks (av a) !! y) as [t0|]; cbn; [|done]. intros [= <-].
    exists t0. by rewrite decide_True.
  - intros Hy. exists ty. by rewrite decide_False.
Qed.

Lemma kwf_set_prio x t p a :
  kwf a -> tasks (av a) !! x = Some t -> kwf (aset_prio x t p a).
Proof.
  intros Ha Ht. split.
  - intros y ty r Hy. rewrite (elem_set_prio _ _ _ _ _ _ Ha Ht).
    destruct (lookup_set_prio _ _ _ _ _ _ Hy) as (ty0 & Hy0 & ->).
    rewrite (wf_place _ Ha _ _ r Hy0). by case_decide.
  - intros m v Hv Ho. rewrite mutexes_set_prio in Hv.
    destruct (aq (aset_prio x t p a) (QMutex m)) as [|y l] eqn:E; [done|].
    assert (y ∈ aq a (QMutex m)) as Hy.
    { apply (elem_set_prio x t p a y (QMutex m) Ha Ht). rewrite E. by left. }
    rewrite (wf_free _ Ha _ _ Hv Ho) in Hy. by apply elem_of_nil in Hy.
  - intros m v Hv Ho. rewrite mutexes_set_prio in Hv.
    destruct (wf_owner _ Ha _ _ Hv Ho) as [t' Ht']. rewrite tasks_set_prio, lookup_alter.
    case_decide; subst; rewrite ?Ht'; cbn; eauto.
Qed.

Lemma runs_scheduler_reorder a x :
  x ∈ aq a QReady -> x ∉ astale a ->
  runs a (scheduler_reorder x) tt (areorder QReady x a).
Proof.
  intros Hx HX. unfold scheduler_reorder. run_step.
  eapply runs_bind; [by apply runs_priority_queue_reoder|].
  eapply runs_equiv; [|apply runs_irq_restore]. aview_solve.
Qed.

(** The recursion ends and does what the chain of owners asks for. *)
Lemma runs_raise fuel a x t p :
  kwf a -> astale a = ∅ -> tasks (av a) !! x = Some t -> (below p a < fuel)%nat ->
  runs a (task_raise_priority fuel x p) tt (araise fuel x p a).
Proof.
  revert a x t. induction fuel as [|fuel IH]; intros a x t Ha HX Ht Hf; [lia|].
  cbn [task_raise_priority araise]. rewrite Ht. run_step.
  destruct (Z.leb_spec (t_effective_priority t) p) as [|Hp]; [apply runs_ret|].
  pose proof (below_raise x t p a Ht Hp) as Hb.
  pose proof (kwf_set_prio x t p a Ha Ht) as Ha'.
  pose proof (fun r => proj2 (wf_place _ Ha x t r Ht)) as Hpl.
  set (t1 := set_t_effective_priority p t).
  assert (aupd_task x (set_t_effective_priority p) a =
          amap (set_tasks (<[x := t1]> (tasks (av a)))) a) as E1
    by (unfold aupd_task; by rewrite (alter_lookup _ _ _ _ Ht)).
  set (a1 := amap (set_tasks (<[x := t1]> (tasks (av a)))) a) in *.
  assert (tasks (av a1) !! x = Some t1) as Ht1 by apply lookup_insert_eq.
  set (b := if decide (t_state t = TASK_READY) then areorder QReady x a1 else a1).
  assert (tasks (av b) !! x = Some t1) as Htb by (unfold b; by case_decide).
  run_step. fold t1 a1. run_step. cbn [t_state t1 set_t_effective_priority].
  eapply runs_bind with (a1 := b).
  { unfold b. case_decide as Hst; bdec; [|apply runs_ret].
    apply runs_scheduler_reorder; [|cbn; rewrite HX; set_solver].
    apply Hpl. unfold place. by rewrite Hst. }
  cbn beta. run_step. run_step. cbn [t_state t_waiting_on_type t1 set_t_effective_priority].
  unfold blocker, aset_prio in *. rewrite E1 in *.
  destruct (decide (t_state t = TASK_BLOCKED /\ t_waiting_on_type t = MUTEX)) as [[Hst Hwt]|Hno].
  - assert (place t = Some (QMutex (t_waiting_on t))) as Epl by (unfold place; by rewrite Hst, Hwt).
    rewrite Epl in *. assert (b = a1) as -> by (unfold b; by rewrite decide_False by congruence).
    bdec. run_step. cbn [t_waiting_on t1 set_t_effective_priority].
    pose proof (Hpl _ eq_refl) as Hxq.
    eapply runs_bind; [apply runs_priority_queue_reoder; [done|cbn; rewrite HX; set_solver]|].
    cbn beta. apply runs_abs. intros s Hs.
    destruct (kb_queue _ (Abs_base _ _ Hs) x (QMutex (t_waiting_on t))) as [q Hq].
    { by apply elem_areorder. }
    cbn in Hq. destruct (mutexes (av a) !! t_waiting_on t) as [v|] eqn:Hv; [|done].
    run_step. destruct (Z.eqb_spec (m_owner v) NULL) as [Ho|Ho]; cbn [negb]; [apply runs_ret|].
    destruct (wf_owner _ Ha _ _ Hv Ho) as [to Hto].
    destruct (decide (m_owner v = x)) as [Eo|Eo].
    + apply (IH _ _ t1); [done|done| |lia]. cbn. by rewrite Eo, lookup_insert_eq.
    + apply (IH _ _ to); [done|done| |lia]. cbn. by rewrite lookup_insert_ne.
  - assert ((bool_decide (t_state t = TASK_BLOCKED) && bool_decide (t_waiting_on_type t = MUTEX))
      = false) as ->.
    { destruct (bool_decide_reflect (t_state t = TASK_BLOCKED)); [|done].
      destruct (bool_decide_reflect (t_waiting_on_type t = MUTEX)); [|done]. by destruct Hno. }
    cbn [andb]. eapply runs_equiv; [|apply runs_ret]. unfold b, place.
    destruct (t_state t); try done. destruct (t_waiting_on_type t); try done.
    by destruct Hno.
Qed.

(** ** Raising keeps the queues in order *)

Lemma prio_set_prio x t p a y :
  tasks (av a) !! x = Some t ->
  prio (aset_prio x t p a) y = if decide (y = x) then p else prio a y.
Proof.
  intros Ht. unfold prio, key_of. rewrite tasks_set_prio, lookup_alter. case_decide as E.
  - subst. rewrite decide_True, Ht by done. done.
  - by rewrite decide_False by congruence.
Qed.

Lemma aq_set_prio x t p a r :
  (r = QReady \/ exists m, r = QMutex m) ->
  aq (aset_prio x t p a) r =
    if decide (place t = Some r)
    then ins (prio (aset_prio x t p a)) x (del x (aq a r)) else aq a r.
Proof.
  intros Hr. unfold aset_prio. destruct (place t) as [r0|]; [|by rewrite decide_False].
  destruct (decide (r0 = r)) as [->|Hne].
  - rewrite decide_True by done. destruct Hr as [->|[m ->]]; cbn; by rewrite fn_lookup_insert.
  - rewrite decide_False by congruence.
    destruct r0; cbn; rewrite ?fn_lookup_insert_ne by done; done.
Qed.

Lemma ordered_set_prio x t p a r :
  kwf a -> tasks (av a) !! x = Some t -> (r = QReady \/ exists m, r = QMutex m) ->
  ordered (prio a) (aq a r) ->
  ordered (prio (aset_prio x t p a)) (aq (aset_prio x t p a) r).
Proof.
  intros Ha Ht Hr Ho. rewrite aq_set_prio by done. case_decide as Hp.
  - apply ordered_ins. apply ordered_ext with (k := prio a); [|by apply ordered_del].
    intros y [? _]%elem_of_del. rewrite (prio_set_prio _ _ _ _ _ Ht).
    by rewrite decide_False.
  - apply ordered_ext with (k := prio a); [|done].
    intros y Hy. rewrite (prio_set_prio _ _ _ _ _ Ht), decide_False; [done|].
    intros ->. apply Hp. by eapply wf_place.
Qed.

Lemma kord_set_prio x t p a :
  kwf a -> kord a -> tasks (av a) !! x = Some t -> kord (aset_prio x t p a).
Proof.
  intros Ha [H1 H2] Ht. split; [|intros m]; apply ordered_set_prio; eauto.
Qed.

Lemma waits_for_set_prio x t p a w z :
  kwf a -> tasks (av a) !! x = Some t ->
  waits_for (aset_prio x t p a) w z <-> waits_for a w z.
Proof.
  intros Ha Ht. unfold waits_for. rewrite mutexes_set_prio.
  setoid_rewrite (elem_set_prio x t p a w); done.
Qed.

(** ** Inheritance along the chain *)

(** Every task but [y] inherits exactly; [y] is owed the priority [p] by a
    task that waits for it. *)
Record owes (a : aview) (y : ptr) (p : Z) : Prop := {
  owes_others : forall x t, tasks (av a) !! x = Some t -> x <> y -> inherits a x t;
  owes_base : forall t, tasks (av a) !! y = Some t -> t_effective_priority t <= t_base_priority t;
  owes_wait : forall t w, tasks (av a) !! y = Some t -> waits_for a w y ->
    t_effective_priority t <= prio a w \/ p <= prio a w;
  owes_exact : forall t, tasks (av a) !! y = Some t -> t_effective_priority t <= p ->
    inherits a y t;
  owes_waiter : exists w, waits_for a w y /\ prio a w = p;
}.

Lemma owes_done a y t p :
  owes a y p -> tasks (av a) !! y = Some t -> t_effective_priority t <= p -> kpi a.
Proof.
  intros Ho Ht Hp x tx Hx. destruct (decide (x = y)) as [->|]; [|by eapply owes_others].
  simplify_eq. by eapply owes_exact.
Qed.

(** A task waits for one task only. *)
Lemma waits_for_blocker a w t z :
  kwf a -> tasks (av a) !! w = Some t -> waits_for a w z -> blocker a t = Some z.
Proof.
  intros Ha Ht (m & v & Hv & <- & Hw). unfold blocker.
  rewrite (proj1 (wf_place _ Ha _ _ _ Ht) Hw), Hv.
  destruct (Z.eqb_spec (m_owner v) NULL) as [E|]; [|done].
  rewrite (wf_free _ Ha _ _ Hv E) in Hw. by apply elem_of_nil in Hw.
Qed.

Lemma blocker_waits_for a w t z :
  kwf a -> tasks (av a) !! w = Some t -> blocker a t = Some z -> z <> NULL /\ waits_for a w z.
Proof.
  intros Ha Ht. unfold blocker. destruct (place t) as [[| | |m]|] eqn:Ep; try done.
  destruct (mutexes (av a) !! m) as [v|] eqn:Hv; [|done].
  destruct (Z.eqb_spec (m_owner v) NULL); [done|]. intros [= <-]. split; [done|].
  exists m, v. split_and!; [done..|]. by eapply wf_place.
Qed.

Section raise_step.
Context (a : aview) (y : ptr) (t : tcb) (p : Z).
Context (Ha : kwf a) (Ho : owes a y p) (Ht : tasks (av a) !! y = Some t)
        (Hp : p < t_effective_priority t).
Let a2 := aset_prio y t p a.

Lemma raise_waits w z : waits_for a2 w z <-> waits_for a w z.
Proof using Ha Ht. by apply waits_for_set_prio. Qed.

Lemma raise_prio w : prio a2 w = if decide (w = y) then p else prio a w.
Proof using Ht. by apply prio_set_prio. Qed.

Lemma raise_self : inherits a2 y (set_t_effective_priority p t).
Proof using All.
  pose proof (owes_base _ _ _ Ho _ Ht). split; cbn.
  - lia.
  - intros w Hw%raise_waits. rewrite raise_prio. case_decide; [lia|].
    destruct (owes_wait _ _ _ Ho _ w Ht Hw); lia.
  - right. destruct (owes_waiter _ _ _ Ho) as (w & Hw & Ew). exists w.
    split; [by apply raise_waits|]. rewrite raise_prio. by case_decide.
Qed.

Lemma raise_other x tx :
  x <> y -> tasks (av a) !! x = Some tx ->
  (waits_for a y x -> t_effective_priority tx <= p) -> inherits a2 x tx.
Proof using All.
  intros Hx Htx Hyx. destruct (owes_others _ _ _ Ho _ _ Htx Hx) as [H1 H2 H3]. split.
  - done.
  - intros w Hw%raise_waits. rewrite raise_prio. case_decide as E; [subst; auto|auto].
  - destruct H3 as [?|(w & Hw & E)]; [auto|right]. exists w.
    split; [by apply raise_waits|]. rewrite raise_prio. case_decide as Ew; [|done].
    subst w. pose proof (Hyx Hw). rewrite (prio_lookup _ _ _ Ht) in E. lia.
Qed.

Lemma raise_lookup x tx :
  tasks (av a2) !! x = Some tx ->
  (x = y /\ tx = set_t_effective_priority p t) \/ (x <> y /\ tasks (av a) !! x = Some tx).
Proof using Ht.
  intros (tx0 & Htx & ->)%lookup_set_prio. destruct (decide (x = y)) as [->|]; [|auto].
  simplify_eq. auto.
Qed.

Lemma raise_last : blocker a t = None -> kpi a2.
Proof using All.
  intros Hb x tx [[-> ->]|[Hx Htx]]%raise_lookup; [apply raise_self|].
  apply raise_other; [done..|]. intros Hw%(waits_for_blocker _ _ _ _ Ha Ht). congruence.
Qed.

Lemma raise_next z : blocker a t = Some z -> owes a2 z p.
Proof using All.
  intros Hb. destruct (blocker_waits_for _ _ _ _ Ha Ht Hb) as [Hz Hyz].
  assert (forall x tx, x <> z -> tasks (av a2) !! x = Some tx -> inherits a2 x tx) as Hoth.
  { intros x tx Hx [[-> ->]|[Hxy Htx]]%raise_lookup; [apply raise_self|].
    apply raise_other; [done..|]. intros Hw%(waits_for_blocker _ _ _ _ Ha Ht). congruence. }
  split.
  - eauto.
  - intros tz [[-> ->]|[Hzy Htz]]%raise_lookup; [apply raise_self|].
    by destruct (owes_others _ _ _ Ho _ _ Htz Hzy).
  - intros tz w [[-> ->]|[Hzy Htz]]%raise_lookup Hw; [left; by apply raise_self|].
    rewrite raise_prio. case_decide; [auto using Z.le_refl|left].
    apply (owes_others _ _ _ Ho _ _ Htz Hzy). by apply raise_waits.
  - intros tz [[-> ->]|[Hzy Htz]]%raise_lookup Hle; [apply raise_self|].
    by apply raise_other.
  - exists y. split; [by apply raise_waits|]. rewrite raise_prio. by rewrite decide_True.
Qed.
End raise_step.

(** [a'] is [a] with some priorities raised and their tasks moved up. *)
Record reprio (a a' : aview) : Prop := {
  rp_av : av a' = set_tasks (tasks (av a')) (av a);
  rp_some : forall y t, tasks (av a) !! y = Some t ->
    exists e, e <= t_effective_priority t /\
      tasks (av a') !! y = Some (set_t_effective_priority e t);
  rp_none : forall y, tasks (av a) !! y = None -> tasks (av a') !! y = None;
  rp_elem : forall y r, y ∈ aq a' r <-> y ∈ aq a r;
  rp_fifo : forall r, r <> QReady -> (forall m, r <> QMutex m) -> aq a' r = aq a r;
  rp_stale : astale a' = astale a;
}.

Lemma reprio_refl a : reprio a a.
Proof.
  split; try done; [by destruct (av a)|]. intros y t Ht.
  exists (t_effective_priority t). split; [lia|]. by destruct t.
Qed.

Lemma reprio_trans a b c : reprio a b -> reprio b c -> reprio a c.
Proof.
  intros [A1 A2 A3 A4 A5 A6] [B1 B2 B3 B4 B5 B6]. split.
  - rewrite B1, A1. by destruct (av a).
  - intros y t (e & ? & Hy)%A2. apply B2 in Hy as (e' & He & Hy). cbn in He.
    exists e'. split; [lia|exact Hy].
  - auto.
  - intros y r. by rewrite B4.
  - intros r ? ?. by rewrite B5, A5.
  - congruence.
Qed.

Lemma reprio_set_prio x t p a :
  kwf a -> tasks (av a) !! x = Some t -> p <= t_effective_priority t ->
  reprio a (aset_prio x t p a).
Proof.
  intros Ha Ht Hp. split.
  - unfold aset_prio. destruct a as [[] q X], (place t) as [[]|]; done.
  - intros y ty Hy. rewrite tasks_set_prio, lookup_alter. case_decide as E.
    + subst. rewrite Ht in Hy. simplify_eq. rewrite Ht. eauto.
    + exists (t_effective_priority ty). split; [lia|]. rewrite Hy. by destruct ty.
  - intros y Hy. rewrite tasks_set_prio, lookup_alter. case_decide; [subst; congruence|done].
  - intros y r. by apply elem_set_prio.
  - intros r H1 H2. unfold aset_prio. destruct (place t) as [[]|]; try done;
      cbn; by rewrite fn_lookup_insert_ne.
  - apply astale_set_prio.
Qed.

Lemma araise_spec fuel a x t p :
  kwf a -> kord a -> owes a x p -> tasks (av a) !! x = Some t -> (below p a < fuel)%nat ->
  kwf (araise fuel x p a) /\ kord (araise fuel x p a) /\ kpi (araise fuel x p a) /\
  reprio a (araise fuel x p a).
Proof.
  revert a x t. induction fuel as [|fuel IH]; intros a x t Ha Hk Ho Ht Hf; [lia|].
  cbn [araise]. rewrite Ht. destruct (Z.leb_spec (t_effective_priority t) p) as [Hp|Hp].
  { split_and!; [done..|by eapply owes_done|apply reprio_refl]. }
  pose proof (kwf_set_prio x t p a Ha Ht) as Ha'.
  pose proof (kord_set_prio x t p a Ha Hk Ht) as Hk'.
  pose proof (reprio_set_prio x t p a Ha Ht ltac:(lia)) as Hr.
  pose proof (below_raise x t p a Ht Hp).
  destruct (blocker a t) as [z|] eqn:Hb; [|eauto using raise_last].
  destruct (blocker_waits_for _ _ _ _ Ha Ht Hb) as [Hz (m & v & Hv & Hvz & Hx)].
  destruct (wf_owner _ Ha' m v) as [tz Htz].
  { by rewrite mutexes_set_prio. } { congruence. }
  rewrite Hvz in Htz.
  destruct (IH (aset_prio x t p a) z tz) as (? & ? & ? & ?); [done..| |done|lia|].
  { by apply raise_next. }
  split_and!; [done..|]. by eapply reprio_trans.
Qed.

(** ** Locking *)

Definition alock_free (m : ptr) (a : aview) : aview :=
  let c := current_task (av a) in
  aupd_task c (set_t_owned_mutexes m)
    (aupd_mutex m (fun v => set_m_next_owned
        (default NULL (t_owned_mutexes <$> tasks (av a) !! c)) (set_m_owner c v)) a).

(** The running task queues up by its priority. *)
Definition aenqueue (m : ptr) (a : aview) : aview :=
  let c := current_task (av a) in
  aset (QMutex m) (ins (prio a) c (aq a (QMutex m))) (aupd_task c (block_on m MUTEX) a).
Definition alock_block (m o : ptr) (a : aview) : aview :=
  araise (S (S (size (tasks (av a))))) o (prio a (current_task (av a))) (aenqueue m a).

Lemma runs_lock_free a m v t :
  mutexes (av a) !! m = Some v -> m_owner v = NULL ->
  tasks (av a) !! current_task (av a) = Some t ->
  runs a (mutex_lock m) SEM_OK (alock_free m a).
Proof.
  intros Hv Ho Ht. unfold mutex_lock, mutex_queue_push. do 3 run_step.
  rewrite Ho. cbn [Z.eqb NULL]. run_step.
  eapply runs_bind.
  { run_step. run_step. run_prim. }
  cbn beta. run_step. eapply runs_equiv; [|apply runs_ret].
  unfold alock_free, aupd_task, aupd_mutex. cbn. rewrite Ht.
  rewrite (alter_lookup _ _ _ _ Hv), (alter_lookup _ _ _ _ Ht). aview_solve.
Qed.

Lemma runs_lock_deadlock a m v :
  mutexes (av a) !! m = Some v -> m_owner v <> NULL -> m_owner v = current_task (av a) ->
  runs a (mutex_lock m) MUTEX_DEADLOCK a.
Proof.
  intros Hv Hn Ho. unfold mutex_lock. do 3 run_step. cbn.
  rewrite (proj2 (Z.eqb_neq _ _) Hn), Ho, Z.eqb_refl.
  run_step. eapply runs_equiv; [|apply runs_ret]. aview_solve.
Qed.

Lemma aset_prio_primask x t p q a :
  aset_prio x t p (amap (set_primask q) a) = amap (set_primask q) (aset_prio x t p a).
Proof. unfold aset_prio. destruct a as [[] ? ?], (place t) as [[]|]; done. Qed.

Lemma araise_primask fuel x p q a :
  araise fuel x p (amap (set_primask q) a) = amap (set_primask q) (araise fuel x p a).
Proof.
  revert x a. induction fuel as [|fuel IH]; intros x a; [done|]. cbn.
  destruct (tasks (av a) !! x) as [t|]; [|done].
  destruct (t_effective_priority t <=? p); [done|].
  change (blocker (amap (set_primask q) a) t) with (blocker a t).
  rewrite aset_prio_primask. destruct (blocker a t); [apply IH|done].
Qed.

Lemma araise_primask_same fuel x p a : primask (av (araise fuel x p a)) = primask (av a).
Proof.
  revert x a. induction fuel as [|fuel IH]; intros x a; [done|]. cbn.
  destruct (tasks (av a) !! x) as [t|]; [|done].
  destruct (t_effective_priority t <=? p); [done|].
  assert (primask (av (aset_prio x t p a)) = primask (av a)) as <-
    by (unfold aset_prio; by destruct (place t) as [[]|]).
  destruct (blocker a t); [apply IH|done].
Qed.

Lemma below_size p a : (below p a <= size (tasks (av a)))%nat.
Proof. apply map_subseteq_size, map_filter_subseteq. Qed.

Lemma amap_primask_id a : amap (set_primask (primask (av a))) a = a.
Proof. by destruct a as [[] ? ?]. Qed.
Lemma amap_primask_twice p q a : amap (set_primask p) (amap (set_primask q) a) = amap (set_primask p) a.
Proof. by destruct a as [[] ? ?]. Qed.

Lemma runs_lock_block a m v t :
  kwf (aenqueue m a) -> astale a = ∅ ->
  mutexes (av a) !! m = Some v -> m_owner v <> NULL -> m_owner v <> current_task (av a) ->
  tasks (av a) !! current_task (av a) = Some t -> current_task (av a) <> NULL ->
  unqueued (current_task (av a)) a ->
  runs a (mutex_lock m) SEM_OK_YIELD (alock_block m (m_owner v) a).
Proof.
  intros Hwf HX Hv Hn Ho Ht Hc Hq. unfold mutex_lock. do 3 run_step. cbn.
  rewrite (proj2 (Z.eqb_neq _ _) Hn), (proj2 (Z.eqb_neq _ _) Ho). do 3 run_step.
  eapply runs_bind.
  { eapply runs_priority_queue_push; [eapply has_mutex; look|look|done|exact Hq]. }
  cbn beta.
  eapply runs_pre with (b := amap (set_primask 1) (aenqueue m a)).
  { unfold aenqueue, aupd_task. rewrite (alter_lookup _ _ _ _ Ht). aview_solve.
    apply ins_ext. intros y _. unfold prio. cbn. rewrite !insert_insert_eq.
    by eapply key_of_insert. }
  assert (tasks (av (amap (set_primask 1) (aenqueue m a))) !! current_task (av a) =
    Some (block_on m MUTEX t)) as Hct by (cbn; by rewrite lookup_alter_eq, Ht).
  run_step. run_step.
  eapply runs_bind; [apply runs_task_fuel|]. cbn beta.
  destruct (wf_owner _ Hwf m v) as [to Hto]; [done..|].
  eapply runs_bind.
  { eapply runs_raise; [by destruct Hwf; split|done|exact Hto|].
    pose proof (below_size (t_effective_priority (block_on m MUTEX t))
      (amap (set_primask 1) (aenqueue m a))). lia. }
  cbn beta. eapply runs_bind; [apply runs_irq_restore|].
  eapply runs_equiv; [|apply runs_ret]. rewrite araise_primask, amap_primask_twice.
  assert (size (tasks (av (amap (set_primask 1) (aenqueue m a)))) = size (tasks (av a))) as ->.
  { cbn. rewrite <- !size_dom. by rewrite dom_alter_L. }
  unfold alock_block. rewrite (prio_lookup _ _ _ Ht). cbn [t_effective_priority block_on
    set_t_waiting_on_type set_t_waiting_on set_t_state].
  set (b := araise _ _ _ _). assert (primask (av a) = primask (av b)) as ->.
  { unfold b. by rewrite araise_primask_same. }
  by rewrite amap_primask_id.
Qed.

(** ** Blocking on a mutex leaves its owner owed *)

Section enqueue.
Context (a : aview) (m : ptr) (v : mutex) (t : tcb).
Let c := current_task (av a).
Context (Hv : mutexes (av a) !! m = Some v) (Hn : m_owner v <> NULL)
        (Ht : tasks (av a) !! c = Some t) (Hst : t_state t = TASK_RUNNING)
        (Ha : kwf a).

Lemma running_unqueued r : c ∉ aq a r.
Proof using Ha Hst Ht.
  rewrite (wf_place _ Ha _ _ r Ht). unfold place. by rewrite Hst.
Qed.

Lemma enqueue_lookup x tx :
  tasks (av (aenqueue m a)) !! x = Some tx ->
  (x = c /\ tx = block_on m MUTEX t) \/ (x <> c /\ tasks (av a) !! x = Some tx).
Proof using Ht.
  cbn. rewrite lookup_alter. case_decide as E; [|by auto].
  subst x. fold c. rewrite Ht. cbn. intros [= <-]. auto.
Qed.

Lemma enqueue_prio y : prio (aenqueue m a) y = prio a y.
Proof using Ht.
  unfold prio. cbn. rewrite (alter_lookup _ _ _ _ Ht). by eapply key_of_insert.
Qed.

Lemma enqueue_elem y r :
  y ∈ aq (aenqueue m a) r <-> y ∈ aq a r \/ (y = c /\ r = QMutex m).
Proof using.
  cbn. destruct (decide (QMutex m = r)) as [<-|Hr].
  - rewrite fn_lookup_insert, elem_of_ins. tauto.
  - rewrite fn_lookup_insert_ne by done. split; [auto|]. intros [?|[_ ?]]; congruence.
Qed.

Lemma enqueue_kwf : kwf (aenqueue m a).
Proof using All.
  split.
  - intros x tx r Hx. rewrite enqueue_elem.
    apply enqueue_lookup in Hx as [[-> ->]|[Hxc Hx]].
    + split; [|by intros [= <-]; auto]. intros [Hr|[_ ->]]; [by apply running_unqueued in Hr|done].
    + rewrite (wf_place _ Ha _ _ r Hx). naive_solver.
  - intros m' v' Hv' Hn'. cbn in Hv'. cbn. rewrite fn_lookup_insert_ne by congruence.
    by eapply wf_free.
  - intros m' v' Hv' Hn'. destruct (wf_owner _ Ha _ _ Hv' Hn') as [to Hto]. cbn.
    rewrite lookup_alter. case_decide as E; [|by eauto]. rewrite E, Hto. cbn. eauto.
Qed.

Lemma enqueue_kord : kord a -> kord (aenqueue m a).
Proof using Ht.
  intros [H1 H2]. split.
  - eapply ordered_ext; [|exact H1]. intros. by rewrite enqueue_prio.
  - intros m'. cbn. destruct (decide (m = m')) as [<-|].
    + rewrite fn_lookup_insert. erewrite ins_ext; [apply ordered_ins|].
      * eapply ordered_ext; [|apply H2]. intros. by rewrite <- enqueue_prio.
      * intros. by rewrite <- enqueue_prio.
    + rewrite fn_lookup_insert_ne by congruence. eapply ordered_ext; [|apply H2].
      intros. by rewrite enqueue_prio.
Qed.

Lemma enqueue_waits w x :
  waits_for (aenqueue m a) w x <-> waits_for a w x \/ (w = c /\ x = m_owner v).
Proof using Hv.
  unfold waits_for. setoid_rewrite enqueue_elem. cbn. split.
  - intros (m' & v' & Hv' & ? & [Hw|[-> [= ->]]]); [left; eauto|right].
    split; [done|]. congruence.
  - intros [(m' & v' & ? & ? & ?)|[-> ->]]; [eauto 10|]. exists m, v. auto.
Qed.

Lemma enqueue_owes : kpi a -> owes (aenqueue m a) (m_owner v) (prio a c).
Proof using All.
  intros Hpi.
  assert (forall x tx, tasks (av (aenqueue m a)) !! x = Some tx ->
    (x = m_owner v -> t_effective_priority tx <= prio a c) ->
    inherits (aenqueue m a) x tx) as Hinh.
  { intros x tx Hx Hxo.
    assert (exists tx0, tasks (av a) !! x = Some tx0 /\
      t_effective_priority tx0 = t_effective_priority tx /\
      t_base_priority tx0 = t_base_priority tx) as (tx0 & Hx0 & E1 & E2).
    { apply enqueue_lookup in Hx as [[-> ->]|[_ Hx]]; eauto. }
    destruct (Hpi _ _ Hx0) as [H1 H2 H3]. rewrite E1, ?E2 in *. split; [lia| |].
    - intros w [Hw|[-> Ho]]%enqueue_waits; rewrite enqueue_prio; auto.
    - destruct H3 as [?|(w & Hw & E)]; [auto|right]. exists w. rewrite enqueue_waits, enqueue_prio.
      auto. }
  split.
  - intros x tx Hx Hxo. apply Hinh; [done|]. by intros.
  - intros tx Hx. assert (exists tx0, tasks (av a) !! m_owner v = Some tx0 /\
      t_effective_priority tx0 = t_effective_priority tx /\
      t_base_priority tx0 = t_base_priority tx) as (tx0 & Hx0 & <- & <-).
    { apply enqueue_lookup in Hx as [[-> ->]|[_ Hx]]; eauto. }
    apply (Hpi _ _ Hx0).
  - intros tx w Hx [Hw|[-> _]]%enqueue_waits; rewrite enqueue_prio; [left|right; lia].
    assert (exists tx0, tasks (av a) !! m_owner v = Some tx0 /\
      t_effective_priority tx0 = t_effective_priority tx) as (tx0 & Hx0 & <-).
    { apply enqueue_lookup in Hx as [[E ->]|[_ Hx]]; [rewrite E|]; eauto. }
    by apply (Hpi _ _ Hx0).
  - intros tx Hx Hle. by apply Hinh.
  - exists c. rewrite enqueue_waits, enqueue_prio. auto.
Qed.
End enqueue.

(** ** Unlocking *)

Definition own_of (a : aview) (x : ptr) : ptr :=
  default NULL (t_owned_mutexes <$> tasks (av a) !! x).
Definition base_of (a : aview) (x : ptr) : Z :=
  default 0 (t_base_priority <$> tasks (av a) !! x).
Definition next_of (a : aview) (m : ptr) : ptr :=
  default NULL (m_next_owned <$> mutexes (av a) !! m).

(** [m] is put in front of the list of [x]. *)
Definition alink (x m : ptr) (a : aview) : aview :=
  aupd_task x (set_t_owned_mutexes m) (aupd_mutex m (set_m_next_owned (own_of a x)) a).

(** [m] is taken out of the list of [c], where it follows [l1]. *)
Definition aunlink (c m : ptr) (l1 : list ptr) (a : aview) : aview :=
  aupd_mutex m (set_m_next_owned NULL)
    (match last l1 with
     | None => aupd_task c (set_t_owned_mutexes (next_of a m)) a
     | Some p => aupd_mutex p (set_m_next_owned (next_of a m)) a
     end).

Definition arecalc (x : ptr) (l : list ptr) (a : aview) : aview :=
  aupd_task x (set_t_effective_priority (recalc a l (base_of a x))) a.

Definition aunlock_free (m : ptr) (l1 l2 : list ptr) (a : aview) : aview :=
  let c := current_task (av a) in
  arecalc c (l1 ++ l2) (aunlink c m l1 (aupd_mutex m (set_m_owner NULL) a)).

(** The first waiter [x] becomes the owner; it and the running task have
    their priorities computed from the lists [lx] and [l1]. *)
Definition ahandoff (m x : ptr) (ws lx : list ptr) (a : aview) : aview :=
  aready x (arecalc x (m :: lx) (alink x m
    (aupd_task x unwait (aupd_mutex m (set_m_owner x) (aset (QMutex m) ws a))))).
Definition aunlock_handoff (m x : ptr) (ws l1 lx : list ptr) (a : aview) : aview :=
  let c := current_task (av a) in
  arecalc c (l1 ++ lx) (aunlink c m l1 (ahandoff m x ws lx a)).

Lemma runs_upd_mutex' a m v g :
  mutexes (av a) !! m = Some v ->
  (forall v', strip_mutex (g v') = g (strip_mutex v')) ->
  (forall v', m_wait_queue (g v') = m_wait_queue v') ->
  runs a (upd_mutex m g) tt (aupd_mutex m g a).
Proof. intros Hv H1 H2. unfold aupd_mutex. rewrite (alter_lookup _ _ _ _ Hv). by eapply runs_upd_mutex. Qed.

Lemma runs_upd_task' a x t g :
  tasks (av a) !! x = Some t ->
  (forall t', strip (g t') = g (strip t')) -> (forall t', t_next (g t') = t_next t') ->
  runs a (upd_task x g) tt (aupd_task x g a).
Proof. intros Ht H1 H2. unfold aupd_task. rewrite (alter_lookup _ _ _ _ Ht). by eapply runs_upd_task. Qed.

Lemma runs_link a x m t v :
  tasks (av a) !! x = Some t -> mutexes (av a) !! m = Some v ->
  runs a (mutex_queue_push x m) tt (alink x m a).
Proof.
  intros Ht Hv. unfold mutex_queue_push, alink, own_of. rewrite Ht. run_step.
  eapply runs_bind; [by eapply runs_upd_mutex'|]. by eapply runs_upd_task'.
Qed.

Lemma mseg_next M p m l v : mseg M p (m :: l) -> M !! m = Some v -> m_next_owned v = List.hd NULL l.
Proof. intros (_ & _ & v' & Hv' & Hl%mseg_hd) Hv. congruence. Qed.

Lemma runs_remove_loop a m l1 l2 tmp p prev fuel v vp :
  mseg (mutexes (av a)) tmp (l1 ++ m :: l2) -> NoDup (l1 ++ m :: l2) ->
  mutexes (av a) !! m = Some v -> mutexes (av a) !! prev = Some vp -> prev <> m ->
  p = List.last l1 prev -> (length l1 < fuel)%nat ->
  runs a (mutex_queue_remove_loop fuel m tmp prev) tt
    (aupd_mutex m (set_m_next_owned NULL) (aupd_mutex p (set_m_next_owned (next_of a m)) a)).
Proof.
  revert tmp prev vp fuel. induction l1 as [|y l1 IH]; intros tmp prev vp fuel Hl Hnd Hv Hp Hpm -> Hf;
    (destruct fuel as [|fuel]; [lia|]); cbn [mutex_queue_remove_loop].
  - destruct Hl as (-> & Hn & _). rewrite (proj2 (Z.eqb_neq _ _) Hn), Z.eqb_refl.
    run_step. eapply runs_bind; [by eapply runs_upd_mutex'|]. cbn [List.last].
    unfold next_of. rewrite Hv. eapply runs_upd_mutex'; [|done|done].
    cbn. by rewrite lookup_alter_ne.
  - destruct Hl as (-> & Hn & vy & Hvy & Hl). rewrite (proj2 (Z.eqb_neq _ _) Hn).
    apply NoDup_cons in Hnd as [Hy Hnd].
    assert (y <> m) as Hym by (intros ->; apply Hy; set_solver).
    rewrite (proj2 (Z.eqb_neq _ _) Hym). run_step.
    eapply IH; try done; [apply last_cons_default|cbn in Hf; lia].
Qed.

Lemma runs_unlink a c m t l1 l2 :
  tasks (av a) !! c = Some t -> mseg (mutexes (av a)) (t_owned_mutexes t) (l1 ++ m :: l2) ->
  NoDup (l1 ++ m :: l2) ->
  runs a (mutex_queue_remove c m) tt (aunlink c m l1 a).
Proof.
  intros Ht Hl Hnd. unfold mutex_queue_remove, aunlink.
  destruct (mseg_elem _ _ _ m Hl) as [Hn [v Hv]]; [set_solver|].
  run_step. destruct l1 as [|y l1].
  - cbn in Hl. destruct Hl as (-> & _). rewrite Z.eqb_refl. run_step. cbn [last].
    unfold next_of. rewrite Hv. eapply runs_bind; [by eapply runs_upd_task'|].
    by eapply runs_upd_mutex'.
  - pose proof (mseg_length _ _ _ Hl Hnd) as Hlen.
    destruct Hl as (-> & Hy & vy & Hvy & Hl). apply NoDup_cons in Hnd as [Hyl Hnd].
    assert (y <> m) as Hym by (intros ->; apply Hyl; set_solver).
    rewrite (proj2 (Z.eqb_neq m y)) by done.
    eapply runs_bind; [apply runs_owned_fuel|]. cbn beta. cbn [mutex_queue_remove_loop].
    rewrite (proj2 (Z.eqb_neq _ _) Hy), (proj2 (Z.eqb_neq y m)) by done. run_step.
    rewrite last_cons. destruct (last l1) as [p|] eqn:El.
    + eapply runs_remove_loop; try done.
      * by rewrite last_default, El.
      * rewrite length_app in Hlen. cbn in Hlen. lia.
    + eapply runs_remove_loop; try done.
      * by rewrite last_default, El.
      * rewrite length_app in Hlen. cbn in Hlen. lia.
Qed.

Lemma runs_arecalc {A} a x t l (k : K A) w a' :
  tasks (av a) !! x = Some t -> mseg (mutexes (av a)) (t_owned_mutexes t) l -> NoDup l ->
  runs (arecalc x l a) k w a' ->
  runs a (p ← task_recalculate_priority x; upd_task x (set_t_effective_priority p);; k) w a'.
Proof.
  intros Ht Hl Hnd Hk. eapply runs_bind; [by eapply runs_recalculate|]. cbn beta.
  eapply runs_bind; [|exact Hk]. unfold arecalc, base_of. rewrite Ht. by eapply runs_upd_task'.
Qed.

(** The links after [m] is put in front of a list, or taken out of one. *)
Lemma mseg_alter_ne M p l m g :
  m ∉ l -> mseg M p l -> mseg (alter g m M) p l.
Proof.
  intros Hm. apply mseg_ext. intros y Hy. rewrite lookup_alter_ne; [done|]. by intros ->.
Qed.

Lemma mseg_app_link M p l1 m l2 q lx :
  mseg M p (l1 ++ m :: l2) -> m ∉ l1 -> mseg M q lx -> m ∉ lx ->
  mseg (alter (set_m_next_owned q) m M) p (l1 ++ m :: lx).
Proof.
  revert p. induction l1 as [|y l1 IH]; intros p Hl Hm Hq Hmx.
  - destruct Hl as (-> & Hn & v & Hv & _). split_and!; [done..|].
    exists (set_m_next_owned q v). rewrite lookup_alter_eq, Hv. split; [done|]. cbn.
    by apply mseg_alter_ne.
  - destruct Hl as (-> & Hn & v & Hv & Hl). cbn. split_and!; [done..|]. exists v.
    rewrite lookup_alter_ne by set_solver. split; [done|]. apply IH; set_solver.
Qed.

Lemma mseg_unlink M p l1 m l2 v :
  mseg M p (l1 ++ m :: l2) -> NoDup (l1 ++ m :: l2) -> M !! m = Some v ->
  mseg (alter (set_m_next_owned NULL) m
         (match last l1 with
          | None => M
          | Some q => alter (set_m_next_owned (m_next_owned v)) q M
          end))
    (match l1 with [] => m_next_owned v | _ => p end) (l1 ++ l2).
Proof.
  intros Hl Hnd Hv. apply NoDup_app in Hnd as (Hnd1 & Hd & Hnd2).
  apply NoDup_cons in Hnd2 as [Hm2 Hnd2].
  assert (m ∉ l1 ++ l2) as Hm by (intros [Hx|?]%elem_of_app; [apply (Hd _ Hx); by left|done]).
  apply mseg_alter_ne; [done|]. clear Hm.
  destruct l1 as [|y l1 _] using rev_ind.
  { destruct Hl as (_ & _ & v' & Hv' & Hl). cbn. by simplify_eq. }
  rewrite last_snoc, <- !app_assoc in *. cbn [app] in *.
  assert (mseg M (m_next_owned v) l2) as H2.
  { clear -Hl Hv. revert p Hl. induction l1 as [|z l1 IH]; intros p.
    - intros (_ & _ & ? & _ & _ & _ & v' & Hv' & Hl). by simplify_eq.
    - intros (_ & _ & ? & _ & Hl). by eapply IH. }
  assert ((y ∉ l1) /\ (y ∉ l2)) as [Hy1 Hy2].
  { apply NoDup_snoc in Hnd1 as [_ ?]. split; [done|]. intros Hy.
    apply (Hd y); [set_solver|]. by right. }
  destruct (l1 ++ [y]) eqn:E; [by destruct l1|]. clear E.
  by eapply mseg_app_link.
Qed.

(** The list of the running task after [aunlink]. *)
Lemma unlink_owned a c m t l1 l2 :
  tasks (av a) !! c = Some t -> mseg (mutexes (av a)) (t_owned_mutexes t) (l1 ++ m :: l2) ->
  NoDup (l1 ++ m :: l2) ->
  exists t', tasks (av (aunlink c m l1 a)) !! c = Some t' /\
    t_effective_priority t' = t_effective_priority t /\
    t_base_priority t' = t_base_priority t /\ t_state t' = t_state t /\
    mseg (mutexes (av (aunlink c m l1 a))) (t_owned_mutexes t') (l1 ++ l2).
Proof.
  intros Ht Hl Hnd. destruct (mseg_elem _ _ _ m Hl) as [Hn [v Hv]]; [set_solver|].
  pose proof (mseg_unlink _ _ _ _ _ _ Hl Hnd Hv) as Hu.
  unfold aunlink, next_of in *. rewrite Hv in *. cbn [default fmap option_fmap option_map].
  destruct l1 as [|y l1]; cbn [last] in *.
  - cbn in *. rewrite lookup_alter_eq, Ht. cbn. eauto 10.
  - destruct (last_is_Some (y :: l1)) as [_ [q Eq]]; [done|]. rewrite Eq in *.
    cbn in *. exists t. by rewrite Ht.
Qed.

Lemma runs_unlock_free a m v t l1 l2 :
  let c := current_task (av a) in
  mutexes (av a) !! m = Some v -> m_owner v = c -> tasks (av a) !! c = Some t ->
  aq a (QMutex m) = [] -> mseg (mutexes (av a)) (t_owned_mutexes t) (l1 ++ m :: l2) ->
  NoDup (l1 ++ m :: l2) ->
  runs a (mutex_unlock m) SEM_OK (aunlock_free m l1 l2 a).
Proof.
  intros c Hv Ho Ht Hq Hl Hnd. unfold mutex_unlock. do 3 run_step. cbn [av amap].
  rewrite Ho. fold c. rewrite Z.eqb_refl. cbn [negb].
  change priority_queue_pop with queue_pop.
  eapply runs_bind; [apply runs_queue_pop_nil; [by eapply has_mutex|done]|].
  cbn [negb Z.eqb NULL whenb]. eapply runs_bind; [by eapply runs_upd_mutex'|].
  eapply runs_bind; [apply runs_ret|].
  set (b := aupd_mutex m (set_m_owner NULL) (amap (set_primask 1) a)).
  assert (mseg (mutexes (av b)) (t_owned_mutexes t) (l1 ++ m :: l2)) as Hlb.
  { eapply mseg_ext; [|exact Hl]. intros y _. cbn. rewrite lookup_alter. case_decide; [|done].
    subst y. by destruct (mutexes (av a) !! m). }
  eapply runs_bind; [by eapply runs_unlink|]. cbn beta.
  destruct (unlink_owned b c m t l1 l2) as (t' & Ht' & _ & _ & _ & Hl'); [done..|].
  eapply runs_arecalc; [exact Ht'|exact Hl'| |].
  { apply NoDup_app in Hnd as (? & Hd & [? ?]%NoDup_cons). apply NoDup_app.
    split_and!; [done| |done]. intros y Hy ?. apply (Hd y Hy). by right. }
  eapply runs_bind; [apply runs_ret|]. run_step.
  eapply runs_equiv; [|apply runs_ret].
  unfold aunlock_free. fold c. subst b. unfold aunlink, arecalc.
  destruct a as [[] q X], (last l1); done.
Qed.

Lemma amap_upd_twice x f g a :
  aupd_task x g (aupd_task x f a) = aupd_task x (fun t => g (f t)) a.
Proof. unfold aupd_task. destruct a as [[] q X]. cbn. by rewrite alter_alter_eq. Qed.

(** The part of [mutex_unlock] that serves the first waiter. *)
Lemma runs_handoff {A} a m x ws tx v lx (k : K A) w a' :
  mutexes (av a) !! m = Some v -> m <> NULL -> aq a (QMutex m) = x :: ws ->
  head_ok a (QMutex m) x ws tx ->
  mseg (mutexes (av a)) (t_owned_mutexes tx) lx -> NoDup (m :: lx) ->
  runs (ahandoff m x ws lx a) k w a' ->
  runs (aset (QMutex m) ws a)
    (upd_mutex m (set_m_owner x);;
     (upd_task x (set_t_state TASK_READY);;
      upd_task x (set_t_waiting_on NULL);;
      upd_task x (set_t_waiting_on_type NONE);;
      mutex_queue_push x m;;
      p ← task_recalculate_priority x;
      upd_task x (set_t_effective_priority p);;
      scheduler_put_task x);;
     k) w a'.
Proof.
  intros Hv Hm Hq [Hx Htx Hxw Hxo] Hlx Hnd Hk.
  eapply runs_bind; [by eapply runs_upd_mutex'|]. cbn beta.
  eapply runs_bind; [|exact Hk]. unfold ahandoff.
  set (a0 := aupd_mutex m (set_m_owner x) (aset (QMutex m) ws a)).
  assert (tasks (av a0) !! x = Some tx) as Ht0 by done.
  eapply runs_bind; [by eapply runs_upd_task'|]. cbn beta.
  eapply runs_bind.
  { eapply runs_upd_task'; [|done|done]. cbn. by rewrite lookup_alter_eq, Htx. }
  eapply runs_bind.
  { eapply runs_upd_task'; [|done|done]. cbn. by rewrite !lookup_alter_eq, Htx. }
  cbn beta. rewrite !amap_upd_twice. fold unwait. change (fun t => set_t_waiting_on_type NONE
    (set_t_waiting_on NULL (set_t_state TASK_READY t))) with unwait.
  set (a1 := aupd_task x unwait a0).
  assert (tasks (av a1) !! x = Some (unwait tx)) as Ht1 by (cbn; by rewrite lookup_alter_eq, Htx).
  eapply runs_bind.
  { eapply runs_link; [exact Ht1|]. cbn. by rewrite lookup_alter_eq, Hv. }
  cbn beta. set (a2 := alink x m a1).
  assert (own_of a1 x = t_owned_mutexes tx) as Eo by (unfold own_of; by rewrite Ht1).
  assert (tasks (av a2) !! x = Some (set_t_owned_mutexes m (unwait tx))) as Ht2.
  { unfold a2, alink. cbn -[a1]. by rewrite lookup_alter_eq, Ht1. }
  eapply runs_arecalc with (l := m :: lx); [exact Ht2| |done|].
  { unfold a2, alink. rewrite Eo. apply NoDup_cons in Hnd as [Hmx _].
    split_and!; [done..|]. exists (set_m_next_owned (t_owned_mutexes tx) (set_m_owner x v)).
    cbn. rewrite lookup_alter_eq, lookup_alter_eq, Hv. split; [done|].
    apply (mseg_alter_ne _ _ lx); [done|]. by apply (mseg_alter_ne _ _ lx). }
  eapply runs_put_task.
  - cbn -[a2]. by rewrite lookup_alter_eq, Ht2.
  - done.
  - cbn. unfold runnable. naive_solver.
  - intros r Hr. cbn. destruct (decide (QMutex m = r)) as [<-|].
    + by rewrite fn_lookup_insert.
    + rewrite fn_lookup_insert_ne by done. by apply Hxo.
Qed.

(** What the serving leaves of the links. *)
Lemma handoff_links a m x ws tx v lx c t l1 l2 :
  mutexes (av a) !! m = Some v -> tasks (av a) !! x = Some tx -> tasks (av a) !! c = Some t ->
  c <> x -> mseg (mutexes (av a)) (t_owned_mutexes tx) lx ->
  mseg (mutexes (av a)) (t_owned_mutexes t) (l1 ++ m :: l2) -> m ∉ l1 -> m ∉ lx ->
  let b := ahandoff m x ws lx a in
  tasks (av b) !! c = Some t /\
  mseg (mutexes (av b)) (t_owned_mutexes t) (l1 ++ m :: lx) /\
  (exists tx', tasks (av b) !! x = Some tx' /\ t_owned_mutexes tx' = m /\
    t_state tx' = TASK_READY /\ t_waiting_on_type tx' = NONE).
Proof.
  intros Hv Htx Ht Hcx Hlx Hl Hm1 Hmx b. unfold b, ahandoff, arecalc, alink, aready, own_of. cbn.
  assert (forall f (T : gmap ptr tcb), alter f x T !! c = T !! c) as Ec
    by (intros; by apply lookup_alter_ne).
  rewrite !Ec, !lookup_alter_eq, Htx. cbn. split_and!; [done| |eauto 10].
  apply mseg_app_link with (l2 := l2); [|done| |done].
  - eapply mseg_ext; [|exact Hl]. intros y _. rewrite lookup_alter.
    case_decide; [|done]. subst y. by destruct (mutexes (av a) !! m).
  - by apply mseg_alter_ne.
Qed.

Lemma runs_unlock_handoff a m v t x ws tx l1 l2 lx :
  let c := current_task (av a) in
  mutexes (av a) !! m = Some v -> m_owner v = c -> tasks (av a) !! c = Some t -> c <> x ->
  aq a (QMutex m) = x :: ws -> head_ok a (QMutex m) x ws tx ->
  mseg (mutexes (av a)) (t_owned_mutexes t) (l1 ++ m :: l2) ->
  mseg (mutexes (av a)) (t_owned_mutexes tx) lx -> NoDup (l1 ++ m :: lx) ->
  let a' := aunlock_handoff m x ws l1 lx a in
  runs a (mutex_unlock m) (if prio a' x <? prio a' c then SEM_OK_YIELD else SEM_OK) a'.
Proof.
  intros c Hv Ho Ht Hcx Hq Hh Hl Hlx Hnd a'. unfold mutex_unlock. do 3 run_step. cbn [av amap].
  rewrite Ho. fold c. rewrite Z.eqb_refl. cbn [negb].
  change priority_queue_pop with queue_pop.
  eapply runs_bind; [eapply runs_queue_pop; [by eapply has_mutex|exact Hq]|].
  cbn beta. pose proof Hh as [Hx Htx _ _]. rewrite (proj2 (Z.eqb_neq _ _) Hx). cbn [negb whenb].
  apply NoDup_app in Hnd as (Hnd1 & Hd & Hnd2).
  assert (m <> NULL /\ m ∉ l1) as [Hm Hm1].
  { split; [by apply (mseg_elem _ _ _ m Hl); set_solver|]. intros ?. apply (Hd m); [done|by left]. }
  set (a0 := amap (set_primask 1) a).
  eapply (runs_handoff a0 m x ws tx v lx);
    [done|done|exact Hq|by destruct Hh; split|done|done|].
  apply NoDup_cons in Hnd2 as [Hmx Hnd2].
  destruct (handoff_links a0 m x ws tx v lx c t l1 l2) as (Htc & Hlc & tx' & Hx' & _); [done..|].
  set (b := ahandoff m x ws lx a0) in *.
  assert (NoDup (l1 ++ m :: lx)) as Hnd.
  { apply NoDup_app. split_and!; [done..|]. by apply NoDup_cons. }
  eapply runs_bind; [by eapply runs_unlink|]. cbn beta.
  destruct (unlink_owned b c m t l1 lx) as (t' & Ht' & _ & Eb & _ & Hl'); [done..|].
  eapply runs_arecalc; [exact Ht'|exact Hl'| |].
  { apply NoDup_app. split_and!; [done| |done]. intros y Hy ?. apply (Hd y Hy). by right. }
  change (current_task (set_primask 1 (av a))) with c.
  set (d := arecalc c (l1 ++ lx) (aunlink c m l1 b)).
  assert (exists uc, tasks (av d) !! c = Some uc) as [uc Huc].
  { unfold d, arecalc. cbn -[aunlink]. rewrite lookup_alter_eq, Ht'. cbn. eauto. }
  assert (tasks (av d) !! x = Some tx') as Hux.
  { unfold d, arecalc, aunlink. destruct (last l1); cbn -[b];
      by rewrite !(lookup_alter_ne _ _ c x). }
  assert (amap (set_primask (primask (av a))) d ≡ a') as E.
  { unfold a', d, aunlock_handoff. fold c. unfold b, a0, aunlink.
    destruct a as [[] q X], (last l1); done. }
  eapply runs_bind.
  { eapply runs_bind; [by eapply runs_rd_task|]. eapply runs_bind; [by eapply runs_rd_task|].
    apply runs_ret. }
  cbn beta. eapply runs_bind; [apply runs_irq_restore|].
  eapply runs_equiv; [exact E|].
  assert (forall y, prio a' y = prio d y) as Ep.
  { intros y. destruct E as (E & _). unfold prio. by rewrite <- E. }
  rewrite !Ep, (prio_lookup _ _ _ Hux), (prio_lookup _ _ _ Huc). apply runs_ret.
Qed.

Lemma runs_unlock_not_owner a m v :
  mutexes (av a) !! m = Some v -> m_owner v <> current_task (av a) ->
  runs a (mutex_unlock m) MUTEX_NOT_OWNER a.
Proof.
  intros Hv Ho. unfold mutex_unlock. do 3 run_step. cbn [av amap].
  change (current_task (set_primask 1 (av a))) with (current_task (av a)).
  rewrite (proj2 (Z.eqb_neq _ _) Ho). cbn [negb].
  run_step. eapply runs_equiv; [|apply runs_ret]. aview_solve.
Qed.

Lemma runs_mutex_init a m v :
  mutexes (av a) !! m = Some v -> aq a (QMutex m) = [] ->
  runs a (mutex_init m) tt
    (aupd_mutex m (fun v => set_m_next_owned NULL (set_m_owner NULL (set_m_state SEM_OPEN v))) a).
Proof.
  intros Hv Hq. unfold mutex_init. run_step. run_step.
  eapply runs_bind; [apply runs_list_reset; [eapply has_mutex; look|done]|]. cbn beta.
  eapply runs_equiv; [|run_prim].
  unfold aupd_mutex. rewrite (alter_lookup _ _ _ _ Hv). aview_solve.
Qed.
