(* ===== verification/Pool.v ===== *)
(** * Static object pools ([static_memory.c])

    Tasks, semaphores, mutexes and sockets live in fixed arrays.  The layout of
    the arrays is a parameter: the linker and the compiler choose the
    addresses and the sizes. *)
From S2P Require Import Prelude KState Queue Abs Scheduler Semaphore Mutex.

Definition N_SEMAPHORES : nat := 64.
Definition N_MUTEXES : nat := 64.
Definition N_SOCKETS : nat := 8.
Definition N_TASKS : nat := 8.
Definition TASK_STACK_SIZE : Z := 2048.

Record layout : Type := Layout {
  task_slots : ptr; sizeof_tcb : Z;
  sem_slots : ptr; sizeof_sem : Z;
  mutex_slots : ptr; sizeof_mutex : Z;
  socket_slots : ptr; sizeof_socket : Z;
  task_stacks : ptr;
}.

(** ** The code *)

Section pool.
Context (L : layout).

Definition task_slot (i : nat) : ptr := task_slots L + Z.of_nat i * sizeof_tcb L.
Definition sem_slot (i : nat) : ptr := sem_slots L + Z.of_nat i * sizeof_sem L.
Definition mutex_slot (i : nat) : ptr := mutex_slots L + Z.of_nat i * sizeof_mutex L.
Definition socket_slot (i : nat) : ptr := socket_slots L + Z.of_nat i * sizeof_socket L.
Definition task_stack (i : nat) : ptr := task_stacks L + Z.of_nat i * TASK_STACK_SIZE.

(** [for (int i = i0; i < i0 + n; i++) body(i)] *)
Fixpoint for_slots (n : nat) (i : nat) (body : nat -> K unit) : K unit :=
  match n with
  | O => mret tt
  | S n => body i;; for_slots n (S i) body
  end.

Definition task_memory_init : K unit :=
  for_slots N_TASKS 0 (fun i =>
    upd_task (task_slot i) (set_t_state TASK_UNUSED);;
    upd_task (task_slot i) (set_t_sp NULL);;
    upd_task (task_slot i) (set_t_base_priority 0);;
    upd_task (task_slot i) (set_t_effective_priority 0);;
    upd_task (task_slot i) (set_t_waiting_on NULL);;
    upd_task (task_slot i) (set_t_next NULL)).

(** The loop of [alloc_task], from slot [i] with [n] slots to go. *)
Fixpoint alloc_task_scan (n : nat) (i : nat) : K ptr :=
  match n with
  | O => mret NULL
  | S n =>
      st ← rd_task (task_slot i) t_state;
      if bool_decide (st = TASK_UNUSED \/ st = TASK_FINISHED) then
        upd_task (task_slot i) (set_t_state TASK_READY);;
        upd_task (task_slot i) (set_t_stack_base (task_stack i));;
        upd_task (task_slot i) (set_t_stack_size TASK_STACK_SIZE);;
        mret (task_slot i)
      else alloc_task_scan n (S i)
  end.

Definition alloc_task : K ptr :=
  irq_state ← irq_save;
  ret ← alloc_task_scan N_TASKS 0;
  irq_restore irq_state;;
  mret ret.

Definition get_task (idx : Z) : ptr :=
  if (idx >=? Z.of_nat N_TASKS) || (idx <? 0) then NULL else task_slot (Z.to_nat idx).

Definition semaphore_memory_init : K unit :=
  for_slots N_SEMAPHORES 0 (fun i =>
    upd_sem (sem_slot i) (set_s_count 0);;
    upd_sem (sem_slot i) (set_s_references 0);;
    upd_sem (sem_slot i) (set_s_state SEM_UNUSED)).

Fixpoint alloc_sem_scan (n : nat) (i : nat) : K ptr :=
  match n with
  | O => mret NULL
  | S n =>
      st ← rd_sem (sem_slot i) s_state;
      if bool_decide (st = SEM_UNUSED) then
        upd_sem (sem_slot i) (set_s_state SEM_OPEN);;
        mret (sem_slot i)
      else alloc_sem_scan n (S i)
  end.

Definition alloc_sem : K ptr :=
  irq_state ← irq_save;
  ret ← alloc_sem_scan N_SEMAPHORES 0;
  irq_restore irq_state;;
  mret ret.

Definition free_sem (sem : ptr) : K unit :=
  irq_state ← irq_save;
  upd_sem sem (set_s_state SEM_UNUSED);;
  irq_restore irq_state.

Definition mutex_memory_init : K unit :=
  for_slots N_MUTEXES 0 (fun i =>
    upd_mutex (mutex_slot i) (set_m_owner NULL);;
    upd_mutex (mutex_slot i) (set_m_state SEM_UNUSED);;
    upd_mutex (mutex_slot i) (set_m_next_owned NULL)).

Fixpoint alloc_mutex_scan (n : nat) (i : nat) : K ptr :=
  match n with
  | O => mret NULL
  | S n =>
      st ← rd_mutex (mutex_slot i) m_state;
      if bool_decide (st = SEM_UNUSED) then
        upd_mutex (mutex_slot i) (set_m_state SEM_OPEN);;
        mret (mutex_slot i)
      else alloc_mutex_scan n (S i)
  end.

Definition alloc_mutex : K ptr :=
  irq_state ← irq_save;
  ret ← alloc_mutex_scan N_MUTEXES 0;
  irq_restore irq_state;;
  mret ret.

(** [n] is a [uint8_t]. *)
Definition get_socket (n : Z) : ptr :=
  if n >? Z.of_nat N_SOCKETS then NULL else socket_slot (Z.to_nat n).

(** [(ptr - base) % size == 0] in 32-bit arithmetic. *)
Definition validate (base size p : Z) : bool := u32 (p - base) mod size =? 0.
Definition validate_task (p : Z) : bool := validate (task_slots L) (sizeof_tcb L) p.
Definition validate_sem (p : Z) : bool := validate (sem_slots L) (sizeof_sem L) p.
Definition validate_mutex (p : Z) : bool := validate (mutex_slots L) (sizeof_mutex L) p.
Definition validate_socket (p : Z) : bool := validate (socket_slots L) (sizeof_socket L) p.
End pool.

(** ** Sockets *)

Inductive socket_protocol := CLOSED | TCP | UDP | MACRAW.
Inductive socket_status :=
| SOCKET_STATUS_CREATED | SOCKET_STATUS_OPEN | SOCKET_STATUS_LISTENING
| SOCKET_STATUS_ERROR | SOCKET_STATUS_CLOSED.

Record socket : Type := MkSocket {
  k_number : Z; (* uint8_t *)
  k_port : Z; (* uint16_t *)
  k_protocol : socket_protocol;
  k_status : socket_status;
  k_has_unreaped_send : bool;
}.

(** The loop writes every field of every socket. *)
Fixpoint socket_memory_scan (L : layout) (n i : nat) (S : gmap ptr socket) : gmap ptr socket :=
  match n with
  | O => S
  | S n =>
      socket_memory_scan L n (Datatypes.S i)
        (<[socket_slot L i := MkSocket (u8 (Z.of_nat i)) 0 CLOSED SOCKET_STATUS_CREATED false]> S)
  end.
Definition socket_memory_init (L : layout) (S : gmap ptr socket) : gmap ptr socket :=
  socket_memory_scan L N_SOCKETS 0 S.

(** ** Allocation picks the first free slot *)

Section alloc.
Context (L : layout).

Definition task_dead (a : aview) (i : nat) : bool :=
  match tasks (av a) !! task_slot L i with
  | Some t => bool_decide (t_state t = TASK_UNUSED \/ t_state t = TASK_FINISHED)
  | None => false
  end.

(** The first of the slots [i .. i+n-1] that [p] accepts. *)
Fixpoint first_slot (p : nat -> bool) (n i : nat) : option nat :=
  match n with
  | O => None
  | S n => if p i then Some i else first_slot p n (S i)
  end.

Lemma first_slot_Some p n i j :
  first_slot p n i = Some j <->
  (i <= j < i + n)%nat /\ p j = true /\ forall k, (i <= k < j)%nat -> p k = false.
Proof.
  revert i. induction n as [|n IH]; intros i; cbn.
  { split; [done|]. intros [? _]. lia. }
  destruct (p i) eqn:E.
  - split.
    + intros [= <-]. split_and!; [lia|lia|done|]. intros; lia.
    + intros (? & ? & Hf). destruct (decide (i = j)) as [->|]; [done|].
      rewrite Hf in E by lia. done.
  - rewrite IH. split; intros (? & ? & Hf); split_and!; try done; try lia.
    + intros k Hk. destruct (decide (i = k)) as [->|]; [done|]. apply Hf. lia.
    + destruct (decide (i = j)) as [->|]; [congruence|lia].
    + intros k Hk. apply Hf. lia.
Qed.

Lemma first_slot_None p n i :
  first_slot p n i = None <-> forall k, (i <= k < i + n)%nat -> p k = false.
Proof.
  revert i. induction n as [|n IH]; intros i; cbn; [split; [intros; lia|done]|].
  destruct (p i) eqn:E.
  - split; [done|]. intros H. rewrite H in E by lia. done.
  - rewrite IH. split; intros H k Hk; [|apply H; lia].
    destruct (decide (i = k)) as [->|]; [done|]. apply H. lia.
Qed.

(** A claimed slot is ready and has its own stack. *)
Definition claim (i : nat) (t : tcb) : tcb :=
  set_t_stack_size TASK_STACK_SIZE (set_t_stack_base (task_stack L i) (set_t_state TASK_READY t)).

Definition aclaim (o : option nat) (a : aview) : aview :=
  match o with
  | Some i => aupd_task (task_slot L i) (claim i) a
  | None => a
  end.
Definition slot_ptr (slot : nat -> ptr) (o : option nat) : ptr :=
  match o with Some i => slot i | None => NULL end.

Lemma runs_alloc_task_scan a n i :
  (forall k, (i <= k < i + n)%nat -> exists t, tasks (av a) !! task_slot L k = Some t) ->
  runs a (alloc_task_scan L n i) (slot_ptr (task_slot L) (first_slot (task_dead a) n i))
    (aclaim (first_slot (task_dead a) n i) a).
Proof.
  revert i. induction n as [|n IH]; intros i Hs; cbn [alloc_task_scan first_slot].
  { apply runs_ret. }
  destruct (Hs i ltac:(lia)) as [t Ht]. run_step. unfold task_dead at 1 3. rewrite Ht.
  case_bool_decide.
  - run_step. run_step. run_step. eapply runs_equiv; [|apply runs_ret].
    cbn [aclaim]. unfold aupd_task. rewrite (alter_lookup _ _ _ _ Ht). aview_solve.
  - apply IH. intros k Hk. apply Hs. lia.
Qed.

Lemma runs_alloc_task a :
  (forall k, (k < N_TASKS)%nat -> exists t, tasks (av a) !! task_slot L k = Some t) ->
  let o := first_slot (task_dead a) N_TASKS 0 in
  runs a (alloc_task L) (slot_ptr (task_slot L) o) (aclaim o a).
Proof.
  intros Hs o. unfold alloc_task. run_step.
  eapply runs_bind.
  { apply (runs_alloc_task_scan (amap (set_primask 1) a)). intros k Hk. apply Hs. lia. }
  cbn beta. run_step. change (task_dead (amap (set_primask 1) a)) with (task_dead a). fold o.
  eapply runs_equiv; [|apply runs_ret]. destruct o; cbn [aclaim]; aview_solve.
Qed.

Definition sem_unused (a : aview) (i : nat) : bool :=
  match sems (av a) !! sem_slot L i with
  | Some v => bool_decide (s_state v = SEM_UNUSED)
  | None => false
  end.
Definition aopen (o : option nat) (a : aview) : aview :=
  match o with Some i => aupd_sem (sem_slot L i) (set_s_state SEM_OPEN) a | None => a end.

Lemma runs_alloc_sem_scan a n i :
  (forall k, (i <= k < i + n)%nat -> exists v, sems (av a) !! sem_slot L k = Some v) ->
  runs a (alloc_sem_scan L n i) (slot_ptr (sem_slot L) (first_slot (sem_unused a) n i))
    (aopen (first_slot (sem_unused a) n i) a).
Proof.
  revert i. induction n as [|n IH]; intros i Hs; cbn [alloc_sem_scan first_slot].
  { apply runs_ret. }
  destruct (Hs i ltac:(lia)) as [v Hv]. run_step. unfold sem_unused at 1 3. rewrite Hv.
  case_bool_decide.
  - run_step. eapply runs_equiv; [|apply runs_ret].
    cbn [aopen]. unfold aupd_sem. rewrite (alter_lookup _ _ _ _ Hv). aview_solve.
  - apply IH. intros k Hk. apply Hs. lia.
Qed.

Lemma runs_alloc_sem a :
  (forall k, (k < N_SEMAPHORES)%nat -> exists v, sems (av a) !! sem_slot L k = Some v) ->
  let o := first_slot (sem_unused a) N_SEMAPHORES 0 in
  runs a (alloc_sem L) (slot_ptr (sem_slot L) o) (aopen o a).
Proof.
  intros Hs o. unfold alloc_sem. run_step.
  eapply runs_bind.
  { apply (runs_alloc_sem_scan (amap (set_primask 1) a)). intros k Hk. apply Hs. lia. }
  cbn beta. run_step. change (sem_unused (amap (set_primask 1) a)) with (sem_unused a). fold o.
  eapply runs_equiv; [|apply runs_ret]. destruct o; cbn [aopen]; aview_solve.
Qed.
End alloc.

(** ** Addresses of the pools *)

(** The arrays are laid out by a C compiler: objects have a size, and no
    object is at address 0. *)
Record layout_ok (L : layout) : Prop := {
  lo_tcb : 0 < sizeof_tcb L; lo_sem : 0 < sizeof_sem L;
  lo_mutex : 0 < sizeof_mutex L; lo_socket : 0 < sizeof_socket L;
  lo_tasks : 0 < task_slots L; lo_sems : 0 < sem_slots L;
  lo_mutexes : 0 < mutex_slots L; lo_sockets : 0 < socket_slots L;
  lo_task_end : task_slots L + Z.of_nat N_TASKS * sizeof_tcb L <= 2 ^ 32;
  lo_sem_end : sem_slots L + Z.of_nat N_SEMAPHORES * sizeof_sem L <= 2 ^ 32;
  lo_mutex_end : mutex_slots L + Z.of_nat N_MUTEXES * sizeof_mutex L <= 2 ^ 32;
  lo_socket_end : socket_slots L + Z.of_nat N_SOCKETS * sizeof_socket L <= 2 ^ 32;
}.

Section addresses.
Context (L : layout) (HL : layout_ok L).

Lemma task_slot_inj i j : task_slot L i = task_slot L j -> i = j.
Proof using HL. pose proof (lo_tcb _ HL). unfold task_slot. nia. Qed.
Lemma task_slot_nonnull i : task_slot L i <> NULL.
Proof using HL. pose proof (lo_tcb _ HL). pose proof (lo_tasks _ HL). unfold task_slot, NULL. nia. Qed.
Lemma sem_slot_inj i j : sem_slot L i = sem_slot L j -> i = j.
Proof using HL. pose proof (lo_sem _ HL). unfold sem_slot. nia. Qed.
Lemma sem_slot_nonnull i : sem_slot L i <> NULL.
Proof using HL. pose proof (lo_sem _ HL). pose proof (lo_sems _ HL). unfold sem_slot, NULL. nia. Qed.

(** A check by remainder accepts every member of the array. *)
Lemma validate_member base size i n :
  0 < size -> 0 <= base -> base + Z.of_nat n * size <= 2 ^ 32 -> (i < n)%nat ->
  validate base size (base + Z.of_nat i * size) = true.
Proof using.
  intros Hs Hb He Hi. unfold validate. apply Z.eqb_eq.
  replace (base + Z.of_nat i * size - base) with (Z.of_nat i * size) by lia.
  rewrite u32_small by nia. by apply Z.mod_mul; lia.
Qed.
End addresses.
