(* ===== verification/Tcb.v ===== *)
(** * Tasks and their contexts ([tcb.c], [task_stack_init.S], [pend_sv_handler.S])

    Creating a task builds, on the task's own stack, the frame from which
    [pend_sv_handler] starts it. *)
From S2P Require Import Prelude KState Queue Abs Scheduler Semaphore Mutex Pool.

(** ** Words on a stack *)

(** [stmdb sp!, {w0, w1, ...}]: the first word ends up at the lowest address. *)
Fixpoint store_words (p : ptr) (ws : list Z) (mem : gmap Z Z) : gmap Z Z :=
  match ws with
  | [] => mem
  | w :: ws => <[p := w]> (store_words (p + 4) ws mem)
  end.
Definition stmdb (sp : ptr) (ws : list Z) (mem : gmap Z Z) : ptr * gmap Z Z :=
  let p := sp - 4 * Z.of_nat (length ws) in (p, store_words p ws mem).

(** [ldmia sp!, {n words}] *)
Fixpoint load_words (p : ptr) (n : nat) (mem : gmap Z Z) : option (list Z) :=
  match n with
  | O => Some []
  | S n => w ← mem !! p; ws ← load_words (p + 4) n mem; Some (w :: ws)
  end.
Definition ldmia (sp : ptr) (n : nat) (mem : gmap Z Z) : option (list Z * ptr) :=
  ws ← load_words sp n mem; Some (ws, sp + 4 * Z.of_nat n).

(** ** task_stack_init.S *)

(** The value in LR that returns to thread mode on PSP without an FPU frame. *)
Definition EXC_RETURN_THREAD : Z := 0xFFFFFFFD.

(** [str r3, [r12, #-4]!] *)
Definition push_word (st : ptr * gmap Z Z) (w : Z) : ptr * gmap Z Z :=
  let p := st.1 - 4 in (p, <[p := w]> st.2).

Definition task_stack_init (task_wrapper : ptr) (stack_top func args : ptr) (mem : gmap Z Z)
    : ptr * gmap Z Z :=
  foldl push_word (stack_top, mem)
    [ 0x01000000; task_wrapper; EXC_RETURN_THREAD; 0x12121212; 0x03030303; 0x02020202;
      args; func; EXC_RETURN_THREAD;
      0x11111111; 0x10101010; 0x09090909; 0x08080808; 0x07070707; 0x06060606;
      0x05050505; 0x04040404 ].

(** ** Saving and restoring a context *)

(** The registers [pend_sv_handler] saves. *)
Record context : Type := MkContext {
  x_r4_r11 : list Z; (* 8 words *)
  x_lr : Z; (* EXC_RETURN *)
  x_s16_s31 : list Z; (* 16 words *)
}.

(** [tst lr, #0x10]: clear when the exception frame holds the FPU registers. *)
Definition fpu_frame (lr : Z) : bool := Z.land lr 0x10 =? 0.

Definition context_save (psp : ptr) (x : context) (mem : gmap Z Z) : ptr * gmap Z Z :=
  let '(sp, mem) := if fpu_frame (x_lr x) then stmdb psp (x_s16_s31 x) mem else (psp, mem) in
  stmdb sp (x_r4_r11 x ++ [x_lr x]) mem.

(** The context and the PSP the handler returns with; the FPU registers keep
    their values [s] when the incoming task has none on its stack. *)
Definition context_restore (sp : ptr) (s : list Z) (mem : gmap Z Z) : option (context * ptr) :=
  '(ws, sp) ← ldmia sp 9 mem;
  let lr := List.nth 8 ws 0 in
  if fpu_frame lr then
    '(fs, sp) ← ldmia sp 16 mem;
    Some (MkContext (take 8 ws) lr fs, sp)
  else Some (MkContext (take 8 ws) lr s, sp).

(** ** tcb.c *)

Section create.
Context (L : layout) (task_wrapper : ptr).

Definition create_task (priority func args : Z) : K ptr :=
  task ← alloc_task L;
  if task =? NULL then mret NULL
  else
    upd_task task (set_t_function func);;
    upd_task task (set_t_args args);;
    base ← rd_task task t_stack_base;
    size ← rd_task task t_stack_size;
    mem ← gets stack_mem;
    let '(sp, mem) := task_stack_init task_wrapper (base + size) func args mem in
    modify (set_stack_mem mem);;
    upd_task task (set_t_sp sp);;
    upd_task task (set_t_state TASK_READY);;
    upd_task task (set_t_base_priority (u8 priority));;
    upd_task task (set_t_effective_priority (u8 priority));;
    upd_task task (set_t_owned_mutexes NULL);;
    upd_task task (set_t_unprivileged 1);;
    upd_task task (set_t_name NULL);;
    upd_task task (set_t_next NULL);;
    upd_task task (set_t_waiting_on NULL);;
    upd_task task (set_t_waiting_on_type NONE);;
    upd_task task (set_t_wake_tick 0);;
    mret task.

Definition task_set_name (task name : ptr) : K unit :=
  if negb (task =? NULL) then upd_task task (set_t_name name) else mret tt.
End create.

(** The value [task_set_privilege] writes to CONTROL. *)
Definition task_set_privilege (unprivileged control : Z) : Z :=
  let control := Z.land control (Z.lnot (Z.lor 1 2)) in
  let control := Z.lor control 2 in
  Z.lor control unprivileged.

(** ** Loads and stores *)

Lemma load_words_above p n q w mem :
  q < p -> load_words p n (<[q := w]> mem) = load_words p n mem.
Proof.
  revert p. induction n as [|n IH]; intros p Hq; [done|]. cbn.
  rewrite lookup_insert_ne by lia. by rewrite IH by lia.
Qed.

Lemma load_store_above p n q ws mem :
  q + 4 * Z.of_nat (length ws) <= p ->
  load_words p n (store_words q ws mem) = load_words p n mem.
Proof.
  revert q. induction ws as [|w ws IH]; intros q Hq; [done|]. cbn in *.
  rewrite load_words_above by lia. apply IH. lia.
Qed.

Lemma load_store p ws mem :
  load_words p (length ws) (store_words p ws mem) = Some ws.
Proof.
  revert p. induction ws as [|w ws IH]; intros p; [done|]. cbn.
  rewrite lookup_insert_eq. cbn. rewrite load_words_above by lia. by rewrite IH.
Qed.

Lemma load_words_app p n m mem :
  load_words p (n + m) mem =
    (ws ← load_words p n mem; ws' ← load_words (p + 4 * Z.of_nat n) m mem; Some (ws ++ ws')).
Proof.
  revert p. induction n as [|n IH]; intros p.
  { cbn -[Z.add]. rewrite Z.add_0_r. by destruct (load_words p m mem). }
  cbn -[Z.mul Z.add]. destruct (mem !! p); cbn -[Z.mul Z.add]; [|done]. rewrite IH.
  replace (p + 4 + 4 * Z.of_nat n) with (p + 4 * Z.of_nat (S n)) by lia.
  destruct (load_words (p + 4) n mem); cbn -[Z.mul Z.add]; [|done].
  by destruct (load_words _ m mem).
Qed.

Lemma load_words_length p n mem ws : load_words p n mem = Some ws -> length ws = n.
Proof.
  revert p ws. induction n as [|n IH]; intros p ws; cbn; [by intros [= <-]|].
  destruct (mem !! p); cbn; [|done]. destruct (load_words (p + 4) n mem) eqn:E; cbn; [|done].
  intros [= <-]. cbn. f_equal. by eapply IH.
Qed.

Lemma store_words_outside p ws mem q :
  q < p \/ p + 4 * Z.of_nat (length ws) <= q -> store_words p ws mem !! q = mem !! q.
Proof.
  revert p. induction ws as [|w ws IH]; intros p Hq; [done|]. cbn in *.
  rewrite lookup_insert_ne by lia. apply IH. lia.
Qed.

Lemma push_words p ws mem :
  foldl push_word (p, mem) ws =
    (p - 4 * Z.of_nat (length ws), store_words (p - 4 * Z.of_nat (length ws)) (rev ws) mem).
Proof.
  induction ws as [|w ws IH] using rev_ind; [cbn; f_equal; lia|].
  rewrite foldl_snoc, IH, length_app, rev_unit. unfold push_word. cbn [fst snd length store_words].
  replace (p - 4 * Z.of_nat (length ws) - 4) with (p - 4 * Z.of_nat (length ws + 1)) by lia.
  f_equal. f_equal. f_equal. lia.
Qed.

(** ** Round trip of a context *)

Lemma context_save_restore psp x mem s :
  length (x_r4_r11 x) = 8%nat -> length (x_s16_s31 x) = 16%nat ->
  let '(sp, mem') := context_save psp x mem in
  context_restore sp s mem' =
    Some (MkContext (x_r4_r11 x) (x_lr x) (if fpu_frame (x_lr x) then x_s16_s31 x else s), psp).
Proof.
  destruct x as [rs lr fs]. cbn [x_r4_r11 x_lr x_s16_s31]. intros Hr Hf.
  unfold context_save, context_restore, ldmia. cbn [x_r4_r11 x_lr x_s16_s31].
  assert (length (rs ++ [lr]) = 9%nat) as H9 by (rewrite length_app, Hr; done).
  assert (List.nth 8 (rs ++ [lr]) 0 = lr) as Hlr by (rewrite <- Hr, nth_middle; done).
  assert (take 8 (rs ++ [lr]) = rs) as H8 by (by rewrite <- Hr, take_app_length).
  destruct (fpu_frame lr) eqn:E; unfold stmdb; rewrite ?H9, ?Hf;
    change (4 * Z.of_nat 16) with 64; change (4 * Z.of_nat 9) with 36.
  - pose proof (load_store (psp - 64 - 36) (rs ++ [lr]) (store_words (psp - 64) fs mem)) as Hl.
    rewrite H9 in Hl. rewrite Hl. cbn [mbind option_bind]. rewrite Hlr, H8, E.
    rewrite load_store_above by (rewrite H9; lia).
    replace (psp - 64 - 36 + 36) with (psp - 64) by lia.
    pose proof (load_store (psp - 64) fs mem) as Hl2. rewrite Hf in Hl2. rewrite Hl2.
    cbn [mbind option_bind]. do 2 f_equal. lia.
  - pose proof (load_store (psp - 36) (rs ++ [lr]) mem) as Hl. rewrite H9 in Hl. rewrite Hl.
    cbn [mbind option_bind]. rewrite Hlr, H8, E. do 2 f_equal. lia.
Qed.

(** ** The first frame of a task *)

Lemma task_stack_init_words tw top func args mem :
  task_stack_init tw top func args mem =
    (top - 68, store_words (top - 68)
      [ 0x04040404; 0x05050505; 0x06060606; 0x07070707; 0x08080808; 0x09090909; 0x10101010;
        0x11111111; EXC_RETURN_THREAD; func; args; 0x02020202; 0x03030303; 0x12121212;
        EXC_RETURN_THREAD; tw; 0x01000000 ] mem).
Proof. unfold task_stack_init. by rewrite push_words. Qed.

(** From the words of the frame, the restore starts the task: R0 and R1 hold
    the function and its argument, the PC the wrapper. *)
Lemma first_frame tw top func args mem s :
  let '(sp, mem') := task_stack_init tw top func args mem in
  exists r4_r11,
    context_restore sp s mem' = Some (MkContext r4_r11 EXC_RETURN_THREAD s, sp + 36) /\
    load_words (sp + 36) 8 mem' =
      Some [func; args; 0x02020202; 0x03030303; 0x12121212; EXC_RETURN_THREAD; tw; 0x01000000] /\
    sp + 36 + 32 = top /\
    forall q, q < sp \/ top <= q -> mem' !! q = mem !! q.
Proof.
  rewrite task_stack_init_words. eexists.
  set (ws := [_; _; _; _; _; _; _; _; _; _; _; _; _; _; _; _; _]).
  pose proof (load_store (top - 68) ws mem) as Hl.
  change (length ws) with (9 + 8)%nat in Hl. rewrite load_words_app in Hl.
  change (4 * Z.of_nat 9) with 36 in Hl.
  destruct (load_words (top - 68) 9 (store_words (top - 68) ws mem)) as [w9|] eqn:E9; [|done].
  cbn [mbind option_bind] in Hl.
  destruct (load_words (top - 68 + 36) 8 (store_words (top - 68) ws mem)) as [w8|] eqn:E8; [|done].
  apply (inj Some) in Hl.
  assert (w9 = take 9 ws /\ w8 = drop 9 ws) as [-> ->].
  { rewrite <- Hl, <- (load_words_length _ _ _ _ E9), take_app_length, drop_app_length. done. }
  split_and!.
  - unfold context_restore, ldmia. rewrite E9. cbn -[load_words store_words Z.add Z.mul Z.sub].
    reflexivity.
  - done.
  - lia.
  - intros q Hq. apply store_words_outside. cbn. lia.
Qed.

(** ** Creating a task *)

(** The state in which the tcb at [x] is [t]: successive updates of one tcb
    compose on [t]. *)
Definition tput (x : ptr) (t : tcb) (a : aview) : aview :=
  amap (set_tasks (<[x := t]> (tasks (av a)))) a.

Lemma runs_upd_tput x t g a :
  (forall t', strip (g t') = g (strip t')) -> (forall t', t_next (g t') = t_next t') ->
  runs (tput x t a) (upd_task x g) tt (tput x (g t) a).
Proof.
  intros H1 H2. eapply runs_equiv; [|eapply runs_upd_task; [apply lookup_insert_eq|done|done]].
  unfold tput. aview_solve.
Qed.

Lemma runs_rd_tput {A} x t (f : tcb -> A) a :
  (forall t', f (strip t') = f t') -> runs (tput x t a) (rd_task x f) (f t) (tput x t a).
Proof. intros H. eapply runs_rd_task; [apply lookup_insert_eq|done]. Qed.

Lemma runs_mem_tput x t m a :
  runs (tput x t a) (modify (set_stack_mem m)) tt (tput x t (amap (set_stack_mem m) a)).
Proof. eapply runs_equiv; [|apply runs_modify; scalar_solve]. unfold tput. aview_solve. Qed.

Ltac tput_step :=
  eapply runs_bind;
  [first [ by apply runs_upd_tput | by apply runs_rd_tput | by apply runs_mem_tput ]|]; cbn beta.

Section create_spec.
Context (L : layout) (tw : ptr).

Definition stack_top (i : nat) : ptr := task_stack L i + TASK_STACK_SIZE.

(** The tcb [create_task] fills in. *)
Definition newborn (i : nat) (priority func args : Z) (t : tcb) : tcb :=
  MkTcb (stack_top i - 68) TASK_READY (u8 priority) (u8 priority) (task_stack L i)
    TASK_STACK_SIZE (t_next t) NULL func args 1 0 NULL NONE NULL.

Definition acreate (o : option nat) (priority func args : Z) (a : aview) : aview :=
  match o with
  | Some i =>
      amap (set_stack_mem (task_stack_init tw (stack_top i) func args (stack_mem (av a))).2)
        (aupd_task (task_slot L i) (newborn i priority func args) a)
  | None => a
  end.

Lemma runs_create_task a priority func args :
  layout_ok L ->
  (forall k, (k < N_TASKS)%nat -> exists t, tasks (av a) !! task_slot L k = Some t) ->
  (forall i, task_dead L a i = true -> idle (task_slot L i) a) ->
  let o := first_slot (task_dead L a) N_TASKS 0 in
  runs a (create_task L tw priority func args) (slot_ptr (task_slot L) o)
    (acreate o priority func args a).
Proof.
  intros HL Hs Hi o. unfold create_task.
  eapply runs_bind; [by apply runs_alloc_task|]. fold o. cbn beta.
  destruct o as [i|] eqn:E; cbn [slot_ptr aclaim acreate].
  2: { cbn. apply runs_ret. }
  unfold o in E. apply first_slot_Some in E as (Hk & Hd & _).
  destruct (Hs i ltac:(unfold N_TASKS in *; lia)) as [t Ht]. specialize (Hi i Hd).
  set (x := task_slot L i) in *.
  assert (x <> NULL) as Hx by (by apply task_slot_nonnull).
  rewrite (proj2 (Z.eqb_neq _ _) Hx).
  unfold aupd_task. rewrite !(alter_lookup _ _ _ _ Ht).
  change (amap (set_tasks (<[x := claim L i t]> (tasks (av a)))) a) with (tput x (claim L i t) a).
  tput_step. tput_step. tput_step. tput_step. cbn [t_stack_base t_stack_size claim
    set_t_stack_size set_t_stack_base set_t_args set_t_function].
  eapply runs_bind; [by apply runs_gets; intros []|]. cbn beta.
  change (stack_mem (av (tput x _ a))) with (stack_mem (av a)).
  change (task_stack L i + TASK_STACK_SIZE) with (stack_top i).
  rewrite task_stack_init_words. set (mem := store_words _ _ _).
  do 8 tput_step. eapply runs_bind.
  { eapply runs_clear_next; [apply lookup_insert_eq|exact Hi]. }
  do 3 tput_step. eapply runs_equiv; [|apply runs_ret].
  unfold tput, aupd_task. destruct t; aview_solve.
Qed.
End create_spec.
