(* ===== verification/Preserve.v ===== *)
(** * The invariant is preserved: scheduler, sleep list, semaphores

    The abstract operations of [Scheduler.v], [Sleep.v] and [Semaphore.v] take
    a state that satisfies the invariant of [Invariant.v] to another one. *)
From S2P Require Import Prelude KState Queue Abs Scheduler Sleep Semaphore Invariant Mutex.

(** ** Readying a task *)

Section ready.
Context (a b : aview) (x : ptr) (t t1 : tcb).
Context (Ht : tasks (av a) !! x = Some t)
  (HT : tasks (av b) = <[x := t1]> (tasks (av a)))
  (HM : mutexes (av b) = mutexes (av a))
  (He : t_effective_priority t1 = t_effective_priority t)
  (Hb : t_base_priority t1 = t_base_priority t)
  (Ho : t_owned_mutexes t1 = t_owned_mutexes t)
  (HQ : forall m, aq b (QMutex m) = aq a (QMutex m))
  (HR : aq b QReady = aq a QReady)
  (Hy : forall r y, y <> x -> y ∈ aq b r <-> y ∈ aq a r)
  (Hx : forall r, r <> QReady -> x ∉ aq b r)
  (HX : astale b ⊆ {[x]}).

Lemma ready_moved : moved a (aready x b) x t (set_t_state TASK_READY t1).
Proof using All.
  split; try done.
  - cbn. rewrite HT, (alter_lookup _ x t1) by apply lookup_insert_eq. apply insert_insert_eq.
  - intros r y Hne. cbn. destruct (decide (QReady = r)) as [<-|].
    + rewrite fn_lookup_insert, elem_of_ins, elem_of_del, HR. naive_solver.
    + rewrite fn_lookup_insert_ne by done. by apply Hy.
  - intros r. cbn. destruct (decide (QReady = r)) as [<-|].
    + rewrite fn_lookup_insert, elem_of_ins. naive_solver.
    + rewrite fn_lookup_insert_ne by done. split; [intros ?; by edestruct Hx|]. intros [= ?]. done.
  - cbn. set_solver.
Qed.

Lemma ready_ordered : ordered (prio a) (aq a QReady) -> ordered (prio a) (aq (aready x b) QReady).
Proof using All.
  intros Hord. cbn. rewrite fn_lookup_insert, HR.
  erewrite ins_ext; [apply ordered_ins, ordered_del, Hord|].
  intros y _. unfold prio. rewrite HT. by eapply key_of_insert.
Qed.
End ready.

Lemma ksem_same a b : 
  sems (av b) = sems (av a) -> (forall p, aq b (QSem p) = aq a (QSem p)) -> ksem a -> ksem b.
Proof. intros E EQ [H1 H2]. split; intros p v; rewrite E, ?EQ; [apply H1|apply H2]. Qed.

Lemma tick_insert a b x t t' y :
  tasks (av a) !! x = Some t -> tasks (av b) = <[x := t']> (tasks (av a)) ->
  t_wake_tick t' = t_wake_tick t -> tick b y = tick a y.
Proof. intros Ht HT E. unfold tick. rewrite HT. by eapply key_of_insert. Qed.

(** The running task is queued again when it can run. *)
Lemma requeue_kinv a : kinv a -> kinv (arequeue a).
Proof.
  intros Ha. unfold arequeue. set (c := current_task (av a)).
  destruct (tasks (av a) !! c) as [t|] eqn:Ht; [|done]. case_bool_decide as Hst; [done|].
  assert (forall r, r <> QReady -> c ∉ aq a r) as Hq.
  { intros r Hr Hc%(wf_place _ (ki_wf _ Ha) _ _ _ Ht). unfold place in Hc.
    destruct (t_state t); naive_solver. }
  assert (tasks (av a) = <[c := t]> (tasks (av a))) as ET by (by rewrite insert_id).
  eapply moved_kinv; [eapply (ready_moved a a c t t)|done|..]; try done.
  - rewrite (ki_stale _ Ha). set_solver.
  - apply (ready_ordered a a c t t); try done; [|apply Ha].
    rewrite (ki_stale _ Ha). set_solver.
  - eapply ordered_ext; [|apply Ha]. intros y _. symmetry.
    apply (tick_insert _ _ c t (set_t_state TASK_READY t)); [done| |done].
    by apply alter_lookup.
  - apply (ksem_same a); [done|done|apply Ha].
Qed.

(** The head of the ready queue is dispatched. *)
Lemma dispatch_kinv a x l :
  kinv a -> kbase a -> aq a QReady = x :: l ->
  kinv (aset QReady l (aupd_task x (set_t_state TASK_RUNNING) a)).
Proof.
  intros Ha Hk El. assert (x ∈ aq a QReady) as Hx by (rewrite El; by left).
  destruct (kb_known _ Hk _ _ Hx) as [_ [t Ht]].
  pose proof (kb_nodup _ Hk QReady) as Hnd. rewrite El in Hnd. apply NoDup_cons in Hnd as [Hxl _].
  pose proof (ord_ready _ (ki_ord _ Ha)) as Hord. rewrite El in Hord.
  eapply moved_kinv; [apply (Build_moved a _ x t (set_t_state TASK_RUNNING t))|done|..];
    try done.
  - cbn. by apply alter_lookup.
  - intros r y Hy. cbn. destruct (decide (QReady = r)) as [<-|].
    + rewrite fn_lookup_insert, El. set_solver.
    + by rewrite fn_lookup_insert_ne.
  - intros r. unfold place. cbn. destruct (decide (QReady = r)) as [<-|].
    + rewrite fn_lookup_insert. naive_solver.
    + rewrite fn_lookup_insert_ne by done. rewrite (wf_place _ (ki_wf _ Ha) _ _ r Ht).
      apply (wf_place _ (ki_wf _ Ha) _ _ QReady Ht) in Hx. split; [congruence|].
      destruct (t_waiting_on_type t); done.
  - apply Ha.
  - cbn. rewrite fn_lookup_insert. by apply StronglySorted_inv in Hord as [? _].
  - eapply ordered_ext; [|apply Ha]. intros y _. symmetry.
    apply (tick_insert _ _ x t (set_t_state TASK_RUNNING t)); [done| |done].
    by apply alter_lookup.
  - apply (ksem_same a); [done|done|apply Ha].
Qed.

(** The head of the sleep list is woken. *)
Lemma wake_kinv a x l t :
  kinv a -> tasks (av a) !! x = Some t -> aq a QSleep = x :: l -> x ∉ l ->
  kinv (aready x (aset QSleep l a)).
Proof.
  intros Ha Ht El Hxl. assert (x ∈ aq a QSleep) as Hx by (rewrite El; by left).
  pose proof (proj1 (wf_place _ (ki_wf _ Ha) _ _ QSleep Ht) Hx) as Hp.
  pose proof (ki_sleep _ Ha) as Hord. rewrite El in Hord.
  set (b := aset QSleep l a).
  assert (tasks (av a) = <[x := t]> (tasks (av a))) as ET by (by rewrite insert_id).
  assert (forall r y, y <> x -> y ∈ aq b r <-> y ∈ aq a r) as Hoth.
  { intros r y Hy. cbn. destruct (decide (QSleep = r)) as [<-|].
    - rewrite fn_lookup_insert, El. set_solver.
    - by rewrite fn_lookup_insert_ne. }
  assert (forall r, r <> QReady -> x ∉ aq b r) as Hno.
  { intros r Hr. cbn. destruct (decide (QSleep = r)) as [<-|].
    - by rewrite fn_lookup_insert.
    - rewrite fn_lookup_insert_ne by done. rewrite (wf_place _ (ki_wf _ Ha) _ _ r Ht). congruence. }
  assert (astale b ⊆ {[x]}) as HX by (cbn; rewrite (ki_stale _ Ha); set_solver).
  eapply moved_kinv; [by eapply (ready_moved a b x t t)|done|..].
  - apply (ready_ordered a b x t t); try done. apply Ha.
  - cbn. rewrite fn_lookup_insert_ne, fn_lookup_insert by done.
    apply ordered_ext with (k := tick a); [|by apply StronglySorted_inv in Hord as [? _]].
    intros y _. symmetry. apply (tick_insert _ _ x t (set_t_state TASK_READY t)); [done| |done].
    by apply alter_lookup.
  - apply (ksem_same a); [done|done|apply Ha].
Qed.

Lemma awake_kinv a l : kinv a -> kbase a -> aq a QSleep = l -> kinv (awake l a).
Proof.
  intros Ha Hk. pose proof (kb_nodup _ Hk QSleep) as Hnd.
  assert (forall x, x ∈ aq a QSleep -> is_Some (tasks (av a) !! x)) as Hkn
    by (intros x [_ ?]%(kb_known _ Hk); done).
  clear Hk. revert a Ha Hnd Hkn. induction l as [|x l IH]; intros a Ha Hnd Hkn El; [done|].
  cbn. destruct (due a x); [|done]. rewrite El in Hnd, Hkn. apply NoDup_cons in Hnd as [Hxl Hnd].
  destruct (Hkn x) as [t Ht]; [by left|].
  apply IH; [by eapply wake_kinv|done| |done].
  cbn. intros y Hy. rewrite lookup_alter. case_decide as E; [rewrite Ht; by eexists|].
  apply Hkn. by right.
Qed.

(** The running task falls asleep. *)
Lemma asleep_kinv a n t :
  let c := current_task (av a) in
  kinv a -> tasks (av a) !! c = Some t -> t_state t = TASK_RUNNING -> kinv (asleep n a).
Proof.
  intros c Ha Ht Hst.
  pose proof (fun r => running_unqueued a t Ht Hst (ki_wf _ Ha) r) as Hno. fold c in Hno.
  unfold asleep. fold c. cbv zeta.
  set (f := fun t => set_t_wake_tick _ (set_t_state TASK_SLEEPING t)).
  set (a1 := aupd_task c f a).
  eapply moved_kinv; [apply (Build_moved a _ c t (f t))|done|..]; try done.
  - by apply alter_lookup.
  - intros r y Hy. cbn. destruct (decide (QSleep = r)) as [<-|].
    + rewrite fn_lookup_insert, elem_of_ins. naive_solver.
    + by rewrite fn_lookup_insert_ne.
  - intros r. cbn. destruct (decide (QSleep = r)) as [<-|].
    + rewrite fn_lookup_insert, elem_of_ins. naive_solver.
    + rewrite fn_lookup_insert_ne by done. split; [by intros ?%Hno|congruence].
  - apply Ha.
  - apply Ha.
  - cbn. rewrite fn_lookup_insert. change (tick (aset _ _ a1)) with (tick a1).
    apply ordered_ins. eapply ordered_ext; [|apply Ha]. intros y Hy.
    unfold tick, a1, key_of. cbn. rewrite lookup_alter_ne; [done|]. intros ->. by apply Hno in Hy.
  - apply (ksem_same a); [done|done|apply Ha].
Qed.


(** ** Semaphores *)

(** The invariant reads the tasks, the mutexes, the queues and, in [ksem], the
    semaphores only. *)
Lemma kinv_ext a b :
  tasks (av b) = tasks (av a) -> mutexes (av b) = mutexes (av a) ->
  (forall r, aq b r = aq a r) -> astale b = astale a -> ksem b -> kinv a -> kinv b.
Proof.
  intros ET EM EQ EX Hs [[P1 P2 P3] [O1 O2] Hsl Hown _ Hpi Hst].
  assert (forall y, prio b y = prio a y) as Ep by (intros; unfold prio; by rewrite ET).
  assert (forall w z, waits_for b w z <-> waits_for a w z) as Ew.
  { intros w z. unfold waits_for. rewrite EM. by setoid_rewrite EQ. }
  split; [split|split|..]; rewrite ?ET, ?EM, ?EX, ?EQ; try done.
  - intros x t r. rewrite EQ. apply P1.
  - intros m v. rewrite EQ. apply P2.
  - eapply ordered_ext; [|exact O1]. auto.
  - intros m. rewrite EQ. eapply ordered_ext; [|apply O2]. auto.
  - eapply ordered_ext; [|exact Hsl]. intros. unfold tick. by rewrite ET.
  - intros x t. unfold owned_list. rewrite ET, EM. apply Hown.
  - intros x t. rewrite ET. intros Ht. destruct (Hpi x t Ht) as [H1 H2 H3]. split; [done| |].
    + intros w Hw%Ew. rewrite Ep. auto.
    + destruct H3 as [?|(w & Hw & E)]; [auto|right]. exists w. by rewrite Ew, Ep.
Qed.

Lemma kinv_equiv a b : a ≡ b -> kinv a -> kinv b.
Proof.
  intros (E & EQ & EX) Ha. apply (kinv_ext a); try congruence.
  apply (ksem_same a); [congruence|auto|apply Ha].
Qed.

Lemma kinv_scalar a g :
  (forall s, tasks (g s) = tasks s) -> (forall s, mutexes (g s) = mutexes s) ->
  (forall s, sems (g s) = sems s) -> kinv a -> kinv (amap g a).
Proof.
  intros E1 E2 E3 Ha. apply (kinv_ext a); cbn; auto.
  apply (ksem_same a); [cbn; auto|done|apply Ha].
Qed.

(** An update of one semaphore that no task waits for, or that keeps the
    semaphore open and empty. *)
Lemma upd_sem_kinv a p v g :
  kinv a -> sems (av a) !! p = Some v -> 0 <= s_count (g v) < 2 ^ 32 ->
  (aq a (QSem p) <> [] -> s_state (g v) = SEM_OPEN /\ s_count (g v) = 0) ->
  kinv (aupd_sem p g a).
Proof.
  intros Ha Hv Hw Hq. apply (kinv_ext a); try done.
  pose proof (ki_sem _ Ha) as [H1 H2].
  split; intros p' v'; cbn; rewrite lookup_alter; case_decide as E;
    try (subst p'; rewrite Hv; cbn; intros [= <-]); auto; [apply H1|apply H2].
Qed.

Lemma take_kinv a p v :
  kinv a -> sems (av a) !! p = Some v -> 0 < s_count v -> kinv (asem_take p a).
Proof.
  intros Ha Hv Hc. destruct (ki_sem _ Ha) as [H1 H2]. pose proof (H2 _ _ Hv).
  eapply upd_sem_kinv; [done..|cbn; lia|]. intros [_ ?]%(H1 _ _ Hv). lia.
Qed.

Lemma bump_kinv a p v :
  kinv a -> sems (av a) !! p = Some v -> aq a (QSem p) = [] -> kinv (asem_bump p a).
Proof.
  intros Ha Hv Hq. eapply upd_sem_kinv; [done..|cbn; apply u32_range|done].
Qed.

Lemma sem_init_kinv a p v n :
  kinv a -> sems (av a) !! p = Some v -> aq a (QSem p) = [] ->
  kinv (aupd_sem p (fun v => set_s_count (u32 n) (set_s_state SEM_OPEN v)) a).
Proof.
  intros Ha Hv Hq. eapply upd_sem_kinv; [done..|cbn; apply u32_range|done].
Qed.

(** The running task blocks on an open semaphore without units. *)
Lemma sem_block_kinv a p v t :
  let c := current_task (av a) in
  kinv a -> tasks (av a) !! c = Some t -> t_state t = TASK_RUNNING ->
  sems (av a) !! p = Some v -> s_state v = SEM_OPEN -> s_count v = 0 ->
  kinv (asem_block p a).
Proof.
  intros c Ha Ht Hst Hv Ho Hc.
  pose proof (fun r => running_unqueued a t Ht Hst (ki_wf _ Ha) r) as Hno. fold c in Hno.
  unfold asem_block. fold c.
  eapply moved_kinv; [apply (Build_moved a _ c t (block_on p SEM t))|done|..]; try done.
  - by apply alter_lookup.
  - intros r y Hy. cbn. destruct (decide (QSem p = r)) as [<-|].
    + rewrite fn_lookup_insert, elem_of_app, list_elem_of_singleton. naive_solver.
    + by rewrite fn_lookup_insert_ne.
  - intros r. cbn. destruct (decide (QSem p = r)) as [<-|].
    + rewrite fn_lookup_insert, elem_of_app, list_elem_of_singleton. naive_solver.
    + rewrite fn_lookup_insert_ne by done. split; [by intros ?%Hno|congruence].
  - apply Ha.
  - apply Ha.
  - eapply ordered_ext; [|apply Ha]. intros y _. symmetry.
    apply (tick_insert _ _ c t (block_on p SEM t)); [done| |done]. by apply alter_lookup.
  - destruct (ki_sem _ Ha) as [H1 H2].
    split; intros p' v'; cbn; rewrite lookup_alter; case_decide as E;
      try (subst p'; rewrite Hv; cbn; intros [= <-]); cbn; auto.
    + rewrite fn_lookup_insert_ne by congruence. apply H1.
    + by apply (H2 p).
    + apply H2.
Qed.

(** A queue that loses its head [x]. *)
Lemma pop_elem a r x l r' y :
  aq a r = x :: l -> y <> x -> y ∈ aq (aset r l a) r' <-> y ∈ aq a r'.
Proof.
  intros El Hy. cbn. destruct (decide (r = r')) as [<-|].
  - rewrite fn_lookup_insert, El. set_solver.
  - by rewrite fn_lookup_insert_ne.
Qed.

Lemma pop_gone a r x l t r' :
  kwf a -> tasks (av a) !! x = Some t -> aq a r = x :: l -> x ∉ l -> x ∉ aq (aset r l a) r'.
Proof.
  intros Ha Ht El Hx. cbn. destruct (decide (r = r')) as [<-|Hr].
  - by rewrite fn_lookup_insert.
  - rewrite fn_lookup_insert_ne by done. rewrite (wf_place _ Ha _ _ _ Ht).
    assert (x ∈ aq a r) as Hr' by (rewrite El; by left).
    apply (wf_place _ Ha _ _ _ Ht) in Hr'. congruence.
Qed.

(** A post hands the unit to the task that waits longest. *)
Lemma grant_kinv a p v x l t :
  kinv a -> sems (av a) !! p = Some v -> tasks (av a) !! x = Some t ->
  aq a (QSem p) = x :: l -> x ∉ l -> kinv (asem_grant p x l a).
Proof.
  intros Ha Hv Ht El Hxl. unfold asem_grant.
  set (b := aset (QSem p) l _).
  assert (tasks (av b) = <[x := unwait t]> (tasks (av a))) as HT by (by apply alter_lookup).
  assert (forall r, aq b r = aq (aset (QSem p) l a) r) as Eq by done.
  assert (forall r y, y <> x -> y ∈ aq b r <-> y ∈ aq a r) as Hoth.
  { intros r y Hy. rewrite Eq. by apply pop_elem with (x := x). }
  assert (forall r, r <> QReady -> x ∉ aq b r) as Hno.
  { intros r _. rewrite Eq. by apply (pop_gone a _ _ _ t); [apply Ha|..]. }
  assert (astale b ⊆ {[x]}) as HX by (cbn; rewrite (ki_stale _ Ha); set_solver).
  eapply moved_kinv; [by eapply (ready_moved a b x t (unwait t))|done|..].
  - apply (ready_ordered a b x t (unwait t)); try done. apply Ha.
  - eapply ordered_ext; [|apply Ha]. intros y _. symmetry.
    apply (tick_insert _ _ x t (set_t_state TASK_READY (unwait t))); [done| |done].
    cbn. rewrite (alter_lookup unwait x t), (alter_lookup _ x (unwait t)) by (done || apply lookup_insert_eq).
    apply insert_insert_eq.
  - destruct (ki_sem _ Ha) as [H1 H2].
    split; intros p' v'; cbn; rewrite lookup_alter; case_decide as E;
      try (subst p'; rewrite Hv; cbn; intros [= <-]); cbn; auto.
    + intros _. apply (H1 p); [done|by rewrite El].
    + rewrite fn_lookup_insert_ne, fn_lookup_insert_ne by congruence. apply H1.
    + by apply (H2 p).
    + apply H2.
Qed.

(** A close takes the waiters out of the queue and leaves them blocked. *)
Lemma forget_kinv a p v x l t :
  kinv a -> sems (av a) !! p = Some v -> tasks (av a) !! x = Some t ->
  aq a (QSem p) = x :: l -> x ∉ l -> kinv (aset (QSem p) l (aupd_task x forget_wait a)).
Proof.
  intros Ha Hv Ht El Hxl.
  assert (place t = Some (QSem p)) as Hp.
  { apply (wf_place _ (ki_wf _ Ha) _ _ _ Ht). rewrite El. by left. }
  assert (t_state t = TASK_BLOCKED) as Hst.
  { unfold place in Hp. destruct (t_state t), (t_waiting_on_type t); done. }
  eapply moved_kinv; [apply (Build_moved a _ x t (forget_wait t))|done|..]; try done.
  - by apply alter_lookup.
  - intros r y Hy. by apply (pop_elem a _ x).
  - intros r. unfold place. cbn. rewrite Hst. split; [|done]. intros Hx.
    by destruct (pop_gone a (QSem p) x l t r (ki_wf _ Ha) Ht El Hxl).
  - apply Ha.
  - apply Ha.
  - eapply ordered_ext; [|apply Ha]. intros y _. symmetry.
    apply (tick_insert _ _ x t (forget_wait t)); [done| |done]. by apply alter_lookup.
  - destruct (ki_sem _ Ha) as [H1 H2]. split; intros p' v' Hv'; cbn; [|by apply (H2 p')].
    destruct (decide (p = p')) as [<-|].
    + intros _. cbn in Hv'. apply (H1 p); [done|by rewrite El].
    + rewrite fn_lookup_insert_ne by congruence. by apply H1.
Qed.

Lemma close_kinv a p v :
  kinv a -> kbase a -> sems (av a) !! p = Some v -> kinv (asem_close p a).
Proof.
  intros Ha Hk Hv. unfold asem_close.
  assert (kinv (aset (QSem p) [] (aforget (aq a (QSem p)) a))) as Hc.
  { pose proof (kb_nodup _ Hk (QSem p)) as Hnd.
    assert (forall x, x ∈ aq a (QSem p) -> is_Some (tasks (av a) !! x)) as Hkn
      by (intros x [_ ?]%(kb_known _ Hk); done).
    clear Hk. remember (aq a (QSem p)) as l eqn:El. symmetry in El.
    revert a Ha Hv Hnd Hkn El. induction l as [|x l IH]; intros a Ha Hv Hnd Hkn El.
    - eapply kinv_equiv; [|exact Ha]. cbn. aview_solve.
    - apply NoDup_cons in Hnd as [Hxl Hnd]. destruct (Hkn x) as [t Ht]; [by left|].
      eapply kinv_equiv; [|apply (IH (aset (QSem p) l (aupd_task x forget_wait a)))].
      + cbn. rewrite aforget_aset. aview_solve.
      + by eapply forget_kinv.
      + done.
      + done.
      + cbn. intros y Hy. rewrite lookup_alter. case_decide; [rewrite Ht; by eexists|].
        apply Hkn. by right.
      + cbn. by rewrite fn_lookup_insert. }
  destruct (aforget_same (aq a (QSem p)) a) as (_ & Es & _).
  eapply upd_sem_kinv; [done|cbn; rewrite Es; done|..].
  - cbn. apply (sem_word _ (ki_sem _ Ha) _ _ Hv).
  - cbn. by rewrite fn_lookup_insert.
Qed.
