(* ===== verification/Inherit.v ===== *)
(** * The invariant is preserved: mutexes and priority inheritance

    Locking and unlocking, as specified in [Mutex.v], keep every task at
    exactly the priority it inherits.  The unlock with a waiter does so under
    the condition that the new owner owns nothing and that the mutex is the
    last of its owner's list; [Nested.v] shows what happens otherwise. *)
From S2P Require Import Prelude KState Queue Abs Scheduler Sleep Semaphore Invariant Mutex.
From S2P Require Import Preserve.

(** ** Priorities computed from a list of owned mutexes *)

Lemma wait_min_spec a p m :
  ordered (prio a) (aq a (QMutex m)) ->
  wait_min a p m <= p /\ (forall w, w ∈ aq a (QMutex m) -> wait_min a p m <= prio a w) /\
  (wait_min a p m = p \/ exists w, w ∈ aq a (QMutex m) /\ wait_min a p m = prio a w).
Proof.
  unfold wait_min. intros Ho. destruct (aq a (QMutex m)) as [|x l].
  { split_and!; [lia| |auto]. intros w Hw. by apply elem_of_nil in Hw. }
  apply StronglySorted_inv in Ho as [_ Hall]. rewrite Forall_forall in Hall.
  assert (forall w, w ∈ x :: l -> prio a x <= prio a w) as Hmin.
  { intros w [-> | Hw]%elem_of_cons; [lia|by apply Hall]. }
  destruct (Z.gtb_spec p (prio a x)).
  - split_and!; [lia|done|right]. exists x. split; [by left|done].
  - split_and!; [lia| |auto]. intros w Hw%Hmin. lia.
Qed.

Lemma recalc_spec a l p :
  (forall m, ordered (prio a) (aq a (QMutex m))) ->
  recalc a l p <= p /\
  (forall m w, m ∈ l -> w ∈ aq a (QMutex m) -> recalc a l p <= prio a w) /\
  (recalc a l p = p \/ exists m w, m ∈ l /\ w ∈ aq a (QMutex m) /\ recalc a l p = prio a w).
Proof.
  intros Ho. revert p. induction l as [|m l IH]; intros p; cbn.
  { split_and!; [lia| |auto]. intros m w Hm. by apply elem_of_nil in Hm. }
  destruct (wait_min_spec a p m (Ho m)) as (H1 & H2 & H3).
  destruct (IH (wait_min a p m)) as (I1 & I2 & I3). unfold recalc in *. split_and!; [lia| |].
  - intros m' w [-> | Hm]%elem_of_cons Hw; [specialize (H2 w Hw); lia|by eapply I2].
  - destruct I3 as [E|(m' & w & ? & ? & ?)]; [|right; exists m', w; set_solver].
    rewrite E. destruct H3 as [?|(w & ? & ?)]; [auto|right]. exists m, w. set_solver.
Qed.

(** The computed priority is the inherited one. *)
Lemma recalc_inherits a b x t l :
  (forall m, ordered (prio a) (aq a (QMutex m))) ->
  (forall m, aq b (QMutex m) = aq a (QMutex m)) ->
  (forall m w, w ∈ aq a (QMutex m) -> prio b w = prio a w) ->
  (forall m, m ∈ l <-> exists v, mutexes (av b) !! m = Some v /\ m_owner v = x) ->
  t_effective_priority t = recalc a l (t_base_priority t) -> inherits b x t.
Proof.
  intros Ho Eq Ep Hl E. destruct (recalc_spec a l (t_base_priority t) Ho) as (H1 & H2 & H3).
  rewrite <- E in *. split; [done| |].
  - intros w (m & v & Hv & Hx & Hw). rewrite Eq in Hw. rewrite (Ep m) by done.
    apply (H2 m); [|done]. apply Hl. eauto.
  - destruct H3 as [?|(m & w & Hm & Hw & Er)]; [auto|right]. exists w.
    apply Hl in Hm as (v & Hv & Hx). split; [|by rewrite (Ep m)].
    exists m, v. by rewrite Eq.
Qed.

(** ** Locking a free mutex *)

Lemma task_nonnull a x t : tasks (av a) !! NULL = None -> tasks (av a) !! x = Some t -> x <> NULL.
Proof. congruence. Qed.

Section lock_free.
Context (a : aview) (m : ptr) (v : mutex) (t : tcb).
Let c := current_task (av a).
Context (Ha : kinv a) (Hk : kbase a) (Hv : mutexes (av a) !! m = Some v) (Hm : m <> NULL)
  (Ho : m_owner v = NULL) (Ht : tasks (av a) !! c = Some t).
Let v' := set_m_next_owned (t_owned_mutexes t) (set_m_owner c v).
Let b := alock_free m a.

Lemma lock_free_tasks : tasks (av b) = <[c := set_t_owned_mutexes m t]> (tasks (av a)).
Proof using Ht. by apply alter_lookup. Qed.

Lemma lock_free_mutexes : mutexes (av b) = <[m := v']> (mutexes (av a)).
Proof using Ht Hv.
  unfold b, alock_free. fold c. rewrite Ht. cbn. by rewrite (alter_lookup _ _ _ _ Hv).
Qed.

Lemma lock_free_empty : aq a (QMutex m) = [].
Proof using Ha Ho Hv. by eapply (wf_free _ (ki_wf _ Ha)). Qed.

Lemma lock_free_prio y : prio b y = prio a y.
Proof using Ht. unfold prio. rewrite lock_free_tasks. by eapply key_of_insert. Qed.

Lemma lock_free_waits w z : waits_for b w z <-> waits_for a w z.
Proof using Ha Ho Ht Hv.
  unfold waits_for. rewrite lock_free_mutexes. cbn. pose proof lock_free_empty as Hq.
  split; intros (m' & u & Hu & Hz & Hw).
  - apply lookup_insert_Some in Hu as [[<- <-]|[_ Hu]]; [|by eauto].
    rewrite Hq in Hw. by apply elem_of_nil in Hw.
  - exists m', u. rewrite lookup_insert_ne; [done|]. intros <-.
    rewrite Hq in Hw. by apply elem_of_nil in Hw.
Qed.

Lemma lock_free_back y ty :
  tasks (av b) !! y = Some ty -> exists ty0, tasks (av a) !! y = Some ty0 /\
    place ty = place ty0 /\ t_effective_priority ty = t_effective_priority ty0 /\
    t_base_priority ty = t_base_priority ty0.
Proof using Ht. rewrite lock_free_tasks. intros [[<- <-]|[_ ?]]%lookup_insert_Some; eauto 10. Qed.

Lemma lock_free_owned : kowned b.
Proof using All.
  intros y ty. unfold owned_list. rewrite lock_free_tasks, lock_free_mutexes.
  assert (forall l ty0, tasks (av a) !! y = Some ty0 -> owned_list a y ty0 l -> m ∉ l) as Hnot.
  { intros l ty0 Hy (_ & _ & Hl) (u & Hu & Huy)%Hl. simplify_eq.
    rewrite Ho in Hy. pose proof (kb_null _ Hk). congruence. }
  assert (forall p l, m ∉ l -> mseg (mutexes (av a)) p l ->
    mseg (<[m:=v']> (mutexes (av a))) p l) as Hext.
  { intros p l Hl. apply mseg_ext. intros m' Hm'. by rewrite lookup_insert_ne by (by intros ->). }
  intros [[<- <-]|[Hne Hy]]%lookup_insert_Some.
  - destruct (ki_owned _ Ha _ _ Ht) as [l Hl]. pose proof (Hnot _ _ Ht Hl).
    destruct Hl as (Hl & Hnd & El).
    exists (m :: l). split_and!; [|by constructor|].
    + cbn. split_and!; [done..|]. exists v'. rewrite lookup_insert_eq. auto.
    + intros m'. rewrite elem_of_cons, El. setoid_rewrite lookup_insert_Some. naive_solver.
  - destruct (ki_owned _ Ha _ _ Hy) as [l Hl]. pose proof (Hnot _ _ Hy Hl).
    destruct Hl as (Hl & Hnd & El).
    exists l. split_and!; [by apply Hext|done|].
    intros m'. rewrite El. setoid_rewrite lookup_insert_Some. split.
    + intros (u & Hu & Huy). exists u. split; [|done]. right. split; [|done]. intros ->.
      simplify_eq. rewrite Ho in Hy. pose proof (kb_null _ Hk). congruence.
    + intros (u & [[-> <-]|[_ Hu]] & Huy); [|by eauto]. cbn in Huy. congruence.
Qed.

Lemma lock_free_kinv : kinv b.
Proof using All.
  pose proof Ha as [[P1 P2 P3] [O1 O2] Hsl _ Hsem Hpi Hst].
  split; [split|split|..]; try done.
  - intros y ty r (ty0 & Hy & -> & _)%lock_free_back. by apply P1.
  - intros m' u. rewrite lock_free_mutexes. intros [[<- <-]|[_ Hu]]%lookup_insert_Some.
    + intros Hc. cbn in Hc. apply (wf_free _ (ki_wf _ Ha) m v); done.
    + by apply P2.
  - intros m' u. rewrite lock_free_mutexes, lock_free_tasks.
    intros [[<- <-]|[_ Hu]]%lookup_insert_Some Hn.
    + exists (set_t_owned_mutexes m t). apply lookup_insert_eq.
    + destruct (P3 m' u Hu Hn). rewrite lookup_insert. case_decide; eauto.
  - eapply ordered_ext; [|exact O1]. intros. by rewrite lock_free_prio.
  - intros m'. eapply ordered_ext; [|apply O2]. intros. by rewrite lock_free_prio.
  - eapply ordered_ext; [|exact Hsl]. intros y _. symmetry.
    apply (tick_insert _ _ c t (set_t_owned_mutexes m t)); [done|apply lock_free_tasks|done].
  - apply lock_free_owned.
  - by apply (ksem_same a).
  - intros y ty (ty0 & Hy & _ & E1 & E2)%lock_free_back. destruct (Hpi _ _ Hy) as [H1 H2 H3].
    split; rewrite E1, ?E2; [done| |].
    + intros w Hw%lock_free_waits. rewrite lock_free_prio. auto.
    + destruct H3 as [?|(w & Hw & E)]; [auto|right]. exists w.
      by rewrite lock_free_waits, lock_free_prio.
Qed.
End lock_free.

(** ** Blocking on a mutex *)

Lemma reprio_back a a' y t' :
  reprio a a' -> tasks (av a') !! y = Some t' -> exists t e,
    tasks (av a) !! y = Some t /\ t' = set_t_effective_priority e t.
Proof.
  intros H Hy. destruct (tasks (av a) !! y) as [t|] eqn:E.
  - destruct (rp_some _ _ H _ _ E) as (e & _ & He). exists t, e. split; [done|]. congruence.
  - by rewrite (rp_none _ _ H _ E) in Hy.
Qed.

Lemma reprio_kinv a a' :
  reprio a a' -> kwf a' -> kord a' -> kpi a' ->
  ordered (tick a) (aq a QSleep) -> kowned a -> ksem a -> astale a = ∅ -> kinv a'.
Proof.
  intros H Hw Hor Hp Hs Hown Hsem Hst.
  assert (mutexes (av a') = mutexes (av a)) as EM by (by rewrite (rp_av _ _ H)).
  assert (sems (av a') = sems (av a)) as ES by (by rewrite (rp_av _ _ H)).
  split; try done.
  - rewrite (rp_fifo _ _ H) by done. eapply ordered_ext; [|exact Hs]. intros y _.
    unfold tick, key_of. destruct (tasks (av a) !! y) as [t|] eqn:E.
    + destruct (rp_some _ _ H _ _ E) as (e & _ & ->). done.
    + by rewrite (rp_none _ _ H _ E).
  - intros y ty (t & e & Hy & ->)%(reprio_back _ _ _ _ H). destruct (Hown _ _ Hy) as [l Hl].
    exists l. unfold owned_list. by rewrite EM.
  - apply (ksem_same a); [done| |done]. intros p. by apply (rp_fifo _ _ H).
  - by rewrite (rp_stale _ _ H).
Qed.

Lemma lock_block_kinv a m v t :
  let c := current_task (av a) in
  kinv a -> mutexes (av a) !! m = Some v -> m_owner v <> NULL ->
  tasks (av a) !! c = Some t -> t_state t = TASK_RUNNING ->
  kinv (alock_block m (m_owner v) a) /\ reprio (aenqueue m a) (alock_block m (m_owner v) a).
Proof.
  intros c Ha Hv Hn Ht Hst. pose proof Ha as [Hwf Hor Hsl Hown Hsem Hpi Hstl].
  pose proof (enqueue_kwf a m v t Hv Hn Ht Hst Hwf) as Hwf'.
  destruct (wf_owner _ Hwf' m v) as [to Hto]; [done..|].
  destruct (araise_spec (S (S (size (tasks (av a))))) (aenqueue m a) (m_owner v) to
    (prio a (current_task (av a)))) as (H1 & H2 & H3 & H4); try done.
  - by eapply enqueue_kord.
  - by eapply enqueue_owes.
  - pose proof (below_size (prio a (current_task (av a))) (aenqueue m a)) as Hb.
    cbn in Hb. rewrite <- !size_dom, dom_alter_L in Hb. rewrite <- size_dom. lia.
  - split; [|done]. eapply reprio_kinv; [exact H4|done..| | | |done].
    + eapply ordered_ext; [|exact Hsl]. intros y _. symmetry.
      apply (tick_insert _ _ c t (block_on m MUTEX t)); [done| |done]. by apply alter_lookup.
    + intros y ty [[-> ->]|[_ Hy]]%(enqueue_lookup _ _ _ Ht); [|by apply Hown].
      destruct (Hown _ _ Ht) as [l Hl]. by exists l.
    + by apply (ksem_same a).
Qed.

(** ** Unlocking *)

(** The owner of a mutex. *)
Definition owner_at (a : aview) (m : ptr) : option ptr := m_owner <$> mutexes (av a) !! m.

Lemma owner_at_Some a m x :
  owner_at a m = Some x <-> exists v, mutexes (av a) !! m = Some v /\ m_owner v = x.
Proof.
  unfold owner_at. destruct (mutexes (av a) !! m); cbn; naive_solver.
Qed.

Lemma waits_for_owner a w x :
  waits_for a w x <-> exists m, owner_at a m = Some x /\ w ∈ aq a (QMutex m).
Proof. unfold waits_for. setoid_rewrite owner_at_Some. naive_solver. Qed.

Lemma owned_list_owner a x t l :
  owned_list a x t l <->
  (mseg (mutexes (av a)) (t_owned_mutexes t) l /\ NoDup l /\
   forall m, m ∈ l <-> owner_at a m = Some x).
Proof. unfold owned_list. by setoid_rewrite owner_at_Some. Qed.

(** An unlock changes the tasks of [X] only: the one that unlocks and the one
    that is served. *)
Record changed (X : ptr -> Prop) (a b : aview) : Prop := {
  ch_task : forall y, ~ X y -> tasks (av b) !! y = tasks (av a) !! y;
  ch_tick : forall y, y ∈ aq a QSleep -> tick b y = tick a y;
  ch_elem : forall y r, ~ X y -> y ∈ aq b r <-> y ∈ aq a r;
  ch_sleep : aq b QSleep = aq a QSleep;
  ch_qsem : forall p, aq b (QSem p) = aq a (QSem p);
  ch_sems : sems (av b) = sems (av a);
  ch_stale : astale b = ∅;
  ch_known : forall y t, tasks (av a) !! y = Some t -> exists t', tasks (av b) !! y = Some t';
  ch_place : forall y t r, X y -> tasks (av b) !! y = Some t -> y ∈ aq b r <-> place t = Some r;
  ch_owned : forall y t, X y -> tasks (av b) !! y = Some t -> exists l, owned_list b y t l;
  ch_keep : forall y t l, ~ X y -> tasks (av a) !! y = Some t ->
    owned_list a y t l -> owned_list b y t l;
  ch_inh : forall y t, X y -> tasks (av b) !! y = Some t -> inherits b y t;
  ch_free : forall m, owner_at b m = Some NULL -> aq b (QMutex m) = [];
  ch_owner : forall m x, owner_at b m = Some x -> x <> NULL -> exists t, tasks (av a) !! x = Some t;
  ch_waits : forall w y t, ~ X y -> tasks (av a) !! y = Some t ->
    (waits_for b w y <-> waits_for a w y);
  ch_waiter : forall w y t, ~ X y -> tasks (av a) !! y = Some t -> waits_for a w y -> ~ X w;
}.

Lemma changed_kinv X a b :
  (forall y, Decision (X y)) -> changed X a b -> kinv a -> kord b -> kinv b.
Proof.
  intros HX H Ha Hord. pose proof Ha as [[P1 P2 P3] _ Hsl Hown Hsem Hpi Hst].
  split; [split| |..]; try done.
  - intros y t r Hy. destruct (HX y) as [Xy|Xy]; [by apply (ch_place _ _ _ H)|].
    rewrite (ch_task _ _ _ H) in Hy by done. rewrite (ch_elem _ _ _ H) by done. by apply P1.
  - intros m v Hv Ho. apply (ch_free _ _ _ H), owner_at_Some. eauto.
  - intros m v Hv Ho. destruct (ch_owner _ _ _ H m (m_owner v)) as [t Ht]; [|done|].
    + apply owner_at_Some. eauto.
    + by apply (ch_known _ _ _ H _ _ Ht).
  - rewrite (ch_sleep _ _ _ H). eapply ordered_ext; [|exact Hsl].
    intros. by rewrite (ch_tick _ _ _ H).
  - intros y t Hy. destruct (HX y) as [Xy|Xy]; [by apply (ch_owned _ _ _ H)|].
    rewrite (ch_task _ _ _ H) in Hy by done. destruct (Hown _ _ Hy) as [l Hl]. exists l.
    by apply (ch_keep _ _ _ H).
  - apply (ksem_same a); [apply H|apply H|done].
  - intros y t Hy. destruct (HX y) as [Xy|Xy]; [by apply (ch_inh _ _ _ H)|].
    rewrite (ch_task _ _ _ H) in Hy by done. destruct (Hpi _ _ Hy) as [H1 H2 H3].
    assert (forall w, waits_for a w y -> prio b w = prio a w) as Ep.
    { intros w Hw. unfold prio, key_of. rewrite (ch_task _ _ _ H); [done|].
      by eapply (ch_waiter _ _ _ H). }
    split; [done| |].
    + intros w Hw%(ch_waits _ _ _ H _ _ _ Xy Hy). rewrite Ep by done. auto.
    + destruct H3 as [?|(w & Hw & E)]; [auto|right]. exists w.
      rewrite (ch_waits _ _ _ H _ _ _ Xy Hy), Ep; done.
  - apply H.
Qed.

(** Taking a mutex out of its owner's list. *)
Section unlink.
Context (a : aview) (c m : ptr) (l1 : list ptr).
Let b := aunlink c m l1 a.

Lemma unlink_owner y : owner_at b y = owner_at a y.
Proof using.
  unfold owner_at, b, aunlink. destruct (last l1); cbn; rewrite ?lookup_alter;
    repeat case_decide; subst; by destruct (mutexes (av a) !! y).
Qed.

Lemma unlink_other y : y <> c -> tasks (av b) !! y = tasks (av a) !! y.
Proof using. intros Hy. unfold b, aunlink. destruct (last l1); [done|]. cbn. by rewrite lookup_alter_ne. Qed.

Lemma unlink_task t :
  tasks (av a) !! c = Some t -> exists o, tasks (av b) !! c = Some (set_t_owned_mutexes o t).
Proof using.
  intros Ht. unfold b, aunlink. destruct (last l1); cbn.
  - exists (t_owned_mutexes t). rewrite Ht. by destruct t.
  - rewrite lookup_alter_eq, Ht. cbn. eauto.
Qed.

Lemma unlink_prio y : prio b y = prio a y.
Proof using.
  unfold prio, key_of. destruct (decide (y = c)) as [->|]; [|by rewrite unlink_other].
  destruct (tasks (av a) !! c) as [t|] eqn:Ht.
  - by destruct (unlink_task _ Ht) as [o ->].
  - unfold b, aunlink. destruct (last l1); cbn; rewrite ?lookup_alter_eq, Ht; done.
Qed.

Lemma unlink_aq : aq b = aq a.
Proof using. unfold b, aunlink. by destruct (last l1). Qed.

Lemma unlink_mseg p l :
  m ∉ l -> (forall q, last l1 = Some q -> q ∉ l) ->
  mseg (mutexes (av a)) p l -> mseg (mutexes (av b)) p l.
Proof using.
  intros Hm Hq Hl. unfold b, aunlink. destruct (last l1) as [q|]; cbn;
    repeat apply mseg_alter_ne; auto.
Qed.
End unlink.

(** *** Without a waiter *)

Section unlock_free.
Context (a : aview) (m : ptr) (v : mutex) (t : tcb) (l1 l2 : list ptr).
Let c := current_task (av a).
Context (Ha : kinv a) (Hk : kbase a) (Hv : mutexes (av a) !! m = Some v)
  (Ht : tasks (av a) !! c = Some t) (Hp : place t = None)
  (Hq : aq a (QMutex m) = []) (Hl : owned_list a c t (l1 ++ m :: l2)).
Let e := aupd_mutex m (set_m_owner NULL) a.
Let d := aunlink c m l1 e.
Let b := aunlock_free m l1 l2 a.

Lemma uf_owner y : owner_at b y = if decide (y = m) then Some NULL else owner_at a y.
Proof using All.
  change (owner_at b y) with (owner_at d y). unfold d. rewrite unlink_owner.
  unfold owner_at, e. cbn. rewrite lookup_alter. do 2 case_decide; subst; try done.
  by rewrite Hv.
Qed.

Lemma uf_aq r : aq b r = aq a r.
Proof using All. change (aq b) with (aq d). unfold d. by rewrite unlink_aq. Qed.

Lemma uf_other y : y <> c -> tasks (av b) !! y = tasks (av a) !! y.
Proof using All.
  intros Hy. unfold b, aunlock_free, arecalc. cbn -[aunlink]. fold c.
  rewrite lookup_alter_ne by done. by rewrite unlink_other.
Qed.

Lemma uf_self : exists o,
  tasks (av b) !! c = Some (set_t_effective_priority (recalc d (l1 ++ l2) (t_base_priority t))
                             (set_t_owned_mutexes o t)) /\
  mseg (mutexes (av b)) o (l1 ++ l2).
Proof using All.
  destruct Hl as (Hm & Hnd & _).
  destruct (unlink_owned e c m t l1 l2) as (t' & Ht' & _ & Eb & _ & Hm'); [done| |done|].
  { eapply mseg_ext; [|exact Hm]. intros y _. cbn. rewrite lookup_alter. case_decide; [|done].
    subst y. by destruct (mutexes (av a) !! m). }
  destruct (unlink_task e c m l1 t Ht) as [o Ho]. rewrite Ho in Ht'. simplify_eq.
  exists o. split; [|exact Hm']. unfold b, aunlock_free, arecalc, base_of. cbn -[aunlink]. fold c e d.
  rewrite lookup_alter_eq. unfold d. by rewrite Ho.
Qed.

Lemma uf_unqueued r : c ∉ aq a r.
Proof using All. rewrite (wf_place _ (ki_wf _ Ha) _ _ r Ht). congruence. Qed.

Lemma uf_prio y : y <> c -> prio b y = prio a y.
Proof using All. intros Hy. unfold prio, key_of. by rewrite uf_other. Qed.

Lemma uf_kord : kord b.
Proof using All.
  destruct (ki_ord _ Ha) as [O1 O2].
  assert (forall r, ordered (prio a) (aq a r) -> ordered (prio b) (aq b r)) as Hr.
  { intros r Ho. rewrite uf_aq. eapply ordered_ext; [|exact Ho]. intros y Hy. symmetry.
    apply uf_prio. intros ->. by apply uf_unqueued in Hy. }
  split; auto.
Qed.

Lemma uf_waits w y : y <> c -> y <> NULL -> waits_for b w y <-> waits_for a w y.
Proof using All.
  intros Hy Hn. rewrite !waits_for_owner. setoid_rewrite uf_owner. setoid_rewrite uf_aq.
  split; intros (m' & Ho & Hw); exists m'.
  - case_decide; [congruence|done].
  - case_decide; [|done]. subst m'. rewrite Hq in Hw. by apply elem_of_nil in Hw.
Qed.

Lemma uf_keep y ty l :
  y <> c -> y <> NULL -> owned_list a y ty l -> owned_list b y ty l.
Proof using All.
  intros Hy Hn Hly. rewrite owned_list_owner in Hly |- *.
  destruct Hly as (Hm & Hnd & El).
  destruct (proj1 (owned_list_owner _ _ _ _) Hl) as (_ & _ & Ec).
  assert (forall z, z ∈ l1 ++ m :: l2 -> z ∉ l) as Hd.
  { intros z Hz%Ec Hz'%El. congruence. }
  split_and!; [|done|].
  - change (mutexes (av b)) with (mutexes (av d)). apply unlink_mseg.
    + apply Hd. set_solver.
    + intros q Hlq%last_Some_elem_of. apply Hd. set_solver.
    + eapply mseg_ext; [|exact Hm]. intros z _. cbn. rewrite lookup_alter. case_decide; [|done].
      subst z. by destruct (mutexes (av a) !! m).
  - intros z. rewrite El, uf_owner. case_decide; [|done]. subst z.
    assert (owner_at a m = Some c) as -> by (apply Ec; set_solver). naive_solver.
Qed.

Lemma uf_changed : changed (fun y => y = c) a b.
Proof using All.
  pose proof (kb_null _ Hk) as HN. destruct uf_self as (o & Hb & Ho).
  assert (c <> NULL) as Hc by (intros E; rewrite E in Ht; congruence).
  pose proof (proj1 (owned_list_owner _ _ _ _) Hl) as (_ & Hnd & Ec).
  assert (forall z, z ∈ l1 ++ l2 <-> owner_at b z = Some c) as Ec'.
  { intros z. rewrite uf_owner. pose proof (Ec z) as Ez. rewrite elem_of_app, elem_of_cons in Ez.
    apply NoDup_app in Hnd as (_ & Hd & [Hm2 _]%NoDup_cons).
    rewrite elem_of_app. case_decide as E; [|naive_solver]. subst z. split; [|congruence].
    intros [Hz|Hz]; [|done]. exfalso. apply (Hd m Hz). by left. }
  assert (NoDup (l1 ++ l2)) as Hnd'.
  { apply NoDup_app in Hnd as (? & Hd & [_ ?]%NoDup_cons). apply NoDup_app.
    split_and!; [done| |done]. intros y Hy ?. apply (Hd y Hy). by right. }
  split.
  - intros y Hy. by apply uf_other.
  - intros y _. unfold tick, key_of. destruct (decide (y = c)) as [->|]; [|by rewrite uf_other].
    by rewrite Hb, Ht.
  - intros y r _. by rewrite uf_aq.
  - apply uf_aq.
  - intros p. apply uf_aq.
  - unfold b, aunlock_free, arecalc, aunlink. by destruct (last l1).
  - unfold b, aunlock_free, arecalc, aunlink. destruct (last l1); apply Ha.
  - intros y ty Hy. destruct (decide (y = c)) as [->|]; [eauto|]. rewrite uf_other; eauto.
  - intros y ty r -> Hy. rewrite uf_aq. rewrite Hb in Hy. injection Hy as <-.
    split; [by intros ?%uf_unqueued|]. intros E. change (place t = Some r) in E. congruence.
  - intros y ty -> Hy. rewrite Hb in Hy. injection Hy as <-. exists (l1 ++ l2).
    by apply owned_list_owner.
  - intros y ty l Hy Hty. apply uf_keep; [done|]. congruence.
  - intros y ty -> Hy. rewrite Hb in Hy. injection Hy as <-.
    assert (forall y, prio d y = prio a y) as Epd by (intros; unfold d; by rewrite unlink_prio).
    assert (aq d = aq a) as Eqd by (unfold d; by rewrite unlink_aq).
    apply (recalc_inherits d b c _ (l1 ++ l2)).
    + intros m'. rewrite Eqd. eapply ordered_ext; [|apply (ord_mutex _ (ki_ord _ Ha))]. auto.
    + intros m'. by rewrite uf_aq, Eqd.
    + intros m' w. rewrite Eqd. intros Hw. rewrite Epd. apply uf_prio.
      intros ->. by apply uf_unqueued in Hw.
    + intros m'. rewrite Ec', owner_at_Some. done.
    + done.
  - intros m'. rewrite uf_owner, uf_aq. case_decide as E; [by subst|].
    intros (v' & ? & ?)%owner_at_Some. by eapply (wf_free _ (ki_wf _ Ha)).
  - intros m' x. rewrite uf_owner. case_decide; [congruence|].
    intros (v' & ? & <-)%owner_at_Some ?. by eapply (wf_owner _ (ki_wf _ Ha)).
  - intros w y ty Hy Hty. apply uf_waits; [done|congruence].
  - intros w y ty Hy Hty (m' & v' & _ & _ & Hw) ->. by apply uf_unqueued in Hw.
Qed.

Lemma unlock_free_kinv : kinv b.
Proof using All.
  apply (changed_kinv (fun y => y = c) a); [tc_solve|apply uf_changed|done|apply uf_kord].
Qed.
End unlock_free.

Lemma unlink_next a c m l1 v :
  mutexes (av a) !! m = Some v -> exists v',
    mutexes (av (aunlink c m l1 a)) !! m = Some v' /\ m_next_owned v' = NULL.
Proof.
  intros Hv. unfold aunlink. destruct (last l1) as [q|]; cbn; rewrite lookup_alter_eq;
    [rewrite lookup_alter; case_decide|]; rewrite ?Hv; cbn; eauto. subst q. rewrite Hv. cbn. eauto.
Qed.

(** *** With a waiter that owns nothing *)

Section unlock_handoff.
Context (a : aview) (m x : ptr) (v : mutex) (t tx : tcb) (ws l1 : list ptr).
Let c := current_task (av a).
Context (Ha : kinv a) (Hk : kbase a) (Hv : mutexes (av a) !! m = Some v)
  (Ht : tasks (av a) !! c = Some t) (Hp : place t = None)
  (Hq : aq a (QMutex m) = x :: ws) (Htx : tasks (av a) !! x = Some tx)
  (Hl : owned_list a c t (l1 ++ [m])) (Hlx : owned_list a x tx []).
Let a2 := alink x m (aupd_task x unwait (aupd_mutex m (set_m_owner x) (aset (QMutex m) ws a))).
Let e := ahandoff m x ws [] a.
Let d := aunlink c m l1 e.
Let b := aunlock_handoff m x ws l1 [] a.
Let rx := recalc a2 [m] (t_base_priority tx).
Let rc := recalc d (l1 ++ []) (t_base_priority t).

Lemma uh_unqueued r : c ∉ aq a r.
Proof using All. rewrite (wf_place _ (ki_wf _ Ha) _ _ r Ht). congruence. Qed.

Lemma uh_ne : c <> x.
Proof using All.
  intros E. apply (uh_unqueued (QMutex m)). rewrite Hq, E. by left.
Qed.

Lemma uh_place_x : place tx = Some (QMutex m).
Proof using All. apply (wf_place _ (ki_wf _ Ha) _ _ _ Htx). rewrite Hq. by left. Qed.

Lemma uh_x_notin : x ∉ ws.
Proof using All.
  pose proof (kb_nodup _ Hk (QMutex m)) as H. rewrite Hq in H. by apply NoDup_cons in H as [? _].
Qed.

Lemma uh_own_x : t_owned_mutexes tx = NULL.
Proof using All. apply Hlx. Qed.

Definition served : tcb :=
  set_t_state TASK_READY (set_t_effective_priority rx (set_t_owned_mutexes m (unwait tx))).

Lemma uh_e_x : tasks (av e) !! x = Some served.
Proof using All.
  unfold e, ahandoff, arecalc, base_of, alink, aready. cbn.
  rewrite !lookup_alter_eq, Htx. cbn. unfold served. do 3 f_equal.
Qed.

Lemma uh_e_other y : y <> x -> tasks (av e) !! y = tasks (av a) !! y.
Proof using All.
  intros Hy. unfold e, ahandoff, arecalc, alink, aready. cbn. by rewrite !lookup_alter_ne.
Qed.

Lemma uh_x : tasks (av b) !! x = Some served.
Proof using All.
  unfold b, aunlock_handoff. fold c. unfold arecalc. cbn -[aunlink ahandoff].
  rewrite lookup_alter_ne, unlink_other by (pose proof uh_ne; congruence). apply uh_e_x.
Qed.

Lemma uh_other y : y <> c -> y <> x -> tasks (av b) !! y = tasks (av a) !! y.
Proof using All.
  intros Hc Hx. unfold b, aunlock_handoff, arecalc. fold c. cbn -[aunlink ahandoff].
  rewrite lookup_alter_ne, unlink_other by done. by apply uh_e_other.
Qed.

Lemma uh_c : exists o,
  tasks (av b) !! c = Some (set_t_effective_priority rc (set_t_owned_mutexes o t)) /\
  mseg (mutexes (av b)) o l1.
Proof using All.
  pose proof uh_ne as Hne. destruct Hl as (Hm & Hnd & _).
  apply NoDup_snoc in Hnd as [Hnd Hm1].
  destruct (handoff_links a m x ws tx v [] c t l1 []) as (He & Hme & _);
    [done..|apply uh_own_x|done|done|set_solver|]. fold e in He, Hme.
  destruct (unlink_owned e c m t l1 []) as (t' & Ht' & _ & _ & _ & Hm');
    [done|done|by apply NoDup_snoc|].
  destruct (unlink_task e c m l1 t He) as [o Ho]. rewrite Ho in Ht'. simplify_eq.
  exists o. split; [|rewrite app_nil_r in Hm'; exact Hm'].
  unfold b, aunlock_handoff. fold c e d. unfold arecalc, base_of. fold d in Ho. rewrite Ho.
  cbn [aupd_task amap av tasks set_tasks]. by rewrite lookup_alter_eq, Ho.
Qed.

Lemma uh_owner y : owner_at b y = if decide (y = m) then Some x else owner_at a y.
Proof using All.
  change (owner_at b y) with (owner_at d y). unfold d. rewrite unlink_owner.
  unfold owner_at, e, ahandoff, arecalc, alink, aready. cbn. rewrite !lookup_alter.
  repeat case_decide; subst; try done; by rewrite ?Hv.
Qed.

Lemma uh_aq r : aq b r = aq e r.
Proof using All. change (aq b) with (aq d). unfold d. by rewrite unlink_aq. Qed.
Lemma uh_aq_mutex m' : aq b (QMutex m') = aq a2 (QMutex m').
Proof using All. rewrite uh_aq. done. Qed.
Lemma uh_aq_mutex' m' : aq b (QMutex m') = if decide (m' = m) then ws else aq a (QMutex m').
Proof using All.
  rewrite uh_aq. cbn. case_decide as E.
  - subst m'. by rewrite fn_lookup_insert_ne, fn_lookup_insert.
  - by rewrite !fn_lookup_insert_ne by congruence.
Qed.
Lemma uh_prio y : y <> c -> y <> x -> prio b y = prio a y.
Proof using All. intros. unfold prio, key_of. by rewrite uh_other. Qed.
Lemma uh_prio2 y : prio a2 y = prio a y.
Proof using All.
  unfold prio, key_of, a2, alink. cbn. destruct (decide (y = x)) as [->|].
  - rewrite !lookup_alter_eq, Htx. done.
  - by rewrite !lookup_alter_ne.
Qed.

Lemma uh_aq_ready : aq b QReady = ins (prio b) x (del x (aq a QReady)).
Proof using All.
  rewrite uh_aq. unfold e, ahandoff, aready. cbn -[arecalc alink prio].
  rewrite fn_lookup_insert. cbn [arecalc aupd_task amap aq alink aupd_mutex aset].
  rewrite fn_lookup_insert_ne by done. apply ins_ext. intros y Hy.
  assert (y <> c) as Hyc.
  { intros ->. destruct Hy as [?|[_ Hy]%elem_of_del]; [by apply uh_ne|by apply uh_unqueued in Hy]. }
  destruct (decide (y = x)) as [->|Hyx].
  - unfold prio, key_of. rewrite uh_x. unfold arecalc, base_of, alink. cbn.
    rewrite !lookup_alter_eq, Htx. done.
  - rewrite uh_prio by done. unfold prio, key_of, arecalc, alink. cbn. by rewrite !lookup_alter_ne.
Qed.

Lemma uh_aq_rest r : r <> QReady -> (forall m', r <> QMutex m') -> aq b r = aq a r.
Proof using All.
  intros H1 H2. rewrite uh_aq. cbn. rewrite !fn_lookup_insert_ne by naive_solver. done.
Qed.

Lemma uh_elem y r : y <> x -> y ∈ aq b r <-> y ∈ aq a r.
Proof using All.
  intros Hy. destruct r as [| | |m'].
  - rewrite uh_aq_ready, elem_of_ins, elem_of_del. naive_solver.
  - by rewrite uh_aq_rest.
  - by rewrite uh_aq_rest.
  - rewrite uh_aq_mutex'. case_decide; [|done]. subst m'. rewrite Hq. set_solver.
Qed.

Lemma uh_elem_x r : x ∈ aq b r <-> r = QReady.
Proof using All.
  assert (forall r', x ∈ aq a r' -> r' = QMutex m) as Hpx.
  { intros r' Hr%(wf_place _ (ki_wf _ Ha) _ _ _ Htx). rewrite uh_place_x in Hr. congruence. }
  split; [|intros ->; rewrite uh_aq_ready, elem_of_ins; auto].
  destruct r as [| | |m']; [done|..]; rewrite ?uh_aq_rest by done; [by intros ?%Hpx..|].
  rewrite uh_aq_mutex'. case_decide as E; [by intros ?%uh_x_notin|].
  intros ?%Hpx. congruence.
Qed.

Lemma uh_kord : kord b.
Proof using All.
  destruct (ki_ord _ Ha) as [O1 O2].
  assert (forall l r, ordered (prio a) l -> x ∉ l -> (forall y, y ∈ l -> y ∈ aq a r) ->
    ordered (prio b) l) as Hext.
  { intros l r Ho Hx Hr. eapply ordered_ext; [|exact Ho]. intros y Hy. symmetry. apply uh_prio.
    - intros ->. by eapply uh_unqueued, Hr.
    - by intros ->. }
  split.
  - rewrite uh_aq_ready. apply ordered_ins, (Hext _ QReady); [by apply ordered_del|..].
    + by intros [? _]%elem_of_del.
    + by intros y [_ ?]%elem_of_del.
  - intros m'. rewrite uh_aq_mutex'. case_decide as E.
    + apply (Hext _ (QMutex m)); [|apply uh_x_notin|intros y; rewrite Hq; by right].
      pose proof (O2 m) as Om. rewrite Hq in Om. by apply StronglySorted_inv in Om as [? _].
    + apply (Hext _ (QMutex m')); [done| |done].
      intros Hx%(wf_place _ (ki_wf _ Ha) _ _ _ Htx). rewrite uh_place_x in Hx. congruence.
Qed.

Lemma uh_known_owner : owner_at a m = Some c.
Proof using All.
  apply (proj1 (owned_list_owner _ _ _ _) Hl). set_solver.
Qed.

Lemma uh_waits w y : y <> c -> y <> x -> waits_for b w y <-> waits_for a w y.
Proof using All.
  intros Hyc Hyx. rewrite !waits_for_owner. setoid_rewrite uh_owner. setoid_rewrite uh_aq_mutex'.
  pose proof uh_known_owner as Hom. split; intros (m' & Ho & Hw); exists m'.
  - case_decide; [congruence|done].
  - case_decide; [|done]. subst m'. congruence.
Qed.

Lemma uh_keep y ty l :
  y <> c -> y <> x -> owned_list a y ty l -> owned_list b y ty l.
Proof using All.
  intros Hyc Hyx. rewrite !owned_list_owner. intros (Hm & Hnd & El).
  destruct (proj1 (owned_list_owner _ _ _ _) Hl) as (_ & _ & Ec).
  assert (forall z, z ∈ l1 ++ [m] -> z ∉ l) as Hd by (intros z Hz%Ec Hz'%El; congruence).
  assert (m ∉ l) as Hml by (apply Hd; set_solver).
  split_and!; [|done|].
  - change (mutexes (av b)) with (mutexes (av d)). apply unlink_mseg; [done| |].
    + intros q Hlq%last_Some_elem_of. apply Hd. set_solver.
    + unfold e, ahandoff, arecalc, alink, aready. cbn. apply mseg_alter_ne; [done|].
      by apply mseg_alter_ne.
  - intros z. rewrite El, uh_owner. case_decide; [|done]. subst z.
    rewrite uh_known_owner. naive_solver.
Qed.

Lemma uh_list_x : owned_list b x served [m].
Proof using All.
  rewrite owned_list_owner. split_and!.
  - destruct (mseg_elem _ _ _ m (proj1 Hl)) as [Hm _]; [set_solver|].
    destruct (mutexes (av e) !! m) as [ve|] eqn:Hve.
    2: { unfold e, ahandoff, arecalc, alink, aready in Hve. cbn in Hve.
         by rewrite !lookup_alter_eq, Hv in Hve. }
    destruct (unlink_next e c m l1 ve Hve) as (v' & Hv' & En).
    split_and!; [done..|]. exists v'. split; [exact Hv'|exact En].
  - apply NoDup_singleton.
  - intros z. rewrite uh_owner, list_elem_of_singleton. case_decide; [naive_solver|].
    split; [done|]. intros Hz. apply (proj1 (owned_list_owner _ _ _ _) Hlx) in Hz. set_solver.
Qed.

Lemma uh_list_c : forall z, z ∈ l1 <-> owner_at b z = Some c.
Proof using All.
  destruct (proj1 (owned_list_owner _ _ _ _) Hl) as (_ & Hnd & Ec). intros z.
  apply NoDup_snoc in Hnd as [_ Hm1]. rewrite uh_owner. pose proof (Ec z) as Ez.
  rewrite elem_of_app, list_elem_of_singleton in Ez. pose proof uh_ne.
  case_decide; naive_solver.
Qed.

Lemma uh_inherits_x : inherits b x served.
Proof using All.
  apply (recalc_inherits a2 b x _ [m]).
  - intros m'. pose proof uh_kord as [_ Hord]. specialize (Hord m'). rewrite uh_aq_mutex in Hord.
    eapply ordered_ext; [|exact Hord]. intros y Hy. rewrite uh_prio2. apply uh_prio.
    + intros ->. rewrite <- uh_aq_mutex, uh_elem in Hy by apply uh_ne. by apply uh_unqueued in Hy.
    + intros ->. rewrite <- uh_aq_mutex, uh_elem_x in Hy. done.
  - intros m'. by rewrite uh_aq_mutex.
  - intros m' w Hw. rewrite uh_prio2. rewrite <- uh_aq_mutex in Hw. apply uh_prio.
    + intros ->. rewrite uh_elem in Hw by apply uh_ne. by apply uh_unqueued in Hw.
    + intros ->. by rewrite uh_elem_x in Hw.
  - intros m'. rewrite (proj2 (proj2 (proj1 (owned_list_owner _ _ _ _) uh_list_x)) m').
    by rewrite owner_at_Some.
  - done.
Qed.

Lemma uh_inherits_c o :
  inherits b c (set_t_effective_priority rc (set_t_owned_mutexes o t)).
Proof using All.
  assert (aq d = aq b) as Ed by (unfold b, aunlock_handoff; done).
  assert (forall m' w, w ∈ aq b (QMutex m') -> prio b w = prio d w) as Ep.
  { intros m' w Hw. unfold d. rewrite unlink_prio. unfold prio, key_of.
    destruct (decide (w = x)) as [->|Hwx]; [by rewrite uh_x, uh_e_x|].
    rewrite uh_other, uh_e_other; [done|done| |done]. intros ->.
    rewrite uh_elem in Hw by done. by apply uh_unqueued in Hw. }
  apply (recalc_inherits d b c _ (l1 ++ [])).
  - intros m'. rewrite Ed. destruct uh_kord as [_ Hord]. eapply ordered_ext; [|apply Hord]. by apply Ep.
  - intros m'. by rewrite Ed.
  - intros m' w. rewrite Ed. apply Ep.
  - intros m'. rewrite app_nil_r, uh_list_c. by rewrite owner_at_Some.
  - done.
Qed.

Lemma uh_changed : changed (fun y => y = c \/ y = x) a b.
Proof using All.
  pose proof (kb_null _ Hk) as HN. destruct uh_c as (o & Hb & Ho).
  assert (c <> NULL) as Hc by (intros E; rewrite E in Ht; congruence).
  split.
  - intros y Hy. apply uh_other; tauto.
  - intros y _. unfold tick, key_of. destruct (decide (y = c)) as [->|]; [by rewrite Hb, Ht|].
    destruct (decide (y = x)) as [->|]; [by rewrite uh_x, Htx|by rewrite uh_other].
  - intros y r Hy. apply uh_elem. tauto.
  - by rewrite uh_aq_rest.
  - intros p. by rewrite uh_aq_rest.
  - unfold b, aunlock_handoff, arecalc, aunlink. by destruct (last l1).
  - unfold b, aunlock_handoff, arecalc, aunlink.
    destruct (last l1); cbn; rewrite (ki_stale _ Ha); set_solver.
  - intros y ty Hy. destruct (decide (y = c)) as [->|]; [eauto|].
    destruct (decide (y = x)) as [->|]; [rewrite uh_x; eauto|rewrite uh_other; eauto].
  - intros y ty r [-> | ->] Hy.
    + rewrite Hb in Hy. injection Hy as <-. rewrite uh_elem by apply uh_ne.
      split; [by intros ?%uh_unqueued|]. intros E. change (place t = Some r) in E. congruence.
    + rewrite uh_x in Hy. injection Hy as <-. rewrite uh_elem_x. unfold served, place. cbn.
      naive_solver.
  - intros y ty [-> | ->] Hy.
    + rewrite Hb in Hy. injection Hy as <-. exists l1. rewrite owned_list_owner.
      split_and!; [done| |apply uh_list_c]. by apply (proj1 (NoDup_snoc l1 m)), Hl.
    + rewrite uh_x in Hy. injection Hy as <-. exists [m]. apply uh_list_x.
  - intros y ty l Hy Hty. apply uh_keep; tauto.
  - intros y ty [-> | ->] Hy.
    + rewrite Hb in Hy. injection Hy as <-. apply uh_inherits_c.
    + rewrite uh_x in Hy. injection Hy as <-. apply uh_inherits_x.
  - intros m'. rewrite uh_owner, uh_aq_mutex'. case_decide as E.
    + intros [= E2]. rewrite E2 in Htx. congruence.
    + intros (v' & ? & ?)%owner_at_Some. by eapply (wf_free _ (ki_wf _ Ha)).
  - intros m' y. rewrite uh_owner. case_decide; [intros [= <-]; eauto|].
    intros (v' & ? & <-)%owner_at_Some ?. by eapply (wf_owner _ (ki_wf _ Ha)).
  - intros w y ty Hy Hty. apply uh_waits; tauto.
  - intros w y ty Hy Hty (m' & Ho' & Hw)%waits_for_owner [-> | ->].
    + by apply uh_unqueued in Hw.
    + apply (wf_place _ (ki_wf _ Ha) _ _ _ Htx) in Hw. rewrite uh_place_x in Hw.
      injection Hw as <-. rewrite uh_known_owner in Ho'. naive_solver.
Qed.

Lemma unlock_handoff_kinv : kinv b.
Proof using All.
  apply (changed_kinv (fun y => y = c \/ y = x) a);
    [tc_solve|apply uh_changed|done|apply uh_kord].
Qed.
End unlock_handoff.
