(* ===== verification/Kernel.v ===== *)
(** * Runs of the kernel

    The events that change the kernel state, what they require, and the
    invariant of all the states they reach. *)
From S2P Require Import Prelude KState Queue Abs Scheduler Sleep Semaphore Invariant Mutex Pool.
From S2P Require Import Tcb Preserve Inherit.

(** ** PendSV *)

Definition apend (psp : ptr) (a : aview) : aview :=
  let a1 := amap (fun s => set_icsr (Z.ldiff (icsr s) (2 ^ PENDSVSET_Pos)) s) a in
  let c := current_task (av a) in
  let a2 := if c =? NULL then a1 else aupd_task c (set_t_sp psp) a1 in
  let a3 := aselect a2 in
  amap (set_current_task (next_task (av a3))) a3.

Lemma place_current a t :
  kwf a -> tasks (av a) !! current_task (av a) = Some t -> runnable (t_state t) ->
  forall r, r <> QReady -> current_task (av a) ∉ aq a r.
Proof.
  intros Ha Ht Hr r Hne Hc%(wf_place _ Ha _ _ _ Ht). unfold place, runnable in *.
  destruct (t_state t); naive_solver.
Qed.

Lemma kinv_current_ok a : kinv a -> kcur a -> current_ok a.
Proof.
  intros Ha Hc. destruct (kc_current _ Hc) as [?|[t Ht]]; [by left|right].
  exists t. split; [done|]. intros Hr. by eapply place_current, Hr; [apply Ha|].
Qed.

(** An update of a tcb that touches neither its state nor its priorities nor
    its mutexes. *)
Lemma upd_task_kinv a x t g :
  kinv a -> tasks (av a) !! x = Some t -> place (g t) = place t ->
  t_effective_priority (g t) = t_effective_priority t ->
  t_base_priority (g t) = t_base_priority t -> t_owned_mutexes (g t) = t_owned_mutexes t ->
  t_wake_tick (g t) = t_wake_tick t ->
  moved a (aupd_task x g a) x t (g t) /\ kinv (aupd_task x g a).
Proof.
  intros Ha Ht Hp He Hb Ho Hw.
  assert (moved a (aupd_task x g a) x t (g t)) as Hm.
  { split; try done; [by apply alter_lookup| |apply Ha].
    intros r. rewrite Hp. by apply (wf_place _ (ki_wf _ Ha)). }
  split; [done|]. eapply moved_kinv; [exact Hm|done|apply Ha| |].
  - eapply ordered_ext; [|apply Ha]. intros y _. symmetry.
    apply (tick_insert _ _ x t (g t)); [done| |done]. by apply alter_lookup.
  - by apply (ksem_same a), Ha.
Qed.

Lemma runs_pend_sv a psp t :
  current_ok a -> (let a3 := apend psp a in tasks (av a3) !! current_task (av a3) = Some t) ->
  runs a (pend_sv_handler psp) (t_sp t) (apend psp a).
Proof.
  intros Hc Ht. unfold pend_sv_handler. run_step. run_step.
  set (a1 := amap _ a).
  change (current_task (av a1)) with (current_task (av a)).
  set (a2 := if current_task (av a) =? NULL then a1
             else aupd_task (current_task (av a)) (set_t_sp psp) a1).
  eapply runs_bind with (a1 := a2).
  { unfold a2. destruct (Z.eqb_spec (current_task (av a)) NULL) as [E|E]; [apply runs_ret|].
    cbn [negb whenb]. destruct Hc as [?|(tc & Htc & _)]; [done|]. by eapply runs_upd_task'. }
  cbn beta. eapply runs_bind.
  { apply runs_select_next. unfold a2.
    destruct (Z.eqb_spec (current_task (av a)) NULL) as [E|E]; [by left|right].
    destruct Hc as [?|(tc & Htc & Hq)]; [done|]. exists (set_t_sp psp tc).
    split; [cbn; by rewrite lookup_alter_eq, Htc|exact Hq]. }
  cbn beta. run_step. run_step. eapply runs_rd_task; [exact Ht|done].
Qed.

(** Nothing runs between the two halves of the selection. *)
Lemma requeue_idle a x t :
  kcur a -> tasks (av (arequeue a)) !! x = Some t -> t_state t <> TASK_RUNNING.
Proof.
  intros [C1 C2 C3]. unfold arequeue. set (c := current_task (av a)) in *.
  assert (tasks (av a) !! c = None -> forall t, tasks (av a) !! x = Some t ->
    t_state t <> TASK_RUNNING) as Hno.
  { intros HN t' Ht' Hr. rewrite (C1 _ _ Ht' Hr) in Ht'. congruence. }
  destruct (tasks (av a) !! c) as [tc|] eqn:Htc; [|intros Hx; by eapply Hno].
  case_bool_decide as Hst.
  - intros Hx Hr. rewrite (C1 _ _ Hx Hr) in Hx. simplify_eq. rewrite Hr in Hst. naive_solver.
  - cbn. rewrite (alter_lookup _ _ _ _ Htc). intros [[<- <-]|[Hne Hx]]%lookup_insert_Some; [done|].
    intros Hr. by destruct Hne; rewrite (C1 _ _ Hx Hr).
Qed.

Lemma requeue_kcur_dead a x t :
  kcur a -> tasks (av (arequeue a)) !! x = Some t -> dead t -> t_owned_mutexes t = NULL.
Proof.
  intros Hc. unfold arequeue. set (c := current_task (av a)).
  destruct (tasks (av a) !! c) as [tc|] eqn:Htc; [|apply Hc].
  case_bool_decide; [apply Hc|]. cbn. rewrite (alter_lookup _ _ _ _ Htc).
  intros [[<- <-]|[Hne Hx]]%lookup_insert_Some; [|by eapply (kc_dead _ Hc)].
  unfold dead. cbn. naive_solver.
Qed.

Section dispatch.
Context (a : aview) (Ha : kinv a) (Hc : kcur a) (Hk : kbase (arequeue a)).
Let b := arequeue a.

Lemma requeue_current : current_task (av b) = current_task (av a).
Proof using. unfold b, arequeue. destruct (tasks (av a) !! _); [|done]. by case_bool_decide. Qed.

Lemma requeue_tasks y t : tasks (av a) !! y = Some t -> exists t', tasks (av b) !! y = Some t'.
Proof using.
  intros Hy. unfold b, arequeue. destruct (tasks (av a) !! current_task (av a)); [|eauto].
  case_bool_decide; [eauto|]. cbn. rewrite lookup_alter. case_decide as E; [|eauto].
  rewrite E, Hy. cbn. eauto.
Qed.

Definition switched (a : aview) : aview := amap (set_current_task (next_task (av a))) a.

Lemma dispatch_empty :
  aq b QReady = [] -> current_task (av a) <> NULL ->
  exists t, let d := switched (adispatch b) in
    tasks (av d) !! current_task (av d) = Some t /\ kinv d /\ kcur d.
Proof using All.
  intros Hq Hn. unfold adispatch. rewrite Hq. cbn. rewrite requeue_current.
  destruct (kc_current _ Hc) as [?|[t Ht]]; [done|].
  destruct (requeue_tasks _ _ Ht) as [t' Ht']. exists t'. split; [done|]. split.
  - do 2 (apply kinv_scalar; [done..|]). by apply requeue_kinv.
  - split; cbn.
    + intros x tx Hx Hr. by destruct (requeue_idle a x tx Hc Hx).
    + right. rewrite requeue_current. eauto.
    + intros x tx. by apply requeue_kcur_dead.
Qed.

Lemma dispatch_head x l :
  aq b QReady = x :: l ->
  exists t, let d := switched (adispatch b) in
    current_task (av d) = x /\ t_state t = TASK_RUNNING /\
    tasks (av d) !! current_task (av d) = Some t /\ kinv d /\ kcur d.
Proof using All.
  intros Hq. unfold adispatch. rewrite Hq. cbn.
  destruct (kb_known _ Hk x QReady) as [Hx [t Ht]]; [fold b; rewrite Hq; by left|].
  exists (set_t_state TASK_RUNNING t). fold b in Ht. rewrite lookup_alter_eq, Ht.
  split_and!; [done..| |].
  - do 2 (apply kinv_scalar; [done..|]).
    apply dispatch_kinv; [by apply requeue_kinv|done|done].
  - split; cbn; rewrite (alter_lookup _ _ _ _ Ht).
    + intros y ty [[<- <-]|[Hne Hy]]%lookup_insert_Some Hr; [done|].
      by destruct (requeue_idle a y ty Hc Hy).
    + right. rewrite lookup_insert_eq. eauto.
    + intros y ty [[<- <-]|[Hne Hy]]%lookup_insert_Some; [unfold dead; cbn; naive_solver|].
      by apply (requeue_kcur_dead a y).
Qed.

(** The dispatched task has the highest priority of all that could run. *)
Lemma dispatch_highest x l y t :
  aq b QReady = x :: l -> tasks (av b) !! y = Some t -> t_state t = TASK_READY ->
  prio b x <= t_effective_priority t.
Proof using All.
  intros Hq Ht Hst. pose proof (requeue_kinv a Ha) as Hb.
  assert (y ∈ aq b QReady) as Hy.
  { apply (wf_place _ (ki_wf _ Hb) _ _ _ Ht). unfold place. by rewrite Hst. }
  rewrite <- (prio_lookup b y t Ht).
  pose proof (ord_ready _ (ki_ord _ Hb)) as Ho. fold b in Ho. rewrite Hq in Ho, Hy.
  apply StronglySorted_inv in Ho as [_ Hall]. rewrite Forall_forall in Hall.
  apply elem_of_cons in Hy as [->|Hy]; [lia|by apply Hall].
Qed.
End dispatch.

(** The state in which [pend_sv_handler] calls [scheduler_select_next]. *)
Definition apend_entry (psp : ptr) (a : aview) : aview :=
  let a1 := amap (fun s => set_icsr (Z.ldiff (icsr s) (2 ^ PENDSVSET_Pos)) s) a in
  if current_task (av a) =? NULL then a1
  else aupd_task (current_task (av a)) (set_t_sp psp) a1.

Lemma pend_entry_ok s a psp :
  Abs s a -> kinv a -> kcur a ->
  let a2 := apend_entry psp a in
  kinv a2 /\ kcur a2 /\ (exists s2, Abs s2 a2) /\ current_task (av a2) = current_task (av a) /\
  aq a2 = aq a.
Proof.
  intros Hs Ha Hc. cbv zeta. unfold apend_entry. set (a1 := amap _ a).
  assert (kinv a1) as Ha1 by (by apply kinv_scalar).
  assert (kcur a1) as Hc1 by (destruct Hc; by split).
  assert (exists s1, Abs s1 a1) as [s1 Hs1].
  { destruct (runs_modify a (fun s => set_icsr (Z.ldiff (icsr s) (2 ^ PENDSVSET_Pos)) s)
      ltac:(scalar_solve) s Hs) as (s1 & _ & ?). eauto. }
  destruct (Z.eqb_spec (current_task (av a)) NULL) as [E|E]; [by eauto 10|].
  destruct (kc_current _ Hc) as [?|[t Ht]]; [done|].
  destruct (upd_task_kinv a1 (current_task (av a)) t (set_t_sp psp)) as [Hm Hi]; [done..|].
  split_and!; [done| | |done|done].
  - eapply moved_kcur; [exact Hm|done|done| |].
    + intros. done.
    + intros Hd. by apply (kc_dead _ Hc _ _ Ht).
  - destruct (runs_upd_task' a1 (current_task (av a)) t (set_t_sp psp) Ht
      ltac:(done) ltac:(done) s1 Hs1) as (s2 & _ & ?). eauto.
Qed.

Lemma Abs_requeue s a : Abs s a -> current_ok a -> exists s', Abs s' (arequeue a).
Proof. intros Hs Hc. destruct (runs_requeue a Hc s Hs) as (s' & _ & ?). eauto. Qed.

Lemma pend_sv_ok s a psp :
  Abs s a -> kinv a -> kcur a -> current_task (av a) <> NULL \/ aq a QReady <> [] ->
  let a' := apend psp a in
  exists t, tasks (av a') !! current_task (av a') = Some t /\
    runs a (pend_sv_handler psp) (t_sp t) a' /\ kinv a' /\ kcur a'.
Proof.
  intros Hs Ha Hc Hne a'.
  destruct (pend_entry_ok s a psp Hs Ha Hc) as (Ha2 & Hc2 & [s2 Hs2] & Ec & Eq).
  set (a2 := apend_entry psp a) in *.
  assert (a' = switched (adispatch (arequeue a2))) as Ea' by done.
  destruct (Abs_requeue s2 a2 Hs2 (kinv_current_ok _ Ha2 Hc2)) as [s3 Hs3].
  pose proof (Abs_base _ _ Hs3) as Hk.
  assert (exists t, tasks (av a') !! current_task (av a') = Some t /\ kinv a' /\ kcur a')
    as (t & Ht & ? & ?).
  { rewrite Ea'. destruct (aq (arequeue a2) QReady) as [|x l] eqn:Eq2.
    - apply dispatch_empty; try done. rewrite Ec. intros E0. destruct Hne as [?|Hne]; [done|].
      apply Hne. rewrite <- Eq, <- Eq2. unfold arequeue. rewrite Ec, E0.
      pose proof (kb_null _ (Abs_base _ _ Hs2)) as HN. by rewrite HN.
    - destruct (dispatch_head a2 Ha2 Hc2 Hk x l Eq2) as (t & _ & _ & ?). by exists t. }
  exists t. split; [done|]. split; [|done]. apply runs_pend_sv; [by apply kinv_current_ok|done].
Qed.

(** ** The other events *)

(** No task owns two mutexes, and none waits for a mutex while it owns one. *)
Record aflat (a : aview) : Prop := {
  fl_one : forall x m1 m2, x <> NULL -> owner_at a m1 = Some x -> owner_at a m2 = Some x -> m1 = m2;
  fl_wait : forall x m m', x ∈ aq a (QMutex m) -> owner_at a m' <> Some x;
}.

Lemma aflat_same a a' :
  (forall m, owner_at a' m = owner_at a m) ->
  (forall m x, x ∈ aq a' (QMutex m) -> x ∈ aq a (QMutex m)) -> aflat a -> aflat a'.
Proof.
  intros Eo Hq [H1 H2]. split.
  - intros x m1 m2. rewrite !Eo. apply H1.
  - intros x m m' Hx%Hq. rewrite Eo. by eapply H2.
Qed.

(** The task that waits longest for a semaphore still does. *)
Definition head_stays (a a' : aview) (p : ptr) : Prop :=
  forall x l, aq a (QSem p) = x :: l -> exists l', aq a' (QSem p) = x :: l'.

Lemma head_stays_same a a' p : aq a' (QSem p) = aq a (QSem p) -> head_stays a a' p.
Proof. intros E x l El. exists l. by rewrite E. Qed.

(** What an operation leaves alone: the state is flat again when [F] holds, and
    the first waiters of all the semaphores but those in [P] stay. *)
Record stepped (F : Prop) (P : ptr -> Prop) (a a' : aview) : Prop := {
  st_flat : F -> aflat a';
  st_heads : forall p, ~ P p -> head_stays a a' p;
}.
Definition no_sem : ptr -> Prop := fun _ => False.

Lemma stepped_same a a' P :
  (forall m, owner_at a' m = owner_at a m) ->
  (forall m x, x ∈ aq a' (QMutex m) -> x ∈ aq a (QMutex m)) ->
  (forall p, ~ P p -> head_stays a a' p) -> stepped (aflat a) P a a'.
Proof. intros. split; [by apply aflat_same|done]. Qed.

Lemma stepped_id a P : stepped (aflat a) P a a.
Proof. split; [done|]. intros p _. by apply head_stays_same. Qed.
Lemma stepped_trans F P a b c :
  stepped F P a b -> stepped (aflat b) no_sem b c -> stepped F P a c.
Proof.
  intros [F1 H1] [F2 H2]. split; [auto|]. intros p Hp x l El.
  destruct (H1 p Hp x l El) as [l1 E1]. by apply (H2 p (fun h => h) x l1).
Qed.

(** An operation that touches neither the owners of mutexes nor the queues of
    mutexes and semaphores. *)
Ltac same := apply stepped_same; [done|done|intros; by apply head_stays_same].

(** [m] runs from [a] and ends in a well-formed state. *)
Definition safe (F : Prop) (P : ptr -> Prop) (a : aview) (m : K unit) : Prop :=
  exists a', runs a m tt a' /\ kinv a' /\ kcur a' /\ stepped F P a a'.

Lemma kcur_insert a a' x t' :
  kcur a -> tasks (av a') = <[x := t']> (tasks (av a)) ->
  current_task (av a') = current_task (av a) ->
  (t_state t' = TASK_RUNNING -> x = current_task (av a)) ->
  (dead t' -> t_owned_mutexes t' = NULL) -> kcur a'.
Proof.
  intros [C1 C2 C3] ET Ec Hr Hd. split; rewrite ?ET, ?Ec.
  - intros y ty [[<- <-]|[_ Hy]]%lookup_insert_Some; [done|by eapply C1].
  - destruct C2 as [?|[tc Htc]]; [auto|right]. rewrite lookup_insert. case_decide; eauto.
  - intros y ty [[<- <-]|[_ Hy]]%lookup_insert_Some; [done|by eapply C3].
Qed.

Lemma kcur_same a a' :
  kcur a -> tasks (av a') = tasks (av a) -> current_task (av a') = current_task (av a) -> kcur a'.
Proof. intros [C1 C2 C3] ET Ec. split; rewrite ?ET, ?Ec; done. Qed.

Lemma kcur_reprio a a' : reprio a a' -> kcur a -> kcur a'.
Proof.
  intros H [C1 C2 C3].
  assert (current_task (av a') = current_task (av a)) as Ec by (by rewrite (rp_av _ _ H)).
  split; rewrite ?Ec.
  - intros y ty (t & e & Hy & ->)%(reprio_back _ _ _ _ H). exact (C1 y t Hy).
  - destruct C2 as [?|[t Ht]]; [auto|right]. destruct (rp_some _ _ H _ _ Ht) as (e & _ & ?). eauto.
  - intros y ty (t & e & Hy & ->)%(reprio_back _ _ _ _ H). exact (C3 y t Hy).
Qed.

Lemma awake_kcur a l :
  kcur a -> (forall x, x ∈ l -> is_Some (tasks (av a) !! x)) -> kcur (awake l a).
Proof.
  revert a. induction l as [|x l IH]; intros a Hc Hl; [done|]. cbn.
  destruct (due a x); [|done]. destruct (Hl x) as [t Ht]; [by left|].
  apply IH.
  - apply (kcur_insert a _ x (set_t_state TASK_READY t)); try done.
    + by apply alter_lookup.
    + unfold dead. cbn. naive_solver.
  - intros y Hy. cbn. rewrite lookup_alter. case_decide; [rewrite Ht; by eexists|].
    apply Hl. by right.
Qed.

Lemma aforget_kcur a l : kcur a -> kcur (aforget l a).
Proof.
  revert a. induction l as [|x l IH]; intros a Hc; [done|]. cbn. apply IH.
  destruct (tasks (av a) !! x) as [t|] eqn:Ht.
  - apply (kcur_insert a _ x (forget_wait t)); [done|by apply alter_lookup|done|..].
    + exact (kc_running _ Hc x t Ht).
    + exact (kc_dead _ Hc x t Ht).
  - apply (kcur_same a); [done| |done]. apply map_eq. intros y. cbn. rewrite lookup_alter.
    case_decide as E; [|done]. by rewrite <- E, Ht.
Qed.

Lemma aforget_stepped l a : stepped (aflat a) no_sem a (aforget l a).
Proof.
  revert a. induction l as [|x l IH]; intros a; [apply stepped_id|]. cbn.
  eapply stepped_trans; [|apply IH]. same.
Qed.

(** The request leaves all but the pending bit alone. *)
Definition arequest (a : aview) : aview :=
  let pend := amap (fun s => set_icsr (Z.lor (icsr s) (2 ^ PENDSVSET_Pos)) s) a in
  match aq a QReady, tasks (av a) !! current_task (av a) with
  | x :: _, Some t =>
      if SCB_PENDSV_PENDING (av a) || (ipsr (av a) =? PENDSV_IRQ) ||
         bool_decide (t_state t = TASK_RUNNING) && (prio a x >? t_effective_priority t)
      then a else pend
  | _, _ => a
  end.

Lemma runs_request a t :
  tasks (av a) !! current_task (av a) = Some t ->
  runs a request_context_switch tt (arequest a).
Proof.
  intros Ht. apply runs_abs. intros s Hs. unfold request_context_switch, arequest. rewrite Ht.
  eapply runs_bind; [apply runs_ready_head|]. cbn beta. run_step. run_step.
  change (SCB_PENDSV_PENDING (av a)) with (SCB_PENDSV_PENDING (av a)).
  destruct (SCB_PENDSV_PENDING (av a)); cbn [orb].
  { destruct (aq a QReady); apply runs_ret. }
  destruct (ipsr (av a) =? PENDSV_IRQ); cbn [orb].
  { destruct (aq a QReady); apply runs_ret. }
  destruct (aq a QReady) as [|x l] eqn:El; cbn [List.hd]; [apply runs_ret|].
  destruct (Abs_queued s a QReady x Hs) as [Hx [tx Htx]]; [rewrite El; by left|].
  rewrite (proj2 (Z.eqb_neq _ _) Hx). run_step. run_step.
  rewrite (prio_lookup _ _ _ Htx).
  case_bool_decide; cbn [andb].
  - run_step. run_step. destruct (t_effective_priority tx >? t_effective_priority t);
      [apply runs_ret|run_prim].
  - run_prim.
Qed.

Lemma arequest_ok a : kinv a -> kcur a -> kinv (arequest a) /\ kcur (arequest a).
Proof.
  intros Ha Hc. unfold arequest. destruct (aq a QReady); [done|].
  destruct (tasks (av a) !! current_task (av a)); [|done].
  destruct (_ || _); [done|]. split; [by apply kinv_scalar|by apply (kcur_same a)].
Qed.

Lemma request_stepped a : stepped (aflat a) no_sem a (arequest a).
Proof.
  unfold arequest. destruct (aq a QReady); [apply stepped_id|].
  destruct (tasks (av a) !! current_task (av a)); [|apply stepped_id].
  destruct (_ || _); [apply stepped_id|same].
Qed.

Lemma request_safe a :
  kinv a -> kcur a -> current_task (av a) <> NULL -> safe (aflat a) no_sem a request_context_switch.
Proof.
  intros Ha Hc Hn. destruct (kc_current _ Hc) as [?|[t Ht]]; [done|].
  exists (arequest a). split; [by eapply runs_request|].
  destruct (arequest_ok a Ha Hc) as [? ?]. split_and!; [done..|]. apply request_stepped.
Qed.

Lemma awake_current l a : current_task (av (awake l a)) = current_task (av a).
Proof.
  revert a. induction l as [|x l IH]; intros a; [done|]. cbn.
  destruct (due a x); [|done]. by rewrite IH.
Qed.

Lemma awake_stepped l a : stepped (aflat a) no_sem a (awake l a).
Proof.
  revert a. induction l as [|x l IH]; intros a; [apply stepped_id|]. cbn.
  destruct (due a x); [|apply stepped_id]. eapply stepped_trans; [|apply IH]. same.
Qed.

Lemma tick_safe s a :
  Abs s a -> kinv a -> kcur a -> current_task (av a) <> NULL ->
  safe (aflat a) no_sem a systick_handler.
Proof.
  intros Hs Ha Hc Hn. pose proof (Abs_base _ _ Hs) as Hk. unfold systick_handler.
  set (a1 := amap (fun s => set_system_ticks (u32 (system_ticks s + 1)) s) a).
  assert (kinv a1) as Ha1 by (by apply kinv_scalar).
  assert (kcur a1) as Hc1 by (by apply (kcur_same a)).
  assert (kbase a1) as Hk1 by (destruct Hk; by split).
  pose proof (awake_kinv a1 _ Ha1 Hk1 eq_refl) as Ha2.
  assert (kcur (awake (aq a1 QSleep) a1)) as Hc2.
  { apply awake_kcur; [done|]. by intros x [_ ?]%(kb_known _ Hk1). }
  destruct (request_safe (awake (aq a1 QSleep) a1)) as (a' & Hr & ? & ? & Hf); [done..|by rewrite awake_current|].
  exists a'. split_and!; [|done..|].
  - run_step. fold a1. eapply runs_bind; [apply runs_sleep_tick|exact Hr].
  - eapply stepped_trans; [|exact Hf]. eapply stepped_trans; [|apply awake_stepped]. same.
Qed.

(** ** Unlocking, in a discipline that serves waiters safely *)

(** The condition under which a waiter may be served: it owns nothing, and the
    mutex is the last of its owner's list. *)
Definition handoff_ok (a : aview) (m : ptr) : Prop :=
  match aq a (QMutex m) with
  | [] => True
  | x :: _ => own_of a x = NULL /\ next_of a m = NULL
  end.

Lemma mseg_NULL M l : mseg M NULL l -> l = [].
Proof. destruct l; [done|]. by intros (<- & ? & _). Qed.

Lemma mseg_last M p l1 m l2 v :
  mseg M p (l1 ++ m :: l2) -> M !! m = Some v -> m_next_owned v = NULL -> l2 = [].
Proof.
  revert p. induction l1 as [|y l1 IH]; intros p; cbn.
  - intros (_ & _ & v' & Hv' & Hl) Hv Hn. simplify_eq. rewrite Hn in Hl. by eapply mseg_NULL.
  - intros (_ & _ & v' & _ & Hl). by eapply IH.
Qed.

(** What an unlock by the owner does to the tasks. *)
Record unlocked (a a' : aview) (m : ptr) (t : tcb) (l : list ptr) (r : sem_result) : Prop := {
  ul_kinv : kinv a';
  ul_current : current_task (av a') = current_task (av a);
  ul_self : exists t', tasks (av a') !! current_task (av a) = Some t' /\
    t_state t' = t_state t /\ (l = [m] -> t_owned_mutexes t' = NULL);
  ul_others : forall y ty, y <> current_task (av a) -> tasks (av a') !! y = Some ty ->
    tasks (av a) !! y = Some ty \/ t_state ty = TASK_READY;
  ul_mutex : exists v', mutexes (av a') !! m = Some v' /\ m_next_owned v' = NULL;
  ul_owner : owner_at a' m = Some (List.hd NULL (aq a (QMutex m)));
  ul_served : match aq a (QMutex m) with
    | [] => r = SEM_OK
    | x :: _ => (exists tx, tasks (av a') !! x = Some tx /\ t_state tx = TASK_READY) /\
        r = if prio a' x <? prio a' (current_task (av a)) then SEM_OK_YIELD else SEM_OK
    end;
  ul_stepped : stepped (aflat a) no_sem a a';
}.

Lemma aflat_free a a' m :
  kbase a -> (forall y, owner_at a' y = if decide (y = m) then Some NULL else owner_at a y) ->
  (forall y, aq a' (QMutex y) = aq a (QMutex y)) -> aflat a -> aflat a'.
Proof.
  intros Hk Eo Eq [H1 H2]. split.
  - intros x m1 m2 Hx. rewrite !Eo. repeat case_decide; try congruence. by apply H1.
  - intros x m1 m2. rewrite Eq, Eo. intros Hx. case_decide; [|by eapply H2].
    intros [= E]. by destruct (kb_known _ Hk _ _ Hx) as [[] _].
Qed.

Lemma aflat_hand a a' m x ws :
  kbase a -> kwf a -> aq a (QMutex m) = x :: ws ->
  (forall y, owner_at a' y = if decide (y = m) then Some x else owner_at a y) ->
  (forall y, aq a' (QMutex y) = if decide (y = m) then ws else aq a (QMutex y)) ->
  aflat a -> aflat a'.
Proof.
  intros Hk Hw Hq Eo Eq [H1 H2].
  assert (x ∈ aq a (QMutex m)) as Hx by (rewrite Hq; by left).
  pose proof (kb_nodup _ Hk (QMutex m)) as Hnd. rewrite Hq in Hnd. apply NoDup_cons in Hnd as [Hnd _].
  destruct (kb_known _ Hk _ _ Hx) as [_ [t Ht]].
  pose proof (fun r => wf_place _ Hw _ _ r Ht) as Hp.
  pose proof (proj1 (Hp _) Hx) as Hm.
  split.
  - intros y m1 m2 Hy. rewrite !Eo. repeat case_decide; subst; [done|..].
    + intros [= <-] Ho. by destruct (H2 _ _ m2 Hx).
    + intros Ho [= <-]. by destruct (H2 _ _ m1 Hx).
    + by apply H1.
  - intros y m1 m2 Hy Ho. rewrite Eo in Ho.
    assert (y ∈ aq a (QMutex m1) /\ y <> x) as [Hya Hyx].
    { rewrite Eq in Hy. destruct (decide (m1 = m)) as [->|]; [rewrite Hq; set_solver|].
      split; [done|]. intros ->. apply Hp in Hy. congruence. }
    case_decide; [congruence|]. by eapply H2.
Qed.

Lemma unlock_runs s a m v t l :
  let c := current_task (av a) in
  Abs s a -> kinv a -> mutexes (av a) !! m = Some v -> m_owner v = c ->
  tasks (av a) !! c = Some t -> place t = None -> owned_list a c t l -> handoff_ok a m ->
  exists r a', runs a (mutex_unlock m) r a' /\ unlocked a a' m t l r.
Proof.
  intros c Hs Ha Hv Ho Ht Hp Hl Hok. pose proof (Abs_base _ _ Hs) as Hk.
  assert (m ∈ l) as Hm by (apply Hl; eauto).
  apply list_elem_of_split in Hm as (l1 & l2 & ->).
  pose proof Hl as (Hseg & Hnd & _). unfold handoff_ok in Hok.
  destruct (aq a (QMutex m)) as [|x ws] eqn:Hq.
  - exists SEM_OK, (aunlock_free m l1 l2 a). split; [by eapply runs_unlock_free|].
    destruct (uf_self a m v t l1 l2) as (o & Hc & Ho'); [done..|]. split.
    + by eapply unlock_free_kinv.
    + unfold aunlock_free, arecalc, aunlink. by destruct (last l1).
    + eexists. split; [exact Hc|]. split; [done|]. intros El.
      destruct l1 as [|y l1]; cbn in El; [|by destruct l1]. injection El as ->.
      by cbn in Ho'.
    + intros y ty Hy. rewrite (uf_other a m v t l1 l2); auto.
    + unfold aunlock_free, arecalc. fold c.
      destruct (unlink_next (aupd_mutex m (set_m_owner NULL) a) c m l1 (set_m_owner NULL v))
        as (v' & ? & ?); [cbn; by rewrite lookup_alter_eq, Hv|]. by exists v'.
    + rewrite (uf_owner a m v t l1 l2), Hq by done. by rewrite decide_True.
    + by rewrite Hq.
    + split; [apply (aflat_free a _ m Hk); [by apply (uf_owner a m v t l1 l2)|]|].
      * intros y. by apply (uf_aq a m v t l1 l2).
      * intros p _. by apply head_stays_same, (uf_aq a m v t l1 l2).
  - destruct Hok as [Hox Hnx]. destruct (Abs_head _ _ _ _ _ Hs Hq) as [tx Hh].
    pose proof (head_task _ _ _ _ _ Hh) as Htx. unfold own_of in Hox. rewrite Htx in Hox. cbn in Hox.
    unfold next_of in Hnx. rewrite Hv in Hnx. cbn in Hnx.
    pose proof (mseg_last _ _ _ _ _ _ Hseg Hv Hnx) as ->.
    assert (owned_list a x tx []) as Hlx.
    { destruct (ki_owned _ Ha _ _ Htx) as [lx Hlx]. pose proof (proj1 Hlx) as Hsx.
      rewrite Hox in Hsx. by rewrite (mseg_NULL _ _ Hsx) in Hlx. }
    assert (c <> x) as Hcx by (by eapply uh_ne).
    set (a' := aunlock_handoff m x ws l1 [] a).
    eexists _, a'. split.
    { by eapply runs_unlock_handoff. }
    destruct (uh_c a m x v t tx ws l1) as (o & Hc & Ho'); [done..|]. split.
    + by eapply unlock_handoff_kinv.
    + unfold a', aunlock_handoff, arecalc, aunlink. by destruct (last l1).
    + eexists. split; [exact Hc|]. split; [done|]. intros El.
      destruct l1 as [|y l1]; cbn in El; [|by destruct l1]. by cbn in Ho'.
    + intros y ty Hy Hty. destruct (decide (y = x)) as [->|Hyx].
      * unfold a' in Hty. rewrite (uh_x a m x v t tx ws l1) in Hty by done.
        injection Hty as <-. by right.
      * left. unfold a' in Hty. by rewrite (uh_other a m x v t tx ws l1) in Hty.
    + unfold a', aunlock_handoff, arecalc. fold c.
      destruct (mutexes (av (ahandoff m x ws [] a)) !! m) as [ve|] eqn:Hve.
      2: { unfold ahandoff, arecalc, alink, aready in Hve. cbn in Hve.
           by rewrite !lookup_alter_eq, Hv in Hve. }
      destruct (unlink_next (ahandoff m x ws [] a) c m l1 ve Hve) as (v' & ? & ?). by exists v'.
    + unfold a'. rewrite (uh_owner a m x v t tx ws l1), Hq by done. by rewrite decide_True.
    + rewrite Hq. split; [|done]. exists (served a m x tx ws). split; [|done].
      by apply (uh_x a m x v t tx ws l1).
    + split; [apply (aflat_hand a _ m x ws Hk (ki_wf _ Ha) Hq)|].
      * intros y. by apply (uh_owner a m x v t tx ws l1).
      * intros y. by apply (uh_aq_mutex' a m x v t tx ws l1).
      * intros p _. by apply head_stays_same, (uh_aq_rest a m x v t tx ws l1).
Qed.

Lemma unlocked_kcur a a' m t l r :
  unlocked a a' m t l r -> tasks (av a) !! current_task (av a) = Some t -> kcur a ->
  t_state t = TASK_RUNNING -> kcur a'.
Proof.
  intros [_ Ec (t' & Ht' & Est & _) Hoth _ _ _ _] Ht [C1 C2 C3] Hst. split; rewrite ?Ec.
  - intros y ty Hy Hr. destruct (decide (y = current_task (av a))) as [->|Hne]; [done|].
    destruct (Hoth y ty Hne Hy) as [?|E]; [by eapply C1|congruence].
  - right. eauto.
  - intros y ty Hy Hd. destruct (decide (y = current_task (av a))) as [->|Hne].
    + simplify_eq. unfold dead in Hd. rewrite Est, Hst in Hd. naive_solver.
    + destruct (Hoth y ty Hne Hy) as [?|E]; [by eapply C3|]. unfold dead in Hd. rewrite E in Hd. by destruct Hd.
Qed.

(** ** Leaving the kernel: SYS_TASK_EXIT *)

Definition task_exit : K unit :=
  c ← gets current_task;
  upd_task c (set_t_state TASK_FINISHED);;
  m ← rd_task c t_owned_mutexes;
  mutex_unlock_all_owned m.

(** A task may leave with one mutex at most. *)
Definition exit_ok (a : aview) : Prop :=
  let m := own_of a (current_task (av a)) in
  m = NULL \/ (next_of a m = NULL /\ handoff_ok a m).

Lemma size_lookup {A} (M : gmap ptr A) x v : M !! x = Some v -> exists n, size M = S n.
Proof.
  intros Hx. destruct (size M) as [|n] eqn:E; [|eauto].
  apply map_size_empty_inv in E. by subst M.
Qed.

Lemma exit_safe s a t :
  Abs s a -> kinv a -> kcur a -> tasks (av a) !! current_task (av a) = Some t ->
  t_state t = TASK_RUNNING -> exit_ok a -> safe (aflat a) no_sem a task_exit.
Proof.
  set (c := current_task (av a)). intros Hs Ha Hc Ht Hst Hok.
  set (a1 := aupd_task c (set_t_state TASK_FINISHED) a). set (t1 := set_t_state TASK_FINISHED t).
  assert (tasks (av a1) !! c = Some t1) as Ht1 by (cbn; by rewrite lookup_alter_eq, Ht).
  assert (tasks (av a1) = <[c := t1]> (tasks (av a))) as ET by (by apply alter_lookup).
  assert (kinv a1) as Ha1.
  { apply (upd_task_kinv a c t (set_t_state TASK_FINISHED)); try done.
    unfold place. cbn. by rewrite Hst. }
  destruct (runs_upd_task' a c t (set_t_state TASK_FINISHED) Ht ltac:(done) ltac:(done) s Hs)
    as (s1 & _ & Hs1). fold a1 in Hs1.
  assert (forall (k : ptr -> K unit) v a', runs a1 (k (t_owned_mutexes t)) v a' ->
    runs a (m ← gets current_task; upd_task m (set_t_state TASK_FINISHED);;
      o ← rd_task m t_owned_mutexes; k o) v a') as Hgo.
  { intros k v a' Hk. run_step. eapply runs_bind; [by eapply runs_upd_task'|].
    eapply runs_bind; [by apply (runs_rd_task a1 c t1)|]. exact Hk. }
  unfold exit_ok, own_of in Hok. fold c in Hok. rewrite Ht in Hok. cbn in Hok.
  destruct Hok as [Hn|[Hnx Hh]].
  - exists a1. split_and!; [|done| |same].
    + apply (Hgo mutex_unlock_all_owned). rewrite Hn. unfold mutex_unlock_all_owned.
      eapply runs_bind; [apply runs_owned_fuel|]. apply runs_ret.
    + apply (kcur_insert a _ c t1); try done.
  - destruct (ki_owned _ Ha _ _ Ht) as [l Hl]. pose proof Hl as (Hseg & Hnd & El).
    destruct l as [|m l]; [cbn in Hseg|].
    { exists a1. split_and!; [|done| |same].
      - apply (Hgo mutex_unlock_all_owned). rewrite Hseg. unfold mutex_unlock_all_owned.
        eapply runs_bind; [apply runs_owned_fuel|]. apply runs_ret.
      - apply (kcur_insert a _ c t1); try done. }
    destruct Hseg as (Em & Hm & v & Hv & Hseg). rewrite Em in Hnx, Hh.
    unfold next_of in Hnx. rewrite Hv in Hnx. cbn in Hnx.
    rewrite Hnx in Hseg. pose proof (mseg_NULL _ _ Hseg) as ->.
    assert (m_owner v = c) as Hov.
    { destruct (proj1 (El m) ltac:(by left)) as (v' & ? & ?). congruence. }
    destruct (unlock_runs s1 a1 m v t1 [m] Hs1 Ha1) as (r & a2 & Hr & Hul); try done.
    { unfold handoff_ok, own_of, next_of in *. cbn [aq a1 aupd_task amap] in *.
      destruct (aq a (QMutex m)) as [|x ws] eqn:Hq; [done|]. destruct Hh as [Hox Hnm].
      split; [|done]. rewrite ET, lookup_insert. case_decide as E; [|done].
      subst x. cbn. pose proof (proj1 (wf_place _ (ki_wf _ Ha) _ _ (QMutex m) Ht)) as Hp.
      rewrite Hq in Hp. specialize (Hp ltac:(by left)). unfold place in Hp. by rewrite Hst in Hp. }
    destruct Hul as [Hi Ec (t' & Ht' & Est & Hown) Hoth (v' & Hv' & Hnv) _ _ Hfl].
    exists a2. split_and!; [|done| |eapply stepped_trans; [|exact Hfl]; same].
    + apply (Hgo mutex_unlock_all_owned). rewrite Em. unfold mutex_unlock_all_owned.
      eapply runs_bind; [apply runs_owned_fuel|]. cbn beta.
      destruct (size_lookup (mutexes (av a1)) m v Hv) as [n ->].
      cbn [unlock_all_loop]. rewrite (proj2 (Z.eqb_neq _ _) Hm).
      eapply runs_bind; [exact Hr|]. cbn beta.
      eapply runs_bind; [by eapply runs_rd_mutex|]. rewrite Hnv. apply runs_ret.
    + change (current_task (av a1)) with c in *. split; rewrite ?Ec.
      * intros y ty Hy Hrun. destruct (decide (y = c)) as [->|Hne]; [done|].
        destruct (Hoth y ty Hne Hy) as [E|E]; [|congruence].
        rewrite ET, lookup_insert_ne in E by done. by eapply (kc_running _ Hc).
      * right. eauto.
      * intros y ty Hy Hd. destruct (decide (y = c)) as [->|Hne].
        -- simplify_eq. by apply Hown.
        -- destruct (Hoth y ty Hne Hy) as [E|E].
           ++ rewrite ET, lookup_insert_ne in E by done. by eapply (kc_dead _ Hc).
           ++ unfold dead in Hd. rewrite E in Hd. by destruct Hd.
Qed.

(** ** Entering the kernel: SYS_TASK_CREATE *)

Section create.
Context (L : layout) (tw : ptr).

Definition task_create (priority func args : Z) : K ptr :=
  task ← create_task L tw priority func args;
  whenb (negb (task =? NULL)) (scheduler_put_task task);;
  mret task.

Section spec.
Context (a : aview) (i : nat) (priority func args : Z) (t : tcb).
Let x := task_slot L i.
Context (Ha : kinv a) (Hc : kcur a)
  (Ht : tasks (av a) !! x = Some t) (Hd : dead t).
Let b := aready x (acreate L tw (Some i) priority func args a).
Let t' := set_t_state TASK_READY (newborn L i priority func args t).

Lemma dead_place : place t = None.
Proof using Hd. unfold place. by destruct Hd as [-> | ->]. Qed.

Lemma dead_unqueued r : x ∉ aq a r.
Proof using Ha Hd Ht.
  rewrite (wf_place _ (ki_wf _ Ha) _ _ _ Ht), dead_place. done.
Qed.

Lemma dead_owns m : owner_at a m <> Some x.
Proof using Ha Hc Hd Ht.
  intros Hm. destruct (ki_owned _ Ha _ _ Ht) as [l Hl]. pose proof (proj1 Hl) as Hs.
  rewrite (kc_dead _ Hc _ _ Ht Hd) in Hs. apply mseg_NULL in Hs as ->.
  apply (proj1 (owned_list_owner _ _ _ _) Hl) in Hm. by apply elem_of_nil in Hm.
Qed.

Lemma create_tasks : tasks (av b) = <[x := t']> (tasks (av a)).
Proof using Ht.
  unfold b, aready, acreate. cbn. fold x.
  rewrite (alter_lookup (newborn L i priority func args) x t) by done.
  rewrite (alter_lookup _ x (newborn L i priority func args t)) by apply lookup_insert_eq.
  apply insert_insert_eq.
Qed.

Lemma create_elem y r : y <> x -> y ∈ aq b r <-> y ∈ aq a r.
Proof using.
  intros Hy. cbn. fold x. destruct (decide (QReady = r)) as [<-|].
  - rewrite fn_lookup_insert, elem_of_ins, elem_of_del. tauto.
  - by rewrite fn_lookup_insert_ne.
Qed.

Lemma create_prio y : y <> x -> prio b y = prio a y.
Proof using Ht. intros Hy. unfold prio, key_of. by rewrite create_tasks, lookup_insert_ne. Qed.

Lemma create_kord : kord b.
Proof using Ha Hd Ht.
  destruct (ki_ord _ Ha) as [O1 O2]. split.
  - cbn. fold x. rewrite fn_lookup_insert. erewrite ins_ext; [apply ordered_ins|].
    + eapply ordered_ext; [|by apply ordered_del]. intros y [Hy _]%elem_of_del.
      symmetry. by apply create_prio.
    + intros y _. unfold prio. rewrite create_tasks. unfold acreate. cbn. fold x.
      rewrite (alter_lookup _ x t) by done. unfold key_of.
      destruct (decide (y = x)) as [->|]; [by rewrite !lookup_insert_eq|by rewrite !lookup_insert_ne].
  - intros m. cbn. eapply ordered_ext; [|apply O2]. intros y Hy. symmetry. apply create_prio.
    intros ->. by apply dead_unqueued in Hy.
Qed.

Lemma create_changed : changed (fun y => y = x) a b.
Proof using Ha Hc Hd Ht.
  assert (forall m, owner_at b m = owner_at a m) as Eo by done.
  split.
  - intros y Hy. by rewrite create_tasks, lookup_insert_ne.
  - intros y Hy. unfold tick, key_of. rewrite create_tasks, lookup_insert_ne; [done|].
    intros <-. by apply dead_unqueued in Hy.
  - intros y r Hy. by apply create_elem.
  - done.
  - done.
  - done.
  - cbn. rewrite (ki_stale _ Ha). apply no_stale.
  - intros y ty Hy. rewrite create_tasks, lookup_insert. case_decide; eauto.
  - intros y ty r ->. rewrite create_tasks, lookup_insert_eq. intros [= <-]. cbn. fold x.
    destruct (decide (QReady = r)) as [<-|].
    + rewrite fn_lookup_insert, elem_of_ins. tauto.
    + rewrite fn_lookup_insert_ne by done. split; [by intros ?%dead_unqueued|].
      intros [= ?]. done.
  - intros y ty ->. rewrite create_tasks, lookup_insert_eq. intros [= <-]. exists [].
    apply owned_list_owner. split_and!; [done|constructor|]. intros m. rewrite Eo.
    split; [by intros ?%elem_of_nil|]. intros Hm. by apply dead_owns in Hm.
  - done.
  - intros y ty ->. rewrite create_tasks, lookup_insert_eq. intros [= <-]. split; cbn.
    + lia.
    + intros w (m & Hm & _)%waits_for_owner. rewrite Eo in Hm. by apply dead_owns in Hm.
    + by left.
  - intros m (v & ? & ?)%owner_at_Some. by eapply (wf_free _ (ki_wf _ Ha)).
  - intros m y (v & ? & <-)%owner_at_Some ?. by eapply (wf_owner _ (ki_wf _ Ha)).
  - done.
  - intros w y ty Hy Hty (m & v & _ & _ & Hw) ->. by apply dead_unqueued in Hw.
Qed.

Lemma create_ok : kinv b /\ kcur b.
Proof using Ha Hc Hd Ht.
  split.
  - apply (changed_kinv (fun y => y = x) a); [tc_solve|apply create_changed|done|apply create_kord].
  - apply (kcur_insert a _ x t'); [done|apply create_tasks|done|done|].
    by intros [?|?].
Qed.
End spec.
End create.

(** ** Events and runs *)

Section events.
Context (L : layout) (tw : ptr).

(** Interrupts: PendSV (with the stack pointer the hardware left), the tick,
    a post from a device handler.  System calls of the running task: the
    others. *)
Inductive event :=
| EPendSV (psp : ptr)
| ETick
| EPost (p : ptr)
| ESleep (ticks : Z)
| EWait (p : ptr)
| EClose (p : ptr)
| ESemInit (p : ptr) (count : Z)
| ELock (m : ptr)
| EUnlock (m : ptr)
| EMutexInit (m : ptr)
| ECreate (priority func args : Z)
| EExit.

Definition exec (e : event) : K unit :=
  match e with
  | EPendSV psp => _v ← pend_sv_handler psp; mret tt
  | ETick => systick_handler
  | EPost p => _v ← semaphore_post p; mret tt
  | ESleep n => sleep_for_ticks n
  | EWait p => _v ← semaphore_wait p; mret tt
  | EClose p => semaphore_close p
  | ESemInit p n => semaphore_init p n
  | ELock m => _v ← mutex_lock m; mret tt
  | EUnlock m => _v ← mutex_unlock m; mret tt
  | EMutexInit m => mutex_init m
  | ECreate prio f x => _v ← task_create L tw prio f x; mret tt
  | EExit => task_exit
  end.

Definition running (a : aview) : Prop :=
  exists t, tasks (av a) !! current_task (av a) = Some t /\ t_state t = TASK_RUNNING.
Definition known_sem (a : aview) (p : ptr) : Prop := exists v, sems (av a) !! p = Some v.
Definition known_mutex (a : aview) (m : ptr) : Prop :=
  m <> NULL /\ exists v, mutexes (av a) !! m = Some v.

(** What the callers guarantee. *)
Definition enabled (e : event) (a : aview) : Prop :=
  match e with
  | EPendSV _ => current_task (av a) <> NULL \/ aq a QReady <> []
  | ETick => current_task (av a) <> NULL
  | EPost p => known_sem a p
  | ESleep _ => running a
  | EWait p => running a /\ known_sem a p
  | EClose p => known_sem a p
  | ESemInit p _ => known_sem a p /\ aq a (QSem p) = []
  | ELock m => running a /\ known_mutex a m
  | EUnlock m => running a /\ known_mutex a m /\
      (owner_at a m = Some (current_task (av a)) -> handoff_ok a m)
  | EMutexInit m => known_mutex a m /\ owner_at a m = Some NULL
  | ECreate _ _ _ =>
      forall k, (k < N_TASKS)%nat -> exists t, tasks (av a) !! task_slot L k = Some t
  | EExit => running a /\ exit_ok a
  end.

Lemma runs_discard {A} a (m : K A) v a' : runs a m v a' -> runs a (m ≫= fun _ => mret tt) tt a'.
Proof using. intros H. eapply runs_bind; [exact H|apply runs_ret]. Qed.

Lemma sleep_safe a n : kinv a -> kcur a -> kbase a -> running a -> safe (aflat a) no_sem a (sleep_for_ticks n).
Proof using.
  intros Ha Hc Hk (t & Ht & Hst). destruct (decide (n = 0)) as [->|Hn].
  - exists a. split_and!; [|done..|apply stepped_id]. unfold sleep_for_ticks. run_step. apply runs_ret.
  - exists (asleep n a). split_and!.
    + eapply runs_sleep_for_ticks; try done; [|intros r|apply Ha].
      * intros E. rewrite E, (kb_null _ Hk) in Ht. done.
      * by eapply running_unqueued; [..|apply Ha].
    + by eapply asleep_kinv.
    + eapply (kcur_insert a); [done|by apply alter_lookup|done|done|]. by intros [?|?].
    + same.
Qed.

Lemma wait_safe a p :
  kinv a -> kcur a -> kbase a -> running a -> known_sem a p ->
  safe (aflat a) no_sem a (_v ← semaphore_wait p; mret tt).
Proof using.
  intros Ha Hc Hk (t & Ht & Hst) [v Hv]. pose proof (sem_word _ (ki_sem _ Ha) _ _ Hv) as Hw.
  destruct (decide (s_state v = SEM_OPEN)) as [Ho|Ho].
  2: { exists a. split_and!; [|done..|apply stepped_id]. by eapply runs_discard, runs_sem_wait_closed. }
  destruct (decide (s_count v = 0)) as [E|E].
  - exists (asem_block p a). split_and!.
    + eapply runs_discard, runs_sem_wait_block; try done; [lia|..].
      * intros E'. rewrite E', (kb_null _ Hk) in Ht. done.
      * split; [|rewrite (ki_stale _ Ha); set_solver].
        intros r. by eapply running_unqueued; [..|apply Ha].
    + by eapply sem_block_kinv.
    + eapply (kcur_insert a); [done|by apply alter_lookup|done|done|]. by intros [?|?].
    + apply stepped_same; [done..|]. intros q _ x l Hx. cbn.
      destruct (decide (p = q)) as [<-|Hq]; [rewrite fn_lookup_insert, Hx; by eexists|].
      rewrite fn_lookup_insert_ne, Hx by congruence. by eexists.
  - exists (asem_take p a). split_and!.
    + eapply runs_discard, runs_sem_wait_take; [done..|lia].
    + eapply take_kinv; [done..|lia].
    + by apply (kcur_same a).
    + same.
Qed.

Lemma post_safe s a p :
  Abs s a -> kinv a -> kcur a -> known_sem a p ->
  safe (aflat a) (eq p) a (_v ← semaphore_post p; mret tt).
Proof using.
  intros Hs Ha Hc [v Hv]. destruct (decide (s_state v = SEM_OPEN)) as [Ho|Ho].
  2: { exists a. split_and!; [|done..|apply stepped_id]. by eapply runs_discard, runs_sem_post_closed. }
  destruct (aq a (QSem p)) as [|x l] eqn:El.
  - exists (asem_bump p a). split_and!.
    + by eapply runs_discard, runs_sem_post_bump.
    + by eapply bump_kinv.
    + by apply (kcur_same a).
    + same.
  - destruct (Abs_head _ _ _ _ _ Hs El) as [t Hh]. pose proof Hh as [Hx Ht Hxl _].
    assert (place t = Some (QSem p)) as Hp.
    { apply (wf_place _ (ki_wf _ Ha) _ _ _ Ht). rewrite El. by left. }
    exists (asem_grant p x l a). split_and!.
    + eapply runs_discard, runs_sem_post_grant; [done..|].
      unfold place in Hp. destruct (t_state t), (t_waiting_on_type t); congruence.
    + by eapply grant_kinv.
    + apply (kcur_insert a _ x (set_t_state TASK_READY (unwait t))); [done| |done|done|].
      * cbn. rewrite (alter_lookup unwait x t), (alter_lookup _ x (unwait t))
          by (done || apply lookup_insert_eq). apply insert_insert_eq.
      * by intros [?|?].
    + apply stepped_same; [done..|]. intros q Hq. apply head_stays_same. cbn.
      by rewrite !fn_lookup_insert_ne by congruence.
Qed.

Lemma close_safe s a p :
  Abs s a -> kinv a -> kcur a -> known_sem a p -> safe (aflat a) (eq p) a (semaphore_close p).
Proof using.
  intros Hs Ha Hc [v Hv]. pose proof (Abs_base _ _ Hs) as Hk.
  exists (asem_close p a). split_and!.
  - eapply runs_sem_close; [done|]. apply Forall_forall. intros x Hx.
    destruct (kb_known _ Hk _ _ Hx) as [Hn [t Ht]]. split; [done|]. exists t. split; [done|].
    apply (wf_place _ (ki_wf _ Ha) _ _ _ Ht) in Hx. unfold place in Hx.
    by destruct (t_state t), (t_waiting_on_type t).
  - by eapply close_kinv.
  - apply (kcur_same (aforget (aq a (QSem p)) a)); [by apply aforget_kcur|done..].
  - destruct (aforget_stepped (aq a (QSem p)) a) as [Hf Hh]. split.
    + intros H0. apply (aflat_same (aforget (aq a (QSem p)) a)); [done..|by apply Hf].
    + intros q Hq x l El. destruct (Hh q (fun h => h) x l El) as [l' E]. exists l'.
      cbn. by rewrite fn_lookup_insert_ne by congruence.
Qed.

(** The running task owns no mutex when its list is empty. *)
Lemma own_none a x t m :
  kinv a -> tasks (av a) !! x = Some t -> own_of a x = NULL -> owner_at a m <> Some x.
Proof using.
  intros Ha Ht Hn Hm. destruct (ki_owned _ Ha _ _ Ht) as [l Hl]. pose proof (proj1 Hl) as Hs.
  unfold own_of in Hn. rewrite Ht in Hn. cbn in Hn. rewrite Hn in Hs. apply mseg_NULL in Hs as ->.
  apply (proj1 (owned_list_owner _ _ _ _) Hl) in Hm. by apply elem_of_nil in Hm.
Qed.

Lemma lock_free_flat a m v t :
  kinv a -> tasks (av a) !! current_task (av a) = Some t -> t_state t = TASK_RUNNING ->
  mutexes (av a) !! m = Some v -> own_of a (current_task (av a)) = NULL ->
  aflat a -> aflat (alock_free m a).
Proof using.
  intros Ha Ht Hst Hv Hown [H1 H2].
  assert (forall y, owner_at (alock_free m a) y =
    if decide (y = m) then Some (current_task (av a)) else owner_at a y) as Eo.
  { intros y. unfold owner_at. cbn. rewrite lookup_alter. repeat case_decide; subst; try done.
    by rewrite Hv. }
  pose proof (fun y => own_none a _ t y Ha Ht Hown) as Hno. split.
  - intros x m1 m2 Hx. rewrite !Eo. repeat case_decide; subst; [done|..].
    + intros [= <-] E. by destruct (Hno m2).
    + intros E [= <-]. by destruct (Hno m1).
    + by apply H1.
  - intros x m1 m2 Hx. rewrite Eo. case_decide; [|by eapply H2]. intros [= <-].
    by apply (running_unqueued a t Ht Hst (ki_wf _ Ha) (QMutex m1)).
Qed.

Lemma lock_block_flat a m o t :
  kinv a -> tasks (av a) !! current_task (av a) = Some t ->
  own_of a (current_task (av a)) = NULL -> reprio (aenqueue m a) (alock_block m o a) ->
  aflat a -> aflat (alock_block m o a).
Proof using.
  intros Ha Ht Hown Hr [H1 H2].
  assert (forall y, owner_at (alock_block m o a) y = owner_at a y) as Eo.
  { intros y. unfold owner_at. by rewrite (rp_av _ _ Hr). }
  split.
  - intros x m1 m2 Hx. rewrite !Eo. by apply H1.
  - intros x m1 m2. rewrite (rp_elem _ _ Hr), Eo. unfold aenqueue. cbn.
    destruct (decide (QMutex m = QMutex m1)) as [E|]; [rewrite <- E, fn_lookup_insert, elem_of_ins|].
    + intros [->|Hx]; [by apply (own_none a _ t)|]. by eapply H2.
    + rewrite fn_lookup_insert_ne by done. by apply H2.
Qed.

Lemma lock_safe a m :
  kinv a -> kcur a -> kbase a -> running a -> known_mutex a m ->
  safe (aflat a /\ own_of a (current_task (av a)) = NULL) no_sem a (_v ← mutex_lock m; mret tt).
Proof using.
  intros Ha Hc Hk (t & Ht & Hst) [Hm [v Hv]].
  assert (current_task (av a) <> NULL) as Hn.
  { intros E. rewrite E, (kb_null _ Hk) in Ht. done. }
  destruct (decide (m_owner v = NULL)) as [Ho|Ho].
  - exists (alock_free m a). split_and!.
    + by eapply runs_discard, runs_lock_free.
    + by eapply lock_free_kinv.
    + eapply (kcur_insert a); [done|by apply lock_free_tasks|done|done|].
      cbn. unfold dead. cbn. rewrite Hst. by intros [?|?].
    + split; [intros [Hf Hown]; by eapply lock_free_flat|].
      intros p _. by apply head_stays_same.
  - destruct (decide (m_owner v = current_task (av a))) as [Eo|Eo].
    { exists a. split_and!; [|done..|split; [by intros [? _]|apply (stepped_id a)]]. by eapply runs_discard, runs_lock_deadlock. }
    destruct (lock_block_kinv a m v t) as [Hi Hr]; [done..|].
    exists (alock_block m (m_owner v) a). split_and!; [|done|..].
    + eapply runs_discard, runs_lock_block; try done; [by eapply enqueue_kwf; eauto; apply Ha|apply Ha|].
      intros r. by eapply running_unqueued; [..|apply Ha].
    + eapply kcur_reprio; [exact Hr|].
      eapply (kcur_insert a); [done|by apply alter_lookup|done|done|]. by intros [?|?].
    + split; [intros [Hf Hown]; by eapply lock_block_flat|].
      intros p _. by apply head_stays_same, (rp_fifo _ _ Hr).
Qed.

Lemma mutex_init_kinv a m v :
  let b := aupd_mutex m (fun v => set_m_next_owned NULL (set_m_owner NULL (set_m_state SEM_OPEN v))) a in
  kinv a -> kbase a -> mutexes (av a) !! m = Some v -> m_owner v = NULL -> kinv b.
Proof using.
  intros b Ha Hk Hv Ho.
  assert (forall y, owner_at b y = owner_at a y) as Eo.
  { intros y. unfold owner_at, b. cbn. rewrite lookup_alter. case_decide; [|done].
    subst y. rewrite Hv. cbn. by rewrite Ho. }
  apply (changed_kinv (fun _ => False) a); [tc_solve| |done|].
  2: { split; apply Ha. }
  split; try done.
  - apply Ha.
  - eauto.
  - intros y t l _ Hy. rewrite !owned_list_owner. setoid_rewrite Eo.
    intros (Hs & Hnd & El). split_and!; [|done|done]. cbn. apply mseg_alter_ne; [|done].
    intros (v' & Hv' & E)%El%owner_at_Some. simplify_eq. rewrite Ho in Hy.
    by rewrite (kb_null _ Hk) in Hy.
  - intros m'. rewrite Eo. intros (v' & ? & ?)%owner_at_Some. by eapply (wf_free _ (ki_wf _ Ha)).
  - intros m' y. rewrite Eo. intros (v' & ? & <-)%owner_at_Some ?.
    by eapply (wf_owner _ (ki_wf _ Ha)).
  - intros w y t _ _. rewrite !waits_for_owner. by setoid_rewrite Eo.
Qed.

Lemma unlock_safe s a m :
  Abs s a -> kinv a -> kcur a -> running a -> known_mutex a m ->
  (owner_at a m = Some (current_task (av a)) -> handoff_ok a m) ->
  safe (aflat a) no_sem a (_v ← mutex_unlock m; mret tt).
Proof using.
  intros Hs Ha Hc (t & Ht & Hst) [Hm [v Hv]] Hok.
  destruct (decide (m_owner v = current_task (av a))) as [Eo|Eo].
  - destruct (ki_owned _ Ha _ _ Ht) as [l Hl].
    destruct (unlock_runs s a m v t l) as (r & a' & Hr & Hul); try done.
    { unfold place. by rewrite Hst. }
    { apply Hok, owner_at_Some. eauto. }
    exists a'. split_and!; [by eapply runs_discard|apply Hul|by eapply unlocked_kcur|apply Hul].
  - exists a. split_and!; [|done..|apply stepped_id]. by eapply runs_discard, runs_unlock_not_owner.
Qed.

Lemma pend_stepped a psp : stepped (aflat a) no_sem a (apend psp a).
Proof using.
  change (stepped (aflat a) no_sem a (switched (adispatch (arequeue (apend_entry psp a))))).
  eapply stepped_trans with (b := apend_entry psp a); [unfold apend_entry; destruct (_ =? _); same|].
  eapply stepped_trans with (b := arequeue (apend_entry psp a)).
  - unfold arequeue. destruct (tasks _ !! _); [|apply stepped_id].
    case_bool_decide; [apply stepped_id|same].
  - unfold adispatch. destruct (aq (arequeue (apend_entry psp a)) QReady); same.
Qed.

Lemma dead_task a i :
  task_dead L a i = true -> exists t, tasks (av a) !! task_slot L i = Some t /\ dead t.
Proof using.
  unfold task_dead. destruct (tasks (av a) !! task_slot L i) as [t|]; [|done].
  intros Hd%bool_decide_eq_true. by exists t.
Qed.

(** What creating a task does: the first dead slot is filled and made ready. *)
Lemma create_runs a prio func args :
  layout_ok L -> kinv a ->
  (forall k, (k < N_TASKS)%nat -> exists t, tasks (av a) !! task_slot L k = Some t) ->
  let o := first_slot (task_dead L a) N_TASKS 0 in
  runs a (task_create L tw prio func args) (slot_ptr (task_slot L) o)
    match o with
    | Some i => aready (task_slot L i) (acreate L tw o prio func args a)
    | None => a
    end.
Proof using.
  intros HL Ha Hs o.
  pose proof (runs_create_task L tw a prio func args HL Hs) as Hr.
  assert (forall i, task_dead L a i = true -> idle (task_slot L i) a) as Hidle.
  { intros i (t & Ht & Hd)%dead_task. split; [|rewrite (ki_stale _ Ha); set_solver].
    intros r. by eapply dead_unqueued. }
  specialize (Hr Hidle). cbv zeta in Hr. fold o in Hr. unfold task_create.
  eapply runs_bind; [exact Hr|]. cbn beta. destruct o as [i|] eqn:Ei; cbn [slot_ptr].
  - apply first_slot_Some in Ei as (_ & Hd & _). destruct (dead_task a i Hd) as (t & Ht & Hdt).
    rewrite (proj2 (Z.eqb_neq _ _) (task_slot_nonnull L HL i)). cbn [negb whenb].
    eapply runs_bind; [|apply runs_ret].
    eapply runs_put_task; [cbn; by rewrite lookup_alter_eq, Ht|by apply task_slot_nonnull| |].
    + cbn. unfold runnable. by intros [?|[?|?]].
    + intros r _. exact (dead_unqueued L a i t Ha Ht Hdt r).
  - cbn. apply runs_ret.
Qed.

Lemma create_safe a prio func args :
  layout_ok L -> kinv a -> kcur a ->
  (forall k, (k < N_TASKS)%nat -> exists t, tasks (av a) !! task_slot L k = Some t) ->
  safe (aflat a) no_sem a (_v ← task_create L tw prio func args; mret tt).
Proof using.
  intros HL Ha Hc Hs. pose proof (create_runs a prio func args HL Ha Hs) as Hr. cbv zeta in Hr.
  destruct (first_slot (task_dead L a) N_TASKS 0) as [i|] eqn:Ei;
    [|by exists a; split_and!; [eapply runs_discard|..|apply stepped_id]].
  apply first_slot_Some in Ei as (_ & Hd & _). destruct (dead_task a i Hd) as (t & Ht & Hdt).
  eexists. split; [by eapply runs_discard|]. destruct (create_ok L tw a i prio func args t) as [? ?]; [done..|].
  split_and!; [done..|same].
Qed.

(** A concrete state is well formed when it represents a well-formed
    abstract one. *)
Definition kernel_ok (s : kstate) : Prop := exists a, Abs s a /\ kinv a /\ kcur a.

(** The event may happen in [s]. *)
Definition may (e : event) (s : kstate) : Prop := forall a, Abs s a -> kinv a -> enabled e a.

(** A task that asks for a mutex owns none. *)
Definition one_lock (e : event) (a : aview) : Prop :=
  match e with
  | ELock _ => own_of a (current_task (av a)) = NULL
  | _ => True
  end.

(** The semaphores whose first waiter an event may take away. *)
Definition serves (e : event) (p : ptr) : Prop :=
  match e with
  | EPost q | EClose q => q = p
  | _ => False
  end.

Lemma safe_weaken (F F' : Prop) (P P' : ptr -> Prop) a m :
  (F' -> F) -> (forall p, P p -> P' p) -> safe F P a m -> safe F' P' a m.
Proof using.
  intros HF HP (a' & ? & ? & ? & Hf & Hh). exists a'. split_and!; [done..|]. split; [auto|].
  intros p Hp. apply Hh. auto.
Qed.

Lemma event_safe s a e :
  layout_ok L -> Abs s a -> kinv a -> kcur a -> enabled e a ->
  safe (aflat a /\ one_lock e a) (serves e) a (exec e).
Proof using.
  intros HL Hs Ha Hc He. pose proof (Abs_base _ _ Hs) as Hk.
  assert (forall P m, (forall p, P p -> serves e p) -> safe (aflat a) P a m ->
    safe (aflat a /\ one_lock e a) (serves e) a m) as Hw.
  { intros P m HP. apply safe_weaken; [by intros [? _]|done]. }
  destruct e; cbn in *.
  - destruct (pend_sv_ok s a psp Hs Ha Hc He) as (t & _ & Hr & ? & ?).
    apply (Hw no_sem); [done|]. exists (apend psp a).
    split_and!; [by eapply runs_discard|done..|apply pend_stepped].
  - by eapply (Hw no_sem), tick_safe.
  - by eapply (Hw (eq p)), post_safe.
  - by apply (Hw no_sem), sleep_safe.
  - destruct He. by apply (Hw no_sem), wait_safe.
  - by eapply (Hw (eq p)), close_safe.
  - destruct He as [[v Hv] Hq]. apply (Hw no_sem); [done|].
    eexists. split_and!; [by eapply runs_sem_init| | |].
    + by eapply sem_init_kinv.
    + by apply (kcur_same a).
    + same.
  - destruct He. by eapply safe_weaken; [..|by apply lock_safe].
  - destruct He as (? & ? & ?). by eapply (Hw no_sem), unlock_safe.
  - destruct He as [[Hm [v Hv]] (v' & Hv' & Ho)%owner_at_Some]. simplify_eq. apply (Hw no_sem); [done|].
    eexists. split_and!; [eapply runs_mutex_init; [done|by eapply (wf_free _ (ki_wf _ Ha))]| | |].
    + by eapply mutex_init_kinv.
    + by apply (kcur_same a).
    + apply stepped_same; [|done|intros; by apply head_stays_same]. intros y. unfold owner_at. cbn.
      rewrite lookup_alter. case_decide; [|done]. subst y. rewrite Hv. cbn. by rewrite Ho.
  - by apply (Hw no_sem), create_safe.
  - destruct He as [(t & Ht & Hst) ?]. by eapply (Hw no_sem), exit_safe.
Qed.

(** Every enabled event ends without a fault and within its fuel, in a
    well-formed state. *)
Lemma exec_ok s e :
  layout_ok L -> kernel_ok s -> may e s -> exists s', exec e s = Ok (tt, s') /\ kernel_ok s'.
Proof using.
  intros HL (a & Hs & Ha & Hc) He.
  destruct (event_safe s a e HL Hs Ha Hc (He a Hs Ha)) as (a' & Hr & Ha' & Hc' & _).
  destruct (Hr s Hs) as (s' & ? & ?). exists s'. split; [done|]. by exists a'.
Qed.
End events.
