(* ===== verification/Spec.v ===== *)
(** * What each kernel operation promises

    The list-level specifications of the blocking operations, as functions
    from an abstract state to a result and the next abstract state, and a
    class that says that a code fragment implements such a function from every
    well-formed state.  The instances are the refinement theorems of
    [Semaphore.v], [Mutex.v] and [Sleep.v]. *)
From S2P Require Import Prelude KState Queue Abs Scheduler Sleep Semaphore Invariant Mutex Pool.
From S2P Require Import Tcb Preserve Inherit Kernel.

(** From every well-formed state in which [pre] holds, [m] ends, returns what
    [f] returns and leaves a state that [f] describes. *)
Class Implements {A} (m : K A) (pre : aview -> Prop) (f : aview -> A * aview) : Prop :=
  implements : forall s a, Abs s a -> kinv a -> kcur a -> pre a ->
    exists s', m s = Ok ((f a).1, s') /\ Abs s' (f a).2.

Lemma implements_runs {A} (m : K A) pre f :
  (forall s a, Abs s a -> kinv a -> kcur a -> pre a -> runs a m (f a).1 (f a).2) ->
  Implements m pre f.
Proof. intros H s a Hs Ha Hc Hp. exact (H s a Hs Ha Hc Hp s Hs). Qed.

(** ** Semaphores *)

Definition wait_spec (p : ptr) (a : aview) : sem_result * aview :=
  match sems (av a) !! p with
  | Some v =>
      if decide (s_state v = SEM_OPEN) then
        if decide (s_count v = 0) then (SEM_OK_YIELD, asem_block p a) else (SEM_OK, asem_take p a)
      else (SEM_CLOSE, a)
  | None => (SEM_CLOSE, a)
  end.

Definition post_spec (p : ptr) (a : aview) : sem_result * aview :=
  match sems (av a) !! p with
  | Some v =>
      if decide (s_state v = SEM_OPEN) then
        match aq a (QSem p) with
        | [] => (SEM_OK_YIELD, asem_bump p a)
        | x :: l => (SEM_OK_YIELD, asem_grant p x l a)
        end
      else (SEM_CLOSE, a)
  | None => (SEM_CLOSE, a)
  end.

Lemma running_nonnull a : kbase a -> running a -> current_task (av a) <> NULL.
Proof. intros Hk (t & Ht & _) E. rewrite E, (kb_null _ Hk) in Ht. done. Qed.

#[export] Instance wait_implements p :
  Implements (semaphore_wait p) (fun a => running a /\ known_sem a p) (wait_spec p).
Proof.
  apply implements_runs. intros s a Hs Ha Hc [(t & Ht & Hst) [v Hv]]. unfold wait_spec. rewrite Hv.
  pose proof (sem_word _ (ki_sem _ Ha) _ _ Hv). pose proof (Abs_base _ _ Hs) as Hk.
  assert (forall r, current_task (av a) ∉ aq a r) as Hq
    by (intros r; by eapply running_unqueued; [..|apply Ha]).
  repeat case_decide; cbn [fst snd].
  - eapply runs_sem_wait_block; try done; [lia|apply running_nonnull; [done|by exists t]|].
    split; [exact Hq|rewrite (ki_stale _ Ha); set_solver].
  - eapply runs_sem_wait_take; [done..|lia].
  - by eapply runs_sem_wait_closed.
Qed.

#[export] Instance post_implements p :
  Implements (semaphore_post p) (fun a => known_sem a p) (post_spec p).
Proof.
  apply implements_runs. intros s a Hs Ha Hc [v Hv]. unfold post_spec. rewrite Hv.
  case_decide; cbn [fst snd]; [|by eapply runs_sem_post_closed].
  destruct (aq a (QSem p)) as [|x l] eqn:El; [by eapply runs_sem_post_bump|].
  destruct (Abs_head _ _ _ _ _ Hs El) as [t Hh]. eapply runs_sem_post_grant; try done.
  assert (x ∈ aq a (QSem p)) as Hx by (rewrite El; by left).
  apply (wf_place _ (ki_wf _ Ha) _ _ _ (head_task _ _ _ _ _ Hh)) in Hx.
  unfold place in Hx. destruct (t_state t), (t_waiting_on_type t); congruence.
Qed.

#[export] Instance close_implements p :
  Implements (semaphore_close p) (fun a => known_sem a p) (fun a => (tt, asem_close p a)).
Proof.
  apply implements_runs. intros s a Hs Ha Hc [v Hv]. pose proof (Abs_base _ _ Hs) as Hk.
  eapply runs_sem_close; [done|]. apply Forall_forall. intros x Hx.
  destruct (kb_known _ Hk _ _ Hx) as [Hn [t Ht]]. split; [done|]. exists t. split; [done|].
  apply (wf_place _ (ki_wf _ Ha) _ _ _ Ht) in Hx. unfold place in Hx.
  by destruct (t_state t), (t_waiting_on_type t).
Qed.

(** ** Mutexes *)

Definition lock_spec (m : ptr) (a : aview) : sem_result * aview :=
  match owner_at a m with
  | Some o =>
      if decide (o = NULL) then (SEM_OK, alock_free m a)
      else if decide (o = current_task (av a)) then (MUTEX_DEADLOCK, a)
      else (SEM_OK_YIELD, alock_block m o a)
  | None => (MUTEX_DEADLOCK, a)
  end.

#[export] Instance lock_implements m :
  Implements (mutex_lock m) (fun a => running a /\ known_mutex a m) (lock_spec m).
Proof.
  apply implements_runs. intros s a Hs Ha Hc [(t & Ht & Hst) [Hm [v Hv]]].
  pose proof (Abs_base _ _ Hs) as Hk. unfold lock_spec, owner_at. rewrite Hv. cbn [fmap option_fmap option_map].
  repeat case_decide; cbn [fst snd].
  - by eapply runs_lock_free.
  - by eapply runs_lock_deadlock.
  - eapply runs_lock_block; try done.
    + by eapply enqueue_kwf; eauto; apply Ha.
    + apply Ha.
    + apply running_nonnull; [done|by exists t].
    + intros r. by eapply running_unqueued; [..|apply Ha].
Qed.

(** ** Sleeping and the tick *)

Definition sleep_spec (n : Z) (a : aview) : unit * aview :=
  if decide (n = 0) then (tt, a) else (tt, asleep n a).

#[export] Instance sleep_implements n :
  Implements (sleep_for_ticks n) running (sleep_spec n).
Proof.
  apply implements_runs. intros s a Hs Ha Hc (t & Ht & Hst). pose proof (Abs_base _ _ Hs) as Hk.
  unfold sleep_spec. case_decide as En; cbn [fst snd].
  - subst n. unfold sleep_for_ticks. run_step. apply runs_ret.
  - eapply runs_sleep_for_ticks; try done; [|intros r|apply Ha].
    + apply running_nonnull; [done|by exists t].
    + by eapply running_unqueued; [..|apply Ha].
Qed.

Definition tick_spec (a : aview) : unit * aview :=
  let a1 := amap (fun s => set_system_ticks (u32 (system_ticks s + 1)) s) a in
  (tt, arequest (awake (aq a1 QSleep) a1)).

#[export] Instance tick_implements :
  Implements systick_handler (fun a => current_task (av a) <> NULL) tick_spec.
Proof.
  apply implements_runs. intros s a Hs Ha Hc Hn. unfold systick_handler, tick_spec. cbn [fst snd].
  set (a1 := amap _ a). run_step. fold a1.
  eapply runs_bind; [apply runs_sleep_tick|]. cbn beta.
  pose proof (Abs_base _ _ Hs) as Hk. assert (kbase a1) as Hk1 by (destruct Hk; by split).
  assert (kcur (awake (aq a1 QSleep) a1)) as [_ Hc2 _].
  { apply awake_kcur; [by apply (kcur_same a)|]. by intros x [_ ?]%(kb_known _ Hk1). }
  rewrite awake_current in Hc2. destruct Hc2 as [?|[t Ht]]; [done|].
  eapply runs_request. rewrite awake_current. exact Ht.
Qed.
