(* ===== verification/Boot.v ===== *)
(** * A concrete kernel

    The state [static_memory_init] and [scheduler_init] leave, at concrete
    addresses, and the states a few events lead to.  Every state here is
    well formed; the witnesses of the library use them. *)
From S2P Require Import Prelude KState Queue Abs Scheduler Sleep Semaphore Invariant Mutex Pool.
From S2P Require Import Tcb Preserve Inherit Kernel.

Definition demo_layout : layout :=
  Layout 0x20000100 60 0x20001000 20 0x20002000 20 0x20003000 8 0x20004000.

Lemma demo_layout_ok : layout_ok demo_layout.
Proof. by split; vm_compute. Qed.

Definition blank_task : tcb :=
  MkTcb NULL TASK_UNUSED 0 0 NULL 0 NULL NULL NULL NULL 0 0 NULL NONE NULL.
Definition blank_sem : semaphore := MkSem 0 empty_list 0 SEM_UNUSED.
Definition blank_mutex : mutex := MkMutex NULL empty_list SEM_UNUSED NULL.

Definition slots {A} (slot : nat -> ptr) (n : nat) (x : A) : gmap ptr A :=
  list_to_map ((fun i => (slot i, x)) <$> seq 0 n).

(** The zeroed statics of the image. *)
Definition boot : kstate :=
  MkK (slots (task_slot demo_layout) N_TASKS blank_task)
      (slots (sem_slot demo_layout) N_SEMAPHORES blank_sem)
      (slots (mutex_slot demo_layout) N_MUTEXES blank_mutex)
      empty_list empty_list NULL NULL 0 0 0 0 ∅.

Lemma slots_Some {A} slot n (x y : A) p :
  slots slot n x !! p = Some y -> y = x /\ exists i, (i < n)%nat /\ p = slot i.
Proof.
  unfold slots. intros Hp%elem_of_list_to_map_2.
  apply list_elem_of_fmap in Hp as (i & [= -> ->] & Hi%elem_of_seq). split; [done|].
  exists i. split; [lia|done].
Qed.

Lemma slots_lookup {A} slot n (x : A) i :
  (i < n)%nat -> (forall i j, slot i = slot j -> i = j) -> slots slot n x !! slot i = Some x.
Proof.
  intros Hi Hinj. unfold slots. apply elem_of_list_to_map_1'.
  - intros y (j & E & _)%list_elem_of_fmap. congruence.
  - apply list_elem_of_fmap. exists i. split; [done|]. apply elem_of_seq. lia.
Qed.

(** The memory initialisation changes nothing in the zeroed image. *)
Example boot_init :
  (task_memory_init demo_layout;; semaphore_memory_init demo_layout;;
   mutex_memory_init demo_layout;; scheduler_init) boot = Ok (tt, boot).
Proof. vm_compute. reflexivity. Qed.

Definition boot_a : aview := AV boot (fun _ => []) ∅.

Lemma boot_task x t : tasks boot !! x = Some t -> t = blank_task /\ x <> NULL.
Proof.
  intros (-> & i & _ & ->)%slots_Some. split; [done|].
  apply task_slot_nonnull, demo_layout_ok.
Qed.

Lemma boot_abs : Abs boot boot_a.
Proof.
  assert (tasks boot !! NULL = None) as HN.
  { destruct (tasks boot !! NULL) eqn:E; [|done]. by apply boot_task in E as [_ ?]. }
  split; try done.
  - intros r q Hq. assert (q = empty_list) as ->; [|split_and!; [done..|constructor]].
    destruct r; cbn [load_list] in Hq; [by injection Hq as <-..| |].
    + destruct (sems boot !! p) as [v|] eqn:E; [|done].
      apply slots_Some in E as [-> _]. by injection Hq as <-.
    + destruct (mutexes boot !! p) as [v|] eqn:E; [|done].
      apply slots_Some in E as [-> _]. by injection Hq as <-.
  - intros r1 r2 x Hx. by apply elem_of_nil in Hx.
  - intros x t [-> _]%boot_task _. done.
Qed.

Lemma boot_kinv : kinv boot_a /\ kcur boot_a.
Proof.
  split; [|split; [|by left|]].
  - split.
    + split.
      * intros x t r [-> _]%boot_task. split; [by intros ?%elem_of_nil|done].
      * done.
      * by intros m v [-> _]%slots_Some.
    + split; intros; constructor.
    + constructor.
    + intros x t [-> Hx]%boot_task. exists []. split_and!; [done|constructor|].
      intros m. split; [by intros ?%elem_of_nil|]. by intros (v & [-> _]%slots_Some & <-).
    + split; [done|]. by intros p v [-> _]%slots_Some.
    + intros x t [-> Hx]%boot_task. split; [done| |by left].
      intros w (m & v & _ & _ & Hw). by apply elem_of_nil in Hw.
    + done.
  - by intros x t [-> _]%boot_task.
  - by intros x t [-> _]%boot_task.
Qed.

Lemma boot_ok : kernel_ok boot.
Proof. exists boot_a. split; [apply boot_abs|apply boot_kinv]. Qed.

(** ** Executable runs *)

Section checked.
Context (L : layout) (tw : ptr).
Implicit Types s : kstate.

Definition is_running s : bool :=
  match tasks s !! current_task s with
  | Some t => bool_decide (t_state t = TASK_RUNNING)
  | None => false
  end.
Definition is_sem s p : bool := bool_decide (is_Some (sems s !! p)).
Definition is_mutex s m : bool := negb (m =? NULL) && bool_decide (is_Some (mutexes s !! m)).
Definition queue_head (r : qref) s : ptr := default NULL (q_head <$> load_list r s).
Definition s_own s x : ptr := default NULL (t_owned_mutexes <$> tasks s !! x).
Definition s_next s m : ptr := default NULL (m_next_owned <$> mutexes s !! m).
Definition s_owner s m : option ptr := m_owner <$> mutexes s !! m.
Definition can_hand s m : bool :=
  let x := queue_head (QMutex m) s in
  (x =? NULL) || ((s_own s x =? NULL) && (s_next s m =? NULL)).

Lemma can_hand_true s m :
  (let x := queue_head (QMutex m) s in x = NULL \/ (s_own s x = NULL /\ s_next s m = NULL)) ->
  can_hand s m = true.
Proof. unfold can_hand. cbv zeta. intros [-> |[-> ->]]; [done|by rewrite orb_true_r]. Qed.

(** What the callers of the kernel have to respect, on the state as it is:
    - PendSV and the tick need a task to return to: the tick reads
      [current_task], so it must not come before the first dispatch;
    - handles are slots of the pools;
    - a semaphore is not initialised again while tasks wait for it, nor a mutex
      while it is owned;
    - an unlock that serves a waiter serves one that owns nothing, and the
      mutex is the last of its owner's list (the first one locked);
    - a task leaves with one mutex at most, which it may unlock in this sense.
    Everything else may come in any order.  [Nested.v] shows what happens to
    callers that break the rule about waiters. *)
Definition allowed (e : event) s : bool :=
  match e with
  | EPendSV _ => negb (current_task s =? NULL) || negb (queue_head QReady s =? NULL)
  | ETick => negb (current_task s =? NULL)
  | EPost p => is_sem s p
  | ESleep _ => is_running s
  | EWait p => is_running s && is_sem s p
  | EClose p => is_sem s p
  | ESemInit p _ => is_sem s p && (queue_head (QSem p) s =? NULL)
  | ELock m => is_running s && is_mutex s m
  | EUnlock m => is_running s && is_mutex s m &&
      (negb (bool_decide (s_owner s m = Some (current_task s))) || can_hand s m)
  | EMutexInit m => is_mutex s m && bool_decide (s_owner s m = Some NULL)
  | ECreate _ _ _ =>
      forallb (fun k => bool_decide (is_Some (tasks s !! task_slot L k))) (seq 0 N_TASKS)
  | EExit => is_running s &&
      (let m := s_own s (current_task s) in
       (m =? NULL) || ((s_next s m =? NULL) && can_hand s m))
  end.

Section sound.
Context (s : kstate) (a : aview) (Hs : Abs s a).

Lemma view_current : current_task (av a) = current_task s.
Proof using Hs. by rewrite <- (abs_strip _ _ Hs). Qed.
Lemma view_task x : tasks (av a) !! x = strip <$> tasks s !! x.
Proof using Hs. rewrite <- (abs_strip _ _ Hs). cbn. by rewrite lookup_fmap. Qed.
Lemma view_sem p : sems (av a) !! p = strip_sem <$> sems s !! p.
Proof using Hs. rewrite <- (abs_strip _ _ Hs). cbn. by rewrite lookup_fmap. Qed.
Lemma view_mutex m : mutexes (av a) !! m = strip_mutex <$> mutexes s !! m.
Proof using Hs. rewrite <- (abs_strip _ _ Hs). cbn. by rewrite lookup_fmap. Qed.
Lemma view_own x : own_of a x = s_own s x.
Proof using Hs. unfold own_of, s_own. rewrite view_task. by destruct (tasks s !! x). Qed.
Lemma view_next m : next_of a m = s_next s m.
Proof using Hs. unfold next_of, s_next. rewrite view_mutex. by destruct (mutexes s !! m). Qed.
Lemma view_owner m : owner_at a m = s_owner s m.
Proof using Hs. unfold owner_at, s_owner. rewrite view_mutex. by destruct (mutexes s !! m). Qed.

Lemma view_head r : List.hd NULL (aq a r) = queue_head r s.
Proof using Hs.
  unfold queue_head. destruct (load_list r s) as [q|] eqn:E; cbn.
  - destruct (abs_queue _ _ Hs _ _ E) as (Hl & _). destruct (aq a r); [done|by destruct Hl].
  - by rewrite (abs_none _ _ Hs _ E).
Qed.

Lemma view_empty r : queue_head r s = NULL <-> aq a r = [].
Proof using Hs.
  rewrite <- view_head. destruct (aq a r) as [|x l] eqn:E; [done|]. cbn. split; [|done].
  intros ->. destruct (Abs_queued _ _ r NULL Hs) as [? _]; [rewrite E; by left|done].
Qed.

Lemma view_running : is_running s = true -> running a.
Proof using Hs.
  unfold is_running, running. rewrite view_current, view_task.
  destruct (tasks s !! current_task s) as [t|]; [|done]. intros Ht%bool_decide_eq_true.
  cbn. eauto.
Qed.
Lemma view_known_sem p : is_sem s p = true -> known_sem a p.
Proof using Hs.
  unfold is_sem, known_sem. intros [v Hv]%bool_decide_eq_true. rewrite view_sem, Hv. cbn. eauto.
Qed.
Lemma view_known_mutex m : is_mutex s m = true -> known_mutex a m.
Proof using Hs.
  unfold is_mutex, known_mutex. intros [Hm [v Hv]%bool_decide_eq_true]%andb_true_iff.
  apply negb_true_iff, Z.eqb_neq in Hm. rewrite view_mutex, Hv. cbn. eauto.
Qed.

Lemma view_can_hand m : can_hand s m = true -> handoff_ok a m.
Proof using Hs.
  unfold can_hand, handoff_ok. rewrite <- view_head.
  destruct (aq a (QMutex m)) as [|x l] eqn:E; cbn [List.hd]; [done|].
  destruct (Abs_queued _ _ (QMutex m) x Hs) as [Hx _]; [rewrite E; by left|].
  rewrite (proj2 (Z.eqb_neq _ _) Hx). cbn [orb]. rewrite andb_true_iff, !Z.eqb_eq.
  by rewrite view_own, view_next.
Qed.
End sound.

Lemma allowed_may e s : allowed e s = true -> may L e s.
Proof.
  intros He a Hs Ha. destruct e; cbn -[forallb seq] in *.
  - rewrite (view_current _ _ Hs). apply orb_true_iff in He.
    rewrite !negb_true_iff, !Z.eqb_neq in He.
    destruct He as [?|He]; [by left|right]. intros E. apply He. by apply (view_empty _ _ Hs QReady).
  - rewrite (view_current _ _ Hs). by apply negb_true_iff, Z.eqb_neq in He.
  - by eapply view_known_sem.
  - by eapply view_running.
  - apply andb_true_iff in He as [??]. split; [by eapply view_running|by eapply view_known_sem].
  - by eapply view_known_sem.
  - apply andb_true_iff in He as [? He%Z.eqb_eq].
    split; [by eapply view_known_sem|by apply (view_empty _ _ Hs)].
  - apply andb_true_iff in He as [??]. split; [by eapply view_running|by eapply view_known_mutex].
  - apply andb_true_iff in He as [[??]%andb_true_iff He].
    split_and!; [by eapply view_running|by eapply view_known_mutex|].
    rewrite (view_owner _ _ Hs), (view_current _ _ Hs). intros Eo.
    rewrite bool_decide_true in He by done. by apply (view_can_hand _ _ Hs).
  - apply andb_true_iff in He as [? He%bool_decide_eq_true].
    split; [by eapply view_known_mutex|by rewrite (view_owner _ _ Hs)].
  - intros k Hk. rewrite forallb_forall in He. specialize (He k).
    destruct (bool_decide_eq_true (is_Some (tasks s !! task_slot L k))) as [H1 _].
    destruct H1 as [t Ht]; [apply He; apply in_seq; lia|].
    rewrite (view_task _ _ Hs), Ht. cbn. eauto.
  - apply andb_true_iff in He as [? He]. split; [by eapply view_running|].
    unfold exit_ok. rewrite (view_current _ _ Hs), (view_own _ _ Hs), (view_next _ _ Hs).
    apply orb_true_iff in He as [He%Z.eqb_eq|[He%Z.eqb_eq ?]%andb_true_iff]; [by left|right].
    split; [done|by apply (view_can_hand _ _ Hs)].
Qed.

(** Runs a list of events, each of which must be enabled. *)
Fixpoint run_events (es : list event) s : option kstate :=
  match es with
  | [] => Some s
  | e :: es =>
      if allowed e s then
        match exec L tw e s with
        | Ok (_, s') => run_events es s'
        | Trap _ => None
        end
      else None
  end.

(** The states that runs of allowed events lead to. *)
Inductive reaches s0 : kstate -> Prop :=
| reaches_start : reaches s0 s0
| reaches_event e s s' :
    reaches s0 s -> allowed e s = true -> exec L tw e s = Ok (tt, s') -> reaches s0 s'.

Lemma reaches_ok s0 s : layout_ok L -> kernel_ok s0 -> reaches s0 s -> kernel_ok s.
Proof.
  intros HL H0. induction 1 as [|e s s' _ IH He E]; [done|].
  destruct (exec_ok L tw s e HL IH (allowed_may _ _ He)) as (s'' & E' & ?). congruence.
Qed.

(** An event leaves the first waiter of a semaphore where it is, unless it posts
    or closes that semaphore. *)
Lemma exec_keeps_head s e s' d x :
  layout_ok L -> kernel_ok s -> allowed e s = true -> exec L tw e s = Ok (tt, s') ->
  ~ serves e d -> queue_head (QSem d) s = x -> x <> NULL -> queue_head (QSem d) s' = x.
Proof.
  intros HL (a & Hs & Ha & Hc) He E Hd Hh Hx.
  destruct (event_safe L tw s a e HL Hs Ha Hc (allowed_may _ _ He a Hs Ha))
    as (a' & Hr & _ & _ & [_ Hst]).
  destruct (Hr s Hs) as (s1 & E1 & Hs'). rewrite E in E1. injection E1 as <-.
  rewrite <- (view_head _ _ Hs) in Hh. rewrite <- (view_head _ _ Hs').
  destruct (aq a (QSem d)) as [|y l] eqn:El; [by subst x|]. cbn in Hh. subst y.
  by destruct (Hst d Hd x l El) as [l' ->].
Qed.

Lemma run_events_reaches es s0 s s' :
  reaches s0 s -> run_events es s = Some s' -> reaches s0 s'.
Proof.
  revert s. induction es as [|e es IH]; intros s Hr; cbn; [by intros [= <-]|].
  destruct (allowed e s) eqn:He; [|done]. destruct (exec L tw e s) as [[[] s1]|] eqn:E; [|done].
  apply IH. eapply reaches_event; [exact Hr|exact He|exact E].
Qed.
End checked.

(** The image reaches a well-formed state by every checked run. *)
Lemma demo_run es s :
  run_events demo_layout 0x08000400 es boot = Some s -> kernel_ok s.
Proof.
  intros H. eapply (reaches_ok demo_layout 0x08000400 boot); [apply demo_layout_ok|apply boot_ok|].
  eapply run_events_reaches; [apply reaches_start|exact H].
Qed.

Definition demo_wrapper : ptr := 0x08000400.
(** The state a checked run leads to. *)
Definition after (es : list event) : kstate :=
  default boot (run_events demo_layout demo_wrapper es boot).

Lemma after_reaches es :
  bool_decide (is_Some (run_events demo_layout demo_wrapper es boot)) = true ->
  reaches demo_layout demo_wrapper boot (after es).
Proof.
  intros [s Hs]%bool_decide_eq_true. unfold after. rewrite Hs. cbn.
  eapply run_events_reaches; [apply reaches_start|exact Hs].
Qed.

Lemma after_ok es :
  bool_decide (is_Some (run_events demo_layout demo_wrapper es boot)) = true ->
  kernel_ok (after es).
Proof.
  intros H. eapply reaches_ok; [apply demo_layout_ok|apply boot_ok|by apply after_reaches].
Qed.

Abbreviation demo_task i := (task_slot demo_layout i).
Abbreviation demo_sem i := (sem_slot demo_layout i).
Abbreviation demo_mutex i := (mutex_slot demo_layout i).

(** Three tasks in a chain: slot 3 waits for a mutex of slot 2, which waits for
    one of slot 1. *)
Definition demo_chain : list event :=
  [ ECreate 255 0 0; ECreate 9 0 0; EPendSV 1; ELock (demo_mutex 0);
    ECreate 5 0 0; EPendSV 2; ELock (demo_mutex 1); ELock (demo_mutex 0); EPendSV 3;
    ECreate 1 0 0; EPendSV 4; ELock (demo_mutex 1) ].

(** The tcb of a slot. *)
Definition tcb_at (s : kstate) (i : nat) : tcb := default blank_task (tasks s !! demo_task i).

(** A check of all the tcbs of a state. *)
Definition check_tasks (P : tcb -> bool) (s : kstate) : bool :=
  forallb (fun xt => P xt.2) (map_to_list (tasks s)).
Lemma check_tasks_ok P s x t :
  check_tasks P s = true -> tasks s !! x = Some t -> P t = true.
Proof.
  unfold check_tasks. rewrite forallb_forall. intros H Ht. apply (H (x, t)).
  by apply list_elem_of_In, elem_of_map_to_list.
Qed.
