(* ===== verification/OneLock.v ===== *)
(** * Callers that hold one mutex at a time

    The conditions of [allowed] about waiters speak of the lists of owned
    mutexes.  They hold by themselves when no task asks for a mutex while it
    owns one, the way the SPI driver uses its lock: every wait queue then holds
    tasks without mutexes, and a mutex is alone in its owner's list. *)
From S2P Require Import Prelude KState Queue Abs Scheduler Sleep Semaphore Invariant Mutex Pool.
From S2P Require Import Tcb Preserve Inherit Kernel Boot.

(** No task owns two mutexes, and none waits for a mutex while it owns one. *)
Definition flat (s : kstate) : Prop :=
  (forall x m1 m2, x <> NULL -> s_owner s m1 = Some x -> s_owner s m2 = Some x -> m1 = m2) /\
  (forall x t m m', tasks s !! x = Some t -> place t = Some (QMutex m) -> s_owner s m' <> Some x).

Lemma view_flat s a : Abs s a -> kwf a -> flat s <-> aflat a.
Proof.
  intros Hs Hw. split; intros [H1 H2]; split.
  - intros x m1 m2. rewrite !(view_owner _ _ Hs). apply H1.
  - intros x m m' Hx. rewrite (view_owner _ _ Hs).
    destruct (Abs_queued _ _ _ _ Hs Hx) as [_ [t Ht]].
    apply (wf_place _ Hw _ _ _ Ht) in Hx. destruct (Abs_task _ _ _ _ Hs Ht) as (t' & Ht' & <-).
    by apply (H2 x t' m).
  - intros x m1 m2. rewrite <- !(view_owner _ _ Hs). apply H1.
  - intros x t m m' Ht Hp. rewrite <- (view_owner _ _ Hs). apply (H2 x m).
    apply (wf_place _ Hw x (strip t)); [by rewrite (view_task _ _ Hs), Ht|exact Hp].
Qed.

Section one_lock.
Context (L : layout) (tw : ptr).
Implicit Types s : kstate.

(** [allowed] without its conditions about waiters, for callers that ask for a
    mutex only when they own none. *)
Definition one_lock_allowed (e : event) s : bool :=
  match e with
  | ELock m => is_running s && is_mutex s m && (s_own s (current_task s) =? NULL)
  | EUnlock m => is_running s && is_mutex s m
  | EExit => is_running s
  | _ => allowed L e s
  end.

Section view.
Context (s : kstate) (a : aview) (Hs : Abs s a) (Ha : kinv a) (Hf : aflat a).

(** The list of a task that owns [m] is [m] alone. *)
Lemma flat_list x m : x <> NULL -> owner_at a m = Some x -> s_own s x = m /\ s_next s m = NULL.
Proof using Ha Hf Hs.
  intros Hx Ho. pose proof Ho as (v & Hv & Hvo)%owner_at_Some.
  destruct (wf_owner _ (ki_wf _ Ha) m v Hv) as [t Ht]; [by rewrite Hvo|]. rewrite Hvo in Ht.
  destruct (ki_owned _ Ha _ _ Ht) as [l Hl]. pose proof Hl as (Hseg & Hnd & _).
  pose proof (proj2 (proj2 (proj1 (owned_list_owner _ _ _ _) Hl))) as El.
  pose proof (proj2 (El m) Ho) as Hm. destruct l as [|y l]; [by apply elem_of_nil in Hm|].
  assert (forall z, z ∈ y :: l -> z = m) as Hz
    by (intros z Hz%El; by apply (fl_one _ Hf x)).
  pose proof (Hz y ltac:(by left)) as ->. destruct l as [|z l].
  - destruct Hseg as (E & _ & v' & Hv' & En). cbn in En.
    rewrite <- (view_own _ _ Hs), <- (view_next _ _ Hs). unfold own_of, next_of.
    rewrite Ht, Hv'. cbn. by rewrite E, En.
  - apply NoDup_cons in Hnd as [Hnd _]. rewrite (Hz z) in Hnd by (right; by left).
    destruct Hnd. by left.
Qed.

(** A task that waits for a mutex has an empty list. *)
Lemma flat_waiter x m : x ∈ aq a (QMutex m) -> s_own s x = NULL.
Proof using Ha Hf Hs.
  intros Hx. destruct (Abs_queued _ _ _ _ Hs Hx) as [_ [t Ht]].
  destruct (ki_owned _ Ha _ _ Ht) as [l Hl]. pose proof (proj1 Hl) as Hseg.
  rewrite <- (view_own _ _ Hs). unfold own_of. rewrite Ht. cbn.
  destruct l as [|y l]; [exact Hseg|].
  assert (owner_at a y = Some x) as Ho
    by (apply (proj2 (proj2 (proj1 (owned_list_owner _ _ _ _) Hl))); by left).
  by destruct (fl_wait _ Hf x m y Hx).
Qed.

Lemma flat_can_hand x m : x <> NULL -> owner_at a m = Some x -> can_hand s m = true.
Proof using Ha Hf Hs.
  intros Hx Ho. unfold can_hand. rewrite <- (view_head _ _ Hs).
  destruct (flat_list x m Hx Ho) as [_ ->].
  destruct (aq a (QMutex m)) as [|w l] eqn:Hq; [done|]. cbn [List.hd].
  rewrite (flat_waiter w m) by (rewrite Hq; by left). by rewrite orb_true_r.
Qed.

Lemma flat_allowed e : one_lock_allowed e s = true -> allowed L e s = true.
Proof using Ha Hf Hs.
  assert (is_running s = true -> current_task s <> NULL) as Hn.
  { intros Hr E. destruct (view_running _ _ Hs Hr) as (t & Ht & _).
    by rewrite (view_current _ _ Hs), E, (Abs_null_view _ _ Hs) in Ht. }
  destruct e; cbn -[forallb seq]; try done.
  - by intros [? _]%andb_true_iff.
  - intros Hr. rewrite Hr. cbn [andb]. apply andb_true_iff in Hr as [Hr _].
    case_bool_decide as Ho; [|done]. cbn [negb orb].
    apply (flat_can_hand (current_task s)); [by apply Hn|by rewrite (view_owner _ _ Hs)].
  - intros Hr. rewrite Hr. cbn [andb].
    destruct (Z.eqb_spec (s_own s (current_task s)) NULL) as [|Hm]; [done|]. cbn [orb].
    destruct (view_running _ _ Hs Hr) as (t & Ht & _).
    destruct (ki_owned _ Ha _ _ Ht) as [l Hl]. pose proof (proj1 Hl) as Hseg.
    rewrite (view_current _ _ Hs) in *. rewrite <- (view_own _ _ Hs) in Hm |- *.
    unfold own_of in *. rewrite Ht in *. cbn in *.
    destruct l as [|m l]; [done|]. destruct Hseg as (Em & _). rewrite Em.
    assert (owner_at a m = Some (current_task s)) as Ho
      by (apply (proj2 (proj2 (proj1 (owned_list_owner _ _ _ _) Hl))); by left).
    rewrite (proj2 (flat_list _ _ (Hn Hr) Ho)). by eapply flat_can_hand; [by apply Hn|].
Qed.

Lemma flat_one_lock e : one_lock_allowed e s = true -> one_lock e a.
Proof using Hs.
  destruct e; cbn; try done. intros [_ H%Z.eqb_eq]%andb_true_iff.
  by rewrite (view_own _ _ Hs), (view_current _ _ Hs).
Qed.
End view.

(** Such an event ends, and the state stays flat. *)
Lemma one_lock_step s e :
  layout_ok L -> kernel_ok s -> flat s -> one_lock_allowed e s = true ->
  allowed L e s = true /\ exists s', exec L tw e s = Ok (tt, s') /\ kernel_ok s' /\ flat s'.
Proof.
  intros HL (a & Hs & Ha & Hc) Hf He. apply (view_flat _ _ Hs (ki_wf _ Ha)) in Hf.
  pose proof (flat_allowed _ _ Hs Ha Hf e He) as Hal. split; [done|].
  destruct (event_safe L tw s a e HL Hs Ha Hc (allowed_may L _ _ Hal a Hs Ha))
    as (a' & Hr & Ha' & Hc' & Hf').
  destruct (Hr s Hs) as (s' & E & Hs'). exists s'. split; [exact E|]. split; [by exists a'|].
  apply (view_flat _ _ Hs' (ki_wf _ Ha')), Hf'. split; [done|]. by eapply flat_one_lock.
Qed.

(** The states such callers reach. *)
Inductive one_lock_reaches s0 : kstate -> Prop :=
| one_lock_start : one_lock_reaches s0 s0
| one_lock_event e s s' :
    one_lock_reaches s0 s -> one_lock_allowed e s = true -> exec L tw e s = Ok (tt, s') ->
    one_lock_reaches s0 s'.

Lemma one_lock_ok s0 s :
  layout_ok L -> kernel_ok s0 -> flat s0 -> one_lock_reaches s0 s ->
  kernel_ok s /\ flat s /\ reaches L tw s0 s.
Proof.
  intros HL H0 Hf. induction 1 as [|e s s' _ (Hk & Hfs & Hr) He E]; [by split_and!; [..|left]|].
  destruct (one_lock_step s e HL Hk Hfs He) as (Ha & s1 & E1 & Hk1 & Hf1).
  rewrite E in E1. injection E1 as <-. split_and!; [done..|]. by eapply reaches_event.
Qed.
End one_lock.

(** Where nothing is owned yet. *)
Lemma unowned_flat s :
  kernel_ok s -> (forall m o, s_owner s m = Some o -> o = NULL) -> flat s.
Proof.
  intros (a & Hs & _) H. split; [by intros x m1 m2 Hx ?%H|].
  intros x t m m' Ht Hp ->%H. pose proof (view_task _ _ Hs NULL) as E.
  by rewrite Ht, (Abs_null_view _ _ Hs) in E.
Qed.

(** A checked run of such callers. *)
Fixpoint one_lock_run (es : list event) (s : kstate) : bool :=
  match es with
  | [] => true
  | e :: es =>
      one_lock_allowed demo_layout e s &&
      match exec demo_layout demo_wrapper e s with
      | Ok (_, s') => one_lock_run es s'
      | Trap _ => false
      end
  end.

Lemma one_lock_run_reaches es s0 s :
  one_lock_reaches demo_layout demo_wrapper s0 s -> one_lock_run es s = true ->
  forall s', run_events demo_layout demo_wrapper es s = Some s' ->
  one_lock_reaches demo_layout demo_wrapper s0 s'.
Proof.
  revert s. induction es as [|e es IH]; intros s Hr; cbn; [by intros _ s' [= <-]|].
  intros [He Hes]%andb_true_iff s'. destruct (allowed demo_layout e s); [|done].
  destruct (exec demo_layout demo_wrapper e s) as [[[] s1]|] eqn:E; [|done].
  apply IH; [|done]. by eapply one_lock_event.
Qed.

Lemma after_one_lock es :
  one_lock_run es boot && bool_decide (is_Some (run_events demo_layout demo_wrapper es boot)) = true ->
  one_lock_reaches demo_layout demo_wrapper boot (after es).
Proof.
  intros [He [s Hs]%bool_decide_eq_true]%andb_true_iff. unfold after. rewrite Hs. cbn.
  by eapply one_lock_run_reaches; [left|..].
Qed.
