(* ===== verification/Guarantees.v ===== *)
(** * What the kernel guarantees

    The theorems about whole runs: no task is lost, the dispatched task has the
    highest priority, priorities are inherited exactly.  They are stated on
    concrete states. *)
From S2P Require Import Prelude KState Queue Abs Scheduler Sleep Semaphore Invariant Mutex Pool.
From S2P Require Import Tcb Preserve Inherit Kernel Boot.

(** ** Reading the invariant on a concrete state *)

(** [l] is what the queue [r] of [s] links. *)
Definition holds (s : kstate) (r : qref) (l : list ptr) : Prop :=
  match load_list r s with
  | Some q => queue_rep (tasks s) q l
  | None => l = []
  end.

(** [w] is blocked on a mutex that [x] owns. *)
Definition blocked_by (s : kstate) (w x : ptr) : Prop :=
  exists t v, tasks s !! w = Some t /\ t_state t = TASK_BLOCKED /\ t_waiting_on_type t = MUTEX /\
    mutexes s !! t_waiting_on t = Some v /\ m_owner v = x.

Definition eff (s : kstate) (x : ptr) : Z := key_of t_effective_priority (tasks s) x.

Lemma Abs_holds s a r : Abs s a -> holds s r (aq a r).
Proof.
  intros Hs. unfold holds. destruct (load_list r s) as [q|] eqn:E.
  - by apply (abs_queue _ _ Hs).
  - by apply (abs_none _ _ Hs).
Qed.

Lemma place_strip t : place (strip t) = place t.
Proof. done. Qed.

Lemma view_task_some s a x t :
  Abs s a -> tasks s !! x = Some t -> tasks (av a) !! x = Some (strip t).
Proof. intros Hs Ht. by rewrite (view_task _ _ Hs), Ht. Qed.

Lemma view_eff s a x : Abs s a -> prio a x = eff s x.
Proof.
  intros Hs. unfold prio, eff, key_of. rewrite (view_task _ _ Hs). by destruct (tasks s !! x).
Qed.

Lemma place_mutex t m :
  place t = Some (QMutex m) <->
  t_state t = TASK_BLOCKED /\ t_waiting_on_type t = MUTEX /\ t_waiting_on t = m.
Proof. unfold place. destruct (t_state t), (t_waiting_on_type t); naive_solver. Qed.

Lemma blocked_by_waits s a w x :
  Abs s a -> kwf a -> blocked_by s w x <-> waits_for a w x.
Proof.
  intros Hs Ha. unfold blocked_by, waits_for. split.
  - intros (t & v & Ht & Hst & Hty & Hv & Hx). exists (t_waiting_on t), (strip_mutex v).
    rewrite (view_mutex _ _ Hs), Hv. split_and!; [done..|].
    apply (wf_place _ Ha _ _ _ (view_task_some _ _ _ _ Hs Ht)), place_mutex. done.
  - intros (m & v & Hv & Hx & Hw).
    destruct (Abs_queued _ _ _ _ Hs Hw) as [_ [t Ht]].
    destruct (Abs_task _ _ _ _ Hs Ht) as (t' & Ht' & <-).
    pose proof (proj1 (wf_place _ Ha _ _ _ Ht) Hw) as Hp.
    apply place_mutex in Hp as (Hst & Hty & Hm).
    destruct (Abs_mutex _ _ _ _ Hs Hv) as (v' & Hv' & <-). exists t', v'.
    cbn in Hst, Hty, Hm. by rewrite Hm.
Qed.

Section guarantees.
Context (L : layout) (tw : ptr).

Lemma ok_queues s :
  kernel_ok s -> exists Q : qref -> list ptr,
    (forall r, holds s r (Q r)) /\
    (forall x t r, tasks s !! x = Some t -> x ∈ Q r <-> place t = Some r) /\
    ordered (eff s) (Q QReady) /\ (forall m, ordered (eff s) (Q (QMutex m))).
Proof using.
  intros (a & Hs & Ha & _). exists (aq a). split_and!.
  - intros r. by apply Abs_holds.
  - intros x t r Ht. rewrite (wf_place _ (ki_wf _ Ha) x (strip t)); [done|].
    by apply view_task_some with (s := s).
  - eapply ordered_ext; [|apply Ha]. intros. by apply view_eff.
  - intros m. eapply ordered_ext; [|apply Ha]. intros. by apply view_eff.
Qed.

Lemma ok_inherits s x t :
  kernel_ok s -> tasks s !! x = Some t ->
  t_effective_priority t <= t_base_priority t /\
  (forall w, blocked_by s w x -> t_effective_priority t <= eff s w) /\
  (t_effective_priority t = t_base_priority t \/
   exists w, blocked_by s w x /\ t_effective_priority t = eff s w).
Proof using.
  intros (a & Hs & Ha & _) Ht.
  destruct (ki_pi _ Ha _ _ (view_task_some _ _ _ _ Hs Ht)) as [H1 H2 H3].
  setoid_rewrite (blocked_by_waits s a _ x Hs (ki_wf _ Ha)).
  setoid_rewrite <- (view_eff s a _ Hs). done.
Qed.
End guarantees.

(** ** What PendSV dispatches *)

Section pend.
Context (s : kstate) (a : aview) (psp : ptr).
Context (Hs : Abs s a) (Ha : kinv a) (Hc : kcur a).
Context (Hne : current_task (av a) <> NULL \/ aq a QReady <> []).
Let a2 := apend_entry psp a.
Let b := arequeue a2.
Let a' := apend psp a.

Lemma pend_state :
  (aq b QReady = [] /\ current_task (av a') = current_task (av b) /\
     (forall y, tasks (av a') !! y = tasks (av b) !! y)) \/
  (exists x l t, aq b QReady = x :: l /\ current_task (av a') = x /\ aq a' QReady = l /\
     tasks (av b) !! x = Some t /\
     tasks (av a') = <[x := set_t_state TASK_RUNNING t]> (tasks (av b))).
Proof using Ha Hc Hs.
  destruct (pend_entry_ok s a psp Hs Ha Hc) as (Ha2 & Hc2 & [s2 Hs2] & Ec & Eq).
  destruct (Abs_requeue s2 a2 Hs2 (kinv_current_ok _ Ha2 Hc2)) as [s3 Hs3].
  change a' with (switched (adispatch b)). unfold adispatch.
  destruct (aq b QReady) as [|x l] eqn:El; [left; done|right].
  destruct (Abs_queued _ _ QReady x Hs3) as [Hx [t Ht]]; [fold b; rewrite El; by left|].
  exists x, l, t. split; [done|]. split; [done|]. split; [cbn; by rewrite fn_lookup_insert|].
  split; [done|]. by apply alter_lookup.
Qed.

(** Every task that is ready now has at most the priority of the running one. *)
Lemma pend_highest y ty :
  tasks (av a') !! y = Some ty -> t_state ty = TASK_READY ->
  exists t, tasks (av a') !! current_task (av a') = Some t /\ t_state t = TASK_RUNNING /\
    t_effective_priority t <= t_effective_priority ty.
Proof using Ha Hc Hs.
  intros Hy Hst.
  destruct (pend_entry_ok s a psp Hs Ha Hc) as (Ha2 & Hc2 & [s2 Hs2] & Ec & Eq).
  destruct (Abs_requeue s2 a2 Hs2 (kinv_current_ok _ Ha2 Hc2)) as [s3 Hs3].
  pose proof (Abs_base _ _ Hs3) as Hk. pose proof (requeue_kinv a2 Ha2) as Hb. fold b in Hb.
  destruct pend_state as [(El & Ec' & Et)|(x & l & t & El & Ec' & _ & Ht & Et)].
  - rewrite Et in Hy. assert (y ∈ aq b QReady) as Hin.
    { apply (wf_place _ (ki_wf _ Hb) _ _ _ Hy). unfold place. by rewrite Hst. }
    rewrite El in Hin. by apply elem_of_nil in Hin.
  - rewrite Ec', Et in *. rewrite lookup_insert_eq. eexists. split_and!; [done..|]. cbn.
    apply lookup_insert_Some in Hy as [[<- <-]|[Hne' Hy]]; [done|].
    rewrite <- (prio_lookup _ _ _ Ht). by eapply dispatch_highest.
Qed.

(** The stack pointer of the task that was running is saved. *)
Lemma pend_saved : current_task (av a) <> NULL ->
  exists t, tasks (av a') !! current_task (av a) = Some t /\ t_sp t = psp.
Proof using Ha Hc Hs.
  intros Hn. destruct (kc_current _ Hc) as [?|[t0 Ht0]]; [done|].
  assert (exists t, tasks (av b) !! current_task (av a) = Some t /\ t_sp t = psp) as (t & Ht & Hsp).
  { unfold b, arequeue, a2, apend_entry. rewrite (proj2 (Z.eqb_neq _ _) Hn). cbn.
    rewrite lookup_alter_eq, Ht0. cbn. case_bool_decide; cbn; rewrite !lookup_alter_eq, ?Ht0; cbn; eauto. }
  destruct pend_state as [(_ & _ & Et)|(x & l & tx & _ & _ & _ & Htx & Et)].
  - rewrite Et. eauto.
  - rewrite Et, lookup_insert. case_decide as E; [|eauto]. subst x.
    rewrite Ht in Htx. injection Htx as <-. eauto.
Qed.
End pend.

Lemma pend_sv_core s psp L :
  kernel_ok s -> may L (EPendSV psp) s ->
  exists s' t, pend_sv_handler psp s = Ok (t_sp t, s') /\ kernel_ok s' /\
    tasks s' !! current_task s' = Some t /\
    (forall y ty, tasks s' !! y = Some ty -> t_state ty = TASK_READY ->
       t_state t = TASK_RUNNING /\ t_effective_priority t <= t_effective_priority ty) /\
    (current_task s <> NULL -> exists tc, tasks s' !! current_task s = Some tc /\ t_sp tc = psp).
Proof.
  intros (a & Hs & Ha & Hc) He. pose proof (He a Hs Ha) as Hne. cbn in Hne.
  destruct (pend_sv_ok s a psp Hs Ha Hc Hne) as (ta & Hta & Hr & Ha' & Hc').
  destruct (Hr s Hs) as (s' & E & Hs').
  rewrite (view_current _ _ Hs') in Hta.
  destruct (Abs_task _ _ _ _ Hs' Hta) as (t & Ht & <-).
  exists s', t. split_and!.
  - exact E.
  - by exists (apend psp a).
  - done.
  - intros y ty Hy Hst.
    destruct (pend_highest s a psp Hs Ha Hc y (strip ty)) as (t' & Ht' & H1 & H2);
      [by eapply view_task_some|done|].
    rewrite (view_current _ _ Hs'), Hta in Ht'. by injection Ht' as <-.
  - intros Hn. rewrite <- (view_current _ _ Hs) in *.
    destruct (pend_saved s a psp Hs Ha Hc Hn) as (tc & Htc & Hsp).
    destruct (Abs_task _ _ _ _ Hs' Htc) as (tc' & Htc' & <-). eauto.
Qed.

(** ** Unlocking on concrete states *)

Lemma view_owner_rev s a m o : Abs s a -> owner_at a m = o <-> s_owner s m = o.
Proof. intros Hs. by rewrite (view_owner _ _ Hs). Qed.

Lemma unlock_core L s m :
  kernel_ok s -> may L (EUnlock m) s -> s_owner s m = Some (current_task s) ->
  exists r s', mutex_unlock m s = Ok (r, s') /\ kernel_ok s' /\
    let x := queue_head (QMutex m) s in
    s_owner s' m = Some x /\ current_task s' = current_task s /\
    (x = NULL -> r = SEM_OK) /\
    (x <> NULL ->
       (forall w t, tasks s !! w = Some t -> place t = Some (QMutex m) -> eff s x <= eff s w) /\
       (exists t, tasks s' !! x = Some t /\ t_state t = TASK_READY) /\
       (r = SEM_OK_YIELD <-> eff s' x < eff s' (current_task s))).
Proof.
  intros (a & Hs & Ha & Hc) He Ho. destruct (He a Hs Ha) as ((t & Ht & Hst) & (Hm & v & Hv) & Hok).
  rewrite <- (view_owner _ _ Hs), <- (view_current _ _ Hs) in Ho. specialize (Hok Ho).
  apply owner_at_Some in Ho as (v' & Hv' & Ho).
  destruct (ki_owned _ Ha _ _ Ht) as [l Hl].
  destruct (unlock_runs s a m v' t l Hs Ha Hv' Ho Ht) as (r & a' & Hr & Hul); try done.
  { unfold place. by rewrite Hst. }
  destruct (Hr s Hs) as (s' & E & Hs'). exists r, s'. split; [done|].
  pose proof (unlocked_kcur _ _ _ _ _ _ Hul Ht Hc Hst) as Hc'.
  destruct Hul as [Hi Ec _ _ _ Hown Hser]. split; [by exists a'|]. cbv zeta.
  rewrite <- (view_owner _ _ Hs'), Hown, <- (view_head _ _ Hs (QMutex m)).
  rewrite <- (view_current _ _ Hs), <- Ec, (view_current _ _ Hs').
  split; [done|]. split; [done|].
  destruct (aq a (QMutex m)) as [|x ws] eqn:Hq; cbn [List.hd]; [done|].
  split; [intros ->; by destruct (Abs_queued s a (QMutex m) NULL Hs);
          [rewrite Hq; left|]|].
  intros Hx. destruct Hser as [(tx & Htx & Hstx) Er]. split_and!.
  - intros w tw Htw Hp. rewrite <- !(view_eff s a) by done.
    assert (w ∈ aq a (QMutex m)) as Hw
      by (apply (wf_place _ (ki_wf _ Ha) w (strip tw)); [by apply view_task_some with (s := s)|done]).
    pose proof (ord_mutex _ (ki_ord _ Ha) m) as Hord. rewrite Hq in Hord, Hw.
    apply StronglySorted_inv in Hord as [_ Hall]. rewrite Forall_forall in Hall.
    apply elem_of_cons in Hw as [->|Hw]; [lia|by apply Hall].
  - destruct (Abs_task _ _ _ _ Hs' Htx) as (tx' & Htx' & <-). eauto.
  - rewrite <- !(view_eff s' a') by done.
    rewrite Er, <- Ec, (view_current _ _ Hs').
    destruct (Z.ltb_spec (prio a' x) (prio a' (current_task s'))); split; (done || lia).
Qed.
