(* ===== verification/Timing.v ===== *)
(** * When sleeping tasks wake up

    The tick wakes the prefix of the sleep list that is due.  While no wake-up
    time is half the range of the tick counter away, that prefix is exactly
    the set of tasks whose time has come; across the wrap-around it is not,
    because the list is ordered by the unsigned value. *)
From S2P Require Import Prelude KState Queue Abs Scheduler Sleep Semaphore Invariant Mutex Pool.
From S2P Require Import Tcb Preserve Inherit Kernel Spec Boot Guarantees.

(** [w] is less than half the range of the counter away from [now], and no
    wrap-around lies between the two. *)
Definition in_epoch (now w : Z) : Prop := - 2 ^ 31 <= now - w < 2 ^ 31.

Lemma s32_epoch now w :
  in_epoch now w -> (s32 (now - w) >=? 0) = (w <=? now).
Proof.
  unfold in_epoch, s32, u32. intros H.
  destruct (Z.leb_spec w now).
  - rewrite (Z.mod_small (now - w)) by lia. rewrite (proj2 (Z.ltb_lt _ _)) by lia.
    rewrite Z.geb_leb. apply Z.leb_le. lia.
  - assert ((now - w) mod 2 ^ 32 = now - w + 2 ^ 32) as ->.
    { symmetry. apply Z.mod_unique with (q := -1); lia. }
    rewrite (proj2 (Z.ltb_ge _ _)) by lia. rewrite Z.geb_leb. apply Z.leb_gt. lia.
Qed.

(** The prefix the tick takes out. *)
Fixpoint due_prefix (a : aview) (l : list ptr) : list ptr :=
  match l with
  | [] => []
  | x :: l => if due a x then x :: due_prefix a l else []
  end.

Lemma due_ready a x l y :
  due (aready x (aset QSleep l a)) y = due a y.
Proof.
  unfold due. cbn. do 2 f_equal. f_equal. unfold tick, key_of. cbn. rewrite lookup_alter.
  case_decide; [|done]. subst. by destruct (tasks (av a) !! y).
Qed.

Lemma due_prefix_ext a b l : (forall y, due a y = due b y) -> due_prefix a l = due_prefix b l.
Proof. intros E. induction l as [|x l IH]; [done|]. cbn. by rewrite E, IH. Qed.

Lemma awake_task l a x t :
  tasks (av a) !! x = Some t ->
  tasks (av (awake l a)) !! x =
    Some (if decide (x ∈ due_prefix a l) then set_t_state TASK_READY t else t).
Proof.
  revert a t. induction l as [|y l IH]; intros a t Ht; cbn.
  { rewrite decide_False by (by intros ?%elem_of_nil). done. }
  destruct (due a y); [|by rewrite decide_False by (by intros ?%elem_of_nil)].
  assert (due_prefix (aready y (aset QSleep l a)) l = due_prefix a l) as Ep
    by (apply due_prefix_ext; intros; apply due_ready).
  destruct (decide (y = x)) as [->|Hne].
  - rewrite (IH _ (set_t_state TASK_READY t)) by (cbn; by rewrite lookup_alter_eq, Ht).
    do 2 case_decide; try done; set_solver.
  - rewrite (IH _ t) by (cbn; by rewrite lookup_alter_ne). rewrite Ep.
    do 2 case_decide; try done; set_solver.
Qed.

(** In order, and without a wrap-around, the prefix is all that is due. *)
Lemma due_prefix_all a l x :
  ordered (tick a) l ->
  (forall y, y ∈ l -> in_epoch (system_ticks (av a)) (tick a y)) ->
  x ∈ due_prefix a l <-> (x ∈ l /\ tick a x <= system_ticks (av a)).
Proof.
  induction l as [|y l IH]; intros Ho He; cbn; [split; [by intros ?%elem_of_nil|tauto]|].
  apply StronglySorted_inv in Ho as [Ho Hall]. rewrite Forall_forall in Hall.
  assert (due a y = (tick a y <=? system_ticks (av a))) as ->.
  { apply s32_epoch, He. by left. }
  destruct (Z.leb_spec (tick a y) (system_ticks (av a))) as [Hy|Hy].
  - rewrite !elem_of_cons, IH; [|done|intros; apply He; by right].
    split; [|tauto]. intros [-> |[? ?]]; tauto.
  - split; [by intros ?%elem_of_nil|]. intros [[-> |Hx]%elem_of_cons Hle]; [lia|].
    specialize (Hall x Hx). cbn in Hall. lia.
Qed.

Lemma arequest_tasks a : tasks (av (arequest a)) = tasks (av a).
Proof.
  unfold arequest. destruct (aq a QReady); [done|].
  destruct (tasks (av a) !! current_task (av a)); [|done]. by destruct (_ || _).
Qed.

Lemma tick_core s :
  kernel_ok s -> current_task s <> NULL ->
  let now := u32 (system_ticks s + 1) in
  (forall x t, tasks s !! x = Some t -> t_state t = TASK_SLEEPING -> in_epoch now (t_wake_tick t)) ->
  exists s', systick_handler s = Ok (tt, s') /\ kernel_ok s' /\
    forall x t, tasks s !! x = Some t -> t_state t = TASK_SLEEPING ->
      exists t', tasks s' !! x = Some t' /\
        t_state t' = if t_wake_tick t <=? now then TASK_READY else TASK_SLEEPING.
Proof.
  intros (a & Hs & Ha & Hc) Hn now He.
  assert (current_task (av a) <> NULL) as Hna by (by rewrite (view_current _ _ Hs)).
  destruct (tick_implements s a Hs Ha Hc Hna) as (s' & E & Hs').
  destruct (tick_safe s a Hs Ha Hc Hna) as (a' & Hr & Ha' & Hc' & _).
  destruct (Hr s Hs) as (s1 & E1 & Hs1). rewrite E in E1. injection E1 as <-.
  exists s'. split; [done|]. split; [by exists a'|].
  intros x t Ht Hst. unfold tick_spec in Hs'. cbn [snd] in Hs'.
  set (a1 := amap _ a) in Hs'.
  pose proof (view_task_some _ _ _ _ Hs Ht) as Hta.
  assert (system_ticks (av a1) = now) as En.
  { cbn. by rewrite <- (abs_strip _ _ Hs). }
  assert (forall y, tick a1 y = tick a y) as Et by done.
  assert (x ∈ due_prefix a1 (aq a1 QSleep) <-> t_wake_tick t <= now) as Hd.
  { rewrite due_prefix_all; [|apply Ha|].
    - rewrite En. change (aq a1) with (aq a).
      assert (x ∈ aq a QSleep) as Hx.
      { apply (wf_place _ (ki_wf _ Ha) _ _ _ Hta). unfold place. cbn. by rewrite Hst. }
      assert (tick a1 x = t_wake_tick t) as -> by (unfold tick, key_of; cbn; by rewrite Hta). tauto.
    - intros y Hy. rewrite En. destruct (Abs_queued s a QSleep y Hs Hy) as [_ [ty Hty]].
      assert (tick a1 y = t_wake_tick ty) as -> by (unfold tick, key_of; cbn; by rewrite Hty).
      destruct (Abs_task _ _ _ _ Hs Hty) as (ty' & Hty' & <-). apply (He y ty'); [done|].
      apply (wf_place _ (ki_wf _ Ha) _ _ _ Hty) in Hy. unfold place in Hy. cbn in Hy.
      by destruct (t_state ty'), (t_waiting_on_type ty'). }
  assert (tasks (av (arequest (awake (aq a1 QSleep) a1))) !! x =
    Some (if decide (x ∈ due_prefix a1 (aq a1 QSleep)) then set_t_state TASK_READY (strip t) else strip t))
    as Hx by (rewrite arequest_tasks; by apply awake_task).
  destruct (Abs_task _ _ _ _ Hs' Hx) as (t' & Ht' & E'). exists t'. split; [done|].
  assert (t_state t' = t_state (strip t')) as -> by done. rewrite E'.
  destruct (Z.leb_spec (t_wake_tick t) now) as [Hle|Hlt]; case_decide as Hin.
  - done.
  - by destruct Hin; apply Hd.
  - apply Hd in Hin. lia.
  - exact Hst.
Qed.

(** The computable form of the condition, for all the tasks of a state. *)
Definition in_epoch_b (now : Z) (t : tcb) : bool :=
  negb (bool_decide (t_state t = TASK_SLEEPING)) ||
  ((- 2 ^ 31 <=? now - t_wake_tick t) && (now - t_wake_tick t <? 2 ^ 31)).
Lemma check_epoch now s :
  check_tasks (in_epoch_b now) s = true ->
  forall x t, tasks s !! x = Some t -> t_state t = TASK_SLEEPING -> in_epoch now (t_wake_tick t).
Proof.
  intros H x t Ht Hst. pose proof (check_tasks_ok _ _ _ _ H Ht) as E. unfold in_epoch_b in E.
  rewrite bool_decide_true in E by done. cbn [negb orb] in E. unfold in_epoch. lia.
Qed.

(** ** Across the wrap-around *)

(** The image with the counter about to wrap. *)
Definition late_boot : kstate := set_system_ticks 0xFFFFFFF0 boot.
Definition late_run (es : list event) : option kstate :=
  run_events demo_layout demo_wrapper es late_boot.

(** Slot 1 sleeps for 5 ticks, slot 2 for 21: the second wakes up at 5, after
    the wrap, and is put in front. *)
Definition late_sleepers : list event :=
  [ ECreate 255 0 0; ECreate 9 0 0; ECreate 9 0 0; EPendSV 1; ESleep 5; EPendSV 2;
    ESleep 21; EPendSV 3 ].
