(* ===== verification/Nested.v ===== *)
(** * Mutexes held together

    [mutex_unlock] pushes the mutex on the list of the task it serves before it
    takes it out of the caller's list, and both lists use the one link in the
    mutex.  When the caller holds mutexes it locked earlier, or the served task
    holds some, the lists are mixed up; [mutex_unlock_all_owned] reads the link
    it just cleared.  The theorems here say what the code does then. *)
From S2P Require Import Prelude KState Queue Abs Scheduler Sleep Semaphore Invariant Mutex Pool.
From S2P Require Import Tcb Preserve Inherit Kernel Spec Boot Guarantees.

Lemma own_recalc x l a y : own_of (arecalc x l a) y = own_of a y.
Proof.
  unfold own_of, arecalc. cbn [aupd_task amap av tasks set_tasks]. rewrite lookup_alter.
  case_decide as E; [subst y|done]. by destruct (tasks (av a) !! x).
Qed.
Lemma mutexes_recalc x l a : mutexes (av (arecalc x l a)) = mutexes (av a).
Proof. reflexivity. Qed.
Lemma handoff_alt m x ws l1 lx a (c := current_task (av a)) (e := ahandoff m x ws lx a) :
  aunlock_handoff m x ws l1 lx a = arecalc c (l1 ++ lx) (aunlink c m l1 e).
Proof. reflexivity. Qed.

(** The list a task links after its first mutex is taken out. *)
Lemma unlink_lists e c x m lx t tx l :
  tasks (av e) !! c = Some t -> mseg (mutexes (av e)) (t_owned_mutexes t) (m :: lx) ->
  tasks (av e) !! x = Some tx -> t_owned_mutexes tx = m -> c <> x -> m ∉ lx -> NoDup lx ->
  let a' := arecalc c l (aunlink c m [] e) in
  mseg (mutexes (av a')) (own_of a' c) lx /\ mseg (mutexes (av a')) (own_of a' x) [m].
Proof.
  intros He Hme Hx Hox Hcx Hmx Hnd a'.
  assert (NoDup ([] ++ m :: lx)) as Hnd' by (by constructor).
  destruct (unlink_owned e c m t [] lx He Hme Hnd') as (t' & Ht' & _ & _ & _ & Hm').
  destruct (mseg_elem _ _ _ m Hme) as [Hm [ve Hve]]; [set_solver|].
  destruct (unlink_next e c m [] ve Hve) as (v' & Hv' & En).
  unfold a'. rewrite mutexes_recalc, !own_recalc. split.
  - unfold own_of. rewrite Ht'. exact Hm'.
  - unfold own_of. rewrite unlink_other, Hx by done. cbn [fmap option_fmap option_map default].
    rewrite Hox. split_and!; [done..|]. exists v'. split; [exact Hv'|exact En].
Qed.

Lemma handoff_lists a m x ws tx v t l2 lx :
  let c := current_task (av a) in
  mutexes (av a) !! m = Some v -> tasks (av a) !! x = Some tx -> tasks (av a) !! c = Some t ->
  c <> x -> mseg (mutexes (av a)) (t_owned_mutexes tx) lx ->
  mseg (mutexes (av a)) (t_owned_mutexes t) (m :: l2) -> m ∉ lx -> NoDup lx ->
  let a' := aunlock_handoff m x ws [] lx a in
  mseg (mutexes (av a')) (own_of a' c) lx /\ mseg (mutexes (av a')) (own_of a' x) [m].
Proof.
  intros c Hv Htx Ht Hcx Hlx Hl Hmx Hnd. cbv zeta. rewrite handoff_alt.
  pose proof (handoff_links a m x ws tx v lx c t [] l2 Hv Htx Ht Hcx Hlx Hl
    (not_elem_of_nil m) Hmx) as (He & Hme & tx' & Hx' & Hox & _).
  eapply unlink_lists; eassumption.
Qed.

Lemma mseg_view s a p l : Abs s a -> mseg (mutexes (av a)) p l <-> mseg (mutexes s) p l.
Proof.
  intros Hs. split; apply mseg_ext; intros y _; rewrite (view_mutex _ _ Hs);
    by destruct (mutexes s !! y).
Qed.

Lemma handoff_mixes_core s m :
  let c := current_task s in let x := queue_head (QMutex m) s in
  kernel_ok s -> is_running s = true -> s_owner s m = Some c -> s_own s c = m -> x <> NULL ->
  exists r s' lx, mutex_unlock m s = Ok (r, s') /\
    mseg (mutexes s) (s_own s x) lx /\
    mseg (mutexes s') (s_own s' c) lx /\ mseg (mutexes s') (s_own s' x) [m].
Proof.
  intros c x (a & Hs & Ha & Hc) Hrun Ho Hown Hx. pose proof (Abs_base _ _ Hs) as Hk.
  destruct (view_running _ _ Hs Hrun) as (t & Ht & Hst).
  rewrite <- (view_owner _ _ Hs) in Ho. unfold c in *. rewrite <- (view_current _ _ Hs) in *.
  apply owner_at_Some in Ho as (v & Hv & Ho). unfold x in *. rewrite <- (view_head _ _ Hs) in *.
  destruct (aq a (QMutex m)) as [|y ws] eqn:Hq; [done|]. cbn [List.hd] in *.
  destruct (Abs_head _ _ _ _ _ Hs Hq) as [tx Hh]. pose proof (head_task _ _ _ _ _ Hh) as Htx.
  assert (current_task (av a) <> y) as Hcy.
  { intros E. apply (running_unqueued a t Ht Hst (ki_wf _ Ha) (QMutex m)). rewrite Hq, E. by left. }
  destruct (ki_owned _ Ha _ _ Ht) as [l Hl]. destruct (ki_owned _ Ha _ _ Htx) as [lx Hlx].
  rewrite <- (view_own _ _ Hs) in Hown. unfold own_of in Hown. rewrite Ht in Hown. cbn in Hown.
  pose proof Hl as (Hseg & Hnd & El). pose proof Hlx as (Hsegx & Hndx & Elx).
  destruct l as [|m' l2].
  { assert (m ∈ []) as Hm by (apply El; eauto). by apply elem_of_nil in Hm. }
  assert (m' = m) as -> by (destruct Hseg as [? _]; congruence).
  assert (m ∉ lx) as Hmx by (intros (v1 & Hv1 & Hx1)%Elx; congruence).
  destruct (runs_unlock_handoff a m v t y ws tx [] l2 lx Hv Ho Ht Hcy Hq Hh Hseg Hsegx
    (NoDup_cons_2 _ _ Hmx Hndx) s Hs) as (s' & E & Hs').
  destruct (handoff_lists a m y ws tx v t l2 lx Hv Htx Ht Hcy Hsegx Hseg Hmx Hndx) as [H1 H2].
  eexists _, s', lx. split; [exact E|]. rewrite <- (view_own _ _ Hs), <- !(view_own _ _ Hs').
  rewrite <- (mseg_view s a), <- !(mseg_view s' _ _ _ Hs') by done. unfold own_of at 1.
  rewrite Htx. split_and!; [done|exact H1|exact H2].
Qed.

(** ** A hang *)

(** Any search along a link that points to itself never ends. *)
Lemma self_link_diverges fuel m y prev s :
  s_next s y = y -> y <> NULL -> y <> m -> is_Some (mutexes s !! y) ->
  mutex_queue_remove_loop fuel m y prev s = Trap Diverge.
Proof.
  intros Hn Hy Hm [v Hv]. revert prev. induction fuel as [|fuel IH]; intros prev; [done|].
  cbn [mutex_queue_remove_loop].
  rewrite (proj2 (Z.eqb_neq _ _) Hy), (proj2 (Z.eqb_neq _ _) Hm).
  unfold s_next in Hn. rewrite Hv in Hn. cbn in Hn.
  rewrite (prog_bind_ok _ _ _ y s) by (unfold rd_mutex, fetch; rewrite Hv; cbn; by rewrite Hn).
  apply IH.
Qed.

(** System calls and interrupts as they come, without the conditions of
    [may]. *)
Fixpoint exec_all (es : list event) (s : kstate) : option kstate :=
  match es with
  | [] => Some s
  | e :: es =>
      match exec demo_layout demo_wrapper e s with
      | Ok (_, s') => exec_all es s'
      | Trap _ => None
      end
  end.

(** Slot 1 locks mutexes 0 and 1; slot 2 locks mutex 2 and waits for 1.  Slot 1
    unlocks 1, slot 2 unlocks 2 and sleeps, slot 1 locks 2. *)
Definition mixed_locks : list event :=
  [ ECreate 255 0 0; ECreate 9 0 0; EPendSV 1; ELock (demo_mutex 0); ELock (demo_mutex 1);
    ECreate 5 0 0; EPendSV 2; ELock (demo_mutex 2); ELock (demo_mutex 1); EPendSV 3;
    EUnlock (demo_mutex 1); EPendSV 4; EUnlock (demo_mutex 2); ESleep 5; EPendSV 5;
    ELock (demo_mutex 2) ].
Definition mixed : kstate := default boot (exec_all mixed_locks boot).

(** A task that locks two mutexes and ends; its slot is used again. *)
Definition recycled_slot : list event :=
  [ ECreate 255 0 0; ECreate 9 0 0; EPendSV 1; ELock (demo_mutex 0); ELock (demo_mutex 1);
    EExit; EPendSV 2; ECreate 3 0 0; EPendSV 3 ].
Definition recycled : kstate := default boot (exec_all recycled_slot boot).

(** ** Releasing what a task owns *)

Lemma unlock_all_first s a m1 m2 l t :
  let c := current_task (av a) in
  Abs s a -> kinv a -> tasks (av a) !! c = Some t -> place t = None ->
  owned_list a c t (m1 :: m2 :: l) -> aq a (QMutex m1) = [] ->
  exists s', mutex_unlock_all_owned m1 s = Ok (tt, s') /\
    s_owner s' m1 = Some NULL /\ s_owner s' m2 = Some c.
Proof.
  intros c Hs Ha Ht Hp Hl Hq. pose proof (Abs_base _ _ Hs) as Hk.
  pose proof Hl as (Hseg & Hnd & El). destruct Hseg as (_ & Hm & v & Hv & Hseg).
  assert (m_owner v = c) as Ho.
  { destruct (proj1 (El m1) ltac:(by left)) as (v' & ? & ?). congruence. }
  destruct (unlock_runs s a m1 v t (m1 :: m2 :: l) Hs Ha Hv Ho Ht Hp Hl) as (r & a' & Hr & Hul).
  { unfold handoff_ok. by rewrite Hq. }
  pose proof (runs_unlock_free a m1 v t [] (m2 :: l) Hv Ho Ht Hq (proj1 Hl) Hnd) as Hr'.
  set (a1 := aunlock_free m1 [] (m2 :: l) a) in *.
  assert (runs a (mutex_unlock_all_owned m1) tt a1) as Hrun.
  { unfold mutex_unlock_all_owned. eapply runs_bind; [apply runs_owned_fuel|]. cbn beta.
    destruct (size_lookup (mutexes (av a)) m1 v Hv) as [n ->]. cbn [unlock_all_loop].
    rewrite (proj2 (Z.eqb_neq _ _) Hm). eapply runs_bind; [exact Hr'|]. cbn beta.
    destruct (unlink_next (aupd_mutex m1 (set_m_owner NULL) a) c m1 [] (set_m_owner NULL v))
      as (v' & Hv' & En); [cbn; by rewrite lookup_alter_eq, Hv|].
    eapply runs_bind; [by apply (runs_rd_mutex a1 m1 v')|]. rewrite En. apply runs_ret. }
  destruct (Hrun s Hs) as (s' & E & Hs'). exists s'. split; [done|].
  rewrite <- !(view_owner _ _ Hs'). unfold a1.
  rewrite !(uf_owner a m1 v t [] (m2 :: l)) by done.
  rewrite decide_True by done. split; [done|].
  apply NoDup_cons in Hnd as [Hne _]. rewrite decide_False by (intros ->; apply Hne; by left).
  apply owner_at_Some, El. right. by left.
Qed.

(** The same on concrete states. *)
Lemma unlock_all_core s m1 m2 :
  let c := current_task s in
  kernel_ok s -> is_running s = true -> s_own s c = m1 -> s_next s m1 = m2 ->
  m1 <> NULL -> m2 <> NULL -> queue_head (QMutex m1) s = NULL ->
  exists s', mutex_unlock_all_owned m1 s = Ok (tt, s') /\
    s_owner s' m1 = Some NULL /\ s_owner s' m2 = Some c.
Proof.
  intros c (a & Hs & Ha & Hc) Hrun H1 H2 Hn1 Hn2 Hq.
  destruct (view_running _ _ Hs Hrun) as (t & Ht & Hst).
  assert (place t = None) as Hp by (unfold place; by rewrite Hst).
  destruct (ki_owned _ Ha _ _ Ht) as [l Hl]. pose proof Hl as (Hseg & _ & _).
  unfold c in *. rewrite <- (view_current _ _ Hs) in *. rewrite <- (view_own _ _ Hs) in H1.
  unfold own_of in H1. rewrite Ht in H1. cbn in H1. subst m1.
  destruct l as [|m l]; [by destruct Hn1|]. cbn in Hseg. destruct Hseg as (E1 & _ & v & Hv & Hseg).
  rewrite <- (view_next _ _ Hs) in H2. unfold next_of in H2. subst m. rewrite Hv in H2. cbn in H2.
  rewrite H2 in Hseg. destruct l as [|m' l]; [by destruct Hn2|].
  pose proof Hseg as (<- & _).
  apply (unlock_all_first s a (t_owned_mutexes t) m2 l t Hs Ha Ht Hp); [done|].
  apply (view_empty _ _ Hs (QMutex (t_owned_mutexes t))). exact Hq.
Qed.
