(* ===== verification/Objects.v ===== *)
(** * Semaphores, task slots and stacks on concrete states

    Lemmas about single kernel objects: what a close leaves behind, which slot
    a new task gets and what its stack holds, and the behaviour of the
    priority queues. *)
From S2P Require Import Prelude KState Queue Abs Scheduler Sleep Semaphore Invariant Mutex Pool.
From S2P Require Import Tcb Preserve Inherit Kernel Spec Boot Guarantees.

(** ** Closing a semaphore *)

Lemma aforget_other l y a : y ∉ l -> tasks (av (aforget l a)) !! y = tasks (av a) !! y.
Proof.
  revert a. induction l as [|x l IH]; intros a Hy; [done|]. cbn. rewrite IH by set_solver.
  cbn. apply lookup_alter_ne. set_solver.
Qed.

Lemma aforget_member l y t a :
  NoDup l -> y ∈ l -> tasks (av a) !! y = Some t ->
  tasks (av (aforget l a)) !! y = Some (forget_wait t).
Proof.
  revert a. induction l as [|x l IH]; intros a Hnd Hy Ht; [by apply elem_of_nil in Hy|].
  apply NoDup_cons in Hnd as [Hx Hnd]. cbn. destruct (decide (y = x)) as [->|Hne].
  - rewrite aforget_other by done. cbn. by rewrite lookup_alter_eq, Ht.
  - apply IH; [done|set_solver|]. cbn. by rewrite lookup_alter_ne.
Qed.

Lemma close_strands_core s p :
  kernel_ok s -> is_sem s p = true ->
  exists s' Q, semaphore_close p s = Ok (tt, s') /\ kernel_ok s' /\
    (forall r, holds s' r (Q r)) /\
    forall x t, tasks s !! x = Some t -> place t = Some (QSem p) ->
      (exists t', tasks s' !! x = Some t' /\ t_state t' = TASK_BLOCKED /\
         t_waiting_on_type t' = NONE) /\ forall r, x ∉ Q r.
Proof.
  intros (a & Hs & Ha & Hc) Hp. pose proof (view_known_sem _ _ Hs _ Hp) as Hk.
  destruct (close_implements p s a Hs Ha Hc Hk) as (s' & E & Hs'). cbn [fst snd] in *.
  destruct Hk as [v Hv]. pose proof (Abs_base _ _ Hs) as Hb.
  pose proof (close_kinv _ _ _ Ha Hb Hv) as Ha'.
  exists s', (aq (asem_close p a)). split; [done|]. split.
  { exists (asem_close p a). split_and!; [done|done|].
    apply (kcur_same (aforget (aq a (QSem p)) a)); [by apply aforget_kcur|done..]. }
  split; [intros r; by apply Abs_holds|]. intros x t Ht Hpl.
  pose proof (view_task_some _ _ _ _ Hs Ht) as Hta.
  assert (x ∈ aq a (QSem p)) as Hx by (by apply (wf_place _ (ki_wf _ Ha) _ _ _ Hta)).
  assert (tasks (av (asem_close p a)) !! x = Some (forget_wait (strip t))) as Ht'.
  { cbn. apply aforget_member; [apply Hb|done|done]. }
  assert (t_state t = TASK_BLOCKED) as Hst.
  { unfold place in Hpl. by destruct (t_state t), (t_waiting_on_type t). }
  destruct (Abs_task _ _ _ _ Hs' Ht') as (t' & Hts' & Est). split.
  - exists t'. split; [done|]. split; [exact (eq_trans (f_equal t_state Est) Hst)|].
    exact (f_equal t_waiting_on_type Est).
  - intros r Hr. apply (wf_place _ (ki_wf _ Ha') _ _ _ Ht') in Hr.
    unfold place in Hr. cbn in Hr. by rewrite Hst in Hr.
Qed.

(** ** The slot of a new task *)

Lemma view_stack_mem s a : Abs s a -> stack_mem (av a) = stack_mem s.
Proof. intros Hs. by rewrite <- (abs_strip _ _ Hs). Qed.

Section slots.
Context (L : layout) (tw : ptr).

Definition dead_slot (s : kstate) (i : nat) : bool :=
  match tasks s !! task_slot L i with
  | Some t => bool_decide (t_state t = TASK_UNUSED \/ t_state t = TASK_FINISHED)
  | None => false
  end.

Lemma view_dead_slot s a i : Abs s a -> task_dead L a i = dead_slot s i.
Proof using.
  intros Hs. unfold task_dead, dead_slot. rewrite (view_task _ _ Hs).
  by destruct (tasks s !! task_slot L i).
Qed.

Lemma first_slot_ext p q n i :
  (forall k, p k = q k) -> first_slot p n i = first_slot q n i.
Proof using.
  intros E. revert i. induction n as [|n IH]; intros i; [done|]. cbn. by rewrite E, IH.
Qed.

(** The words of a new task's stack, from the saved registers upwards. *)
Definition frame_words (func args : Z) : list Z :=
  [ 0x04040404; 0x05050505; 0x06060606; 0x07070707; 0x08080808; 0x09090909; 0x10101010;
    0x11111111; EXC_RETURN_THREAD; func; args; 0x02020202; 0x03030303; 0x12121212;
    EXC_RETURN_THREAD; tw; 0x01000000 ].

Lemma create_claims_core s prio func args :
  layout_ok L -> kernel_ok s ->
  (forall k, (k < N_TASKS)%nat -> is_Some (tasks s !! task_slot L k)) ->
  exists s', task_create L tw prio func args s =
      Ok (slot_ptr (task_slot L) (first_slot (dead_slot s) N_TASKS 0), s') /\ kernel_ok s' /\
    forall i, first_slot (dead_slot s) N_TASKS 0 = Some i ->
      exists t, tasks s' !! task_slot L i = Some t /\ place t = Some QReady /\
        t_base_priority t = u8 prio /\ t_effective_priority t = u8 prio /\
        t_owned_mutexes t = NULL /\ t_sp t = task_stack L i + TASK_STACK_SIZE - 68 /\
        load_words (t_sp t) 17 (stack_mem s') = Some (frame_words func args).
Proof using.
  intros HL (a & Hs & Ha & Hc) Hk.
  assert (forall k, (k < N_TASKS)%nat -> exists t, tasks (av a) !! task_slot L k = Some t) as Hk'.
  { intros k Hlt. destruct (Hk k Hlt) as [t Ht]. exists (strip t). by apply (view_task_some s). }
  destruct (create_runs L tw a prio func args HL Ha Hk' s Hs) as (s' & E & Hs').
  assert (first_slot (task_dead L a) N_TASKS 0 = first_slot (dead_slot s) N_TASKS 0) as Eo
    by (apply first_slot_ext; intros; by apply view_dead_slot).
  rewrite Eo in *. exists s'. split; [done|].
  destruct (first_slot (dead_slot s) N_TASKS 0) as [i|] eqn:Ei; [|split; [by exists a|done]].
  apply first_slot_Some in Ei as (_ & Hd & _). rewrite <- (view_dead_slot s a i Hs) in Hd.
  destruct (dead_task L a i Hd) as (t & Ht & Hdt).
  split; [by eexists; split; [exact Hs'|by eapply create_ok]|]. intros j [= <-].
  pose proof (create_tasks L tw a i prio func args t Ht) as ET.
  destruct (Abs_task s' _ (task_slot L i) (set_t_state TASK_READY (newborn L i prio func args t)) Hs')
    as (t' & Ht' & Est); [by rewrite ET, lookup_insert_eq|].
  exists t'. split; [done|].
  assert (forall A (f : tcb -> A), f (strip t') = f (set_t_state TASK_READY (newborn L i prio func args t)))
    as Ef by (intros; by rewrite Est).
  split; [exact (Ef _ place)|]. split; [exact (Ef _ t_base_priority)|].
  split; [exact (Ef _ t_effective_priority)|]. split; [exact (Ef _ t_owned_mutexes)|].
  pose proof (Ef _ t_sp) as Esp. cbn in Esp. split; [exact Esp|]. rewrite Esp.
  rewrite <- (view_stack_mem s' _ Hs'). cbn [aready acreate av amap set_tasks stack_mem set_stack_mem].
  rewrite task_stack_init_words. exact (load_store _ (frame_words func args) _).
Qed.
End slots.
