(* ===== verification/KernelProps.v ===== *)
(** * Theorems: scheduling, blocking and inheritance

    The properties of the kernel core.  Each is stated on concrete states or
    on the list-level specification the code refines, and comes with a witness
    at a state of [Boot.v]. *)
From S2P Require Import Prelude KState Queue Abs Scheduler Sleep Semaphore Invariant Mutex Pool.
From S2P Require Import Tcb Preserve Inherit Kernel Spec Boot OneLock Guarantees Timing Nested.

(** C1: In a well-formed state, an interrupt or a system call of the kernel core
    that [allowed] accepts ends without following a null or stale pointer and
    within the fuel of its loops, in a state that is well formed again.
    [allowed] asks for calls of a running task, for handles that are slots of
    the pools (and all slots of tasks there when one is created), for a tick or
    a PendSV only when there is a task to return to, for an initialisation only
    of a semaphore nobody waits for and of a mutex nobody owns, and, where an
    unlock or an exit serves a waiter, for a waiter that owns no mutex and a
    mutex that is the last of its owner's list.  Without the last condition the
    code can hang, see [nested_unlock_hangs]. *)
Theorem events_safe (L : layout) (tw : ptr) s e :
  layout_ok L -> kernel_ok s -> allowed L e s = true ->
  exists s', exec L tw e s = Ok (tt, s') /\ kernel_ok s'.
Proof. intros HL Hs He. apply exec_ok; [done..|by apply allowed_may]. Qed.

Lemma events_safe_witness :
  exists s', exec demo_layout demo_wrapper (EUnlock (demo_mutex 0))
    (after [ECreate 255 0 0; ECreate 9 0 0; EPendSV 1; ELock (demo_mutex 0)]) = Ok (tt, s') /\
    kernel_ok s'.
Proof.
  apply events_safe; [apply demo_layout_ok|apply after_ok; by vm_compute|by vm_compute].
Defined.




(** C3: In every state that runs of allowed events (see [events_safe];
    [one_lock_runs_safe] says which callers meet its conditions) reach from a well-formed one, no
    task is lost or queued twice: a task is in the queue its state names and in
    no other, every queue is linked without repetition, and the ready queue and
    the wait queues of the mutexes are in priority order. *)
Theorem reachable_queues (L : layout) (tw : ptr) s0 s :
  layout_ok L -> kernel_ok s0 -> reaches L tw s0 s ->
  exists Q : qref -> list ptr,
    (forall r, holds s r (Q r)) /\
    (forall x t r, tasks s !! x = Some t -> x ∈ Q r <-> place t = Some r) /\
    ordered (eff s) (Q QReady) /\ (forall m, ordered (eff s) (Q (QMutex m))).
Proof. intros HL H0 Hr. apply ok_queues. by eapply reaches_ok. Qed.

Lemma reachable_queues_witness :
  exists Q : qref -> list ptr,
    (forall r, holds (after demo_chain) r (Q r)) /\
    (forall x t r, tasks (after demo_chain) !! x = Some t -> x ∈ Q r <-> place t = Some r) /\
    ordered (eff (after demo_chain)) (Q QReady) /\
    (forall m, ordered (eff (after demo_chain)) (Q (QMutex m))).
Proof.
  apply (reachable_queues demo_layout demo_wrapper boot);
    [apply demo_layout_ok|apply boot_ok|apply after_reaches; by vm_compute].
Defined.

(** C4: In every state that runs of allowed events (see [events_safe]) reach, the
    effective priority of a task is exactly the highest of its base priority
    and of the effective priorities of the tasks blocked on mutexes it owns; so
    a chain of waiters passes its priority on transitively, and a priority is
    kept no longer than needed.  A hand-over that [allowed] refuses breaks this
    (see [handoff_mixes_lists]). *)
Theorem reachable_inheritance (L : layout) (tw : ptr) s0 s x t :
  layout_ok L -> kernel_ok s0 -> reaches L tw s0 s -> tasks s !! x = Some t ->
  t_effective_priority t <= t_base_priority t /\
  (forall w, blocked_by s w x -> t_effective_priority t <= eff s w) /\
  (t_effective_priority t = t_base_priority t \/
   exists w, blocked_by s w x /\ t_effective_priority t = eff s w).
Proof. intros HL H0 Hr. apply ok_inherits. by eapply reaches_ok. Qed.

Lemma reachable_inheritance_witness :
  let s := after demo_chain in let t := tcb_at s 1 in
  (t_base_priority t = 9 /\ t_effective_priority t = 1) /\
  t_effective_priority t <= t_base_priority t /\
  (forall w, blocked_by s w (demo_task 1) -> t_effective_priority t <= eff s w) /\
  (t_effective_priority t = t_base_priority t \/
   exists w, blocked_by s w (demo_task 1) /\ t_effective_priority t = eff s w).
Proof.
  split; [split; vm_compute; reflexivity|].
  apply (reachable_inheritance demo_layout demo_wrapper boot);
    [apply demo_layout_ok|apply boot_ok|apply after_reaches; by vm_compute|by vm_compute].
Defined.

(** C9: PendSV ends and hands the processor to a running task whose priority no
    ready task exceeds; the value it returns is the stack pointer of that task,
    and the stack pointer of the outgoing task is saved. *)
Theorem pend_sv_dispatches (L : layout) s psp :
  kernel_ok s -> may L (EPendSV psp) s ->
  exists s' t, pend_sv_handler psp s = Ok (t_sp t, s') /\ kernel_ok s' /\
    tasks s' !! current_task s' = Some t /\
    (forall y ty, tasks s' !! y = Some ty -> t_state ty = TASK_READY ->
       t_state t = TASK_RUNNING /\ t_effective_priority t <= t_effective_priority ty) /\
    (current_task s <> NULL -> exists tc, tasks s' !! current_task s = Some tc /\ t_sp tc = psp).
Proof. apply pend_sv_core. Qed.

Lemma pend_sv_dispatches_witness :
  let s := after demo_chain in
  exists s' t, pend_sv_handler 7 s = Ok (t_sp t, s') /\ kernel_ok s' /\
    tasks s' !! current_task s' = Some t /\
    (forall y ty, tasks s' !! y = Some ty -> t_state ty = TASK_READY ->
       t_state t = TASK_RUNNING /\ t_effective_priority t <= t_effective_priority ty) /\
    (current_task s <> NULL -> exists tc, tasks s' !! current_task s = Some tc /\ t_sp tc = 7).
Proof.
  apply (pend_sv_dispatches demo_layout); [apply after_ok; by vm_compute|].
  apply allowed_may. by vm_compute.
Defined.

(** C10: The tick ends, and while no wake-up time is half the counter's range
    away it wakes exactly the sleeping tasks whose time has come; the others
    sleep on. *)
Theorem tick_wakes_due s :
  kernel_ok s -> current_task s <> NULL ->
  let now := u32 (system_ticks s + 1) in
  (forall x t, tasks s !! x = Some t -> t_state t = TASK_SLEEPING -> in_epoch now (t_wake_tick t)) ->
  exists s', systick_handler s = Ok (tt, s') /\ kernel_ok s' /\
    forall x t, tasks s !! x = Some t -> t_state t = TASK_SLEEPING ->
      exists t', tasks s' !! x = Some t' /\
        t_state t' = if t_wake_tick t <=? now then TASK_READY else TASK_SLEEPING.
Proof. apply tick_core. Qed.

(** A sleeper that is due at the next tick. *)
Definition demo_sleepers : list event :=
  [ ECreate 255 0 0; ECreate 9 0 0; EPendSV 1; ESleep 1; EPendSV 2 ].

Lemma tick_wakes_due_witness :
  let s := after demo_sleepers in
  exists s', systick_handler s = Ok (tt, s') /\ kernel_ok s' /\
    forall x t, tasks s !! x = Some t -> t_state t = TASK_SLEEPING ->
      exists t', tasks s' !! x = Some t' /\
        t_state t' = if t_wake_tick t <=? 1 then TASK_READY else TASK_SLEEPING.
Proof.
  apply (tick_wakes_due (after demo_sleepers));
    [apply after_ok; by vm_compute|by vm_compute|].
  apply check_epoch. by vm_compute.
Defined.

(** Near the wrap-around of the tick counter a task can oversleep: the
    sleep list is ordered by the unsigned wake-up time, so a time after the
    wrap is put in front and hides an earlier one.  Here slot 1 is to wake up
    at 0xFFFFFFF5 and still sleeps at 0xFFFFFFFF. *)
Theorem wrap_oversleeps :
  exists s s', late_run late_sleepers = Some s /\
    run_events demo_layout demo_wrapper (repeat ETick 15) s = Some s' /\
    system_ticks s' = 0xFFFFFFFF /\
    (t_state (tcb_at s' 1), t_wake_tick (tcb_at s' 1)) = (TASK_SLEEPING, 0xFFFFFFF5).
Proof.
  exists (default boot (late_run late_sleepers)).
  exists (default boot (run_events demo_layout demo_wrapper (repeat ETick 15)
            (default boot (late_run late_sleepers)))).
  split_and!; vm_compute; reflexivity.
Qed.

(** C11: [mutex_lock] refines its list-level specification: a free mutex is
    taken and put in front of the caller's list; a mutex the caller owns is
    refused with MUTEX_DEADLOCK and nothing changes; otherwise the caller joins
    the wait queue by priority and its priority is raised along the chain of
    owners, which ends even when the chain is a cycle. *)
Theorem mutex_lock_refines s a m :
  Abs s a -> kinv a -> kcur a -> running a -> known_mutex a m ->
  exists s', mutex_lock m s = Ok ((lock_spec m a).1, s') /\ Abs s' (lock_spec m a).2 /\
    kinv (lock_spec m a).2.
Proof.
  intros Hs Ha Hc Hr Hm.
  destruct (lock_implements m s a Hs Ha Hc (conj Hr Hm)) as (s' & E & Hs').
  exists s'. split; [done|]. split; [done|].
  destruct Hr as (t & Ht & Hst), Hm as [Hm [v Hv]]. unfold lock_spec, owner_at. rewrite Hv. cbn.
  repeat case_decide; cbn [snd]; [|done|].
  - eapply lock_free_kinv; try done. by eapply Abs_base.
  - by eapply lock_block_kinv.
Qed.

(** A state in which slot 2 runs and slot 1 holds mutex 0. *)
Definition demo_contended : list event :=
  [ ECreate 255 0 0; ECreate 9 0 0; EPendSV 1; ELock (demo_mutex 0); ECreate 5 0 0; EPendSV 2 ].

Lemma mutex_lock_refines_witness :
  exists a s', Abs (after demo_contended) a /\
    mutex_lock (demo_mutex 0) (after demo_contended) = Ok ((lock_spec (demo_mutex 0) a).1, s') /\
    Abs s' (lock_spec (demo_mutex 0) a).2 /\ kinv (lock_spec (demo_mutex 0) a).2.
Proof.
  destruct (after_ok demo_contended) as (a & Hs & Ha & Hc); [by vm_compute|]. exists a.
  destruct (mutex_lock_refines (after demo_contended) a (demo_mutex 0) Hs Ha Hc) as (s' & ?).
  - apply (view_running _ _ Hs). by vm_compute.
  - apply (view_known_mutex _ _ Hs). by vm_compute.
  - exists s'. split; [exact Hs|done].
Defined.

(** C12: An unlock of a mutex by the running task that owns it ends, provided the
    mutex has no waiter, or its first waiter owns no mutex and the mutex is the
    last of its owner's list (it was locked before the others).  When it has
    waiters the one with the highest effective priority becomes the owner and
    ready, and the caller is told to yield exactly when that task now has a
    higher priority; without waiters the mutex becomes free.  (Without the
    condition the code can hang, see [nested_unlock_hangs].) *)
Theorem unlock_hands_over s m :
  kernel_ok s -> is_running s = true -> is_mutex s m = true ->
  s_owner s m = Some (current_task s) ->
  (let x := queue_head (QMutex m) s in x = NULL \/ (s_own s x = NULL /\ s_next s m = NULL)) ->
  exists r s', mutex_unlock m s = Ok (r, s') /\ kernel_ok s' /\
    let x := queue_head (QMutex m) s in
    s_owner s' m = Some x /\ current_task s' = current_task s /\
    (x = NULL -> r = SEM_OK) /\
    (x <> NULL ->
       (forall w t, tasks s !! w = Some t -> place t = Some (QMutex m) -> eff s x <= eff s w) /\
       (exists t, tasks s' !! x = Some t /\ t_state t = TASK_READY) /\
       (r = SEM_OK_YIELD <-> eff s' x < eff s' (current_task s))).
Proof.
  intros Hs Hr Hm Ho Hw. apply (unlock_core demo_layout); [done| |done]. apply allowed_may. cbn.
  rewrite Hr, Hm, Ho, bool_decide_true by done. cbn. by apply can_hand_true.
Qed.

(** Slot 1 runs again and holds mutex 0, for which slot 2 waits. *)
Definition demo_waited : list event := demo_contended ++ [ELock (demo_mutex 0); EPendSV 3].

Lemma unlock_hands_over_witness :
  let s := after demo_waited in let m := demo_mutex 0 in
  queue_head (QMutex m) s = demo_task 2 /\
  exists r s', mutex_unlock m s = Ok (r, s') /\ kernel_ok s' /\
    let x := queue_head (QMutex m) s in
    s_owner s' m = Some x /\ current_task s' = current_task s /\
    (x = NULL -> r = SEM_OK) /\
    (x <> NULL ->
       (forall w t, tasks s !! w = Some t -> place t = Some (QMutex m) -> eff s x <= eff s w) /\
       (exists t, tasks s' !! x = Some t /\ t_state t = TASK_READY) /\
       (r = SEM_OK_YIELD <-> eff s' x < eff s' (current_task s))).
Proof.
  split; [by vm_compute|]. apply unlock_hands_over.
  - apply after_ok. by vm_compute.
  - by vm_compute.
  - by vm_compute.
  - by vm_compute.
  - right. by vm_compute.
Defined.

(** Handing over a mutex mixes up the lists of owned mutexes: when the mutex
    heads the caller's list, afterwards the caller's list is the one the served
    task had, the served task's list is the handed mutex alone, and whatever the
    caller had locked before is in neither. *)
Theorem handoff_mixes_lists s m :
  let c := current_task s in let x := queue_head (QMutex m) s in
  kernel_ok s -> is_running s = true -> s_owner s m = Some c -> s_own s c = m -> x <> NULL ->
  exists r s' lx, mutex_unlock m s = Ok (r, s') /\
    mseg (mutexes s) (s_own s x) lx /\
    mseg (mutexes s') (s_own s' c) lx /\ mseg (mutexes s') (s_own s' x) [m].
Proof. apply handoff_mixes_core. Qed.

(** Slot 1 holds mutexes 1 and 0, slot 2 holds 2 and waits for 1. *)
Definition demo_nested : list event :=
  [ ECreate 255 0 0; ECreate 9 0 0; EPendSV 1; ELock (demo_mutex 0); ELock (demo_mutex 1);
    ECreate 5 0 0; EPendSV 2; ELock (demo_mutex 2); ELock (demo_mutex 1); EPendSV 3 ].

Lemma handoff_mixes_lists_witness :
  let s := after demo_nested in let m := demo_mutex 1 in
  let c := current_task s in let x := queue_head (QMutex m) s in
  s_next s m = demo_mutex 0 /\
  exists r s' lx, mutex_unlock m s = Ok (r, s') /\
    mseg (mutexes s) (s_own s x) lx /\
    mseg (mutexes s') (s_own s' c) lx /\ mseg (mutexes s') (s_own s' x) [m].
Proof.
  split; [by vm_compute|]. apply (handoff_mixes_lists (after demo_nested) (demo_mutex 1)).
  - apply after_ok. by vm_compute.
  - by vm_compute.
  - by vm_compute.
  - by vm_compute.
  - by vm_compute.
Defined.

(** C39: Ordinary system calls with nested locks hang the kernel: after
    [mixed_locks] a mutex links to itself in the running task's list, and when
    that task releases another mutex it owns, the search in
    [mutex_queue_remove] never ends, with interrupts masked. *)
Theorem nested_unlock_hangs :
  exec_all mixed_locks boot = Some mixed /\ is_running mixed = true /\
  s_owner mixed (demo_mutex 0) = Some (current_task mixed) /\
  exec demo_layout demo_wrapper (EUnlock (demo_mutex 0)) mixed = Trap Diverge /\
  s_own mixed (current_task mixed) = demo_mutex 2 /\
  forall fuel prev s, mutexes s !! demo_mutex 2 = mutexes mixed !! demo_mutex 2 ->
    mutex_queue_remove_loop fuel (demo_mutex 0) (demo_mutex 2) prev s = Trap Diverge.
Proof.
  split_and!; [by vm_compute..|]. intros fuel prev s E.
  apply self_link_diverges; rewrite ?E; [|by vm_compute|by vm_compute|].
  - unfold s_next. rewrite E. by vm_compute.
  - apply (bool_decide_eq_true (is_Some (mutexes mixed !! demo_mutex 2))). by vm_compute.
Qed.

(** [mutex_unlock_all_owned] releases only the first mutex of a list: it
    reads the link after [mutex_unlock] cleared it.  So a task that ends with
    two mutexes leaves the second locked, and the next task in its slot is
    taken for its owner. *)
Theorem unlock_all_releases_first s m1 m2 :
  let c := current_task s in
  kernel_ok s -> is_running s = true -> s_own s c = m1 -> s_next s m1 = m2 ->
  m1 <> NULL -> m2 <> NULL -> queue_head (QMutex m1) s = NULL ->
  exists s', mutex_unlock_all_owned m1 s = Ok (tt, s') /\
    s_owner s' m1 = Some NULL /\ s_owner s' m2 = Some c.
Proof. apply unlock_all_core. Qed.

(** Slot 1 holds mutexes 1 and 0 and nobody waits. *)
Definition demo_two : list event :=
  [ ECreate 255 0 0; ECreate 9 0 0; EPendSV 1; ELock (demo_mutex 0); ELock (demo_mutex 1) ].

Lemma unlock_all_releases_first_witness :
  let s := after demo_two in let c := current_task s in
  (exists s', mutex_unlock_all_owned (demo_mutex 1) s = Ok (tt, s') /\
     s_owner s' (demo_mutex 1) = Some NULL /\ s_owner s' (demo_mutex 0) = Some c) /\
  s_owner recycled (demo_mutex 0) = Some (current_task recycled).
Proof.
  split; [|by vm_compute]. apply (unlock_all_releases_first (after demo_two));
    [apply after_ok; by vm_compute|by vm_compute..].
Defined.
