(* ===== verification/ObjectProps.v ===== *)
(** * Theorems: queues, semaphores, contexts and slots

    The properties of the single kernel objects, each with a witness. *)
From S2P Require Import Prelude KState Queue Abs Scheduler Sleep Semaphore Invariant Mutex Pool.
From S2P Require Import Tcb Preserve Inherit Kernel Spec Boot Guarantees Objects.

(** Inserting a task in a sorted priority queue puts it behind every task
    of the same or a higher priority and in front of every task of a lower
    one, so tasks of equal priority take turns; only links change. *)
Theorem priority_push_stable T q l x t :
  let k := key_of t_effective_priority T in
  queue_rep T q l -> T !! x = Some t -> x <> NULL -> (x ∉ l) -> ordered k l ->
  exists T' q' l1 l2, priority_queue_push x (T, q) = Ok (tt, (T', q')) /\
    l = l1 ++ l2 /\ queue_rep T' q' (l1 ++ x :: l2) /\
    Forall (fun y => k y <= k x) l1 /\ Forall (fun y => k x < k y) l2 /\
    links_only (x :: l) T T'.
Proof.
  intros k Hq Ht Hx Hxl Hord.
  destruct (keyed_push_ok t_effective_priority ltac:(done) T q l x t Hq Ht Hx Hxl)
    as (T' & q' & E & Hq' & Hl').
  destruct (ins_behind k x l Hord) as (l1 & l2 & -> & Ei & H1 & H2). fold k in Hq'.
  rewrite Ei in Hq'. exists T', q', l1, l2. by split_and!.
Qed.

(** Tasks 4, 8, 12 of priorities 1, 5, 9 are queued and 16, of priority 5, is
    not. *)
Definition demo_prio (p : Z) (next : ptr) : tcb :=
  set_t_next next (set_t_effective_priority p blank_task).
Definition demo_queue : gmap ptr tcb :=
  <[4 := demo_prio 1 8]> (<[8 := demo_prio 5 12]> (<[12 := demo_prio 9 NULL]>
    (<[16 := demo_prio 5 NULL]> ∅))).

Lemma priority_push_stable_witness :
  let k := key_of t_effective_priority demo_queue in
  exists T' q' l1 l2, priority_queue_push 16 (demo_queue, TcbList 4 12) = Ok (tt, (T', q')) /\
    [4; 8; 12] = l1 ++ l2 /\ queue_rep T' q' (l1 ++ 16 :: l2) /\
    Forall (fun y => k y <= k 16) l1 /\ Forall (fun y => k 16 < k y) l2 /\
    links_only [16; 4; 8; 12] demo_queue T'.
Proof.
  apply (priority_push_stable demo_queue (TcbList 4 12) [4; 8; 12] 16 (demo_prio 5 NULL)).
  - split_and!; cbn; try by vm_compute.
    + split; [done|]. split; [done|]. eexists. split; [by vm_compute|]. cbn.
      split; [done|]. split; [done|]. eexists. split; [by vm_compute|]. cbn.
      split; [done|]. split; [done|]. eexists. split; by vm_compute.
    + by apply (bool_decide_eq_true (NoDup [4; 8; 12])); vm_compute.
  - by vm_compute.
  - done.
  - by apply (bool_decide_eq_true (16 ∉ [4; 8; 12])); vm_compute.
  - repeat constructor; by vm_compute.
Defined.

(** C19: [semaphore_wait] refines its list-level specification: with a positive
    count it takes a unit and returns SEM_OK; with count zero the caller is
    blocked at the end of the wait queue and is told to yield; a semaphore
    that is not open is refused. *)
Theorem semaphore_wait_refines s a p :
  Abs s a -> kinv a -> kcur a -> running a -> known_sem a p ->
  exists s', semaphore_wait p s = Ok ((wait_spec p a).1, s') /\ Abs s' (wait_spec p a).2.
Proof. intros Hs Ha Hc Hr Hp. exact (wait_implements p s a Hs Ha Hc (conj Hr Hp)). Qed.

(** Slot 1 runs and semaphore 0 is open with count 0. *)
Definition demo_semaphore : list event :=
  [ ECreate 255 0 0; ECreate 9 0 0; EPendSV 1; ESemInit (demo_sem 0) 0 ].

Lemma semaphore_wait_refines_witness :
  exists a s', Abs (after demo_semaphore) a /\
    semaphore_wait (demo_sem 0) (after demo_semaphore) =
      Ok ((wait_spec (demo_sem 0) a).1, s') /\ Abs s' (wait_spec (demo_sem 0) a).2.
Proof.
  destruct (after_ok demo_semaphore) as (a & Hs & Ha & Hc); [by vm_compute|]. exists a.
  destruct (semaphore_wait_refines (after demo_semaphore) a (demo_sem 0) Hs Ha Hc) as (s' & ?).
  - apply (view_running _ _ Hs). by vm_compute.
  - apply (view_known_sem _ _ Hs). by vm_compute.
  - exists s'. split; [exact Hs|done].
Defined.

(** C20: [semaphore_post] refines its list-level specification: the task that
    waits longest becomes ready and leaves the wait queue, the count of units
    staying 0; without a waiter the count goes up, modulo 2^32; a semaphore
    that is not open is refused. *)
Theorem semaphore_post_refines s a p :
  Abs s a -> kinv a -> kcur a -> known_sem a p ->
  exists s', semaphore_post p s = Ok ((post_spec p a).1, s') /\ Abs s' (post_spec p a).2.
Proof. intros Hs Ha Hc Hp. exact (post_implements p s a Hs Ha Hc Hp). Qed.

(** Slot 1 waits for semaphore 0 and the idle task runs. *)
Definition demo_waiter : list event := demo_semaphore ++ [EWait (demo_sem 0); EPendSV 2].

Lemma semaphore_post_refines_witness :
  exists a s', Abs (after demo_waiter) a /\
    semaphore_post (demo_sem 0) (after demo_waiter) =
      Ok ((post_spec (demo_sem 0) a).1, s') /\ Abs s' (post_spec (demo_sem 0) a).2.
Proof.
  destruct (after_ok demo_waiter) as (a & Hs & Ha & Hc); [by vm_compute|]. exists a.
  destruct (semaphore_post_refines (after demo_waiter) a (demo_sem 0) Hs Ha Hc) as (s' & ?).
  - apply (view_known_sem _ _ Hs). by vm_compute.
  - exists s'. split; [exact Hs|done].
Defined.

(** [semaphore_close] does not wake the tasks that wait: it takes them out
    of the wait queue but leaves them blocked, so [scheduler_put_task] refuses
    them; afterwards they are in no queue at all and wait for nothing. *)
Theorem semaphore_close_strands s p :
  kernel_ok s -> is_sem s p = true ->
  exists s' Q, semaphore_close p s = Ok (tt, s') /\ kernel_ok s' /\
    (forall r, holds s' r (Q r)) /\
    forall x t, tasks s !! x = Some t -> place t = Some (QSem p) ->
      (exists t', tasks s' !! x = Some t' /\ t_state t' = TASK_BLOCKED /\
         t_waiting_on_type t' = NONE) /\ forall r, (x ∉ Q r).
Proof. apply close_strands_core. Qed.

Lemma semaphore_close_strands_witness :
  let s := after demo_waiter in let p := demo_sem 0 in
  place (tcb_at s 1) = Some (QSem p) /\
  exists s' Q, semaphore_close p s = Ok (tt, s') /\ kernel_ok s' /\
    (forall r, holds s' r (Q r)) /\
    forall x t, tasks s !! x = Some t -> place t = Some (QSem p) ->
      (exists t', tasks s' !! x = Some t' /\ t_state t' = TASK_BLOCKED /\
         t_waiting_on_type t' = NONE) /\ forall r, (x ∉ Q r).
Proof.
  split; [by vm_compute|].
  apply (semaphore_close_strands (after demo_waiter)); [apply after_ok; by vm_compute|by vm_compute].
Defined.

(** C22: A context survives a switch: restoring from where PendSV saved it gives
    back R4-R11, the exception return value, the stack pointer and, when the
    exception frame has floating-point state, S16-S31. *)
Theorem context_roundtrip psp x mem s :
  length (x_r4_r11 x) = 8%nat -> length (x_s16_s31 x) = 16%nat ->
  context_restore (context_save psp x mem).1 s (context_save psp x mem).2 =
    Some (MkContext (x_r4_r11 x) (x_lr x) (if fpu_frame (x_lr x) then x_s16_s31 x else s), psp).
Proof.
  intros Hr Hf. pose proof (context_save_restore psp x mem s Hr Hf) as H.
  by destruct (context_save psp x mem).
Qed.

Definition demo_context : context :=
  MkContext [4; 5; 6; 7; 8; 9; 10; 11] 0xFFFFFFED (seqZ 16 16).

Lemma context_roundtrip_witness :
  fpu_frame (x_lr demo_context) = true /\
  context_restore (context_save 0x20001000 demo_context ∅).1 []
    (context_save 0x20001000 demo_context ∅).2 =
    Some (MkContext (x_r4_r11 demo_context) (x_lr demo_context)
      (if fpu_frame (x_lr demo_context) then x_s16_s31 demo_context else []), 0x20001000).
Proof. split; [by vm_compute|]. by apply (context_roundtrip 0x20001000 demo_context ∅ []). Defined.

(** C21: A new task gets the first slot that is unused or finished, or NULL when
    there is none.  Its base and effective priority are the argument modulo
    256, it owns no mutex, it is ready, and its stack holds the frame from
    which the first switch enters [task_wrapper(func, args)]. *)
Theorem create_claims_first (L : layout) (tw : ptr) s prio func args :
  layout_ok L -> kernel_ok s ->
  (forall k, (k < N_TASKS)%nat -> is_Some (tasks s !! task_slot L k)) ->
  exists s', task_create L tw prio func args s =
      Ok (slot_ptr (task_slot L) (first_slot (dead_slot L s) N_TASKS 0), s') /\ kernel_ok s' /\
    forall i, first_slot (dead_slot L s) N_TASKS 0 = Some i ->
      exists t, tasks s' !! task_slot L i = Some t /\ place t = Some QReady /\
        t_base_priority t = u8 prio /\ t_effective_priority t = u8 prio /\
        t_owned_mutexes t = NULL /\ t_sp t = task_stack L i + TASK_STACK_SIZE - 68 /\
        load_words (t_sp t) 17 (stack_mem s') = Some (frame_words tw func args).
Proof. apply create_claims_core. Qed.

Lemma create_claims_first_witness :
  let L := demo_layout in let s := after demo_waiter in
  first_slot (dead_slot L s) N_TASKS 0 = Some 2%nat /\
  exists s', task_create L demo_wrapper 300 7 9 s =
      Ok (slot_ptr (task_slot L) (first_slot (dead_slot L s) N_TASKS 0), s') /\ kernel_ok s' /\
    forall i, first_slot (dead_slot L s) N_TASKS 0 = Some i ->
      exists t, tasks s' !! task_slot L i = Some t /\ place t = Some QReady /\
        t_base_priority t = u8 300 /\ t_effective_priority t = u8 300 /\
        t_owned_mutexes t = NULL /\ t_sp t = task_stack L i + TASK_STACK_SIZE - 68 /\
        load_words (t_sp t) 17 (stack_mem s') = Some (frame_words demo_wrapper 7 9).
Proof.
  split; [by vm_compute|]. apply (create_claims_first demo_layout demo_wrapper (after demo_waiter)).
  - apply demo_layout_ok.
  - apply after_ok. by vm_compute.
  - intros k Hk. apply (bool_decide_eq_true (is_Some (tasks (after demo_waiter) !! task_slot demo_layout k))).
    unfold N_TASKS in Hk. do 8 (destruct k as [|k]; [by vm_compute|]). lia.
Defined.

(** [get_socket] accepts the index 8, one more than there are sockets: the
    result points behind the array, and [validate_socket], which only checks
    the distance to the array modulo the size, accepts it too.  All smaller
    indices give the sockets, all larger ones NULL. *)
Theorem get_socket_off_by_one L n :
  layout_ok L -> socket_slot L 9 <= 2 ^ 32 -> 0 <= n < 256 ->
  (get_socket L n <> NULL <-> n <= Z.of_nat N_SOCKETS) /\
  (n <= Z.of_nat N_SOCKETS ->
     get_socket L n = socket_slot L (Z.to_nat n) /\ validate_socket L (get_socket L n) = true).
Proof.
  intros HL He Hn. pose proof (lo_socket _ HL) as Hz. pose proof (lo_sockets _ HL) as Hp.
  unfold get_socket, N_SOCKETS. split.
  - destruct (Z.gtb_spec n (Z.of_nat 8)) as [H|H]; [split; [done|lia]|].
    split; [lia|intros _]. unfold socket_slot, NULL. nia.
  - intros H. destruct (Z.gtb_spec n (Z.of_nat 8)) as [H'|H']; [lia|]. split; [done|].
    apply (validate_member _ _ _ 9); [done|lia|exact He|lia].
Qed.

Lemma get_socket_off_by_one_witness :
  (get_socket demo_layout 8 <> NULL <-> 8 <= Z.of_nat N_SOCKETS) /\
  (8 <= Z.of_nat N_SOCKETS ->
     get_socket demo_layout 8 = socket_slot demo_layout 8 /\
     validate_socket demo_layout (get_socket demo_layout 8) = true).
Proof.
  apply (get_socket_off_by_one demo_layout 8); [apply demo_layout_ok|by vm_compute|lia].
Defined.
