(* ===== verification/Heap.v ===== *)
(** * The heap ([heap.c])

    First-fit allocation in a list of blocks with immediate coalescing.  A
    block is a header of 16 bytes and its payload; the headers are kept in a
    map from their addresses.  The contents of the payloads are not modelled:
    the allocator neither reads nor writes them. *)
From S2P Require Import Prelude.

Definition HEAP_ALIGMENT : Z := 8.
(** [(size + 7) & ~7] on [uint32_t]. *)
Definition align (size : Z) : Z := Z.land (u32 (size + HEAP_ALIGMENT - 1)) (u32 (Z.lnot (HEAP_ALIGMENT - 1))).

Record heap_block : Type := HB {
  b_size : Z; (* uint32_t *)
  b_next : ptr;
  b_prev : ptr;
  b_free : Z; (* uint8_t *)
}.
Definition sizeof_heap_block : Z := 16.

Definition set_b_size (v : Z) (b : heap_block) : heap_block := HB v (b_next b) (b_prev b) (b_free b).
Definition set_b_next (v : ptr) (b : heap_block) : heap_block := HB (b_size b) v (b_prev b) (b_free b).
Definition set_b_prev (v : ptr) (b : heap_block) : heap_block := HB (b_size b) (b_next b) v (b_free b).
Definition set_b_free (v : Z) (b : heap_block) : heap_block := HB (b_size b) (b_next b) (b_prev b) v.

Record heap : Type := Heap {
  heap_head : ptr;
  h_blocks : gmap ptr heap_block;
  h_primask : Z;
}.
Abbreviation HM := (prog heap).

Definition set_heap_head (v : ptr) (h : heap) : heap := Heap v (h_blocks h) (h_primask h).
Definition set_h_blocks (v : gmap ptr heap_block) (h : heap) : heap := Heap (heap_head h) v (h_primask h).
Definition set_h_primask (v : Z) (h : heap) : heap := Heap (heap_head h) (h_blocks h) v.

(** ** The code *)

Definition heap_irq_save : HM Z := p ← gets h_primask; modify (set_h_primask 1);; mret p.
Definition heap_irq_restore (p : Z) : HM unit := modify (set_h_primask p).

Definition rd_block {A} (x : ptr) (f : heap_block -> A) : HM A :=
  fetch (fun h => f <$> h_blocks h !! x).
Definition upd_block (x : ptr) (f : heap_block -> heap_block) : HM unit :=
  b ← fetch (fun h => h_blocks h !! x);
  modify (fun h => set_h_blocks (<[x := f b]> (h_blocks h)) h).
(** A header is written where there was payload. *)
Definition new_block (x : ptr) (b : heap_block) : HM unit :=
  modify (fun h => set_h_blocks (<[x := b]> (h_blocks h)) h).

Definition heap_init (heap_start heap_size : Z) : HM unit :=
  modify (set_heap_head heap_start);;
  new_block heap_start (HB (u32 (heap_size - sizeof_heap_block)) NULL NULL 1).

(** The search visits each block at most once. *)
Definition heap_fuel : HM nat := gets (fun h => S (size (h_blocks h))).

Fixpoint kmalloc_loop (fuel : nat) (size : Z) (tmp : ptr) : HM ptr :=
  match fuel with
  | O => raise Diverge
  | S fuel =>
      if tmp =? NULL then mret NULL
      else
        free ← rd_block tmp b_free;
        tsize ← rd_block tmp b_size;
        if negb (free =? 0) && (tsize >=? size) then
          whenb (tsize >=? u32 (size + sizeof_heap_block + HEAP_ALIGMENT))
            (let nb := tmp + sizeof_heap_block + size in
             next ← rd_block tmp b_next;
             new_block nb (HB (u32 (tsize - size - sizeof_heap_block)) next tmp 1);;
             upd_block tmp (set_b_size size);;
             upd_block tmp (set_b_next nb));;
          upd_block tmp (set_b_free 0);;
          mret (tmp + sizeof_heap_block)
        else
          next ← rd_block tmp b_next;
          kmalloc_loop fuel size next
  end.

Definition kmalloc (size : Z) : HM ptr :=
  if size =? 0 then mret NULL
  else
    let size := align size in
    irq_state ← heap_irq_save;
    fuel ← heap_fuel;
    tmp ← gets heap_head;
    ret ← kmalloc_loop fuel size tmp;
    heap_irq_restore irq_state;;
    mret ret.

Definition SIZE_MAX : Z := 0xFFFFFFFF.

Definition kcalloc (count size : Z) : HM ptr :=
  if negb (count =? 0) && (size >? SIZE_MAX / count) then mret NULL
  else kmalloc (u32 (count * size)).

(** [block] takes in the block behind it. *)
Definition merge_next (block next : ptr) : HM unit :=
  nsize ← rd_block next b_size;
  size ← rd_block block b_size;
  upd_block block (set_b_size (u32 (size + u32 (sizeof_heap_block + nsize))));;
  nnext ← rd_block next b_next;
  upd_block block (set_b_next nnext);;
  whenb (negb (nnext =? NULL)) (upd_block nnext (set_b_prev block)).

Definition coalesce_next (block : ptr) : HM unit :=
  next ← rd_block block b_next;
  if next =? NULL then mret tt
  else
    free ← rd_block next b_free;
    whenb (negb (free =? 0)) (merge_next block next).

Definition coalesce_prev (block : ptr) : HM unit :=
  prev ← rd_block block b_prev;
  if prev =? NULL then mret tt
  else
    free ← rd_block prev b_free;
    whenb (negb (free =? 0)) (merge_next prev block).

Definition kfree (p : ptr) : HM unit :=
  if p =? NULL then mret tt
  else
    irq_state ← heap_irq_save;
    let block := p - sizeof_heap_block in
    upd_block block (set_b_free 1);;
    coalesce_next block;;
    coalesce_prev block;;
    heap_irq_restore irq_state.

Fixpoint heap_free_size_loop (fuel : nat) (tmp : ptr) (size : Z) : HM Z :=
  match fuel with
  | O => raise Diverge
  | S fuel =>
      if tmp =? NULL then mret size
      else
        free ← rd_block tmp b_free;
        tsize ← rd_block tmp b_size;
        next ← rd_block tmp b_next;
        heap_free_size_loop fuel next (if negb (free =? 0) then u32 (size + tsize) else size)
  end.

Definition heap_free_size : HM Z :=
  fuel ← heap_fuel;
  tmp ← gets heap_head;
  heap_free_size_loop fuel tmp 0.
