(* ===== verification/HeapSpec.v ===== *)
(** * The heap as a list of blocks

    The list-level specification of [heap.c]: the region is tiled by blocks of
    a size that are free or not.  [chain true] relates a heap to such a list
    with all its links; [chain false] leaves the [prev] links open, because
    [kmalloc] does not keep them. *)
From S2P Require Import Prelude Heap.

Abbreviation block := (Z * bool)%type.

Fixpoint chain (bk : bool) (M : gmap ptr heap_block) (q p : ptr) (l : list block) : Prop :=
  match l with
  | [] => p = NULL
  | (sz, fr) :: l' =>
      p <> NULL /\ exists b, M !! p = Some b /\ b_size b = sz /\ (b_free b =? 0) = negb fr /\
        (bk = true -> b_prev b = q) /\ (l' = [] \/ b_next b = p + 16 + sz) /\
        chain bk M p (b_next b) l'
  end.

Fixpoint extent (l : list block) : Z :=
  match l with [] => 0 | (sz, _) :: l' => 16 + sz + extent l' end.

(** The region [p .. p + extent l) lies in memory, and sizes are multiples of
    the alignment. *)
Record region (p : ptr) (l : list block) : Prop := {
  rg_base : 16 <= p;
  rg_end : p + extent l <= 2 ^ 32;
  rg_sizes : Forall (fun b : block => 0 <= b.1 /\ (8 | b.1)) l;
}.

(** First fit: the offset of the block taken and the new list. *)
Fixpoint amalloc (n : Z) (l : list block) : option (Z * list block) :=
  match l with
  | [] => None
  | (sz, fr) :: l' =>
      if fr && (n <=? sz) then
        Some (0, if n + 24 <=? sz then (n, false) :: (sz - n - 16, true) :: l' else (sz, false) :: l')
      else
        match amalloc n l' with
        | Some (o, l'') => Some (16 + sz + o, (sz, fr) :: l'')
        | None => None
        end
  end.

(** The block that is split has a block behind it. *)
Fixpoint splits_inside (n : Z) (l : list block) : bool :=
  match l with
  | [] => false
  | (sz, fr) :: l' =>
      if fr && (n <=? sz) then (n + 24 <=? sz) && negb (bool_decide (l' = []))
      else splits_inside n l'
  end.

(** Freeing the block of size [sz] between [l1] and [l2]. *)
Definition merge_right (sz : Z) (l2 : list block) : Z * list block :=
  match l2 with
  | (s, true) :: l2' => (sz + 16 + s, l2')
  | _ => (sz, l2)
  end.
Definition afree (l1 : list block) (sz : Z) (l2 : list block) : list block :=
  let '(sz, l2) := merge_right sz l2 in
  match last l1 with
  | Some (s, true) => removelast l1 ++ (s + 16 + sz, true) :: l2
  | _ => l1 ++ (sz, true) :: l2
  end.

Definition free_size (l : list block) : Z :=
  foldr (fun (b : block) acc => (if b.2 then b.1 else 0) + acc) 0 l.

(** ** Lists of blocks *)

Lemma region_inv p sz fr l :
  region p ((sz, fr) :: l) ->
  0 <= sz /\ (8 | sz) /\ 16 <= p /\ p + 16 + sz + extent l <= 2 ^ 32 /\ 0 <= extent l /\
  region (p + 16 + sz) l.
Proof.
  intros [Hb He [[Hs Hd] Hl]%Forall_cons]. cbn in *.
  assert (0 <= extent l) as Hx.
  { clear He. induction Hl as [|[s f] l [? _] _ IH]; cbn in *; lia. }
  split_and!; try done; try lia. split; [lia|lia|done].
Qed.

Lemma extent_app l1 l2 : extent (l1 ++ l2) = extent l1 + extent l2.
Proof. induction l1 as [|[s f] l1 IH]; cbn; lia. Qed.

Lemma region_extent p l : region p l -> 0 <= extent l.
Proof. destruct l as [|[s f] l]; [cbn; lia|]. intros H%region_inv. cbn. lia. Qed.

Lemma chain_ext bk M M' q p l :
  region p l ->
  (forall x, p <= x < p + extent l -> M' !! x = M !! x) -> chain bk M q p l -> chain bk M' q p l.
Proof.
  revert q p. induction l as [|[sz fr] l IH]; intros q p Hr Hx; [done|].
  apply region_inv in Hr as (Hs & _ & Hp & He & Hx0 & Hr). cbn in *.
  intros (Hp0 & b & Hb & ? & ? & ? & Hn & Hl). split; [done|]. exists b.
  rewrite Hx by lia. split_and!; try done.
  destruct l as [|c l]; [done|]. destruct Hn as [?|Hn]; [done|]. rewrite Hn in *.
  apply IH; [done| |done]. intros x Hxx. apply Hx. lia.
Qed.

Lemma chain_weaken M q p l : chain true M q p l -> chain false M q p l.
Proof.
  revert q p. induction l as [|[sz fr] l IH]; intros q p; [done|]. cbn.
  intros (? & b & ? & ? & ? & ? & ? & ?). split; [done|]. exists b. split_and!; auto.
Qed.

Lemma chain_next bk M q p sz fr l b :
  chain bk M q p ((sz, fr) :: l) -> M !! p = Some b ->
  b_next b = if bool_decide (l = []) then NULL else p + 16 + sz.
Proof.
  intros (_ & b' & Hb & _ & _ & _ & Hn & Hl) Hb'. simplify_eq.
  case_bool_decide as E; [by subst l|]. by destruct Hn.
Qed.

Lemma chain_fuel bk M q p l : region p l -> chain bk M q p l -> (length l <= size M)%nat.
Proof.
  intros Hr Hc.
  assert (exists X, NoDup X /\ length X = length l /\
    forall x, x ∈ X -> p <= x /\ x ∈ dom M) as (X & Hnd & <- & HX).
  { revert q p Hr Hc. induction l as [|[sz fr] l IH]; intros q p Hr Hc.
    { exists []. split_and!; [constructor|done|]. by intros x ?%elem_of_nil. }
    apply region_inv in Hr as (Hs & _ & Hp & _ & _ & Hr).
    destruct Hc as (Hp0 & b & Hb & _ & _ & _ & Hn & Hl).
    destruct l as [|c l].
    { exists [p]. split_and!; [apply NoDup_singleton|done|].
      intros x ->%list_elem_of_singleton. split; [lia|]. apply elem_of_dom. eauto. }
    destruct Hn as [?|Hn]; [done|]. rewrite Hn in Hl.
    destruct (IH _ _ Hr Hl) as (X & Hnd & Hlen & HX). exists (p :: X). split_and!.
    - constructor; [|done]. intros Hx. apply HX in Hx as [? _]. lia.
    - cbn. by rewrite Hlen.
    - intros x [->|Hx]%elem_of_cons; [split; [lia|apply elem_of_dom; eauto]|].
      apply HX in Hx as [? ?]. split; [lia|done]. }
  rewrite <- size_dom. apply NoDup_length_subset; [done|]. by intros x [_ ?]%HX.
Qed.

(** ** Running the code *)

Lemma rd_block_ok {A} x (f : heap_block -> A) b h :
  h_blocks h !! x = Some b -> rd_block x f h = Ok (f b, h).
Proof. intros E. unfold rd_block, fetch. by rewrite E. Qed.
Lemma upd_block_ok x g b h :
  h_blocks h !! x = Some b ->
  upd_block x g h = Ok (tt, set_h_blocks (<[x := g b]> (h_blocks h)) h).
Proof. intros E. unfold upd_block, mbind, prog_bind, fetch. by rewrite E. Qed.
Lemma new_block_ok x b h : new_block x b h = Ok (tt, set_h_blocks (<[x := b]> (h_blocks h)) h).
Proof. done. Qed.

(** One access to a header the context knows. *)
Ltac hlook :=
  cbn [h_blocks set_h_blocks heap_head h_primask];
  first [ eassumption | rewrite lookup_insert_eq; reflexivity
        | rewrite lookup_insert_ne by lia; hlook ].
Ltac hstep :=
  first
    [ erewrite prog_bind_ok by (apply rd_block_ok; hlook)
    | erewrite prog_bind_ok by (apply upd_block_ok; hlook)
    | erewrite prog_bind_ok by (apply new_block_ok)
    | erewrite prog_bind_ok by reflexivity ]; cbn beta.

(** ** kmalloc *)

(** One turn of the search, on a header that is there. *)
Lemma malloc_loop_step fuel n p b hd M pm :
  p <> NULL -> M !! p = Some b -> b_free b = 0 \/ b_size b < n ->
  kmalloc_loop (S fuel) n p (Heap hd M pm) = kmalloc_loop fuel n (b_next b) (Heap hd M pm).
Proof.
  intros Hp Hb Hc. cbn [kmalloc_loop]. rewrite (proj2 (Z.eqb_neq _ _) Hp). hstep. hstep.
  replace (negb (b_free b =? 0) && (b_size b >=? n)) with false; [by hstep|].
  symmetry. apply andb_false_iff. destruct Hc as [->|Hc]; [by left|right].
  rewrite Z.geb_leb. by apply Z.leb_gt.
Qed.

(** The block is taken whole. *)
Lemma malloc_loop_whole fuel n p b hd M pm :
  p <> NULL -> M !! p = Some b -> b_free b <> 0 -> n <= b_size b < u32 (n + 24) ->
  kmalloc_loop (S fuel) n p (Heap hd M pm) =
    Ok (p + 16, Heap hd (<[p := set_b_free 0 b]> M) pm).
Proof.
  intros Hp Hb Hf Hn. cbn [kmalloc_loop]. rewrite (proj2 (Z.eqb_neq _ _) Hp). hstep. hstep.
  rewrite (proj2 (Z.eqb_neq _ _) Hf), (proj2 (Z.geb_le _ _)) by lia.
  cbn [negb andb]. unfold sizeof_heap_block, HEAP_ALIGMENT.
  replace (n + 16 + 8) with (n + 24) by lia.
  replace (b_size b >=? u32 (n + 24)) with false
    by (symmetry; rewrite Z.geb_leb; apply Z.leb_gt; lia).
  cbn [whenb]. hstep. by hstep.
Qed.

(** The block is split. *)
Lemma malloc_loop_split fuel n p b hd M pm :
  p <> NULL -> M !! p = Some b -> b_free b <> 0 -> n <= b_size b -> u32 (n + 24) <= b_size b ->
  0 <= n ->
  kmalloc_loop (S fuel) n p (Heap hd M pm) =
    Ok (p + 16, Heap hd (<[p := HB n (p + 16 + n) (b_prev b) 0]>
      (<[p + 16 + n := HB (u32 (b_size b - n - 16)) (b_next b) p 1]> M)) pm).
Proof.
  intros Hp Hb Hf Hn Hs H0. cbn [kmalloc_loop]. rewrite (proj2 (Z.eqb_neq _ _) Hp). hstep. hstep.
  rewrite (proj2 (Z.eqb_neq _ _) Hf), (proj2 (Z.geb_le _ _)) by lia.
  cbn [negb andb]. unfold sizeof_heap_block, HEAP_ALIGMENT.
  replace (n + 16 + 8) with (n + 24) by lia.
  rewrite (proj2 (Z.geb_le _ _)) by lia. cbn [whenb].
  rewrite !prog_bind_assoc. do 4 (rewrite ?prog_bind_assoc; hstep). hstep.
  cbn [set_h_blocks h_blocks heap_head h_primask]. by rewrite !insert_insert_eq.
Qed.

Definition outside (p : ptr) (l : list block) (M M' : gmap ptr heap_block) : Prop :=
  forall x, x < p \/ p + extent l <= x -> M' !! x = M !! x.

(** The first block fits. *)
Lemma malloc_here bk fuel n q p sz l hd M pm :
  chain bk M q p ((sz, true) :: l) -> region p ((sz, true) :: l) -> 0 <= n <= sz ->
  (bk = true -> (n + 24 <=? sz) && negb (bool_decide (l = [])) = false) ->
  exists M', kmalloc_loop (S fuel) n p (Heap hd M pm) = Ok (p + 16, Heap hd M' pm) /\
    chain bk M' q p (if n + 24 <=? sz then (n, false) :: (sz - n - 16, true) :: l
                     else (sz, false) :: l) /\ outside p ((sz, true) :: l) M M'.
Proof.
  intros Hc Hr Hn Hk. apply region_inv in Hr as (Hs & _ & Hp & He & Hx & Hr).
  destruct Hc as (Hp0 & b & Hb & Es & Ef & Hq & Hnx & Hl).
  assert (b_free b <> 0) as Hf by (by apply Z.eqb_neq).
  assert (u32 (n + 24) = if n + 24 <=? sz then n + 24 else u32 (n + 24)) as Eu.
  { destruct (Z.leb_spec (n + 24) sz); [|done]. apply u32_small. lia. }
  destruct (Z.leb_spec (n + 24) sz) as [Hsp|Hsp].
  - exists (<[p := HB n (p + 16 + n) (b_prev b) 0]>
      (<[p + 16 + n := HB (u32 (b_size b - n - 16)) (b_next b) p 1]> M)).
    split; [apply malloc_loop_split; (done || lia)|]. split.
    2: { intros x Hxx. cbn in Hxx. rewrite !lookup_insert_ne by lia. done. }
    assert (forall l', l' = l -> bk = false \/ l' = [] -> chain bk
      (<[p := HB n (p + 16 + n) (b_prev b) 0]>
        (<[p + 16 + n := HB (u32 (b_size b - n - 16)) (b_next b) p 1]> M))
      (p + 16 + n) (b_next b) l') as Htail.
    { intros l' -> Hbk. destruct l as [|[s f] l]; [done|]. destruct Hnx as [?|Hnx]; [done|].
      destruct Hbk as [->|?]; [|done]. rewrite Hnx in *.
      eapply chain_ext; [done| |].
      - intros x Hxx. rewrite !lookup_insert_ne by lia. reflexivity.
      - destruct Hl as (? & b' & ? & ? & ? & _ & ? & ?). split; [done|]. exists b'. by split_and!. }
    split; [done|]. eexists. rewrite lookup_insert_eq. split_and!; [done..|by right|].
    split; [unfold NULL; cbn; lia|]. eexists. cbn [b_next].
    rewrite lookup_insert_ne, lookup_insert_eq by lia. split_and!; [done| |done|done| |].
    + cbn. rewrite Es. apply u32_small. lia.
    + cbn. destruct Hnx as [?| ->]; [by left|right; lia].
    + cbn [b_next]. apply Htail; [done|]. destruct bk; [|by left]. right.
      specialize (Hk eq_refl). cbn in Hk. apply negb_false_iff, bool_decide_eq_true in Hk. done.
  - exists (<[p := set_b_free 0 b]> M). split; [apply malloc_loop_whole; try done|].
    { unfold sizeof_heap_block in *. split; [lia|]. rewrite u32_small; lia. }
    split.
    + split; [done|]. eexists. rewrite lookup_insert_eq. split_and!; [done..|].
      cbn [b_next set_b_free]. destruct l as [|[s f] l]; [done|]. destruct Hnx as [?|Hnx]; [done|].
      rewrite Hnx in *. eapply chain_ext; [done| |done]. intros x Hxx.
      rewrite !lookup_insert_ne by lia. reflexivity.
    + intros x Hxx. cbn in Hxx. by rewrite lookup_insert_ne by lia.
Qed.

Lemma malloc_loop_ok bk n q p l hd M pm fuel :
  chain bk M q p l -> region p l -> 0 <= n -> (length l < fuel)%nat ->
  (bk = true -> splits_inside n l = false) ->
  match amalloc n l with
  | Some (o, l') => exists M', kmalloc_loop fuel n p (Heap hd M pm) =
      Ok (p + o + 16, Heap hd M' pm) /\ chain bk M' q p l' /\ outside p l M M'
  | None => kmalloc_loop fuel n p (Heap hd M pm) = Ok (NULL, Heap hd M pm)
  end.
Proof.
  revert q p fuel. induction l as [|[sz fr] l IH]; intros q p fuel Hc Hr Hn Hf Hk;
    (destruct fuel as [|fuel]; [cbn in Hf; lia|]).
  { cbn in Hc. by subst p. }
  cbn [amalloc splits_inside length] in *. destruct (fr && (n <=? sz)) eqn:E.
  - apply andb_true_iff in E as [-> Hle]. apply Z.leb_le in Hle.
    destruct (malloc_here bk fuel n q p sz l hd M pm Hc Hr) as (M' & E & Hc' & Ho); [lia|done|].
    exists M'. by replace (p + 0 + 16) with (p + 16) by lia.
  - pose proof Hr as (Hs & _ & Hp & He & Hx & Hr')%region_inv.
    pose proof Hc as (Hp0 & b & Hb & Es & Ef & Hq & Hnx & Hl).
    assert (b_free b = 0 \/ b_size b < n) as Hno.
    { apply andb_false_iff in E as [->|Hle]; [|apply Z.leb_gt in Hle; lia]. left. by apply Z.eqb_eq. }
    rewrite (malloc_loop_step _ _ _ _ _ _ _ Hp0 Hb Hno).
    destruct l as [|c l].
    { cbn in *. subst. destruct fuel; [lia|]. by rewrite Hl. }
    destruct Hnx as [?|Hnx]; [done|]. rewrite Hnx in *.
    specialize (IH _ _ fuel Hl Hr' Hn ltac:(lia) Hk).
    destruct (amalloc n (c :: l)) as [[o l']|] eqn:Ea; [|done].
    destruct IH as (M' & IH & Hc' & Ho). exists M'. split_and!.
    + rewrite IH. do 2 f_equal. lia.
    + split; [done|]. exists b. split_and!; try done.
      * rewrite Ho; [done|lia].
      * by right.
      * by rewrite Hnx.
    + intros x Hxx. apply Ho. cbn [extent] in *. lia.
Qed.

(** ** kfree *)

(** The address of the block in front of the one behind [l1]. *)
Fixpoint pred_of (q p : ptr) (l1 : list block) : ptr :=
  match l1 with [] => q | (sz, _) :: l1 => pred_of p (p + 16 + sz) l1 end.

Lemma pred_of_snoc q p l1 s f : pred_of q p (l1 ++ [(s, f)]) = p + extent l1.
Proof.
  revert q p. induction l1 as [|[s' f'] l1 IH]; intros q p; cbn; [lia|]. rewrite IH. lia.
Qed.

Lemma region_app p l1 l2 : region p (l1 ++ l2) -> region (p + extent l1) l2 /\ 0 <= extent l1.
Proof.
  revert p. induction l1 as [|[s f] l1 IH]; intros p; cbn; [by rewrite Z.add_0_r|].
  intros (? & _ & ? & _ & _ & Hr)%region_inv. destruct (IH _ Hr) as [? ?].
  split; [|lia]. by replace (p + (16 + s + extent l1)) with (p + 16 + s + extent l1) by lia.
Qed.

Lemma chain_suffix bk M q p l1 c l2 :
  chain bk M q p (l1 ++ c :: l2) -> chain bk M (pred_of q p l1) (p + extent l1) (c :: l2).
Proof.
  revert q p. induction l1 as [|[s f] l1 IH]; intros q p; [by rewrite Z.add_0_r|].
  cbn [app chain pred_of extent]. intros (_ & b & _ & _ & _ & _ & Hn & Hl).
  destruct Hn as [E|Hn]; [by destruct l1|]. rewrite Hn in Hl. apply IH in Hl.
  by replace (p + (16 + s + extent l1)) with (p + 16 + s + extent l1) by lia.
Qed.

Lemma chain_splice bk M M' q p l1 c l2 c' l2' :
  region p (l1 ++ c :: l2) -> chain bk M q p (l1 ++ c :: l2) ->
  (forall x, p <= x < p + extent l1 -> M' !! x = M !! x) ->
  chain bk M' (pred_of q p l1) (p + extent l1) (c' :: l2') ->
  chain bk M' q p (l1 ++ c' :: l2').
Proof.
  revert q p. induction l1 as [|[s f] l1 IH]; intros q p Hr Hc Hx; [by rewrite Z.add_0_r|].
  pose proof (region_app p ((s, f) :: l1) _ Hr) as [_ He1].
  cbn [app chain pred_of extent] in *. destruct (region_inv _ _ _ _ Hr) as (? & _ & ? & _ & _ & Hr').
  destruct (region_app _ _ _ Hr') as [_ He].
  destruct Hc as (Hp & b & Hb & ? & ? & ? & Hn & Hl). intros Hc'.
  destruct Hn as [E|Hn]; [by destruct l1|]. split; [done|]. exists b.
  rewrite Hx by lia. rewrite Hn in *. split_and!; try done; [by right|].
  apply IH; [done|done| |].
  - intros x Hxx. apply Hx. lia.
  - by replace (p + 16 + s + extent l1) with (p + (16 + s + extent l1)) by lia.
Qed.

(** The block behind is merged in. *)
Lemma merge_ok q x s f sz l hd M pm :
  let l0 := (s, f) :: (sz, true) :: l in
  chain true M q x l0 -> region x l0 ->
  exists M', merge_next x (x + 16 + s) (Heap hd M pm) = Ok (tt, Heap hd M' pm) /\
    chain true M' q x ((s + 16 + sz, f) :: l) /\ outside x l0 M M'.
Proof.
  intros l0 Hc Hr. destruct (region_inv _ _ _ _ Hr) as (Hs & _ & Hx & He & _ & Hr2).
  destruct (region_inv _ _ _ _ Hr2) as (Hsz & _ & _ & _ & He2 & Hr3). cbn [extent] in He.
  destruct Hc as (Hx0 & b & Hb & Es & Ef & Hq & Hn & Hl). destruct Hn as [?|Hn]; [done|].
  rewrite Hn in Hl. destruct Hl as (Hy0 & c & Hcc & Ez & Ecf & Hcq & Hcn & Hl).
  set (y := x + 16 + s) in *.
  set (b' := set_b_next (b_next c) (set_b_size (s + 16 + sz) b)).
  assert (merge_next x y (Heap hd M pm) =
    whenb (negb (b_next c =? NULL)) (upd_block (b_next c) (set_b_prev x)) (Heap hd (<[x := b']> M) pm)) as E.
  { unfold merge_next. do 5 hstep. cbn [set_h_blocks h_blocks heap_head h_primask].
    rewrite insert_insert_eq. do 2 f_equal. unfold b', sizeof_heap_block. rewrite Es, Ez.
    by rewrite (u32_small (16 + sz)), (u32_small (s + (16 + sz))), Z.add_assoc by lia. }
  rewrite E. clear E. destruct l as [|[s3 f3] l].
  - cbn in Hl. rewrite Hl. cbn [negb Z.eqb NULL whenb]. eexists. split; [done|]. split.
    + split; [done|]. exists b'. rewrite lookup_insert_eq. split_and!; try done. by left.
    + intros z Hz. cbn in Hz. rewrite lookup_insert_ne by lia. done.
  - destruct Hcn as [?|Hcn]; [done|]. rewrite Hcn in *.
    pose proof Hl as (Hz0 & d & Hd & ? & ? & Hdq & Hdn & Hl').
    destruct (region_inv _ _ _ _ Hr3) as (? & _ & _ & ? & ? & Hr4).
    rewrite (proj2 (Z.eqb_neq _ _) Hz0). cbn [negb whenb].
    rewrite (upd_block_ok _ _ d) by (cbn [h_blocks]; rewrite lookup_insert_ne by lia; done).
    eexists. split; [done|]. cbn [h_blocks]. split.
    + split; [done|]. exists b'. rewrite lookup_insert_ne, lookup_insert_eq by lia.
      split_and!; try done; [right; cbn; rewrite ?Hcn; subst y; lia|]. cbn [b' b_next set_b_next]. rewrite Hcn. split; [done|]. eexists.
      rewrite lookup_insert_eq. split_and!; try done. cbn [b_next set_b_prev].
      destruct l as [|c4 l]; [done|]. destruct Hdn as [?|Hdn]; [done|]. rewrite Hdn in *.
      eapply chain_ext; [done| |done]. intros w Hw. rewrite !lookup_insert_ne by lia. reflexivity.
    + intros z Hz. cbn in Hz. rewrite !lookup_insert_ne by lia. done.
Qed.

Lemma coalesce_next_ok q x s l hd M pm :
  chain true M q x ((s, true) :: l) -> region x ((s, true) :: l) ->
  exists M', coalesce_next x (Heap hd M pm) = Ok (tt, Heap hd M' pm) /\
    chain true M' q x (((merge_right s l).1, true) :: (merge_right s l).2) /\
    outside x ((s, true) :: l) M M'.
Proof.
  intros Hc Hr. pose proof Hc as (Hx & b & Hb & Es & _ & _ & Hn & Hl).
  unfold coalesce_next. hstep. destruct l as [|[s2 f2] l].
  { cbn in Hl. rewrite Hl. by exists M. }
  destruct Hn as [?|Hn]; [done|]. rewrite Hn in *. pose proof Hl as (Hy & c & Hcc & _ & Ecf & _).
  rewrite (proj2 (Z.eqb_neq _ _) Hy). hstep. rewrite Ecf. destruct f2; cbn [negb whenb].
  - by apply merge_ok.
  - by exists M.
Qed.

Lemma coalesce_prev_none x b hd M pm :
  M !! x = Some b -> b_prev b = NULL -> coalesce_prev x (Heap hd M pm) = Ok (tt, Heap hd M pm).
Proof. intros Hb E. unfold coalesce_prev. hstep. by rewrite E. Qed.

Lemma coalesce_prev_ok q y s f sz l hd M pm :
  chain true M q y ((s, f) :: (sz, true) :: l) -> region y ((s, f) :: (sz, true) :: l) ->
  exists M', coalesce_prev (y + 16 + s) (Heap hd M pm) = Ok (tt, Heap hd M' pm) /\
    chain true M' q y (if f then (s + 16 + sz, true) :: l else (s, false) :: (sz, true) :: l) /\
    outside y ((s, f) :: (sz, true) :: l) M M'.
Proof.
  intros Hc Hr. pose proof Hc as (Hy & c & Hcc & Es & Ecf & _ & Hn & Hl).
  destruct Hn as [?|Hn]; [done|]. rewrite Hn in *. pose proof Hl as (Hx & b & Hb & _ & _ & Hq & _).
  unfold coalesce_prev. hstep. rewrite Hq by done. rewrite (proj2 (Z.eqb_neq _ _) Hy). hstep.
  rewrite Ecf. destruct f; cbn [negb whenb].
  - by apply merge_ok.
  - by exists M.
Qed.

(** A heap that represents the list [l] of blocks from [base]. *)
Record heap_rep (bk : bool) (h : heap) (base : ptr) (l : list block) : Prop := {
  hr_head : heap_head h = base;
  hr_region : region base l;
  hr_chain : chain bk (h_blocks h) NULL base l;
}.

Lemma merge_right_region p s f l :
  region p ((s, f) :: l) -> region p (((merge_right s l).1, f) :: (merge_right s l).2) /\
    extent (((merge_right s l).1, f) :: (merge_right s l).2) = extent ((s, f) :: l).
Proof.
  intros Hr. destruct l as [|[s2 [|]] l]; cbn [merge_right fst snd]; [done| |done].
  cbn [extent]. split; [|lia]. destruct Hr as [H1 H2 [[H3 H4] [[H5 H6] H7]%Forall_cons]%Forall_cons].
  cbn in *. split; cbn; [done|lia|]. constructor; [|done]. cbn. split; [lia|].
  apply Z.divide_add_r; [|done]. apply Z.divide_add_r; [done|]. by exists 2.
Qed.

Lemma set_free_ok q x s f l M b :
  chain true M q x ((s, f) :: l) -> region x ((s, f) :: l) -> M !! x = Some b ->
  chain true (<[x := set_b_free 1 b]> M) q x ((s, true) :: l).
Proof.
  intros (Hx & b' & Hb' & ? & ? & ? & Hn & Hl) Hr Hb. simplify_eq.
  apply region_inv in Hr as (? & _ & ? & _ & _ & Hr). split; [done|]. eexists.
  rewrite lookup_insert_eq. split_and!; try done. cbn [b_next set_b_free].
  destruct l as [|c l]; [done|]. destruct Hn as [?|Hn]; [done|]. rewrite Hn in *.
  eapply chain_ext; [done| |done]. intros y Hy. rewrite lookup_insert_ne by lia. reflexivity.
Qed.

(** The tail from the freed block on, after it took in the block behind. *)
Lemma free_tail q x s l hd M pm :
  chain true M q x ((s, false) :: l) -> region x ((s, false) :: l) ->
  exists M', (upd_block x (set_b_free 1);; coalesce_next x) (Heap hd M pm) = Ok (tt, Heap hd M' pm) /\
    chain true M' q x (((merge_right s l).1, true) :: (merge_right s l).2) /\
    outside x ((s, false) :: l) M M'.
Proof.
  intros Hc Hr. pose proof Hc as (Hx & b & Hb & _).
  assert (region x ((s, true) :: l)) as Hr'.
  { destruct Hr as [? ? [? ?]%Forall_cons]. split; [done|done|]. by constructor. }
  pose proof (set_free_ok _ _ _ _ _ _ _ Hc Hr Hb) as Hc'.
  destruct (coalesce_next_ok q x s l hd _ pm Hc' Hr') as (M' & E & Hc2 & Ho).
  exists M'. split.
  - erewrite prog_bind_ok by (apply upd_block_ok; hlook). exact E.
  - split; [done|]. intros y Hy. rewrite Ho by done. destruct Hy as [?|Hy]; [by rewrite lookup_insert_ne by lia|].
    apply region_inv in Hr as (? & _ & ? & _ & ? & _). cbn in Hy. by rewrite lookup_insert_ne by lia.
Qed.

Lemma region_splice p l1 l2 l2' :
  region p (l1 ++ l2) -> region (p + extent l1) l2' -> extent l2' = extent l2 ->
  region p (l1 ++ l2').
Proof.
  intros [H1 H2 [H3 H4]%Forall_app] [_ _ H5] E. rewrite extent_app in H2.
  split; [done|rewrite extent_app; lia|]. by apply Forall_app.
Qed.

Lemma kfree_tail base l1 sz l2 hd M pm :
  chain true M NULL base (l1 ++ (sz, false) :: l2) -> region base (l1 ++ (sz, false) :: l2) ->
  let l' := l1 ++ ((merge_right sz l2).1, true) :: (merge_right sz l2).2 in
  let x := base + extent l1 in
  exists M', (upd_block x (set_b_free 1);; coalesce_next x) (Heap hd M pm) = Ok (tt, Heap hd M' pm) /\
    chain true M' NULL base l' /\ region base l'.
Proof.
  intros Hc Hr l' x. destruct (region_app _ _ _ Hr) as [Hr2 He].
  destruct (free_tail _ _ _ _ hd _ pm (chain_suffix _ _ _ _ _ _ _ Hc) Hr2) as (M' & E & Hc' & Ho).
  exists M'. split; [done|]. split.
  - eapply chain_splice; [done|done| |done]. intros y Hy. apply Ho. lia.
  - destruct (merge_right_region _ _ _ _ Hr2) as [Hr3 Ee]. eapply region_splice; [done| |done].
    destruct Hr3 as [? ? [[] ?]%Forall_cons]. by split; [| |constructor].
Qed.

Lemma kfree_ok base l1 sz l2 h :
  heap_rep true h base (l1 ++ (sz, false) :: l2) ->
  exists h', kfree (base + extent l1 + 16) h = Ok (tt, h') /\
    heap_rep true h' base (afree l1 sz l2) /\ h_primask h' = h_primask h.
Proof.
  destruct h as [hd M pm]. intros [Eh Hr Hc]. cbn [heap_head h_blocks h_primask] in *. subst hd.
  destruct (region_app _ _ _ Hr) as [Hr2 He]. pose proof (rg_base _ _ Hr2) as Hb.
  destruct (kfree_tail base l1 sz l2 base M 1 Hc Hr) as (M1 & E1 & Hc1 & Hr1).
  set (x := base + extent l1) in *.
  assert (exists M2, coalesce_prev x (Heap base M1 1) = Ok (tt, Heap base M2 1) /\
    chain true M2 NULL base (afree l1 sz l2) /\ region base (afree l1 sz l2)) as (M2 & E2 & Hc2 & Hr3).
  { unfold afree. destruct (merge_right sz l2) as [sz' l2'] eqn:Em. cbn [fst snd] in *.
    destruct l1 as [|[s f] l1 _] using rev_ind.
    - pose proof (chain_suffix _ _ _ _ [] _ _ Hc1) as (_ & b & Hb1 & _ & _ & Hq & _).
      exists M1. split; [|done]. by eapply coalesce_prev_none; [|apply Hq].
    - rewrite last_snoc. rewrite removelast_last. rewrite <- app_assoc in Hc1, Hr1. cbn [app] in *.
      destruct (region_app _ _ _ Hr1) as [Hr4 He4].
      destruct (coalesce_prev_ok _ _ _ _ _ _ base _ 1 (chain_suffix _ _ _ _ _ _ _ Hc1) Hr4)
        as (M2 & E2 & Hc2 & Ho).
      exists M2. replace x with (base + extent l1 + 16 + s)
        by (subst x; rewrite extent_app; cbn; lia). split; [done|].
      destruct f; (split; [|try (eapply region_splice; [exact Hr1| |cbn; lia])]).
      + eapply chain_splice; [exact Hr1|exact Hc1| |exact Hc2]. intros y Hy. apply Ho. lia.
      + apply (merge_right_region _ s true ((sz', true) :: l2')). by rewrite <- app_assoc in *.
      + rewrite <- app_assoc. eapply chain_splice; [exact Hr1|exact Hc1| |exact Hc2].
        intros y Hy. apply Ho. lia.
      + by rewrite <- app_assoc. }
  exists (Heap base M2 pm). split; [|by split]. unfold kfree.
  rewrite (proj2 (Z.eqb_neq _ _)) by (unfold NULL; lia).
  rewrite (prog_bind_ok heap_irq_save _ (Heap base M pm) pm (Heap base M 1)) by done.
  cbn beta zeta. fold x.
  replace (x + 16 - sizeof_heap_block) with x by (unfold sizeof_heap_block; lia).
  apply prog_bind_inv in E1 as ([] & h1 & E0 & E1).
  rewrite (prog_bind_ok _ _ _ _ _ E0), (prog_bind_ok _ _ _ _ _ E1).
  by rewrite (prog_bind_ok _ _ _ _ _ E2).
Qed.

(** ** Alignment *)

Lemma align_spec n : 0 <= n -> n + 7 < 2 ^ 32 -> align n = (n + 7) / 8 * 8.
Proof.
  intros Hn Hb. unfold align, HEAP_ALIGMENT. replace (n + 8 - 1) with (n + 7) by lia.
  rewrite u32_small by lia.
  change (u32 (Z.lnot (8 - 1))) with (Z.ldiff (Z.ones 32) (Z.ones 3)).
  assert (Z.land (n + 7) (Z.ldiff (Z.ones 32) (Z.ones 3)) = Z.ldiff (n + 7) (Z.ones 3)) as ->.
  { replace (n + 7) with (Z.land (n + 7) (Z.ones 32)) at 2
      by (rewrite Z.land_ones by lia; apply Z.mod_small; lia).
    apply Z.bits_inj'. intros i Hi. rewrite !Z.ldiff_spec, !Z.land_spec, Z.ldiff_spec.
    by rewrite andb_assoc. }
  rewrite Z.ldiff_ones_r, Z.shiftl_mul_pow2, Z.shiftr_div_pow2 by lia. done.
Qed.

Lemma align_wraps n : 2 ^ 32 - 7 <= n < 2 ^ 32 -> align n = 0.
Proof.
  intros Hn. unfold align, HEAP_ALIGMENT.
  assert (u32 (n + 8 - 1) = n + 7 - 2 ^ 32) as -> by word_lia.
  remember (n + 7 - 2 ^ 32) as k eqn:Ek. assert (0 <= k <= 6) as Hk by lia.
  assert (k = 0 \/ k = 1 \/ k = 2 \/ k = 3 \/ k = 4 \/ k = 5 \/ k = 6) as Hc by lia.
  clear - Hc. by destruct Hc as [E|[E|[E|[E|[E|[E|E]]]]]]; rewrite E.
Qed.

(** ** kmalloc and heap_free_size on a heap *)

Lemma amalloc_spec n l o l' :
  amalloc n l = Some (o, l') -> 0 <= n -> (8 | n) ->
  exists l1 sz l2, l = l1 ++ (sz, true) :: l2 /\ o = extent l1 /\ n <= sz /\
    l' = l1 ++ (if n + 24 <=? sz then [(n, false); (sz - n - 16, true)] else [(sz, false)]) ++ l2 /\
    Forall (fun b : block => b.2 = true -> b.1 < n) l1.
Proof.
  intros E Hn Hd. revert o l' E. induction l as [|[sz fr] l IH]; intros o l'; [done|]. cbn.
  destruct (fr && (n <=? sz)) eqn:E.
  - apply andb_true_iff in E as [-> E]. apply Z.leb_le in E. intros [= <- <-].
    exists [], sz, l. split_and!; try done. by destruct (n + 24 <=? sz).
  - destruct (amalloc n l) as [[o1 l1']|] eqn:Ea; [|done]. intros [= <- <-].
    destruct (IH _ _ eq_refl) as (l1 & s & l2 & -> & -> & Hs & -> & Hf).
    exists ((sz, fr) :: l1), s, l2. split_and!; try done. constructor; [|done].
    cbn. intros ->. cbn in E. by apply Z.leb_gt in E.
Qed.

Lemma amalloc_none n l :
  amalloc n l = None -> Forall (fun b : block => b.2 = true -> b.1 < n) l.
Proof.
  induction l as [|[sz fr] l IH]; [constructor|]. cbn.
  destruct (fr && (n <=? sz)) eqn:E; [done|]. destruct (amalloc n l) as [[]|]; [done|].
  intros _. constructor; [|by apply IH]. cbn. intros ->. by apply Z.leb_gt in E.
Qed.

Lemma amalloc_region p n l o l' :
  region p l -> amalloc n l = Some (o, l') -> 0 <= n -> (8 | n) ->
  region p l' /\ extent l' = extent l.
Proof.
  intros Hr E Hn Hd.
  destruct (amalloc_spec _ _ _ _ E Hn Hd) as (l1 & sz & l2 & -> & -> & Hs & -> & _).
  assert (extent ((if n + 24 <=? sz then [(n, false); (sz - n - 16, true)] else [(sz, false)]) ++ l2)
    = extent ((sz, true) :: l2)) as Ee by (destruct (n + 24 <=? sz); cbn; lia).
  split; [|by rewrite !(extent_app l1), Ee].
  eapply region_splice; [done| |done]. destruct (region_app _ _ _ Hr) as [[H1 H2 H3] _].
  split; [done|lia|]. apply Forall_cons in H3 as [[H3 H4] H5]. cbn in *.
  destruct (Z.leb_spec (n + 24) sz); cbn; repeat constructor; cbn; try done; try lia.
  apply Z.divide_sub_r; [|by exists 2]. by apply Z.divide_sub_r.
Qed.

Lemma kmalloc_ok bk base l h size :
  heap_rep bk h base l -> 0 < size < 2 ^ 32 ->
  let n := align size in
  0 <= n -> (8 | n) -> (bk = true -> splits_inside n l = false) ->
  match amalloc n l with
  | Some (o, l') => exists h', kmalloc size h = Ok (base + o + 16, h') /\
      heap_rep bk h' base l' /\ h_primask h' = h_primask h
  | None => kmalloc size h = Ok (NULL, h)
  end.
Proof.
  intros [Eh Hr Hc] Hs n Hn Hd Hk. destruct h as [hd M pm]. cbn [heap_head h_blocks h_primask] in *.
  subst hd. unfold kmalloc. rewrite (proj2 (Z.eqb_neq _ _)) by lia. cbn zeta. fold n.
  rewrite (prog_bind_ok heap_irq_save _ (Heap base M pm) pm (Heap base M 1)) by done.
  rewrite (prog_bind_ok heap_fuel _ _ (S (base.size M)) (Heap base M 1)) by done.
  rewrite (prog_bind_ok (gets heap_head) _ _ base (Heap base M 1)) by done.
  pose proof (malloc_loop_ok bk n NULL base l base M 1 (S (base.size M)) Hc Hr Hn) as H.
  specialize (H ltac:(pose proof (chain_fuel _ _ _ _ _ Hr Hc); lia) Hk).
  destruct (amalloc n l) as [[o l']|] eqn:Ea.
  - destruct H as (M' & E & Hc' & _). exists (Heap base M' pm).
    rewrite (prog_bind_ok _ _ _ _ _ E). split; [done|].
    destruct (amalloc_region _ _ _ _ _ Hr Ea Hn Hd). by split.
  - by rewrite (prog_bind_ok _ _ _ _ _ H).
Qed.

Lemma free_size_loop_ok q p l fuel acc h :
  chain false (h_blocks h) q p l -> region p l -> (length l < fuel)%nat ->
  heap_free_size_loop fuel p (u32 acc) h = Ok (u32 (acc + free_size l), h).
Proof.
  revert q p fuel acc. induction l as [|[sz fr] l IH]; intros q p fuel acc Hc Hr Hf;
    (destruct fuel as [|fuel]; [cbn in Hf; lia|]); cbn [length] in Hf.
  { cbn in Hc. subst p. cbn. by rewrite Z.add_0_r. }
  pose proof Hc as (Hp & b & Hb & Es & Ef & _ & Hn & Hl).
  apply region_inv in Hr as (_ & _ & _ & _ & _ & Hr).
  cbn [heap_free_size_loop]. rewrite (proj2 (Z.eqb_neq _ _) Hp). do 3 hstep. rewrite Ef, Es.
  replace (if negb (negb fr) then u32 (u32 acc + sz) else u32 acc)
    with (u32 (acc + if fr then sz else 0))
    by (destruct fr; cbn; [unfold u32; by rewrite Zplus_mod_idemp_l|by rewrite Z.add_0_r]).
  destruct l as [|c l].
  - cbn in Hl. rewrite Hl. destruct fuel; [cbn in Hf; lia|]. cbn. by rewrite Z.add_0_r.
  - destruct Hn as [?|Hn]; [done|]. rewrite Hn in *. rewrite (IH _ _ fuel _ Hl Hr) by (cbn in *; lia).
    do 3 f_equal. cbn. lia.
Qed.

(** ** No two free blocks in a row *)

Fixpoint coalesced (l : list block) : Prop :=
  match l with
  | (_, true) :: ((_, true) :: _) => False
  | _ :: l => coalesced l
  | [] => True
  end.

Definition first_free (l : list block) : bool := match l with (_, fr) :: _ => fr | [] => false end.
Definition last_free (l : list block) : bool := match last l with Some (_, fr) => fr | None => false end.

Lemma coalesced_cons s fr l :
  coalesced ((s, fr) :: l) <-> fr && first_free l = false /\ coalesced l.
Proof.
  destruct fr, l as [|[s2 [|]] l]; cbn; split; try tauto; try (by intros [? ?]).
Qed.

Lemma coalesced_app l1 l2 :
  coalesced (l1 ++ l2) <-> coalesced l1 /\ coalesced l2 /\ last_free l1 && first_free l2 = false.
Proof.
  induction l1 as [|[s fr] l1 IH].
  - cbn. tauto.
  - rewrite <- app_comm_cons, !coalesced_cons, IH.
    destruct l1 as [|[s2 f2] l1].
    + cbn. rewrite andb_false_r. tauto.
    + assert (last_free ((s, fr) :: (s2, f2) :: l1) = last_free ((s2, f2) :: l1)) as -> by done.
      cbn [first_free app]. tauto.
Qed.

Lemma afree_coalesced l1 sz l2 :
  coalesced (l1 ++ (sz, false) :: l2) -> coalesced (afree l1 sz l2).
Proof.
  intros (H1 & [_ H2]%coalesced_cons & _)%coalesced_app. unfold afree.
  destruct (merge_right sz l2) as [sz' l2'] eqn:E.
  assert (coalesced l2' /\ first_free l2' = false) as [H3 H4].
  { destruct l2 as [|[s2 [|]] l2]; cbn in E; injection E as <- <-; [done| |done].
    apply coalesced_cons in H2 as [H2 ?]. done. }
  destruct l1 as [|[s f] l1 _] using rev_ind.
  { apply coalesced_cons. by rewrite H4. }
  rewrite last_snoc, removelast_last. apply coalesced_app in H1 as (H5 & _ & H6). cbn in H6.
  destruct f.
  - apply coalesced_app. rewrite coalesced_cons, H4. split_and!; try done.
  - rewrite <- app_assoc. apply coalesced_app. cbn [app first_free]. rewrite !coalesced_cons, H4.
    split_and!; try done.
Qed.

(** Freeing what was just allocated gives the list back. *)
Lemma amalloc_afree n l1 sz l2 :
  coalesced (l1 ++ (sz, true) :: l2) -> n <= sz ->
  (if n + 24 <=? sz then afree l1 n ((sz - n - 16, true) :: l2) else afree l1 sz l2)
    = l1 ++ (sz, true) :: l2.
Proof.
  intros (_ & [H1 _]%coalesced_cons & H2)%coalesced_app Hn. cbn in H1, H2.
  rewrite andb_true_r in H2. unfold afree, last_free in *.
  assert (forall s r, match last l1 with
    | Some (s0, true) => removelast l1 ++ (s0 + 16 + s, true) :: r
    | _ => l1 ++ (s, true) :: r end = l1 ++ (s, true) :: r) as E
    by (intros; destruct (last l1) as [[? []]|]; done).
  destruct (Z.leb_spec (n + 24) sz); cbn [merge_right].
  - rewrite E. do 3 f_equal. lia.
  - destruct l2 as [|[s2 [|]] l2]; [apply E|done|apply E].
Qed.

Lemma extent_aligned p l1 l2 : region p (l1 ++ l2) -> (8 | extent l1).
Proof.
  intros [_ _ [Hl _]%Forall_app]. induction Hl as [|[s f] l1 [_ Hd] _ IH]; cbn in *; [by exists 0|].
  apply Z.divide_add_r; [|done]. apply Z.divide_add_r; [by exists 2|done].
Qed.

Lemma afree_extent l1 sz l2 : extent (afree l1 sz l2) = extent (l1 ++ (sz, false) :: l2).
Proof.
  unfold afree. destruct (merge_right sz l2) as [sz' l2'] eqn:E.
  assert (16 + sz' + extent l2' = 16 + sz + extent l2) as Ee.
  { destruct l2 as [|[s2 [|]] l2]; cbn in E; injection E as <- <-; cbn; lia. }
  destruct l1 as [|[s f] l1 _] using rev_ind; [cbn in *; lia|].
  rewrite last_snoc, removelast_last. destruct f; rewrite !extent_app; cbn; lia.
Qed.

Lemma free_size_bound p l : region p l -> 0 <= free_size l <= extent l.
Proof.
  intros [_ _ Hl]. unfold free_size.
  induction Hl as [|[s f] l [Hs _] _ IH]; cbn [foldr extent fst snd] in *; [lia|].
  destruct f; cbn [fst snd] in *; lia.
Qed.

(** The walk over the blocks adds up the free ones. *)
Lemma heap_free_size_ok base l h :
  heap_rep false h base l -> heap_free_size h = Ok (free_size l, h).
Proof.
  intros [Eh Hr Hc]. unfold heap_free_size.
  rewrite (prog_bind_ok heap_fuel _ _ (S (base.size (h_blocks h))) h) by done.
  rewrite (prog_bind_ok (gets heap_head) _ _ base h) by (unfold gets; by rewrite Eh).
  change 0 with (u32 0). rewrite (free_size_loop_ok NULL base l _ 0 h Hc Hr).
  - do 2 f_equal. destruct (free_size_bound _ _ Hr). apply u32_small. pose proof (rg_base _ _ Hr).
    pose proof (rg_end _ _ Hr). lia.
  - pose proof (chain_fuel _ _ _ _ _ Hr Hc). lia.
Qed.
