(* ===== verification/HeapProps.v ===== *)
(** * Theorems: the heap

    [kmalloc], [kfree], [kcalloc] and [heap_free_size] against lists of
    blocks, and the way the missing [prev] link lets two live allocations
    overlap. *)
From S2P Require Import Prelude Heap HeapSpec.

(** A fresh heap as the linker script lays it out. *)
Definition demo_start : ptr := 0x20010000.
Definition no_heap : heap := Heap NULL ∅ 0.
Definition fresh : heap :=
  match heap_init demo_start 65536 no_heap with Ok (_, h) => h | Trap _ => no_heap end.
Definition demo_blocks : list block := [(65520, true)].

Lemma demo_rep : heap_rep true fresh demo_start demo_blocks.
Proof.
  split; [done| |].
  - split; [by vm_compute|by vm_compute|]. repeat constructor; cbn; [lia|by exists 8190].
  - split; [done|]. eexists. split; [by vm_compute|]. split_and!; try done. by left.
Qed.

(** C16: [kmalloc] takes the first free block that is large enough: the result
    is the 8-aligned payload of that block, which is split when a header and 8
    more bytes remain; the other blocks are as before.  It returns NULL, with
    the heap unchanged, exactly when no free block is large enough.  This needs
    no [prev] link, and keeps none. *)
Theorem kmalloc_first_fit base l h size :
  heap_rep false h base l -> (8 | base) -> 0 < size <= 2 ^ 32 - 8 ->
  exists n p h', kmalloc size h = Ok (p, h') /\ size <= n < size + 8 /\ (8 | n) /\
    ((p = NULL /\ h' = h /\ Forall (fun b : block => b.2 = true -> b.1 < n) l) \/
     exists l1 sz l2, l = l1 ++ (sz, true) :: l2 /\ p = base + extent l1 + 16 /\ (8 | p) /\
       n <= sz /\ Forall (fun b : block => b.2 = true -> b.1 < n) l1 /\
       heap_rep false h' base
         (l1 ++ (if n + 24 <=? sz then [(n, false); (sz - n - 16, true)] else [(sz, false)]) ++ l2)).
Proof.
  intros Hh Hb Hs. pose proof (align_spec size ltac:(lia) ltac:(lia)) as En.
  assert (size <= align size < size + 8) as Hn by (rewrite En; Z.to_euclidean_division_equations; lia).
  assert (8 | align size) as Hd by (rewrite En; by exists ((size + 7) / 8)).
  pose proof (kmalloc_ok false base l h size Hh ltac:(lia) ltac:(lia) Hd ltac:(done)) as H.
  exists (align size). destruct (amalloc (align size) l) as [[o l']|] eqn:Ea.
  - destruct H as (h' & E & Hh' & _).
    destruct (amalloc_spec _ _ _ _ Ea ltac:(lia) Hd) as (l1 & sz & l2 & -> & -> & Hsz & -> & Hf).
    exists (base + extent l1 + 16), h'.
    split_and!; [done|apply Hn..|done|]. right. exists l1, sz, l2.
    split_and!; try done. apply Z.divide_add_r; [|by exists 2]. apply Z.divide_add_r; [done|].
    by eapply extent_aligned, hr_region.
  - exists NULL, h. split_and!; [done|apply Hn..|done|]. left. split_and!; try done. by apply amalloc_none.
Qed.

Lemma kmalloc_first_fit_witness :
  exists n p h', kmalloc 100 fresh = Ok (p, h') /\ 100 <= n < 100 + 8 /\ (8 | n) /\
    ((p = NULL /\ h' = fresh /\ Forall (fun b : block => b.2 = true -> b.1 < n) demo_blocks) \/
     exists l1 sz l2, demo_blocks = l1 ++ (sz, true) :: l2 /\ p = demo_start + extent l1 + 16 /\
       (8 | p) /\ n <= sz /\ Forall (fun b : block => b.2 = true -> b.1 < n) l1 /\
       heap_rep false h' demo_start
         (l1 ++ (if n + 24 <=? sz then [(n, false); (sz - n - 16, true)] else [(sz, false)]) ++ l2)).
Proof.
  apply kmalloc_first_fit; [|by exists 0x4002000|lia].
  destruct demo_rep as [H1 H2 H3]. split; [done|done|by apply chain_weaken].
Defined.

(** C17: On a heap in which the next and the prev link of every block are right
    and no two free blocks are neighbours, [kfree] of an allocated block frees
    it and merges it with the free blocks next to it, keeps all links right, and
    leaves no two free blocks in a row.  [heap_init] makes such a heap, and
    [kmalloc] keeps it one when it takes a whole block or splits the last one;
    after it split an inner block the block behind has a wrong prev link, and
    this does not hold any more (see [kmalloc_overlaps]). *)
Theorem kfree_coalesces base l1 sz l2 h :
  heap_rep true h base (l1 ++ (sz, false) :: l2) -> coalesced (l1 ++ (sz, false) :: l2) ->
  exists h', kfree (base + extent l1 + 16) h = Ok (tt, h') /\
    heap_rep true h' base (afree l1 sz l2) /\ coalesced (afree l1 sz l2) /\
    extent (afree l1 sz l2) = extent (l1 ++ (sz, false) :: l2).
Proof.
  intros Hh Hc. destruct (kfree_ok _ _ _ _ _ Hh) as (h' & E & Hh' & _). exists h'.
  split_and!; [done|done|by apply afree_coalesced|apply afree_extent].
Qed.

(** Two allocations, the first of which is freed. *)
Definition two_blocks : heap :=
  match (kmalloc 8;; kmalloc 8) fresh with Ok (_, h) => h | Trap _ => fresh end.
Definition demo_two_blocks : list block := [(8, false); (8, false); (65472, true)].

Lemma two_rep p h :
  (kmalloc 8;; kmalloc 8) fresh = Ok (p, h) -> heap_rep true h demo_start demo_two_blocks.
Proof.
  intros E. apply prog_bind_inv in E as (p1 & h1 & E1 & E2).
  pose proof (kmalloc_ok true _ _ _ 8 demo_rep ltac:(lia) ltac:(by vm_compute) ltac:(by exists 1)
    ltac:(done)) as (h1' & E1' & H1 & _).
  rewrite E1 in E1'. injection E1' as -> ->.
  pose proof (kmalloc_ok true _ _ _ 8 H1 ltac:(lia) ltac:(by vm_compute) ltac:(by exists 1)
    ltac:(done)) as (h2' & E2' & H2 & _).
  rewrite E2 in E2'. injection E2' as -> ->. exact H2.
Qed.

Lemma demo_two_rep : heap_rep true two_blocks demo_start demo_two_blocks.
Proof. apply (two_rep (demo_start + 40)). vm_compute. reflexivity. Qed.

Lemma kfree_coalesces_witness :
  afree [(8, false)] 8 [(65472, true)] = [(8, false); (65496, true)] /\
  exists h', kfree (demo_start + extent [(8, false)] + 16) two_blocks = Ok (tt, h') /\
    heap_rep true h' demo_start (afree [(8, false)] 8 [(65472, true)]) /\
    coalesced (afree [(8, false)] 8 [(65472, true)]) /\
    extent (afree [(8, false)] 8 [(65472, true)]) = extent demo_two_blocks.
Proof.
  split; [by vm_compute|].
  apply (kfree_coalesces demo_start [(8, false)] 8 [(65472, true)] two_blocks);
    [exact demo_two_rep|done].
Defined.

(** Allocating from the last block and freeing it again gives back the
    heap it was, block for block. *)
Theorem kmalloc_kfree base l h size :
  heap_rep true h base l -> coalesced l -> 0 < size <= 2 ^ 32 - 8 ->
  splits_inside (align size) l = false -> amalloc (align size) l <> None ->
  exists p h1 h2, kmalloc size h = Ok (p, h1) /\ p <> NULL /\ kfree p h1 = Ok (tt, h2) /\
    heap_rep true h2 base l.
Proof.
  intros Hh Hc Hs Hk Ha. pose proof (align_spec size ltac:(lia) ltac:(lia)) as En.
  assert (0 <= align size) as Hn by (rewrite En; Z.to_euclidean_division_equations; lia).
  assert (8 | align size) as Hd by (rewrite En; by exists ((size + 7) / 8)).
  pose proof (kmalloc_ok true base l h size Hh ltac:(lia) Hn Hd (fun _ => Hk)) as H.
  destruct (amalloc (align size) l) as [[o l']|] eqn:Ea; [|done].
  destruct H as (h1 & E & H1 & _).
  destruct (amalloc_spec _ _ _ _ Ea Hn Hd) as (l1 & sz & l2 & -> & -> & Hsz & -> & _).
  pose proof (amalloc_afree _ _ _ _ Hc Hsz) as Eaf.
  destruct (region_app _ _ _ (hr_region _ _ _ _ Hh)) as [Hr He].
  pose proof (rg_base _ _ (hr_region _ _ _ _ Hh)). exists (base + extent l1 + 16), h1.
  destruct (align size + 24 <=? sz); cbn [app] in H1;
    destruct (kfree_ok _ _ _ _ _ H1) as (h2 & E2 & H2 & _); exists h2; rewrite Eaf in H2;
    (split_and!; [done|unfold NULL; lia|done|done]).
Qed.

Lemma kmalloc_kfree_witness :
  exists p h1 h2, kmalloc 24 two_blocks = Ok (p, h1) /\ p <> NULL /\ kfree p h1 = Ok (tt, h2) /\
    heap_rep true h2 demo_start demo_two_blocks.
Proof.
  apply (kmalloc_kfree demo_start demo_two_blocks);
    [apply demo_two_rep|done|lia|by vm_compute|by vm_compute].
Defined.

(** C40: Two live allocations can overlap.  When the block that is split is not
    the last one, the block behind it keeps its old [prev] link; freeing that
    block later merges it into a block that is not next to it, across a live
    allocation.  Here the last [kmalloc] returns 64 bytes that contain the 40
    bytes handed out before and not freed. *)
Definition overlap_calls : HM (ptr * ptr) :=
  a ← kmalloc 64; b ← kmalloc 8;
  kfree a;;
  a ← kmalloc 8; live ← kmalloc 40;
  kfree a;; kfree b;;
  c ← kmalloc 64;
  mret (live, c).

Theorem kmalloc_overlaps :
  exists live c h, overlap_calls fresh = Ok ((live, c), h) /\ c < live /\ live + 40 <= c + 64.
Proof.
  exists (demo_start + 40), (demo_start + 16).
  exists (match overlap_calls fresh with Ok (_, h) => h | Trap _ => fresh end).
  split; [vm_compute; reflexivity|]. unfold demo_start. lia.
Qed.

(** A request of the last seven 32-bit sizes wraps around to 0 when it is
    aligned: instead of NULL the caller gets a block of size 0. *)
Theorem kmalloc_wraps bk base sz l h size :
  heap_rep bk h base ((sz, true) :: l) -> (bk = true -> l = []) -> 24 <= sz ->
  2 ^ 32 - 7 <= size < 2 ^ 32 ->
  exists h', kmalloc size h = Ok (base + 16, h') /\
    heap_rep bk h' base ((0, false) :: (sz - 16, true) :: l).
Proof.
  intros Hh Hl Hsz Hs. pose proof (align_wraps size Hs) as En.
  pose proof (kmalloc_ok bk base _ h size Hh ltac:(lia)) as H. rewrite En in H.
  specialize (H ltac:(lia) ltac:(by exists 0)). cbn [amalloc splits_inside andb] in H.
  rewrite (proj2 (Z.leb_le 0 sz)), (proj2 (Z.leb_le (0 + 24) sz)) in H by lia. cbn [andb] in H.
  destruct H as (h' & E & Hh' & _).
  { intros E. by rewrite bool_decide_true by auto. }
  exists h'. replace (base + 16) with (base + 0 + 16) by lia.
  by replace (sz - 16) with (sz - 0 - 16) by lia.
Qed.

Lemma kmalloc_wraps_witness :
  exists h', kmalloc 0xFFFFFFFF fresh = Ok (demo_start + 16, h') /\
    heap_rep true h' demo_start [(0, false); (65504, true)].
Proof. apply (kmalloc_wraps true demo_start 65520 [] fresh); [apply demo_rep|done|lia|lia]. Defined.

(** [kcalloc] returns NULL when the product does not fit 32 bits, and is
    [kmalloc] of the product otherwise; it writes no payload, so it does not
    clear the memory. *)
Theorem kcalloc_product count size h :
  0 <= count < 2 ^ 32 -> 0 <= size < 2 ^ 32 ->
  kcalloc count size h =
    if 2 ^ 32 <=? count * size then Ok (NULL, h) else kmalloc (count * size) h.
Proof.
  intros Hc Hs. unfold kcalloc, SIZE_MAX.
  destruct (Z.eqb_spec count 0) as [->|Hc0]; cbn [negb andb].
  { by destruct (Z.leb_spec (2 ^ 32) (0 * size)); [lia|]. }
  replace (size >? 0xFFFFFFFF / count) with (2 ^ 32 <=? count * size).
  - destruct (Z.leb_spec (2 ^ 32) (count * size)); [done|]. by rewrite u32_small by nia.
  - rewrite Z.gtb_ltb. pose proof (Z.mul_div_le 0xFFFFFFFF count ltac:(lia)).
    pose proof (Z.mul_succ_div_gt 0xFFFFFFFF count ltac:(lia)).
    destruct (Z.leb_spec (2 ^ 32) (count * size)), (Z.ltb_spec (0xFFFFFFFF / count) size);
      (done || nia).
Qed.

Lemma kcalloc_product_witness :
  kcalloc 0x10000 0x10000 fresh =
    if 2 ^ 32 <=? 0x10000 * 0x10000 then Ok (NULL, fresh) else kmalloc (0x10000 * 0x10000) fresh.
Proof. apply kcalloc_product; lia. Defined.

(** [heap_free_size] is the number of free payload bytes. *)
Theorem heap_free_size_sums base l h :
  heap_rep false h base l -> heap_free_size h = Ok (free_size l, h).
Proof. apply heap_free_size_ok. Qed.

Lemma heap_free_size_sums_witness :
  heap_free_size two_blocks = Ok (free_size demo_two_blocks, two_blocks) /\
  free_size demo_two_blocks = 65472.
Proof.
  split; [|done]. apply (heap_free_size_sums demo_start).
  destruct demo_two_rep as [H1 H2 H3]. split; [done|done|by apply chain_weaken].
Defined.
