(* ===== verification/Utils.v ===== *)
(** * String and memory routines ([utils.c])

    A C string is the list of its bytes without the terminating zero; memory
    is a map from addresses to bytes. *)
From S2P Require Import Prelude.

Abbreviation bytes := (list Z).
Abbreviation memory := (Z -> Z).

(** ** Strings *)

Fixpoint strcmp (s1 s2 : bytes) : Z :=
  match s1, s2 with
  | c1 :: s1', c2 :: s2' => if c1 =? c2 then strcmp s1' s2' else u8 c1 - u8 c2
  | c1 :: _, [] => u8 c1 - 0
  | [], c2 :: _ => 0 - u8 c2
  | [], [] => 0
  end.

Fixpoint strlen (s : bytes) : Z :=
  match s with [] => 0 | _ :: s => s32 (1 + strlen s) end.

(** ** Memory *)

Definition store (M : memory) (p v : Z) : memory := fun x => if x =? p then v else M x.

(** [len] counts down to 0. *)
Fixpoint memset_loop (n : nat) (p val : Z) (M : memory) : memory :=
  match n with O => M | S n => memset_loop n (p + 1) val (store M p (u8 val)) end.
Definition memset (dst val len : Z) (M : memory) : memory :=
  memset_loop (Z.to_nat len) dst val M.

Fixpoint memcpy_loop (n : nat) (d s : Z) (M : memory) : memory :=
  match n with O => M | S n => memcpy_loop n (d + 1) (s + 1) (store M d (M s)) end.
Definition memcpy (dest src size : Z) (M : memory) : memory :=
  memcpy_loop (Z.to_nat size) dest src M.

Fixpoint memcmp_loop (n : nat) (p1 p2 : Z) (M : memory) : Z :=
  match n with
  | O => 0
  | S n => if M p1 =? M p2 then memcmp_loop n (p1 + 1) (p2 + 1) M else M p1 - M p2
  end.
Definition memcmp (s1 s2 size : Z) (M : memory) : Z := memcmp_loop (Z.to_nat size) s1 s2 M.

(** ** CRC-32 *)

Definition crc32_bit (crc : Z) : Z :=
  if Z.odd crc then Z.lxor (Z.shiftr crc 1) 0xEDB88320 else Z.shiftr crc 1.
Definition crc32_byte (crc b : Z) : Z := Nat.iter 8 crc32_bit (Z.lxor crc b).
Definition crc32 (data : bytes) : Z :=
  Z.lxor (foldl crc32_byte 0xFFFFFFFF data) 0xFFFFFFFF.

(** ** Properties of the strings *)

Definition is_byte (b : Z) : Prop := 0 <= b < 256.
#[export] Instance is_byte_dec b : Decision (is_byte b).
Proof. unfold is_byte. apply _. Defined.

(** Lexicographic order, a proper prefix being smaller. *)
Inductive lex_lt : bytes -> bytes -> Prop :=
| lex_nil c s : lex_lt [] (c :: s)
| lex_head c1 c2 s1 s2 : c1 < c2 -> lex_lt (c1 :: s1) (c2 :: s2)
| lex_tail c s1 s2 : lex_lt s1 s2 -> lex_lt (c :: s1) (c :: s2).

Definition cstring (s : bytes) : Prop := Forall (fun b => 0 < b < 256) s.

Lemma strcmp_sign s1 s2 :
  cstring s1 -> cstring s2 ->
  (strcmp s1 s2 = 0 <-> s1 = s2) /\ (strcmp s1 s2 < 0 <-> lex_lt s1 s2).
Proof.
  intros H1. revert s2. induction H1 as [|c1 s1 Hc1 H1 IH]; intros s2 H2;
    destruct H2 as [|c2 s2 Hc2 H2]; cbn [strcmp]; rewrite ?u8_small by lia.
  - split; [done|]. split; [lia|]. by inversion 1.
  - split; [split; [lia|done]|]. split; [constructor|lia].
  - split; [split; [lia|done]|]. split; [lia|by inversion 1].
  - destruct (Z.eqb_spec c1 c2) as [->|Hne].
    + destruct (IH s2 H2) as [E1 E2]. split.
      * rewrite E1. split; [by intros ->|congruence].
      * rewrite E2. split; [by constructor|]. inversion 1; [lia|done].
    + split; [split; [lia|congruence]|]. split.
      * intros. constructor. lia.
      * inversion 1; [lia|done].
Qed.

(** ** Copying *)

Lemma memcpy_loop_other n d s M x :
  x < d \/ d + Z.of_nat n <= x -> memcpy_loop n d s M x = M x.
Proof.
  revert d s M. induction n as [|n IH]; intros d s M Hx; [done|]. cbn [memcpy_loop].
  rewrite IH by lia. unfold store. by rewrite (proj2 (Z.eqb_neq _ _)) by lia.
Qed.

Lemma memcpy_loop_ok n d s M i :
  (s + Z.of_nat n <= d \/ d <= s) -> 0 <= i < Z.of_nat n ->
  memcpy_loop n d s M (d + i) = M (s + i).
Proof.
  revert d s M i. induction n as [|n IH]; intros d s M i Hd Hi; [lia|]. cbn [memcpy_loop].
  destruct (decide (i = 0)) as [->|].
  - rewrite memcpy_loop_other by lia. unfold store. by rewrite !Z.add_0_r, Z.eqb_refl.
  - replace (d + i) with (d + 1 + (i - 1)) by lia. replace (s + i) with (s + 1 + (i - 1)) by lia.
    rewrite IH by lia. unfold store. rewrite (proj2 (Z.eqb_neq _ _)) by lia. done.
Qed.

(** ** CRC-32 is injective in each byte *)

Definition word (x : Z) : Prop := 0 <= x < 2 ^ 32.

Lemma word_lxor x y : word x -> word y -> word (Z.lxor x y).
Proof.
  unfold word. intros Hx Hy. split; [apply Z.lxor_nonneg; lia|].
  destruct (Z.eq_dec (Z.lxor x y) 0) as [->|]; [lia|].
  apply Z.log2_lt_pow2; [pose proof (Z.lxor_nonneg x y); lia|].
  eapply Z.le_lt_trans; [apply Z.log2_lxor; lia|].
  assert (forall z, 0 <= z < 2 ^ 32 -> Z.log2 z < 32) as Hl.
  { intros z Hz. destruct (Z.eq_dec z 0) as [->|]; [done|]. apply Z.log2_lt_pow2; lia. }
  apply Z.max_lub_lt; by apply Hl.
Qed.

Lemma word_shiftr x : word x -> word (Z.shiftr x 1).
Proof. unfold word. intros. rewrite Z.shiftr_div_pow2 by lia. change (2 ^ 1) with 2. word_lia. Qed.

Lemma crc32_bit_word x : word x -> word (crc32_bit x).
Proof.
  intros Hx. unfold crc32_bit. destruct (Z.odd x); [|by apply word_shiftr].
  apply word_lxor; [by apply word_shiftr|done].
Qed.

(** The bit that leaves on the right comes back as the highest bit. *)
Lemma crc32_bit_top x : word x -> Z.testbit (crc32_bit x) 31 = Z.odd x.
Proof.
  intros Hx. assert (Z.testbit (Z.shiftr x 1) 31 = false) as E.
  { rewrite Z.shiftr_spec by lia. apply Z.bits_above_log2; [apply Hx|].
    destruct (Z.eq_dec x 0) as [->|]; [done|]. apply Z.log2_lt_pow2; unfold word in Hx; lia. }
  unfold crc32_bit. destruct (Z.odd x) eqn:Eo; [|done].
  by rewrite Z.lxor_spec, E.
Qed.

Lemma odd_shiftr_eq x y : Z.odd x = Z.odd y -> Z.shiftr x 1 = Z.shiftr y 1 -> x = y.
Proof.
  intros Ho. rewrite !Z.shiftr_div_pow2 by lia. change (2 ^ 1) with 2. intros Es.
  rewrite (Z.div_mod x 2), (Z.div_mod y 2) by lia. rewrite !Zmod_odd, Ho, Es. done.
Qed.

Lemma crc32_bit_inj x y : word x -> word y -> crc32_bit x = crc32_bit y -> x = y.
Proof.
  intros Hx Hy E. assert (Z.odd x = Z.odd y) as Eo.
  { by rewrite <- (crc32_bit_top x), <- (crc32_bit_top y), E. }
  apply odd_shiftr_eq; [done|]. unfold crc32_bit in E. rewrite Eo in E.
  destruct (Z.odd y); [|done].
  apply (f_equal (fun z => Z.lxor z 0xEDB88320)) in E.
  by rewrite !Z.lxor_assoc, Z.lxor_nilpotent, !Z.lxor_0_r in E.
Qed.

Lemma crc32_bits_inj n x y :
  word x -> word y -> Nat.iter n crc32_bit x = Nat.iter n crc32_bit y -> x = y.
Proof.
  intros Hx Hy. assert (forall z, word z -> forall k, word (Nat.iter k crc32_bit z)) as Hw
    by (intros z Hz; induction k; [done|by apply crc32_bit_word]).
  induction n as [|n IH]; [done|]. intros E. apply IH, crc32_bit_inj; auto.
Qed.

Lemma crc32_byte_word c b : word c -> is_byte b -> word (crc32_byte c b).
Proof.
  intros Hc Hb. unfold crc32_byte. assert (word (Z.lxor c b)) as Hw
    by (apply word_lxor; [done|unfold word, is_byte in *; lia]).
  revert Hw. generalize (Z.lxor c b). intros z Hz.
  assert (forall k, word (Nat.iter k crc32_bit z)) as H; [|apply H].
  induction k; [done|by apply crc32_bit_word].
Qed.

Lemma lxor_inj_l a b c : Z.lxor a c = Z.lxor b c -> a = b.
Proof.
  intros E. apply (f_equal (fun z => Z.lxor z c)) in E.
  by rewrite !Z.lxor_assoc, Z.lxor_nilpotent, !Z.lxor_0_r in E.
Qed.

Lemma crc32_byte_inj_crc c c' b :
  word c -> word c' -> is_byte b -> crc32_byte c b = crc32_byte c' b -> c = c'.
Proof.
  intros Hc Hc' Hb E. apply crc32_bits_inj in E; [by apply lxor_inj_l in E|..];
    (apply word_lxor; [done|unfold word, is_byte in *; lia]).
Qed.

Lemma crc32_byte_inj_byte c b b' :
  word c -> is_byte b -> is_byte b' -> crc32_byte c b = crc32_byte c b' -> b = b'.
Proof.
  intros Hc Hb Hb' E.
  apply crc32_bits_inj in E; [|apply word_lxor; [done|unfold word, is_byte in *; lia]..].
  rewrite !(Z.lxor_comm c) in E. by apply lxor_inj_l in E.
Qed.

Lemma crc32_fold_word c data : word c -> Forall is_byte data -> word (foldl crc32_byte c data).
Proof.
  intros Hc Hd. revert c Hc. induction Hd as [|b data Hb _ IH]; intros c Hc; [done|].
  cbn. by apply IH, crc32_byte_word.
Qed.

Lemma crc32_fold_inj c c' data :
  word c -> word c' -> Forall is_byte data ->
  foldl crc32_byte c data = foldl crc32_byte c' data -> c = c'.
Proof.
  intros Hc Hc' Hd. revert c c' Hc Hc'. induction Hd as [|b data Hb _ IH]; intros c c' Hc Hc'; [done|].
  cbn. intros E. apply IH in E; [|by apply crc32_byte_word..]. by apply crc32_byte_inj_crc in E.
Qed.

Lemma crc32_differs p b b' s :
  Forall is_byte p -> is_byte b -> is_byte b' -> Forall is_byte s -> b <> b' ->
  crc32 (p ++ b :: s) <> crc32 (p ++ b' :: s).
Proof.
  intros Hp Hb Hb' Hs Hne E. apply Hne. unfold crc32 in E. apply lxor_inj_l in E.
  rewrite !foldl_app in E. cbn [foldl] in E.
  assert (word (foldl crc32_byte 0xFFFFFFFF p)) as Hw by (by apply crc32_fold_word).
  apply crc32_fold_inj in E; [|by apply crc32_byte_word..|done].
  by apply crc32_byte_inj_byte in E.
Qed.
