(* ===== verification/Kprintf.v ===== *)
(** * Formatted output ([kprintf.c], [uprintf.c])

    The formatter with its bounded output buffer.  A format string is the list
    of its bytes without the terminating zero, an argument is a 32-bit word or
    a string pointer. *)
From Stdlib Require Import Ascii String.
From S2P Require Import Prelude Utils.

(** The bytes of a literal. *)
Fixpoint lit (s : string) : bytes :=
  match s with
  | EmptyString => []
  | String c s => Z.of_N (N_of_ascii c) :: lit s
  end.

Definition KPRINTF_BUF_SIZE : Z := 256.

(** Buffer, capacity and the number of characters wanted. *)
Record out_t : Type := Out { o_buf : bytes; o_cap : Z; o_len : Z }.

(** A variadic argument: a word, or a pointer to a string or NULL. *)
Inductive va_arg := VInt (v : Z) | VStr (s : option bytes).

(** ** The code *)

Definition emit (c : Z) (o : out_t) : out_t :=
  let buf :=
    if negb (o_cap o =? 0) && (o_len o <? u32 (o_cap o - 1))
    then <[Z.to_nat (o_len o) := u8 c]> (o_buf o) else o_buf o in
  Out buf (o_cap o) (u32 (o_len o + 1)).

(** [n] times the same character. *)
Fixpoint emit_times (n : nat) (c : Z) (o : out_t) : out_t :=
  match n with O => o | S n => emit_times n c (emit c o) end.
Fixpoint emit_all (cs : bytes) (o : out_t) : out_t :=
  match cs with [] => o | c :: cs => emit_all cs (emit c o) end.

Definition lower_digits : bytes := lit "0123456789abcdef".
Definition upper_digits : bytes := lit "0123456789ABCDEF".

(** The digits of [v] from the lowest, at most [tmp[10]] of them. *)
Fixpoint digits_loop (room : nat) (v base : Z) (digits tmp : bytes) : result bytes :=
  match room with
  | O => Trap Fault
  | S room =>
      let tmp := List.nth (Z.to_nat (v mod base)) digits 0 :: tmp in
      let v := v / base in
      if v =? 0 then Ok tmp else digits_loop room v base digits tmp
  end.

Definition emit_number (v : Z) (neg : bool) (base : Z) (upper : bool) (width pad : Z) (o : out_t)
    : result out_t :=
  tmp ← digits_loop 10 v base (if upper then upper_digits else lower_digits) [];
  let total := u32 (Z.of_nat (length tmp) + if neg then 1 else 0) in
  let fill := Z.to_nat (width - total) in
  let o :=
    if pad =? 0x20 then
      let o := emit_times fill 0x20 o in if neg then emit 0x2d o else o
    else
      let o := if neg then emit 0x2d o else o in emit_times fill 0x30 o in
  (* the digits were stored from the lowest and are written from the highest *)
  Ok (emit_all tmp o).

Definition is_digit (c : Z) : bool := (0x30 <=? c) && (c <=? 0x39).
(** The width and what follows it. *)
Fixpoint scan_width (fmt : bytes) (width : Z) : Z * bytes :=
  match fmt with
  | c :: fmt' => if is_digit c then scan_width fmt' (u32 (width * 10 + u32 (c - 0x30))) else (width, fmt)
  | [] => (width, [])
  end.

Definition va_int (ap : list va_arg) : result (Z * list va_arg) :=
  match ap with VInt v :: ap => Ok (u32 v, ap) | _ => Trap Fault end.
Definition va_str (ap : list va_arg) : result (option bytes * list va_arg) :=
  match ap with VStr s :: ap => Ok (s, ap) | _ => Trap Fault end.

(** [strlen] of an argument of [%s].  It follows the pointer, so for NULL the C
    code has no defined behaviour. *)
Definition strlen_arg (s : option bytes) : result Z :=
  match s with Some s => Ok (strlen s) | None => Trap Fault end.

(** One conversion, from the character [c] behind the width.  The test for
    NULL comes after [strlen]. *)
Definition convert (c pad width : Z) (ap : list va_arg) (o : out_t)
    : result (out_t * list va_arg) :=
  if c =? 0x63 (* c *) then '(v, ap) ← va_int ap; Ok (emit (u8 v) o, ap)
  else if c =? 0x73 (* s *) then
    '(s, ap) ← va_str ap;
    len ← strlen_arg s;
    let '(s, len) := match s with None => (lit "(null)", 6) | Some s => (s, len) end in
    let str_pad := s32 (u32 (width - len)) in
    Ok (emit_all s (emit_times (Z.to_nat str_pad) 0x20 o), ap)
  else if (c =? 0x64) || (c =? 0x69) (* d i *) then
    '(v, ap) ← va_int ap;
    let neg := s32 v <? 0 in
    o ← emit_number (if neg then u32 (0 - v) else v) neg 10 false width pad o;
    Ok (o, ap)
  else if c =? 0x75 (* u *) then
    '(v, ap) ← va_int ap; o ← emit_number v false 10 false width pad o; Ok (o, ap)
  else if c =? 0x78 (* x *) then
    '(v, ap) ← va_int ap; o ← emit_number v false 16 false width pad o; Ok (o, ap)
  else if c =? 0x58 (* X *) then
    '(v, ap) ← va_int ap; o ← emit_number v false 16 true width pad o; Ok (o, ap)
  else if c =? 0x70 (* p *) then
    '(v, ap) ← va_int ap;
    o ← emit_number v false 16 false 8 0x30 (emit 0x78 (emit 0x30 o)); Ok (o, ap)
  else if c =? 0x25 (* % *) then Ok (emit 0x25 o, ap)
  else Ok (emit c (emit 0x25 o), ap).

(** Each turn reads at least one character of the format. *)
Fixpoint format_loop (fuel : nat) (fmt : bytes) (ap : list va_arg) (o : out_t) : result out_t :=
  match fuel with
  | O => Trap Diverge
  | S fuel =>
      match fmt with
      | [] => Ok o
      | c :: fmt =>
          if negb (c =? 0x25) then format_loop fuel fmt ap (emit c o)
          else
            let '(pad, fmt) := match fmt with
              | d :: fmt' => if d =? 0x30 then (0x30, fmt') else (0x20, fmt)
              | [] => (0x20, fmt)
              end in
            let '(width, fmt) := scan_width fmt 0 in
            match fmt with
            | [] => Ok (emit 0x25 o)
            | c :: fmt =>
                '(o, ap) ← convert c pad width ap o;
                format_loop fuel fmt ap o
            end
      end
  end.

Definition kvsnprintf (buf : bytes) (cap : Z) (fmt : bytes) (ap : list va_arg)
    : result (Z * bytes) :=
  o ← format_loop (S (length fmt)) fmt ap (Out buf cap 0);
  let buf :=
    if negb (cap =? 0)
    then <[Z.to_nat (if o_len o <? cap then o_len o else cap - 1) := 0]> (o_buf o)
    else o_buf o in
  Ok (s32 (o_len o), buf).

Definition ksnprintf := kvsnprintf.

Definition clamp_len (n cap : Z) : Z :=
  if n <? 0 then 0 else if u32 n >=? cap then cap - 1 else u32 n.

(** What [kprintf] hands to [console_write] (and [kpanicf] to
    [console_write_sync]), and what it returns; [buf] is the uninitialised
    buffer on the stack. *)
Definition kprintf (buf : bytes) (fmt : bytes) (ap : list va_arg) : result (Z * bytes) :=
  '(n, buf) ← kvsnprintf buf KPRINTF_BUF_SIZE fmt ap;
  Ok (n, take (Z.to_nat (clamp_len n KPRINTF_BUF_SIZE)) buf).
Definition kpanicf := kprintf.

Definition UPRINTF_BUF_SIZE : Z := 128.
(** What [uprintf] hands to [sys_console_write]. *)
Definition uprintf (buf : bytes) (fmt : bytes) (ap : list va_arg) : result (Z * bytes) :=
  '(n, buf) ← kvsnprintf buf UPRINTF_BUF_SIZE fmt ap;
  Ok (n, take (Z.to_nat (clamp_len n UPRINTF_BUF_SIZE)) buf).
