(* ===== verification/KprintfSpec.v ===== *)
(** * What the formatter writes

    [render] is the text a format asks for, without a buffer; the code writes
    the part of it that fits, and counts all of it. *)
From Stdlib Require Import Ascii String.
From S2P Require Import Prelude Utils Kprintf.

(** ** The text *)

Definition padding (total width : Z) (c : Z) : bytes := repeat c (Z.to_nat (width - total)).

Definition number_text (v : Z) (neg : bool) (base : Z) (upper : bool) (width pad : Z) : result bytes :=
  ds ← digits_loop 10 v base (if upper then upper_digits else lower_digits) [];
  let sign := if neg then [0x2d] else [] in
  let total := Z.of_nat (length (sign ++ ds)) in
  Ok (if pad =? 0x20 then padding total width 0x20 ++ sign ++ ds
      else sign ++ padding total width 0x30 ++ ds).

Definition conv_text (c pad width : Z) (ap : list va_arg) : result (bytes * list va_arg) :=
  if c =? 0x63 then '(v, ap) ← va_int ap; Ok ([v], ap)
  else if c =? 0x73 then
    '(s, ap) ← va_str ap;
    match s with
    | Some s => Ok (repeat 0x20 (Z.to_nat (s32 (u32 (width - strlen s)))) ++ s, ap)
    | None => Trap Fault
    end
  else if (c =? 0x64) || (c =? 0x69) then
    '(v, ap) ← va_int ap; w ← number_text (Z.abs (s32 v)) (s32 v <? 0) 10 false width pad; Ok (w, ap)
  else if c =? 0x75 then
    '(v, ap) ← va_int ap; w ← number_text v false 10 false width pad; Ok (w, ap)
  else if c =? 0x78 then
    '(v, ap) ← va_int ap; w ← number_text v false 16 false width pad; Ok (w, ap)
  else if c =? 0x58 then
    '(v, ap) ← va_int ap; w ← number_text v false 16 true width pad; Ok (w, ap)
  else if c =? 0x70 then
    '(v, ap) ← va_int ap; w ← number_text v false 16 false 8 0x30; Ok (lit "0x" ++ w, ap)
  else if c =? 0x25 then Ok ([0x25], ap)
  else Ok ([0x25; c], ap).

Fixpoint render_loop (fuel : nat) (fmt : bytes) (ap : list va_arg) : result bytes :=
  match fuel with
  | O => Trap Diverge
  | S fuel =>
      match fmt with
      | [] => Ok []
      | c :: fmt =>
          if negb (c =? 0x25) then w ← render_loop fuel fmt ap; Ok (c :: w)
          else
            let '(pad, fmt) := match fmt with
              | d :: fmt' => if d =? 0x30 then (0x30, fmt') else (0x20, fmt)
              | [] => (0x20, fmt)
              end in
            let '(width, fmt) := scan_width fmt 0 in
            match fmt with
            | [] => Ok [0x25]
            | c :: fmt =>
                '(w, ap) ← conv_text c pad width ap;
                w' ← render_loop fuel fmt ap; Ok (w ++ w')
            end
      end
  end.
Definition render (fmt : bytes) (ap : list va_arg) : result bytes :=
  render_loop (S (length fmt)) fmt ap.

(** ** Digits *)

(** The value of a number written from the highest digit. *)
Definition digit_value (d : Z) : Z := if d <? 0x3a then d - 0x30 else if d <? 0x60 then d - 55 else d - 87.
Definition value_of (base : Z) (ds : bytes) : Z :=
  foldl (fun acc d => acc * base + digit_value d) 0 ds.

Definition digits_for (base : Z) (digits : bytes) : Prop :=
  2 <= base /\ base <= Z.of_nat (length digits) /\
  forall k, 0 <= k < base -> digit_value (List.nth (Z.to_nat k) digits 0) = k.

Lemma decimal_digits : digits_for 10 lower_digits.
Proof.
  split; [lia|]. split; [by vm_compute|]. intros k Hk.
  assert (forallb (fun i => digit_value (List.nth i lower_digits 0) =? Z.of_nat i) (seq 0 16) = true)
    as H by by vm_compute.
  rewrite forallb_forall in H. specialize (H (Z.to_nat k)).
  rewrite Z.eqb_eq, Z2Nat.id in H by lia. apply H, in_seq. lia.
Qed.

Lemma value_of_app base ds w :
  value_of base (ds ++ w) = foldl (fun acc d => acc * base + digit_value d) (value_of base ds) w.
Proof. unfold value_of. by rewrite foldl_app. Qed.

(** Writing the digits of [v] in front of [tmp]. *)
Lemma digits_loop_ok room v base digits tmp :
  digits_for base digits -> 0 <= v < base ^ Z.of_nat room -> (0 < room)%nat ->
  exists ds, digits_loop room v base digits tmp = Ok (ds ++ tmp) /\ value_of base ds = v /\
    (0 < length ds <= room)%nat /\
    (forall d ds', ds = d :: ds' -> digit_value d = 0 -> ds' = [] /\ v = 0).
Proof.
  intros (Hb & Hlen & Hdig). revert v tmp.
  induction room as [|room IH]; intros v tmp Hv Hr; [lia|]. cbn [digits_loop].
  set (d := List.nth (Z.to_nat (v mod base)) digits 0).
  pose proof (Z.mod_pos_bound v base ltac:(lia)) as Hm. pose proof (Z.div_mod v base ltac:(lia)) as Hdm.
  assert (digit_value d = v mod base) as Ed by (by apply Hdig).
  destruct (Z.eqb_spec (v / base) 0) as [E|E].
  - exists [d]. split; [done|]. unfold value_of. cbn. rewrite Ed. split; [lia|]. split; [lia|].
    intros d' ds' [= <- <-] Hz. split; [done|]. lia.
  - assert (0 <= v / base) as H0 by (apply Z.div_pos; lia).
    assert (v / base < base ^ Z.of_nat room) as H1.
    { apply Z.div_lt_upper_bound; [lia|]. rewrite Nat2Z.inj_succ, Z.pow_succ_r in Hv by lia. lia. }
    destruct room as [|room]; [cbn in H1; lia|].
    destruct (IH (v / base) (d :: tmp)) as (ds & -> & Ev & Hl & Hz); [lia|lia|].
    exists (ds ++ [d]). rewrite <- app_assoc. split; [done|].
    rewrite value_of_app, Ev. cbn. rewrite Ed, length_app. cbn. split; [lia|]. split; [lia|].
    intros d' ds' Heq Hd. destruct ds as [|d'' ds]; [cbn in Hl; lia|]. injection Heq as <- <-.
    destruct (Hz _ _ eq_refl Hd) as [_ ?]. lia.
Qed.

(** ** The buffer *)

(** The buffer after [w] was emitted into [buf]. *)
Definition overlay (buf : bytes) (cap : Z) (w : bytes) : bytes :=
  let m := Nat.min (length w) (Z.to_nat (cap - 1)) in
  if cap =? 0 then buf else take m (u8 <$> w) ++ drop m buf.
Definition after (buf : bytes) (cap : Z) (w : bytes) : out_t :=
  Out (overlay buf cap w) cap (u32 (Z.of_nat (length w))).

Section buffer.
Context (buf : bytes) (cap : Z) (Hcap : 0 <= cap < 2 ^ 32) (Hbuf : Z.of_nat (length buf) = cap).

Lemma overlay_length w : length (overlay buf cap w) = length buf.
Proof using Hbuf Hcap.
  unfold overlay. destruct (Z.eqb_spec cap 0); [done|].
  rewrite length_app, length_take, length_drop, length_fmap. lia.
Qed.

Lemma emit_after c w :
  Z.of_nat (length w) + 1 < 2 ^ 32 -> emit c (after buf cap w) = after buf cap (w ++ [c]).
Proof using Hbuf Hcap.
  intros Hw. unfold emit, after. cbn [o_buf o_cap o_len].
  rewrite u32_small by lia. rewrite length_app. cbn [length].
  replace (u32 (Z.of_nat (length w) + 1)) with (u32 (Z.of_nat (length w + 1))) by (f_equal; lia).
  f_equal. unfold overlay. destruct (Z.eqb_spec cap 0) as [E|E]; [done|]. cbn [negb andb].
  rewrite u32_small by lia. rewrite length_app. cbn [length].
  destruct (Z.ltb_spec (Z.of_nat (length w)) (cap - 1)) as [Hl|Hl].
  - rewrite Nat2Z.id. rewrite !Nat.min_l by lia.
    rewrite fmap_app, (take_ge (u8 <$> w)) by (rewrite length_fmap; lia).
    rewrite take_ge by (rewrite length_app, length_fmap; cbn; lia).
    rewrite insert_app_r_alt by (rewrite length_fmap; lia). rewrite length_fmap, Nat.sub_diag.
    rewrite <- app_assoc. f_equal. rewrite (drop_S buf (List.nth (length w) buf 0)) at 1.
    + cbn. by rewrite Nat.add_1_r.
    + rewrite list_lookup_lookup_total_lt by lia. f_equal. rewrite nth_lookup.
      by rewrite list_lookup_lookup_total_lt by lia.
  - rewrite !Nat.min_r by lia. f_equal. rewrite fmap_app, take_app_le by (rewrite length_fmap; lia). done.
Qed.

Lemma emit_all_after cs w :
  Z.of_nat (length (w ++ cs)) < 2 ^ 32 -> emit_all cs (after buf cap w) = after buf cap (w ++ cs).
Proof using Hbuf Hcap.
  revert w. induction cs as [|c cs IH]; intros w Hw; [by rewrite app_nil_r|]. cbn [emit_all].
  rewrite length_app in Hw. cbn in Hw. rewrite emit_after by lia.
  rewrite IH by (rewrite !length_app; cbn; lia). by rewrite <- app_assoc.
Qed.

End buffer.

(** ** The code writes the text *)

Lemma emit_times_all n c o : emit_times n c o = emit_all (repeat c n) o.
Proof. revert o. induction n as [|n IH]; intros o; [done|]. cbn. apply IH. Qed.

Lemma emit_all_app cs1 cs2 o : emit_all (cs1 ++ cs2) o = emit_all cs2 (emit_all cs1 o).
Proof. revert o. induction cs1 as [|c cs1 IH]; intros o; [done|]. cbn. apply IH. Qed.

Lemma emit_u8 c o : emit (u8 c) o = emit c o.
Proof. unfold emit, u8. by rewrite Zmod_mod. Qed.

Lemma hex_digits (upper : bool) : digits_for 16 (if upper then upper_digits else lower_digits).
Proof.
  split; [lia|]. split; [by destruct upper; vm_compute|]. intros k Hk.
  assert (forall ds, forallb (fun i => digit_value (List.nth i ds 0) =? Z.of_nat i) (seq 0 16) = true ->
    digit_value (List.nth (Z.to_nat k) ds 0) = k) as H.
  { intros ds H. rewrite forallb_forall in H. specialize (H (Z.to_nat k)).
    rewrite Z.eqb_eq, Z2Nat.id in H by lia. apply H, in_seq. lia. }
  by destruct upper; apply H; vm_compute.
Qed.

Lemma emit_number_text v (neg : bool) base (upper : bool) width pad o :
  digits_for base (if upper then upper_digits else lower_digits) -> base ^ 10 >= 2 ^ 32 ->
  0 <= v < 2 ^ 32 ->
  exists t, number_text v neg base upper width pad = Ok t /\
    emit_number v neg base upper width pad o = Ok (emit_all t o).
Proof.
  intros Hd Hb Hv. unfold number_text, emit_number.
  destruct (digits_loop_ok 10 v base _ [] Hd) as (ds & -> & _ & Hl & _); [cbn; lia|lia|].
  rewrite app_nil_r. unfold mbind, result_bind. eexists. split; [done|]. f_equal.
  assert (u32 (Z.of_nat (length ds) + (if neg then 1 else 0)) =
    Z.of_nat (length ((if neg then [0x2d] else []) ++ ds))) as ->.
  { rewrite length_app. destruct neg; cbn; rewrite u32_small; lia. }
  unfold padding. rewrite !emit_times_all.
  by destruct (pad =? 0x20), neg; cbn [app]; rewrite ?emit_all_app; cbn [emit_all];
    rewrite ?emit_all_app.
Qed.

Definition emit_result (o : out_t) (r : result (bytes * list va_arg)) : result (out_t * list va_arg) :=
  match r with Ok (t, ap) => Ok (emit_all t o, ap) | Trap e => Trap e end.

Lemma va_int_range ap v ap' : va_int ap = Ok (v, ap') -> 0 <= v < 2 ^ 32.
Proof. destruct ap as [|[]]; cbn; try done. intros [= <- _]. apply u32_range. Qed.

Lemma signed_abs v :
  0 <= v < 2 ^ 32 ->
  (if s32 v <? 0 then u32 (0 - v) else v) = Z.abs (s32 v) /\ 0 <= Z.abs (s32 v) < 2 ^ 32.
Proof. intros Hv. unfold s32. rewrite u32_small by lia. word_lia. Qed.

Lemma convert_text c pad width ap o :
  convert c pad width ap o = emit_result o (conv_text c pad width ap).
Proof.
  unfold convert, conv_text.
  assert (forall v ap' neg base (upper : bool) width pad o, va_int ap = Ok (v, ap') ->
    digits_for base (if upper then upper_digits else lower_digits) -> base ^ 10 >= 2 ^ 32 ->
    exists t, number_text v neg base upper width pad = Ok t /\
      emit_number v neg base upper width pad o = Ok (emit_all t o)) as Hnum.
  { intros. by eapply emit_number_text, va_int_range. }
  destruct (c =? 0x63).
  { destruct (va_int ap) as [[v ap']|]; [|done]. unfold mbind, result_bind. cbn. by rewrite emit_u8. }
  destruct (c =? 0x73).
  { destruct (va_str ap) as [[[s|] ap']|]; [|done|done]. unfold mbind, result_bind. cbn.
    by rewrite emit_all_app, emit_times_all. }
  destruct ((c =? 0x64) || (c =? 0x69)).
  { destruct (va_int ap) as [[v ap']|] eqn:E; [|done]. unfold mbind, result_bind.
    destruct (signed_abs v (va_int_range _ _ _ E)) as [-> Hr].
    destruct (emit_number_text (Z.abs (s32 v)) (s32 v <? 0) 10 false width pad o decimal_digits
      ltac:(done) Hr) as (t & -> & ->). done. }
  repeat match goal with
  | |- context [c =? ?k] => destruct (c =? k)
  end; try done;
    (destruct (va_int ap) as [[v ap']|] eqn:E; [|done]; unfold mbind, result_bind;
     match goal with
     | |- context [emit_number v ?n ?b ?u ?w ?p ?o'] =>
         destruct (Hnum v ap' n b u w p o' eq_refl) as (t & -> & ->);
           [first [apply decimal_digits|apply (hex_digits false)|apply (hex_digits true)]|done|]
     end; done).
Qed.

Lemma format_loop_text fuel fmt ap o :
  format_loop fuel fmt ap o =
    match render_loop fuel fmt ap with Ok t => Ok (emit_all t o) | Trap e => Trap e end.
Proof.
  revert fmt ap o. induction fuel as [|fuel IH]; intros fmt ap o; [done|]. cbn [format_loop render_loop].
  destruct fmt as [|c fmt]; [done|]. destruct (negb (c =? 0x25)).
  { rewrite IH. by destruct (render_loop fuel fmt ap). }
  destruct (match fmt with [] => _ | _ => _ end) as [pad fmt1].
  destruct (scan_width fmt1 0) as [width fmt2]. destruct fmt2 as [|c2 fmt2]; [done|].
  rewrite convert_text. destruct (conv_text c2 pad width ap) as [[t ap']|]; [|done].
  unfold mbind, result_bind. cbn [emit_result]. rewrite IH.
  destruct (render_loop fuel fmt2 ap'); [|done]. by rewrite emit_all_app.
Qed.

(** The fuel of the loop is enough. *)
Lemma scan_width_length fmt w : (length (scan_width fmt w).2 <= length fmt)%nat.
Proof.
  revert w. induction fmt as [|c fmt IH]; intros w; [done|]. cbn.
  destruct (is_digit c); [|done]. etrans; [apply IH|]. lia.
Qed.

Lemma conv_text_total c pad width ap : conv_text c pad width ap <> Trap Diverge.
Proof.
  assert (forall v (neg : bool) base (upper : bool) width pad,
    number_text v neg base upper width pad <> Trap Diverge) as Hn.
  { intros. unfold number_text.
    assert (forall n v tmp, digits_loop n v base (if upper then upper_digits else lower_digits) tmp
      <> Trap Diverge) as H.
    { induction n as [|n IH]; intros v' tmp; [done|]. cbn. by destruct (_ =? 0). }
    specialize (H 10%nat v []). by destruct (digits_loop _ _ _ _ _); [|intros [= ->]]. }
  unfold conv_text.
  repeat match goal with |- context [if ?b then _ else _] => destruct b end; try done;
    unfold va_int, va_str, mbind, result_bind;
    (destruct ap as [|[|[]] ap]; try done);
    match goal with
    | |- context [number_text ?v ?n ?b ?u ?w ?p] =>
        specialize (Hn v n b u w p); by destruct (number_text v n b u w p); [|intros [= ->]; congruence]
    | |- _ => done
    end.
Qed.

Lemma render_total fuel fmt ap : (length fmt < fuel)%nat -> render_loop fuel fmt ap <> Trap Diverge.
Proof.
  revert fmt ap. induction fuel as [|fuel IH]; intros fmt ap Hf; [lia|]. cbn [render_loop].
  destruct fmt as [|c fmt]; [done|]. cbn [length] in Hf. destruct (negb (c =? 0x25)).
  { specialize (IH fmt ap ltac:(lia)). by destruct (render_loop fuel fmt ap); [|intros [= ->]; congruence]. }
  assert (exists pad fmt1, (match fmt with
    | [] => (0x20, fmt) | d :: fmt' => if d =? 0x30 then (0x30, fmt') else (0x20, fmt) end)
    = (pad, fmt1) /\ (length fmt1 <= length fmt)%nat) as (pad & fmt1 & -> & Hl).
  { destruct fmt as [|d fmt']; [by eauto|].
    destruct (d =? 0x30); eexists _, _; (split; [done|cbn; lia]). }
  pose proof (scan_width_length fmt1 0) as Hs. destruct (scan_width fmt1 0) as [width fmt2].
  destruct fmt2 as [|c2 fmt2]; [done|]. cbn [snd length] in Hs.
  pose proof (conv_text_total c2 pad width ap) as Hc.
  destruct (conv_text c2 pad width ap) as [[t ap']|]; [|intros [= ->]; congruence].
  unfold mbind, result_bind. specialize (IH fmt2 ap' ltac:(lia)).
  by destruct (render_loop fuel fmt2 ap'); [|intros [= ->]; congruence].
Qed.

(** ** kvsnprintf *)

(** What [buf] holds after the text [w]: the part of it that fits, a zero, and
    its old contents. *)
Definition written (buf : bytes) (cap : Z) (w : bytes) : bytes :=
  if cap =? 0 then buf
  else
    let m := Nat.min (length w) (Z.to_nat (cap - 1)) in
    take m (u8 <$> w) ++ 0 :: drop (S m) buf.

Lemma kvsnprintf_ok buf cap fmt ap w :
  0 <= cap < 2 ^ 32 -> Z.of_nat (length buf) = cap ->
  render fmt ap = Ok w -> Z.of_nat (length w) < 2 ^ 31 ->
  kvsnprintf buf cap fmt ap = Ok (Z.of_nat (length w), written buf cap w).
Proof.
  intros Hcap Hbuf Hw Hlen. unfold kvsnprintf. rewrite format_loop_text. unfold render in Hw.
  rewrite Hw. unfold mbind, result_bind.
  assert (Out buf cap 0 = after buf cap []) as ->.
  { unfold after, overlay. cbn. by destruct (cap =? 0). }
  rewrite emit_all_after by (cbn; lia). cbn [app]. cbn [after o_len o_buf].
  rewrite u32_small by lia. unfold s32. rewrite u32_small by lia.
  rewrite (proj2 (Z.ltb_lt _ _)) by lia. do 2 f_equal. unfold written.
  pose proof (overlay_length buf cap Hcap Hbuf w) as Hl. unfold overlay in *.
  destruct (Z.eqb_spec cap 0) as [|Hc]; [done|]. cbn [negb].
  set (m := Nat.min (length w) (Z.to_nat (cap - 1))) in *.
  replace (Z.to_nat (if Z.of_nat (length w) <? cap then Z.of_nat (length w) else cap - 1)) with m
    by (destruct (Z.ltb_spec (Z.of_nat (length w)) cap); lia).
  assert (length (take m (u8 <$> w)) = m) as Hm by (rewrite length_take, length_fmap; lia).
  rewrite insert_app_r_alt by lia. rewrite Hm, Nat.sub_diag. f_equal.
  destruct (drop m buf) as [|x r] eqn:E.
  { apply (f_equal length) in E. rewrite length_drop in E. cbn in E. lia. }
  cbn. f_equal. apply (f_equal (drop 1)) in E. rewrite drop_drop in E. by rewrite Nat.add_1_r in E.
Qed.

(** What the bounded printers pass on. *)
Lemma clamped_output cap buf fmt ap w :
  0 < cap < 2 ^ 31 -> Z.of_nat (length buf) = cap ->
  render fmt ap = Ok w -> Z.of_nat (length w) < 2 ^ 31 ->
  kvsnprintf buf cap fmt ap = Ok (Z.of_nat (length w), written buf cap w) /\
  take (Z.to_nat (clamp_len (Z.of_nat (length w)) cap)) (written buf cap w)
    = take (Z.to_nat (cap - 1)) (u8 <$> w).
Proof.
  intros Hcap Hbuf Hw Hlen. split; [by apply kvsnprintf_ok; [lia|..]|].
  unfold clamp_len, written. rewrite (proj2 (Z.ltb_ge _ 0)), u32_small, (proj2 (Z.eqb_neq _ _)) by lia.
  set (m := Nat.min (length w) (Z.to_nat (cap - 1))).
  assert (Z.to_nat (if Z.of_nat (length w) >=? cap then cap - 1 else Z.of_nat (length w)) = m) as ->.
  { rewrite Z.geb_leb. destruct (Z.leb_spec cap (Z.of_nat (length w))); lia. }
  rewrite take_app_length' by (rewrite length_take, length_fmap; lia).
  destruct (decide (length w <= Z.to_nat (cap - 1))%nat).
  - rewrite !take_ge; [done|rewrite length_fmap; lia..].
  - f_equal. lia.
Qed.
