(* ===== verification/FormatTypes.v ===== *)
(** * Types of format strings

    A format determines how many arguments it takes and of which kind; the
    compiler does not check it for [kprintf].  [fmt_types] computes the kinds,
    [well_typed] compares them with the arguments of a call, and the theorems
    say that this check is sound and exact: a call returns if it passes, and
    its behaviour is undefined in C (here: [Fault]) if it does not, since it
    takes an argument that is not there, a word for a string pointer or the
    other way round, or the length of NULL.
    [fmt_bound] bounds the text of a format without [%s]. *)
From Stdlib Require Import Ascii String.
From S2P Require Import Prelude Utils Kprintf KprintfSpec.

(** ** The checker *)

Inductive arg_type := TInt | TStr.
#[export] Instance arg_type_eq_dec : EqDecision arg_type.
Proof. solve_decision. Defined.

(** NULL is no string. *)
Definition type_of (a : va_arg) : option arg_type :=
  match a with VInt _ => Some TInt | VStr (Some _) => Some TStr | VStr None => None end.

(** The argument that a conversion takes. *)
Definition conv_type (c : Z) : option arg_type :=
  if c =? 0x73 then Some TStr
  else if (c =? 0x63) || (c =? 0x64) || (c =? 0x69) || (c =? 0x75) || (c =? 0x78) || (c =? 0x58)
          || (c =? 0x70) then Some TInt
  else None.

(** The conversion behind a percent sign: padding, width, character and what
    follows; [None] when the format ends. *)
Definition conversion (fmt : bytes) : option (Z * Z * Z * bytes) :=
  let '(pad, fmt) := match fmt with
    | d :: fmt' => if d =? 0x30 then (0x30, fmt') else (0x20, fmt)
    | [] => (0x20, fmt)
    end in
  let '(width, fmt) := scan_width fmt 0 in
  match fmt with [] => None | c :: fmt => Some (pad, width, c, fmt) end.

Fixpoint fmt_types_loop (fuel : nat) (fmt : bytes) : list arg_type :=
  match fuel with
  | O => []
  | S fuel =>
      match fmt with
      | [] => []
      | c :: fmt =>
          if negb (c =? 0x25) then fmt_types_loop fuel fmt
          else
            match conversion fmt with
            | None => []
            | Some (_, _, c, fmt) => option_list (conv_type c) ++ fmt_types_loop fuel fmt
            end
      end
  end.
Definition fmt_types (fmt : bytes) : list arg_type := fmt_types_loop (S (length fmt)) fmt.

(** The arguments start with one of each kind, in order; C ignores the others. *)
Fixpoint matches (tys : list arg_type) (ap : list va_arg) : bool :=
  match tys, ap with
  | [], _ => true
  | ty :: tys, a :: ap => bool_decide (type_of a = Some ty) && matches tys ap
  | _ :: _, [] => false
  end.
Definition well_typed (fmt : bytes) (ap : list va_arg) : bool := matches (fmt_types fmt) ap.

(** Only the kinds of the arguments count. *)
Lemma well_typed_types fmt a b : type_of <$> a = type_of <$> b -> well_typed fmt a = well_typed fmt b.
Proof.
  unfold well_typed. generalize (fmt_types fmt). intros tys. revert a b.
  induction tys as [|ty tys IH]; intros [|x a] [|y b] E; try done.
  cbn in *. injection E as E1 E2. by rewrite E1, (IH a b).
Qed.

(** The longest text of a conversion of a word. *)
Definition conv_bound (c width : Z) : nat :=
  if c =? 0x63 then 1
  else if c =? 0x70 then 12
  else if (c =? 0x64) || (c =? 0x69) || (c =? 0x75) || (c =? 0x78) || (c =? 0x58)
  then Nat.max 11 (Z.to_nat width)
  else 2.
Fixpoint fmt_bound_loop (fuel : nat) (fmt : bytes) : nat :=
  match fuel with
  | O => 0
  | S fuel =>
      match fmt with
      | [] => 0
      | c :: fmt =>
          if negb (c =? 0x25) then S (fmt_bound_loop fuel fmt)
          else
            match conversion fmt with
            | None => 1
            | Some (_, width, c, fmt) => (conv_bound c width + fmt_bound_loop fuel fmt)%nat
            end
      end
  end.
Definition fmt_bound (fmt : bytes) : nat := fmt_bound_loop (S (length fmt)) fmt.

(** ** One conversion *)

Lemma render_loop_conversion fuel c fmt ap :
  render_loop (S fuel) (c :: fmt) ap =
    if negb (c =? 0x25) then w ← render_loop fuel fmt ap; Ok (c :: w)
    else match conversion fmt with
         | None => Ok [0x25]
         | Some (pad, width, c, fmt) =>
             '(w, ap) ← conv_text c pad width ap; w' ← render_loop fuel fmt ap; Ok (w ++ w')
         end.
Proof.
  cbn [render_loop]. destruct (negb (c =? 0x25)); [done|]. unfold conversion.
  destruct (match fmt with [] => _ | _ => _ end) as [pad fmt1].
  destruct (scan_width fmt1 0) as [width fmt2]. by destruct fmt2.
Qed.

Lemma conversion_length fmt pad width c rest :
  conversion fmt = Some (pad, width, c, rest) -> (length rest < length fmt)%nat.
Proof.
  unfold conversion.
  destruct (match fmt with [] => _ | _ => _ end) as [pad1 fmt1] eqn:E1.
  assert (length fmt1 <= length fmt)%nat.
  { destruct fmt as [|d fmt']; [by injection E1 as _ <-|].
    destruct (d =? 0x30); injection E1 as _ <-; cbn; lia. }
  pose proof (scan_width_length fmt1 0) as Hs. destruct (scan_width fmt1 0) as [w fmt2].
  destruct fmt2; [done|]. intros [= _ _ _ <-]. cbn in Hs. lia.
Qed.

(** Every number has a text of at most ten digits and a sign. *)
Lemma number_text_total v (neg : bool) base (upper : bool) width pad :
  digits_for base (if upper then upper_digits else lower_digits) -> base ^ 10 >= 2 ^ 32 ->
  0 <= v < 2 ^ 32 ->
  exists t, number_text v neg base upper width pad = Ok t /\
    (length t <= Nat.max (10 + if neg then 1 else 0) (Z.to_nat width))%nat.
Proof.
  intros Hd Hb Hv. unfold number_text.
  destruct (digits_loop_ok 10 v base _ [] Hd) as (ds & -> & _ & Hl & _); [cbn; lia|lia|].
  rewrite app_nil_r. unfold mbind, result_bind. eexists. split; [done|]. unfold padding.
  by destruct (pad =? 0x20), neg; rewrite !length_app, ?length_app, repeat_length; cbn [length]; lia.
Qed.

(** What a conversion does with the argument list. *)
Definition conv_spec (c width : Z) (ap : list va_arg) (r : result (bytes * list va_arg)) : Prop :=
  match conv_type c with
  | None => exists w, r = Ok (w, ap) /\ (length w <= 2)%nat
  | Some TInt =>
      match ap with
      | VInt _ :: ap' => exists w, r = Ok (w, ap') /\ (length w <= conv_bound c width)%nat
      | _ => r = Trap Fault
      end
  | Some TStr =>
      match ap with
      | VStr (Some _) :: ap' => exists w, r = Ok (w, ap')
      | _ => r = Trap Fault
      end
  end.

Lemma conv_text_spec c pad width ap : conv_spec c width ap (conv_text c pad width ap).
Proof.
  unfold conv_spec, conv_type, conv_text, conv_bound.
  assert (forall v (neg : bool) base (upper : bool) width pad,
    0 <= v < 2 ^ 32 -> base = 10 /\ upper = false \/ base = 16 ->
    exists t, number_text v neg base upper width pad = Ok t /\
      (length t <= Nat.max (10 + if neg then 1 else 0) (Z.to_nat width))%nat) as Hn.
  { intros v neg base upper w p Hv [[-> ->]| ->]; apply number_text_total; try done;
      [apply decimal_digits|apply hex_digits]. }
  destruct (Z.eqb_spec c 0x73) as [->|_].
  { cbn. destruct ap as [|[v|[s|]] ap]; try done. cbn. eexists. reflexivity. }
  destruct (Z.eqb_spec c 0x63) as [->|_].
  { cbn. destruct ap as [|[v|s] ap]; [done| |done]. cbn. eexists. split; [reflexivity|]. cbn. lia. }
  destruct (Z.eqb_spec c 0x70) as [->|_].
  { cbn -[number_text u32]. destruct ap as [|[v|s] ap]; [done| |done]. cbn -[number_text u32].
    destruct (Hn (u32 v) false 16 false 8 0x30 (u32_range v) ltac:(by right)) as (t & -> & Hl).
    eexists. split; [reflexivity|]. cbn. change (Z.to_nat 8) with 8%nat in Hl. lia. }
  destruct ((c =? 0x64) || (c =? 0x69)) eqn:Ed.
  { apply orb_prop in Ed as [->%Z.eqb_eq| ->%Z.eqb_eq]; cbn -[number_text u32 s32];
      (destruct ap as [|[v|s] ap]; [done| |done]); cbn -[number_text u32 s32];
      (destruct (Hn (Z.abs (s32 (u32 v))) (s32 (u32 v) <? 0) 10 false width pad) as (t & -> & Hl);
        [apply signed_abs, u32_range|by left|]);
      (eexists; split; [reflexivity|]; destruct (_ <? 0) in Hl; lia). }
  apply orb_false_elim in Ed as [Ed1 Ed2]. rewrite Ed1, Ed2. cbn [orb].
  destruct (Z.eqb_spec c 0x75) as [->|_]; [|destruct (Z.eqb_spec c 0x78) as [->|_];
    [|destruct (Z.eqb_spec c 0x58) as [->|_]]].
  4: { cbn [orb]. destruct (c =? 0x25); eexists; (split; [reflexivity|]); cbn; lia. }
  all: cbn -[number_text u32 Nat.max]; (destruct ap as [|[v|s] ap]; [done| |done]); cbn -[number_text u32 Nat.max];
    match goal with
    | |- context [number_text ?v ?n ?b ?u ?w ?p] =>
        destruct (Hn v n b u w p) as (t & -> & Hl); [apply u32_range|first [by left|by right]|]
    end; eexists; (split; [reflexivity|]); lia.
Qed.

(** ** Soundness and exactness of the check *)

Lemma render_typed fuel fmt ap :
  (length fmt < fuel)%nat ->
  if matches (fmt_types_loop fuel fmt) ap then exists w, render_loop fuel fmt ap = Ok w
  else render_loop fuel fmt ap = Trap Fault.
Proof.
  revert fmt ap. induction fuel as [|fuel IH]; intros fmt ap Hf; [lia|].
  destruct fmt as [|c fmt]; [by exists []|]. rewrite render_loop_conversion.
  cbn [fmt_types_loop length] in *. destruct (negb (c =? 0x25)).
  { specialize (IH fmt ap ltac:(lia)). destruct (matches _ ap).
    - destruct IH as [w ->]. by eexists.
    - by rewrite IH. }
  destruct (conversion fmt) as [[[[pad width] c2] fmt2]|] eqn:E; [|by eexists].
  apply conversion_length in E. pose proof (conv_text_spec c2 pad width ap) as Hc.
  assert (forall ap', if matches (fmt_types_loop fuel fmt2) ap'
    then exists w, render_loop fuel fmt2 ap' = Ok w else render_loop fuel fmt2 ap' = Trap Fault) as IH'.
  { intros ap'. apply IH. lia. }
  assert (forall w ap', conv_text c2 pad width ap = Ok (w, ap') ->
    if matches (fmt_types_loop fuel fmt2) ap'
    then exists w, ('(w, ap) ← conv_text c2 pad width ap; w' ← render_loop fuel fmt2 ap; Ok (w ++ w')) = Ok w
    else ('(w, ap) ← conv_text c2 pad width ap; w' ← render_loop fuel fmt2 ap; Ok (w ++ w')) = Trap Fault)
    as Hok.
  { intros w ap' ->. cbn. specialize (IH' ap'). destruct (matches _ ap').
    - destruct IH' as [w' ->]. by eexists.
    - by rewrite IH'. }
  unfold conv_spec in Hc. destruct (conv_type c2) as [[|]|]; cbn [option_list app matches].
  - destruct ap as [|[v|[s|]] ap]; [by rewrite Hc| |by rewrite Hc..].
    destruct Hc as (w & Hc & _). by apply (Hok w).
  - destruct ap as [|[v|[s|]] ap]; [by rewrite Hc|by rewrite Hc| |by rewrite Hc].
    destruct Hc as (w & Hc). by apply (Hok w).
  - destruct Hc as (w & Hc & _). by apply (Hok w).
Qed.

Lemma render_checked fmt ap :
  if well_typed fmt ap then exists w, render fmt ap = Ok w else render fmt ap = Trap Fault.
Proof. apply render_typed. lia. Qed.

(** The buffer keeps its size. *)
Lemma emit_length c o : length (o_buf (emit c o)) = length (o_buf o).
Proof. unfold emit. cbn. destruct (_ && _); [apply length_insert|done]. Qed.
Lemma emit_all_length cs o : length (o_buf (emit_all cs o)) = length (o_buf o).
Proof.
  revert o. induction cs as [|c cs IH]; intros o; [done|]. cbn. by rewrite IH, emit_length.
Qed.
Lemma emit_all_cap cs o : o_cap (emit_all cs o) = o_cap o.
Proof. revert o. induction cs as [|c cs IH]; intros o; [done|]. cbn. by rewrite IH. Qed.

Lemma kvsnprintf_typed buf cap fmt ap :
  if well_typed fmt ap then exists n out, kvsnprintf buf cap fmt ap = Ok (n, out) /\ length out = length buf
  else kvsnprintf buf cap fmt ap = Trap Fault.
Proof.
  pose proof (render_checked fmt ap) as H. unfold kvsnprintf. rewrite format_loop_text.
  unfold render in H. destruct (well_typed fmt ap).
  - destruct H as [w ->]. cbn. eexists _, _. split; [reflexivity|].
    destruct (negb (cap =? 0)); [rewrite length_insert|]; apply emit_all_length.
  - by rewrite H.
Qed.

(** ** The bound *)

Lemma render_bound fuel fmt ap w :
  TStr ∉ fmt_types_loop fuel fmt -> render_loop fuel fmt ap = Ok w ->
  (length w <= fmt_bound_loop fuel fmt)%nat.
Proof.
  revert fmt ap w. induction fuel as [|fuel IH]; intros fmt ap w Hs Hr; [done|].
  destruct fmt as [|c fmt]; [by injection Hr as <-|]. rewrite render_loop_conversion in Hr.
  cbn [fmt_types_loop fmt_bound_loop] in *. destruct (negb (c =? 0x25)).
  { specialize (IH fmt ap). destruct (render_loop fuel fmt ap) as [w'|]; [|done].
    injection Hr as <-. cbn. apply le_n_S. by apply IH. }
  destruct (conversion fmt) as [[[[pad width] c2] fmt2]|]; [|by injection Hr as <-].
  pose proof (conv_text_spec c2 pad width ap) as Hc. unfold conv_spec in Hc.
  assert (conv_type c2 = None -> conv_bound c2 width = 2%nat) as Hb.
  { unfold conv_type, conv_bound. repeat (destruct (c2 =? _); [done|]). done. }
  rewrite elem_of_app in Hs.
  assert (forall w1 ap', conv_text c2 pad width ap = Ok (w1, ap') ->
    (length w1 <= conv_bound c2 width)%nat -> (length w <= conv_bound c2 width + fmt_bound_loop fuel fmt2)%nat)
    as Hok.
  { intros w1 ap' E Hl. rewrite E in Hr. cbn in Hr. specialize (IH fmt2 ap').
    destruct (render_loop fuel fmt2 ap') as [w'|]; [|done]. injection Hr as <-.
    rewrite length_app. apply Nat.add_le_mono; [done|]. apply IH; [tauto|done]. }
  destruct (conv_type c2) as [[|]|].
  - destruct ap as [|[v|s] ap]; [by rewrite Hc in Hr| |by rewrite Hc in Hr].
    destruct Hc as (w1 & E & Hl). by eapply Hok.
  - exfalso. apply Hs. left. by left.
  - destruct Hc as (w1 & E & Hl). eapply Hok; [done|]. by rewrite Hb.
Qed.

Definition no_strings (fmt : bytes) : bool := bool_decide (TStr ∉ fmt_types fmt).

Lemma bounded_text fmt ap :
  well_typed fmt ap = true -> no_strings fmt = true ->
  exists w, render fmt ap = Ok w /\ (length w <= fmt_bound fmt)%nat.
Proof.
  intros Ht Hs. pose proof (render_checked fmt ap) as H. rewrite Ht in H. destruct H as [w Hw].
  exists w. split; [done|]. eapply render_bound; [|exact Hw]. by apply bool_decide_eq_true in Hs.
Qed.
