(* ===== verification/RingBuffer.v ===== *)
(** * Ring buffers ([ring_buffer.c])

    One slot stays free, so that a full buffer differs from an empty one. *)
From S2P Require Import Prelude.

Record ring_buffer : Type := Ring {
  rb_buffer : list Z;
  rb_size : Z; (* uint8_t *)
  rb_head : Z; (* uint8_t *)
  rb_tail : Z; (* uint8_t *)
}.
Abbreviation RM := (prog ring_buffer).

(** An index that moves on by one. *)
Definition advance (i size : Z) : Z := let i := u8 (i + 1) in if i =? size then 0 else i.

Definition ring_buffer_put (data : Z) : RM unit := fun rb =>
  match rb_buffer rb !! Z.to_nat (rb_head rb) with
  | Some _ =>
      Ok (tt, Ring (<[Z.to_nat (rb_head rb) := u8 data]> (rb_buffer rb)) (rb_size rb)
                (advance (rb_head rb) (rb_size rb)) (rb_tail rb))
  | None => Trap Fault
  end.

Definition ring_buffer_peek : RM Z := fetch (fun rb => rb_buffer rb !! Z.to_nat (rb_tail rb)).

Definition ring_buffer_get : RM Z :=
  data ← ring_buffer_peek;
  modify (fun rb => Ring (rb_buffer rb) (rb_size rb) (rb_head rb) (advance (rb_tail rb) (rb_size rb)));;
  mret data.

Definition ring_buffer_empty (rb : ring_buffer) : bool := rb_head rb =? rb_tail rb.
Definition ring_buffer_full (rb : ring_buffer) : bool := advance (rb_head rb) (rb_size rb) =? rb_tail rb.

(** ** The queue a ring buffer holds *)

Record ring_rep (rb : ring_buffer) (l : list Z) : Prop := {
  rr_size : 1 < rb_size rb < 256;
  rr_length : Z.of_nat (length (rb_buffer rb)) = rb_size rb;
  rr_tail : 0 <= rb_tail rb < rb_size rb;
  rr_room : Z.of_nat (length l) < rb_size rb;
  rr_head : rb_head rb = (rb_tail rb + Z.of_nat (length l)) mod rb_size rb;
  rr_elem : forall i x, l !! i = Some x ->
    rb_buffer rb !! Z.to_nat ((rb_tail rb + Z.of_nat i) mod rb_size rb) = Some x;
}.

Lemma advance_mod i size : 1 < size < 256 -> 0 <= i < size -> advance i size = (i + 1) mod size.
Proof.
  intros Hs Hi. unfold advance. rewrite u8_small by lia.
  destruct (Z.eqb_spec (i + 1) size) as [->|]; [by rewrite Z.mod_same by lia|].
  by rewrite Z.mod_small by lia.
Qed.

Lemma ring_head_range rb l : ring_rep rb l -> 0 <= rb_head rb < rb_size rb.
Proof. intros [? _ _ _ -> _]. apply Z.mod_pos_bound. lia. Qed.

(** Two places of the buffer are the same only when their distances to the
    tail are. *)
Lemma mod_inj a b c n : 0 <= a < n -> 0 <= b < n -> (c + a) mod n = (c + b) mod n -> a = b.
Proof.
  intros Ha Hb E. pose proof (Z.div_mod (c + a) n ltac:(lia)) as H1.
  pose proof (Z.div_mod (c + b) n ltac:(lia)) as H2. rewrite E in H1.
  assert ((c + a) / n = (c + b) / n) as Eq; [|lia].
  assert (a - b = n * ((c + a) / n - (c + b) / n)) as Ed by lia.
  destruct (Z.lt_trichotomy ((c + a) / n) ((c + b) / n)) as [?|[?|?]]; [nia|done|nia].
Qed.

Lemma ring_empty_ok rb l : ring_rep rb l -> ring_buffer_empty rb = bool_decide (l = []).
Proof.
  intros [Hs _ Ht Hr Hh _]. unfold ring_buffer_empty. rewrite Hh. case_bool_decide as E.
  - subst l. cbn. rewrite Z.add_0_r, Z.mod_small by lia. by rewrite Z.eqb_refl.
  - apply Z.eqb_neq. intros Em. apply E, nil_length_inv.
    enough (Z.of_nat (length l) = 0) by lia. apply (mod_inj _ _ (rb_tail rb) (rb_size rb)); [lia..|].
    rewrite Em, Z.add_0_r, Z.mod_small by lia. done.
Qed.

Lemma ring_full_ok rb l :
  ring_rep rb l -> ring_buffer_full rb = (Z.of_nat (length l) =? rb_size rb - 1).
Proof.
  intros Hr. pose proof (ring_head_range _ _ Hr). destruct Hr as [Hs _ Ht Hr Hh _].
  unfold ring_buffer_full. rewrite advance_mod by lia. rewrite Hh, Zplus_mod_idemp_l.
  rewrite <- Z.add_assoc.
  destruct (Z.eqb_spec (Z.of_nat (length l)) (rb_size rb - 1)) as [E|E].
  - rewrite E. replace (rb_tail rb + (rb_size rb - 1 + 1)) with (rb_tail rb + 1 * rb_size rb) by lia.
    rewrite Z_mod_plus_full, Z.mod_small by lia. by rewrite Z.eqb_refl.
  - apply Z.eqb_neq. intros Em.
    assert (Z.of_nat (length l) + 1 = 0) as H0; [|lia].
    apply (mod_inj _ _ (rb_tail rb) (rb_size rb)); [lia..|].
    rewrite Em, Z.add_0_r, Z.mod_small by lia. done.
Qed.

Lemma ring_put_ok rb l x :
  ring_rep rb l -> ring_buffer_full rb = false ->
  exists rb', ring_buffer_put x rb = Ok (tt, rb') /\ ring_rep rb' (l ++ [u8 x]) /\
    rb_size rb' = rb_size rb.
Proof.
  intros Hrep Hf. rewrite (ring_full_ok _ _ Hrep) in Hf. apply Z.eqb_neq in Hf.
  pose proof (ring_head_range _ _ Hrep) as Hhr. destruct Hrep as [Hs Hl Ht Hr Hh He].
  unfold ring_buffer_put.
  destruct (lookup_lt_is_Some_2 (rb_buffer rb) (Z.to_nat (rb_head rb))) as [y ->]; [lia|].
  eexists. split; [done|]. split; [|done]. split; cbn; try done.
  - by rewrite length_insert.
  - rewrite length_app. cbn. lia.
  - rewrite advance_mod by lia. rewrite Hh, Zplus_mod_idemp_l, length_app. cbn. f_equal. lia.
  - intros i z. rewrite lookup_app. destruct (l !! i) as [z'|] eqn:E.
    + intros [= ->]. apply lookup_lt_Some in E as Hi. rewrite list_lookup_insert_ne; [by apply He|].
      intros Ei. apply (f_equal Z.of_nat) in Ei. rewrite !Z2Nat.id in Ei by
        (try apply Z.mod_pos_bound; lia). rewrite Hh in Ei.
      apply mod_inj in Ei; lia.
    + apply lookup_ge_None in E. intros Hz. apply lookup_lt_Some in Hz as Hi. cbn in Hi.
      assert (i = length l) as -> by lia. rewrite Nat.sub_diag in Hz. cbn in Hz. injection Hz as <-.
      rewrite <- Hh, list_lookup_insert_eq; [done|lia].
Qed.

Lemma ring_get_ok rb x l :
  ring_rep rb (x :: l) ->
  exists rb', ring_buffer_get rb = Ok (x, rb') /\ ring_rep rb' l /\ rb_size rb' = rb_size rb.
Proof.
  intros [Hs Hl Ht Hr Hh He]. unfold ring_buffer_get, ring_buffer_peek, mbind, prog_bind, fetch.
  pose proof (He 0%nat x eq_refl) as E. rewrite Z.add_0_r, Z.mod_small in E by lia. rewrite E.
  eexists. split; [done|]. split; [|done]. cbn in Hr.
  assert (0 <= advance (rb_tail rb) (rb_size rb) < rb_size rb) as Ha.
  { rewrite advance_mod by lia. apply Z.mod_pos_bound. lia. }
  split; cbn; try done.
  - lia.
  - rewrite advance_mod by lia. rewrite Hh, Zplus_mod_idemp_l. cbn. f_equal. lia.
  - intros i y Hi. rewrite advance_mod, Zplus_mod_idemp_l by lia.
    replace (rb_tail rb + 1 + Z.of_nat i) with (rb_tail rb + Z.of_nat (S i)) by lia. by apply He.
Qed.

Lemma ring_init n buf :
  (1 < n < 256)%nat -> length buf = n -> ring_rep (Ring buf (Z.of_nat n) 0 0) [].
Proof.
  intros Hn Hl. split; cbn; try lia; [by rewrite Z.mod_0_l by lia|]. by intros i x ?.
Qed.
