(* ===== verification/Usart.v ===== *)
(** * The USART2 driver ([usart.c], [usart_driver.c])

    Two ring buffers between the tasks and the interrupt handler.  The status
    register and the data register are hardware: what the handler reads from
    them are arguments, and the bytes it writes to the data register are
    collected in [u_sent]. *)
From S2P Require Import Prelude RingBuffer.

Definition RX_BUFFER_SIZE : nat := 16.
Definition TX_BUFFER_SIZE : nat := 16.
Definition USART_ENABLE_TXEIE : Z := Z.shiftl 1 7.
Definition USART_SR_RXNE : Z := Z.shiftl 1 5.
Definition USART_SR_TXE : Z := Z.shiftl 1 7.

Record usart : Type := Usart {
  u_cr1 : Z;
  u_rx : ring_buffer;
  u_tx : ring_buffer;
  u_sent : list Z; (* what was written to DR, in order *)
}.
Abbreviation UM := (prog usart).

Definition set_u_cr1 (v : Z) (u : usart) : usart := Usart v (u_rx u) (u_tx u) (u_sent u).

(** The buffers as the image has them. *)
Definition usart_boot : usart :=
  Usart 0 (Ring (repeat 0 RX_BUFFER_SIZE) (Z.of_nat RX_BUFFER_SIZE) 0 0)
          (Ring (repeat 0 TX_BUFFER_SIZE) (Z.of_nat TX_BUFFER_SIZE) 0 0) [].

(** ** The code *)

Definition on_rx {A} (m : RM A) : UM A := fun u =>
  match m (u_rx u) with
  | Ok (a, r) => Ok (a, Usart (u_cr1 u) r (u_tx u) (u_sent u))
  | Trap e => Trap e
  end.
Definition on_tx {A} (m : RM A) : UM A := fun u =>
  match m (u_tx u) with
  | Ok (a, r) => Ok (a, Usart (u_cr1 u) (u_rx u) r (u_sent u))
  | Trap e => Trap e
  end.
(** A write to the data register. *)
Definition write_DR (v : Z) : UM unit :=
  modify (fun u => Usart (u_cr1 u) (u_rx u) (u_tx u) (u_sent u ++ [u8 v])).

Definition bits (v mask : Z) : bool := negb (Z.land v mask =? 0).

(** [sr1] and [sr2] are the two reads of SR, [dr] the read of DR.  The result
    says whether [rx_sem] is posted. *)
Definition usart2_handler (sr1 sr2 dr : Z) : UM bool :=
  cr1 ← gets u_cr1;
  (if bits sr1 USART_SR_TXE && bits cr1 USART_ENABLE_TXEIE then
     empty ← gets (fun u => ring_buffer_empty (u_tx u));
     if negb empty then data ← on_tx ring_buffer_get; write_DR data
     else modify (set_u_cr1 (Z.land cr1 (Z.lnot USART_ENABLE_TXEIE)))
   else mret tt);;
  if bits sr2 USART_SR_RXNE then
    full ← gets (fun u => ring_buffer_full (u_rx u));
    if negb full then on_rx (ring_buffer_put dr);; mret true else mret false
  else mret false.

(** The wait loop ends only when an interrupt makes room: [Diverge] is the
    loop that still waits. *)
Definition usart2_putc (c : Z) : UM unit :=
  full ← gets (fun u => ring_buffer_full (u_tx u));
  if full : bool then raise Diverge
  else
    on_tx (ring_buffer_put (u8 c));;
    modify (fun u => set_u_cr1 (Z.lor (u_cr1 u) USART_ENABLE_TXEIE) u).

(** [None] is the return value [false]. *)
Definition usart2_getc : UM (option Z) :=
  empty ← gets (fun u => ring_buffer_empty (u_rx u));
  if empty : bool then mret None
  else c ← on_rx ring_buffer_get; mret (Some c).

(** What runs after [sys_sem_wait(rx_sem)] has returned. *)
Definition usart2_getc_blocking : UM Z := on_rx ring_buffer_get.

Fixpoint usart2_drv_read (len : nat) : UM (list Z) :=
  match len with
  | O => mret []
  | S len =>
      c ← usart2_getc;
      match c with
      | Some c => cs ← usart2_drv_read len; mret (c :: cs)
      | None => mret []
      end
  end.

(** ** Runs *)

(** A task writes or reads a character, or the interrupt fires. *)
Inductive usart_event :=
| UPut (c : Z)
| UGet
| UIrq (sr1 sr2 dr : Z).

(** What an event hands to the reader. *)
Definition usart_step (e : usart_event) : UM (list Z) :=
  match e with
  | UPut c => usart2_putc c;; mret []
  | UGet => c ← usart2_getc; mret (match c with Some c => [c] | None => [] end)
  | UIrq sr1 sr2 dr => _p ← usart2_handler sr1 sr2 dr; mret []
  end.

(** The characters an event puts into the receive buffer: none when it is
    full, and the data register is not even read then. *)
Definition accepted (e : usart_event) (u : usart) : list Z :=
  match e with
  | UIrq _ sr2 dr => if bits sr2 USART_SR_RXNE && negb (ring_buffer_full (u_rx u)) then [u8 dr] else []
  | _ => []
  end.
Definition offered (e : usart_event) : list Z := match e with UPut c => [u8 c] | _ => [] end.

(** Events in order; the result: what was read, what was put into the transmit
    buffer and what was accepted by the receive buffer. *)
Fixpoint usart_run (es : list usart_event) (u : usart) : result (list Z * list Z * list Z * usart) :=
  match es with
  | [] => Ok ([], [], [], u)
  | e :: es =>
      '(got, u') ← usart_step e u;
      '(gots, offs, accs, u'') ← usart_run es u';
      Ok (got ++ gots, offered e ++ offs, accepted e u ++ accs, u'')
  end.

(** The transmit buffer holds [t] and the receive buffer [r]. *)
Definition usart_rep (u : usart) (r t : list Z) : Prop := ring_rep (u_rx u) r /\ ring_rep (u_tx u) t.

Lemma u8_u8 z : u8 (u8 z) = u8 z.
Proof. unfold u8. by rewrite Zmod_mod. Qed.

Lemma usart_tx_step u r t sr :
  usart_rep u r t -> Forall (fun x => u8 x = x) t ->
  exists u' t', (cr1 ← gets u_cr1;
    if bits sr USART_SR_TXE && bits cr1 USART_ENABLE_TXEIE then
      empty ← gets (fun u => ring_buffer_empty (u_tx u));
      if negb empty then data ← on_tx ring_buffer_get; write_DR data
      else modify (set_u_cr1 (Z.land cr1 (Z.lnot USART_ENABLE_TXEIE)))
    else mret tt) u = Ok (tt, u') /\
    usart_rep u' r t' /\ u_sent u' ++ t' = u_sent u ++ t /\ u_rx u' = u_rx u /\
    Forall (fun x => u8 x = x) t'.
Proof.
  intros [Hr Ht] Hb. unfold gets, mbind, prog_bind.
  destruct (bits sr USART_SR_TXE && bits (u_cr1 u) USART_ENABLE_TXEIE).
  2: { by exists u, t. }
  rewrite (ring_empty_ok _ _ Ht). destruct t as [|x t]; cbn [negb].
  - rewrite bool_decide_true by done. cbn [negb]. eexists _, []. by split_and!.
  - rewrite bool_decide_false by done. cbn [negb]. destruct (ring_get_ok _ _ _ Ht) as (tx & E & Ht' & _).
    unfold on_tx. rewrite E. eexists _, t. split; [done|]. apply Forall_cons in Hb as [Hx Hb].
    split_and!; cbn; try done. by rewrite Hx, <- app_assoc.
Qed.

Lemma handler_ok u r t sr1 sr2 dr :
  usart_rep u r t -> Forall (fun x => u8 x = x) t ->
  exists u' t', usart2_handler sr1 sr2 dr u =
      Ok (bits sr2 USART_SR_RXNE && negb (ring_buffer_full (u_rx u)), u') /\
    usart_rep u' (r ++ accepted (UIrq sr1 sr2 dr) u) t' /\ u_sent u' ++ t' = u_sent u ++ t /\
    Forall (fun x => u8 x = x) t'.
Proof.
  intros Hu Hb. destruct (usart_tx_step u r t sr1 Hu Hb) as (u1 & t1 & E & [Hr Ht] & Es & Erx & Hb1).
  unfold usart2_handler, accepted.
  assert (forall k : UM bool, (cr1 ← gets u_cr1;
    (if bits sr1 USART_SR_TXE && bits cr1 USART_ENABLE_TXEIE then
      empty ← gets (fun u => ring_buffer_empty (u_tx u));
      if negb empty then data ← on_tx ring_buffer_get; write_DR data
      else modify (set_u_cr1 (Z.land cr1 (Z.lnot USART_ENABLE_TXEIE)))
    else mret tt);; k) u = k u1) as Hk.
  { intros k. rewrite <- (prog_bind_ok _ (fun _ => k) _ _ _ E). by rewrite prog_bind_assoc. }
  rewrite Hk. clear Hk E. destruct (bits sr2 USART_SR_RXNE); cbn [andb].
  2: { exists u1, t1. rewrite app_nil_r. by split_and!. }
  unfold gets, mbind, prog_bind. rewrite Erx. destruct (ring_buffer_full (u_rx u)) eqn:Ef; cbn [negb].
  - exists u1, t1. rewrite app_nil_r. by split_and!.
  - rewrite <- Erx in Ef. destruct (ring_put_ok _ _ dr Hr Ef) as (rx & E & Hr' & _).
    unfold on_rx. rewrite E. eexists _, t1. split_and!; done.
Qed.

(** Nothing is lost, repeated or reordered between the tasks and the wire. *)
Lemma usart_run_ok es u r t gots offs accs u' :
  usart_rep u r t -> Forall (fun x => u8 x = x) t ->
  usart_run es u = Ok (gots, offs, accs, u') ->
  exists r' t', usart_rep u' r' t' /\
    u_sent u' ++ t' = u_sent u ++ t ++ offs /\ gots ++ r' = r ++ accs.
Proof.
  revert u r t gots offs accs. induction es as [|e es IH]; intros u r t gots offs accs Hu Hb E.
  { cbn in E. injection E as <- <- <- <-. exists r, t. by rewrite !app_nil_r. }
  cbn [usart_run] in E. unfold mbind, result_bind in E.
  assert (exists got u1 r1 t1, usart_step e u = Ok (got, u1) /\ usart_rep u1 r1 t1 /\
    u_sent u1 ++ t1 = u_sent u ++ t ++ offered e /\ got ++ r1 = r ++ accepted e u /\
    Forall (fun x => u8 x = x) t1 \/ usart_step e u = Trap Diverge) as (got & u1 & r1 & t1 & Hstep).
  { destruct Hu as [Hr Ht]. destruct e as [c| |sr1 sr2 dr]; cbn [usart_step offered accepted].
    - unfold usart2_putc, gets. destruct (ring_buffer_full (u_tx u)) eqn:Ef.
      { exists [], u, r, t. right. unfold mbind, prog_bind. by rewrite Ef. }
      destruct (ring_put_ok _ _ (u8 c) Ht Ef) as (tx & Ep & Ht' & _). rewrite u8_u8 in Ht'.
      eexists [], _, r, (t ++ [u8 c]). left. unfold mbind, prog_bind, on_tx. rewrite Ef, Ep.
      split; [done|]. split; [done|]. cbn. rewrite app_nil_r. split_and!; [done|done|].
      apply Forall_app. split; [done|]. by repeat constructor; rewrite u8_u8.
    - unfold usart2_getc, gets, mbind, prog_bind. rewrite (ring_empty_ok _ _ Hr).
      destruct r as [|x r].
      + rewrite bool_decide_true by done. exists [], u, [], t. left. by rewrite app_nil_r.
      + rewrite bool_decide_false by done. destruct (ring_get_ok _ _ _ Hr) as (rx & Eg & Hr' & _).
        unfold on_rx. rewrite Eg. eexists [x], _, r, t. left. split; [done|]. split; [done|].
        cbn. by rewrite !app_nil_r.
    - destruct (handler_ok u r t sr1 sr2 dr (conj Hr Ht) Hb) as (u1 & t1 & Eh & Hu1 & Es & Hb1).
      eexists [], u1, _, t1. left. unfold mbind, prog_bind. rewrite Eh.
      split; [done|]. split; [exact Hu1|]. rewrite app_nil_r. by split_and!. }
  destruct Hstep as [(Ee & Hu1 & Es & Eg & Hb1)|Ee]; rewrite Ee in E; [|done].
  destruct (usart_run es u1) as [[[[g o] ac] u2]|] eqn:Er; [|done]. injection E as <- <- <- <-.
  destruct (IH _ _ _ _ _ _ Hu1 Hb1 Er) as (r' & t' & Hu' & Es' & Eg').
  exists r', t'. split; [done|]. split.
  - rewrite Es', !app_assoc, Es. by rewrite <- !app_assoc.
  - by rewrite <- app_assoc, Eg', !app_assoc, Eg.
Qed.

Lemma usart_boot_rep : usart_rep usart_boot [] [].
Proof. split; by apply (ring_init 16); [lia|]. Qed.
