(* ===== verification/Console.v ===== *)
(** * Drivers and the console ([driver.c], [console.c])

    The registry of drivers and the console's list of sinks.  A driver is a
    record of functions over a device state [D]; an absent function is
    [None], the null pointer of the struct. *)
From S2P Require Import Prelude Utils.

Definition CONSOLE_MAX_SINKS : nat := 4.
Definition DRIVER_MAX : nat := 8.

Section console.
Context {D : Type}.

Record driver : Type := Driver {
  d_name : option bytes;
  d_init : option (prog D Z);
  d_write : option (bytes -> prog D Z);
  d_write_sync : option (bytes -> prog D Z);
  d_read : option (Z -> prog D (Z * bytes));
  d_read_blocking : option (Z -> prog D (Z * bytes));
}.

(** The drivers in memory, the registry, the sinks and the devices. *)
Record console : Type := Console {
  c_drivers : gmap ptr driver;
  c_registry : list ptr;
  c_sinks : list ptr;
  c_device : D;
  c_primask : Z;
}.
Abbreviation CM := (prog console).

Definition set_c_registry (v : list ptr) (c : console) : console :=
  Console (c_drivers c) v (c_sinks c) (c_device c) (c_primask c).
Definition set_c_sinks (v : list ptr) (c : console) : console :=
  Console (c_drivers c) (c_registry c) v (c_device c) (c_primask c).
Definition set_c_primask (v : Z) (c : console) : console :=
  Console (c_drivers c) (c_registry c) (c_sinks c) (c_device c) v.

Definition deref (drv : ptr) : CM driver := fetch (fun c => c_drivers c !! drv).
Definition on_device {A} (m : prog D A) : CM A := fun c =>
  match m (c_device c) with
  | Ok (a, d) => Ok (a, Console (c_drivers c) (c_registry c) (c_sinks c) d (c_primask c))
  | Trap e => Trap e
  end.

Definition console_irq_save : CM Z := p ← gets c_primask; modify (set_c_primask 1);; mret p.
Definition console_irq_restore (p : Z) : CM unit := modify (set_c_primask p).

(** ** driver.c *)

(** The first null entry. *)
Fixpoint first_null (l : list ptr) : option nat :=
  match l with
  | [] => None
  | p :: l => if p =? NULL then Some O else S <$> first_null l
  end.

Definition driver_register (drv : ptr) : CM Z :=
  if drv =? NULL then mret (-1)
  else
    d ← deref drv;
    match d_name d with
    | None => mret (-1)
    | Some _ =>
        r ← (match d_init d with Some init => on_device init | None => mret 0 end);
        if negb (r =? 0) then mret (-2)
        else
          irq_state ← console_irq_save;
          reg ← gets c_registry;
          match first_null reg with
          | Some i =>
              modify (set_c_registry (<[i := drv]> reg));;
              console_irq_restore irq_state;; mret 0
          | None => console_irq_restore irq_state;; mret (-3)
          end
    end.

Fixpoint driver_find_scan (l : list ptr) (name : bytes) : CM ptr :=
  match l with
  | [] => mret NULL
  | p :: l =>
      if p =? NULL then driver_find_scan l name
      else
        d ← deref p;
        match d_name d with
        | None => raise Fault
        | Some n => if strcmp n name =? 0 then mret p else driver_find_scan l name
        end
  end.
Definition driver_find (name : bytes) : CM ptr :=
  reg ← gets c_registry; driver_find_scan reg name.

(** ** console.c *)

Definition console_attach (drv : ptr) : CM Z :=
  if drv =? NULL then mret (-1)
  else
    irq_state ← console_irq_save;
    sinks ← gets c_sinks;
    if bool_decide (drv ∈ sinks) then console_irq_restore irq_state;; mret 0
    else
      match first_null sinks with
      | Some i =>
          modify (set_c_sinks (<[i := drv]> sinks));;
          console_irq_restore irq_state;; mret 0
      | None => console_irq_restore irq_state;; mret (-2)
      end.

Definition console_detach (drv : ptr) : CM Z :=
  irq_state ← console_irq_save;
  modify (fun c => set_c_sinks ((fun p => if p =? drv then NULL else p) <$> c_sinks c) c);;
  console_irq_restore irq_state;;
  mret 0.

Fixpoint write_sinks (f : driver -> option (bytes -> prog D Z)) (l : list ptr) (buf : bytes) : CM unit :=
  match l with
  | [] => mret tt
  | p :: l =>
      (if p =? NULL then mret tt
       else d ← deref p; match f d with Some w => _r ← on_device (w buf); mret tt | None => mret tt end);;
      write_sinks f l buf
  end.
Definition console_write (buf : bytes) : CM unit :=
  sinks ← gets c_sinks; write_sinks d_write sinks buf.
Definition console_write_sync (buf : bytes) : CM unit :=
  sinks ← gets c_sinks; write_sinks d_write_sync sinks buf.

(** The number of bytes read and the bytes, from the first sink that has any. *)
Fixpoint read_sinks (f : driver -> option (Z -> prog D (Z * bytes))) (l : list ptr) (len : Z)
    : CM (Z * bytes) :=
  match l with
  | [] => mret (0, [])
  | p :: l =>
      if p =? NULL then read_sinks f l len
      else
        d ← deref p;
        match f d with
        | Some r => '(n, bs) ← on_device (r len); if n >? 0 then mret (n, bs) else read_sinks f l len
        | None => read_sinks f l len
        end
  end.
Definition console_read (len : Z) : CM (Z * bytes) :=
  sinks ← gets c_sinks; read_sinks d_read sinks len.
Definition console_read_blocking (len : Z) : CM (Z * bytes) :=
  sinks ← gets c_sinks; read_sinks d_read_blocking sinks len.

(** ** Properties *)

Lemma first_null_Some l i :
  first_null l = Some i <-> l !! i = Some NULL /\ forall j, (j < i)%nat -> l !! j <> Some NULL.
Proof using.
  revert i. induction l as [|p l IH]; intros i; cbn; [split; [done|by intros [? _]]|].
  destruct (Z.eqb_spec p NULL) as [->|Hp].
  - split.
    + intros [= <-]. split; [done|lia].
    + intros [_ H]. destruct i as [|i]; [done|]. by destruct (H 0%nat); [lia|].
  - destruct (first_null l) as [k|] eqn:E; cbn.
    + split.
      * intros [= <-]. destruct (proj1 (IH k) eq_refl) as [H1 H2]. split; [done|].
        intros [|j] Hj; cbn; [congruence|]. apply H2. lia.
      * intros [H1 H2]. destruct i as [|i]; [cbn in H1; congruence|]. do 2 f_equal.
        assert (Some k = Some i) as [= ?]; [|done]. apply IH. split; [done|].
        intros j Hj. apply (H2 (S j)). lia.
    + split; [done|]. intros [H1 H2]. destruct i as [|i]; [cbn in H1; congruence|].
      assert (None = Some i) as ?; [|done]. apply IH. split; [done|].
      intros j Hj. apply (H2 (S j)). lia.
Qed.

Lemma first_null_None l : first_null l = None <-> NULL ∉ l.
Proof using.
  induction l as [|p l IH]; cbn; [split; [intros _; apply not_elem_of_nil|done]|].
  rewrite not_elem_of_cons. destruct (Z.eqb_spec p NULL) as [->|Hp]; [by split; [|intros [? _]]|].
  destruct (first_null l); cbn.
  - split; [done|]. by intros [_ ?%IH].
  - split; [|done]. intros _. split; [by apply not_eq_sym|by apply IH].
Qed.

(** What attaching does to the sinks. *)
Definition attached (drv : ptr) (sinks : list ptr) : Z * list ptr :=
  if bool_decide (drv ∈ sinks) then (0, sinks)
  else match first_null sinks with Some i => (0, <[i := drv]> sinks) | None => (-2, sinks) end.

Lemma console_attach_ok drv c :
  drv <> NULL ->
  console_attach drv c = Ok ((attached drv (c_sinks c)).1, set_c_sinks (attached drv (c_sinks c)).2 c).
Proof using.
  intros Hd. unfold console_attach, attached. rewrite (proj2 (Z.eqb_neq _ _) Hd).
  destruct c as [dr re si de pm]. unfold console_irq_save, console_irq_restore, mbind, prog_bind,
    gets, modify. cbn. case_bool_decide; cbn; [done|]. by destruct (first_null si).
Qed.

(** A sink is listed once, so a write reaches it once. *)
Lemma attached_once drv sinks :
  drv <> NULL -> NoDup (filter (fun p => p <> NULL) sinks) ->
  NoDup (filter (fun p => p <> NULL) (attached drv sinks).2) /\
  ((attached drv sinks).1 = 0 -> drv ∈ (attached drv sinks).2) /\
  ((attached drv sinks).1 <> 0 -> (NULL ∉ sinks) /\ (attached drv sinks).2 = sinks).
Proof using.
  intros Hd Hnd. unfold attached. case_bool_decide as Hin; [done|].
  destruct (first_null sinks) as [i|] eqn:E; cbn.
  - apply first_null_Some in E as [E _]. pose proof (lookup_lt_Some _ _ _ E) as Hl.
    split_and!; [|intros _; apply list_elem_of_lookup; exists i; by apply list_lookup_insert_eq|done].
    rewrite insert_take_drop by done.
    rewrite <- (take_drop_middle _ _ _ E) in Hnd, Hin.
    rewrite filter_app, filter_cons_False in Hnd by auto. rewrite filter_app, filter_cons_True by done.
    rewrite <- Permutation_middle. constructor; [|done].
    rewrite elem_of_app, !list_elem_of_filter. rewrite elem_of_app, elem_of_cons in Hin. tauto.
  - apply first_null_None in E. by split_and!.
Qed.
End console.
Arguments driver D : clear implicits.
Arguments console D : clear implicits.
