(* ===== verification/Cli.v ===== *)
(** * The debug shell ([cli.c]: the line buffer and the commands)

    What the shell prints and which command functions it calls are collected
    as events; the command functions themselves only print. *)
From Stdlib Require Import Ascii String.
From S2P Require Import Prelude Utils Kprintf.

Definition CLI_BUFFER_SIZE : Z := 128.

(** The functions of the command table. *)
Inductive cli_command_fn :=
| cli_cmd_help | cli_cmd_ps | cli_cmd_uptime | cli_cmd_mem | cli_cmd_heap | cli_cmd_mutex | cli_cmd_bench
| cli_cmd_link | cli_cmd_spioff | cli_cmd_leasetable | cli_cmd_reboot.

Record cli_command : Type := Command {
  cmd_name : bytes;
  cmd_description : bytes;
  cmd_function : cli_command_fn;
}.

Definition commands : list cli_command :=
  [ Command (lit "help") (lit "Print available commands") cli_cmd_help;
    Command (lit "ps") (lit "Show info about running processes") cli_cmd_ps;
    Command (lit "uptime") (lit "Print system uptime") cli_cmd_uptime;
    Command (lit "mem") (lit "Print memory usage") cli_cmd_mem;
    Command (lit "heap") (lit "Print heap usage") cli_cmd_heap;
    Command (lit "mutex") (lit "Print mutex owners/waiters") cli_cmd_mutex;
    Command (lit "bench") (lit "Print the benchmarks") cli_cmd_bench;
    Command (lit "link") (lit "Print w5500 link status") cli_cmd_link;
    Command (lit "spioff") (lit "Turns spi off (used for testing)") cli_cmd_spioff;
    Command (lit "leasetable") (lit "Print DHCP lease table") cli_cmd_leasetable;
    Command (lit "reboot") (lit "Reboot the MCU") cli_cmd_reboot ].

(** A call of [kprintf], of [console_write], of a command. *)
Inductive cli_event :=
| Printf (fmt : bytes) (args : list va_arg)
| Write (data : bytes)
| Invoke (f : cli_command_fn).

Record cli : Type := Cli {
  cli_buffer : bytes;
  cli_pos : Z; (* uint16_t *)
  cli_events : list cli_event;
}.
Definition cli_boot : cli := Cli (repeat 0 128) 0 [].

Definition say (e : cli_event) : prog cli unit :=
  modify (fun s => Cli (cli_buffer s) (cli_pos s) (cli_events s ++ [e])).
Definition set_cli_pos (v : Z) : prog cli unit :=
  modify (fun s => Cli (cli_buffer s) (u16 v) (cli_events s)).
(** [cli_buffer[i] = c] *)
Definition put_char (i c : Z) : prog cli unit :=
  _old ← fetch (fun s => cli_buffer s !! Z.to_nat i);
  modify (fun s => Cli (<[Z.to_nat i := c]> (cli_buffer s)) (cli_pos s) (cli_events s)).

(** The string a buffer holds: up to its first zero. *)
Fixpoint c_string (buf : bytes) : option bytes :=
  match buf with
  | [] => None
  | c :: buf => if c =? 0 then Some [] else (cons c) <$> c_string buf
  end.

Fixpoint execute_loop (cmds : list cli_command) (line : bytes) : prog cli unit :=
  match cmds with
  | [] => say (Printf (lit "unknown command %s" ++ [13; 10]) [VStr (Some line)])
  | cmd :: cmds =>
      if strcmp (cmd_name cmd) line =? 0 then say (Invoke (cmd_function cmd)) else execute_loop cmds line
  end.
Definition cli_execute (line : bytes) : prog cli unit :=
  match line with [] => mret tt | _ => execute_loop commands line end.

Definition cli_input_char (c : Z) : prog cli Z :=
  pos ← gets cli_pos;
  if (c =? 13) || (c =? 10) then
    put_char pos 0;;
    say (Printf [13; 10] []);;
    line ← fetch (fun s => c_string (cli_buffer s));
    cli_execute line;;
    set_cli_pos 0;;
    mret 1
  else if (c =? 8) || (c =? 127) then
    (if pos >? 0 then set_cli_pos (pos - 1);; say (Printf [8; 32; 8] []) else mret tt);;
    mret 0
  else
    (if pos <? CLI_BUFFER_SIZE - 1 then
       put_char pos c;; set_cli_pos (pos + 1);; say (Write [c])
     else mret tt);;
    mret 0.

(** The loop of [cli_task], for the characters that come in. *)
Fixpoint cli_loop (cs : bytes) : prog cli unit :=
  match cs with
  | [] => mret tt
  | c :: cs =>
      r ← cli_input_char c;
      whenb (r =? 1) (say (Printf (lit "> ") []));;
      cli_loop cs
  end.

(** ** The reference: a line as a list *)

(** The typed characters up to a zero among them. *)
Fixpoint before_zero (l : bytes) : bytes :=
  match l with [] => [] | c :: l => if c =? 0 then [] else c :: before_zero l end.

Definition run_line (line : bytes) : list cli_event :=
  match line with
  | [] => []
  | _ =>
      match List.find (fun cmd => bool_decide (cmd_name cmd = line)) commands with
      | Some cmd => [Invoke (cmd_function cmd)]
      | None => [Printf (lit "unknown command %s" ++ [13; 10]) [VStr (Some line)]]
      end
  end.

(** The line after a character, and what is seen. *)
Definition edit (l : bytes) (c : Z) : bytes * list cli_event :=
  if (c =? 13) || (c =? 10) then
    ([], Printf [13; 10] [] :: run_line (before_zero l) ++ [Printf (lit "> ") []])
  else if (c =? 8) || (c =? 127) then
    match l with [] => ([], []) | _ => (removelast l, [Printf [8; 32; 8] []]) end
  else if (length l <? 127)%nat then (l ++ [c], [Write [c]]) else (l, []).
Fixpoint edits (l : bytes) (cs : bytes) : bytes * list cli_event :=
  match cs with
  | [] => (l, [])
  | c :: cs => let '(l, es) := edit l c in let '(l, es') := edits l cs in (l, es ++ es')
  end.

Record holds_line (s : cli) (l : bytes) : Prop := {
  hl_size : length (cli_buffer s) = 128%nat;
  hl_pos : cli_pos s = Z.of_nat (length l);
  hl_room : (length l <= 127)%nat;
  hl_text : take (length l) (cli_buffer s) = l;
  hl_bytes : Forall is_byte l;
}.

Lemma c_string_text l rest : c_string (l ++ 0 :: rest) = Some (before_zero l).
Proof. induction l as [|c l IH]; [done|]. cbn. destruct (c =? 0); [done|]. by rewrite IH. Qed.
Lemma before_zero_cstring l : Forall is_byte l -> cstring (before_zero l).
Proof.
  induction 1 as [|c l Hc _ IH]; [constructor|]. cbn. destruct (Z.eqb_spec c 0); [constructor|].
  constructor; [|exact IH]. unfold is_byte in Hc. lia.
Qed.
Lemma commands_cstring : Forall (fun cmd => cstring (cmd_name cmd)) commands.
Proof. repeat constructor. Qed.

Lemma execute_loop_ok cmds line s : Forall (fun cmd => cstring (cmd_name cmd)) cmds -> cstring line ->
  execute_loop cmds line s = Ok (tt, Cli (cli_buffer s) (cli_pos s) (cli_events s ++
    match List.find (fun cmd => bool_decide (cmd_name cmd = line)) cmds with
    | Some cmd => [Invoke (cmd_function cmd)]
    | None => [Printf (lit "unknown command %s" ++ [13; 10]) [VStr (Some line)]]
    end)).
Proof.
  intros Hc Hl. induction Hc as [|cmd cmds Hcmd _ IH]; [done|]. cbn [execute_loop List.find].
  destruct (strcmp_sign _ _ Hcmd Hl) as [H0 _]. case_bool_decide as E.
  - by rewrite (proj2 (Z.eqb_eq _ _) (proj2 H0 E)).
  - rewrite (proj2 (Z.eqb_neq _ _)) by (intros E0; by apply E, H0). exact IH.
Qed.

Lemma cli_execute_ok line s : cstring line ->
  cli_execute line s = Ok (tt, Cli (cli_buffer s) (cli_pos s) (cli_events s ++ run_line line)).
Proof.
  intros Hl. unfold cli_execute, run_line. destruct line as [|c line].
  - rewrite app_nil_r. by destruct s.
  - by rewrite (execute_loop_ok commands (c :: line) s commands_cstring Hl).
Qed.

Lemma put_char_ok s i c : (i < length (cli_buffer s))%nat ->
  put_char (Z.of_nat i) c s = Ok (tt, Cli (<[i := c]> (cli_buffer s)) (cli_pos s) (cli_events s)).
Proof.
  intros Hi. unfold put_char. rewrite Nat2Z.id. destruct (lookup_lt_is_Some_2 _ _ Hi) as [o Eo].
  by rewrite (prog_bind_ok _ _ s o s) by (unfold fetch; by rewrite Eo).
Qed.

Lemma take_insert_end (l buf : bytes) c : take (length l) buf = l -> (length l < length buf)%nat ->
  take (S (length l)) (<[length l := c]> buf) = l ++ [c].
Proof.
  intros Ht Hl. rewrite (take_S_r _ _ c) by (by apply list_lookup_insert_eq). by rewrite take_insert_ge, Ht.
Qed.

(** A character is handled as the reference says. *)
Lemma char_ok s l c : holds_line s l -> is_byte c ->
  exists s', (r ← cli_input_char c; whenb (r =? 1) (say (Printf (lit "> ") []))) s = Ok (tt, s') /\
    holds_line s' (edit l c).1 /\ cli_events s' = cli_events s ++ (edit l c).2.
Proof.
  intros [Hs Hp Hr Ht Hb] Hc. unfold cli_input_char, edit. rewrite prog_bind_assoc.
  rewrite (prog_bind_ok (gets cli_pos) _ s (cli_pos s) s) by done. rewrite Hp.
  destruct ((c =? 13) || (c =? 10)); [|destruct ((c =? 8) || (c =? 127))].
  - rewrite prog_bind_assoc, (prog_bind_ok _ _ _ _ _ (put_char_ok s (length l) 0 ltac:(lia))).
    set (buf := <[length l := 0]> (cli_buffer s)).
    assert (exists rest, buf = l ++ 0 :: rest) as [rest Eb].
    { exists (drop (S (length l)) (cli_buffer s)). unfold buf. rewrite insert_take_drop by lia. by rewrite Ht. }
    set (s1 := Cli buf (cli_pos s) (cli_events s ++ [Printf [13; 10] []])).
    rewrite prog_bind_assoc, (prog_bind_ok (say _) _ _ tt s1) by done.
    rewrite prog_bind_assoc, (prog_bind_ok (fetch _) _ s1 (before_zero l) s1).
    2: { unfold fetch. cbn [s1 cli_buffer]. rewrite Eb. by rewrite c_string_text. }
    rewrite prog_bind_assoc, (prog_bind_ok _ _ _ _ _ (cli_execute_ok _ s1 (before_zero_cstring _ Hb))).
    subst s1. eexists. split; [reflexivity|]. cbn [fst snd cli_buffer cli_pos cli_events]. split.
    + constructor; cbn [cli_buffer cli_pos]; [unfold buf; by rewrite length_insert|done|cbn; lia|done|constructor].
    + by rewrite <- !app_assoc.
  - destruct l as [|x l].
    + eexists. split; [reflexivity|]. cbn [fst snd]. rewrite app_nil_r. by split; [constructor|].
    + assert (exists l1 d, x :: l = l1 ++ [d]) as (l1 & d & E) by (destruct (exists_last_or_nil (x :: l)) as [|]; [done|naive_solver]).
      rewrite E in *. clear E x l. rewrite length_app in *. cbn [length] in *.
      rewrite Z.gtb_ltb, (proj2 (Z.ltb_lt _ _)) by lia. eexists. split; [reflexivity|].
      rewrite removelast_last.
      cbn [fst snd]. split; [|done]. apply Forall_app in Hb as [Hb _].
      constructor; cbn [cli_buffer cli_pos]; [done|rewrite u16_small; lia|lia| |done].
      apply (f_equal (take (length l1))) in Ht. by rewrite take_take, Nat.min_l, take_app_length in Ht by lia.
  - unfold CLI_BUFFER_SIZE. destruct (Nat.ltb_spec (length l) 127) as [Hl|Hl].
    + rewrite (proj2 (Z.ltb_lt _ _)) by lia. rewrite !prog_bind_assoc.
      rewrite (prog_bind_ok _ _ _ _ _ (put_char_ok s (length l) c ltac:(lia))).
      eexists. split; [reflexivity|]. cbn [fst snd]. split; [|done].
      constructor; cbn [cli_buffer cli_pos]; [by rewrite length_insert|rewrite length_app, u16_small; cbn; lia| | |].
      * rewrite length_app. cbn. lia.
      * rewrite length_app, Nat.add_1_r. apply take_insert_end; [done|lia].
      * apply Forall_app. by split; [|constructor].
    + rewrite (proj2 (Z.ltb_ge _ _)) by lia. eexists. split; [reflexivity|]. cbn [fst snd]. rewrite app_nil_r. by split; [constructor|].
Qed.

Lemma cli_loop_ok cs : forall s l, holds_line s l -> Forall is_byte cs ->
  exists s', cli_loop cs s = Ok (tt, s') /\ holds_line s' (edits l cs).1 /\
    cli_events s' = cli_events s ++ (edits l cs).2.
Proof.
  induction cs as [|c cs IH]; intros s l Hl Hb; [exists s; rewrite app_nil_r; by split|].
  apply Forall_cons in Hb as [Hc Hb]. destruct (char_ok s l c Hl Hc) as (s1 & E1 & H1 & V1).
  cbn [edits]. destruct (edit l c) as [l1 es1]. cbn [fst snd] in *.
  destruct (IH s1 l1 H1 Hb) as (s2 & E2 & H2 & V2). destruct (edits l1 cs) as [l2 es2]. cbn [fst snd] in *.
  exists s2. split_and!; [|done|by rewrite V2, V1, app_assoc].
  cbn [cli_loop]. rewrite <- prog_bind_assoc. by rewrite (prog_bind_ok _ _ _ _ _ E1).
Qed.

Lemma cli_boot_line : holds_line cli_boot [].
Proof. constructor; [done|done|cbn; lia|done|constructor]. Qed.
