(* ===== verification/Syscall.v ===== *)
(** * System calls ([syscall.c], the request side of [net.c])

    [svc_dispatch] on the state of the whole kernel.  The argument and number
    words of the exception frame are the arguments, the word written back to
    the frame is the result. *)
From S2P Require Import Prelude Utils KState Queue Abs Scheduler Sleep Semaphore Mutex Pool Tcb.
From S2P Require Import Kernel Heap Console.

(** ** Network requests *)

Inductive net_op :=
| NET_OP_LINK | NET_OP_SOCKET_OPEN | NET_OP_SOCKET_CLOSE | NET_OP_RECV | NET_OP_SEND.

Record net_request : Type := NetRequest {
  r_op : net_op;
  r_caller : ptr;
  r_socket : ptr;
  r_result : ptr;
  r_reply_slot : ptr;
  r_buffer : ptr;
  r_buf_len : Z; (* uint16_t *)
  r_dst_ip : bytes; (* 4 *)
  r_dst_port : Z; (* uint16_t *)
  r_dst_mac : bytes; (* 6 *)
  r_use_mac : bool;
}.
Record net_state : Type := NetState {
  n_current_req : option net_request; (* None: never written *)
  n_posted : ptr;
  n_done : ptr;
}.

(** ** The system *)

Section system.
Context {D : Type}.

Record sys : Type := Sys {
  y_k : kstate;
  y_heap : heap;
  y_console : console D;
  y_net : net_state;
  y_ram : memory; (* what the tasks wrote *)
}.
Abbreviation SM := (prog sys).

Definition set_y_k (v : kstate) (y : sys) : sys :=
  Sys v (y_heap y) (y_console y) (y_net y) (y_ram y).
Definition set_y_heap (v : heap) (y : sys) : sys :=
  Sys (y_k y) v (y_console y) (y_net y) (y_ram y).
Definition set_y_console (v : console D) (y : sys) : sys :=
  Sys (y_k y) (y_heap y) v (y_net y) (y_ram y).
Definition set_y_net (v : net_state) (y : sys) : sys :=
  Sys (y_k y) (y_heap y) (y_console y) v (y_ram y).
Definition set_y_ram (v : memory) (y : sys) : sys :=
  Sys (y_k y) (y_heap y) (y_console y) (y_net y) v.

(** A component works on its part of the state; there is one PRIMASK. *)
Definition in_kernel {A} (m : K A) : SM A := fun y =>
  match m (y_k y) with Ok (a, k) => Ok (a, set_y_k k y) | Trap e => Trap e end.
Definition in_heap {A} (m : HM A) : SM A := fun y =>
  match m (set_h_primask (primask (y_k y)) (y_heap y)) with
  | Ok (a, h) => Ok (a, set_y_k (set_primask (h_primask h) (y_k y)) (set_y_heap h y))
  | Trap e => Trap e
  end.
Definition in_console {A} (m : prog (console D) A) : SM A := fun y =>
  match m (set_c_primask (primask (y_k y)) (y_console y)) with
  | Ok (a, c) => Ok (a, set_y_k (set_primask (c_primask c) (y_k y)) (set_y_console c y))
  | Trap e => Trap e
  end.

(** ** net.c *)

Definition net_send_request (req : net_request) : SM unit :=
  modify (fun y => set_y_net (NetState (Some req) (n_posted (y_net y)) (n_done (y_net y))) y);;
  posted ← gets (fun y => n_posted (y_net y));
  _r ← in_kernel (semaphore_post posted);
  mret tt.

Definition net_will_wait : SM bool :=
  done ← gets (fun y => n_done (y_net y));
  r ← in_kernel (semaphore_wait done);
  mret (bool_decide (r = SEM_OK_YIELD)).

(** ** syscall.c *)

Section dispatch.
Context (L : layout) (task_wrapper : ptr) (heap_start heap_end : ptr).

(** [uintptr_t] arithmetic wraps. *)
Definition ptr_on_heap (p len : Z) : bool :=
  if (p =? 0) || (p <? heap_start) || (u32 (p + len) >=? heap_end) then false
  else if u32 (p + len) <? p then false
  else true.

Definition ptr_on_stack (p len stack_base stack_size : Z) : bool :=
  if (p =? 0) || (p <? stack_base) || (u32 (p + len) >=? u32 (stack_base + stack_size)) then false
  else if u32 (p + len) <? p then false
  else true.

Inductive syscall_number :=
| SYS_YIELD | SYS_UPTIME | SYS_MALLOC | SYS_CALLOC | SYS_FREE
| SYS_SEM_CREATE | SYS_SEM_WAIT | SYS_SEM_POST | SYS_SEM_CLOSE
| SYS_MUTEX_CREATE | SYS_MUTEX_LOCK | SYS_MUTEX_UNLOCK
| SYS_TASK_CREATE | SYS_TASK_EXIT | SYS_TASK_SET_NAME | SYS_SLEEP
| SYS_PUTC | SYS_GETC | SYS_CONSOLE_WRITE
| SYS_SOCKET_GET | SYS_SOCKET_OPEN | SYS_SOCKET_CLOSE
| SYS_NET_LINK | SYS_NET_RECV | SYS_NET_SEND.

(** The numbers of the enumeration, from 0. *)
Definition syscalls : list syscall_number :=
  [ SYS_YIELD; SYS_UPTIME; SYS_MALLOC; SYS_CALLOC; SYS_FREE;
    SYS_SEM_CREATE; SYS_SEM_WAIT; SYS_SEM_POST; SYS_SEM_CLOSE;
    SYS_MUTEX_CREATE; SYS_MUTEX_LOCK; SYS_MUTEX_UNLOCK;
    SYS_TASK_CREATE; SYS_TASK_EXIT; SYS_TASK_SET_NAME; SYS_SLEEP;
    SYS_PUTC; SYS_GETC; SYS_CONSOLE_WRITE;
    SYS_SOCKET_GET; SYS_SOCKET_OPEN; SYS_SOCKET_CLOSE;
    SYS_NET_LINK; SYS_NET_RECV; SYS_NET_SEND ].
Definition syscall_of (n : Z) : option syscall_number :=
  if n <? 0 then None else syscalls !! Z.to_nat n.

(** Bytes and little-endian words of the tasks' memory. *)
Definition ram_bytes (p : Z) (n : nat) (y : sys) : bytes :=
  (fun i => y_ram y (p + Z.of_nat i)) <$> seq 0 n.
Definition ram_u16 (p : Z) (y : sys) : Z := y_ram y p + 2 ^ 8 * y_ram y (p + 1).
Definition ram_u32 (p : Z) (y : sys) : Z := ram_u16 p y + 2 ^ 16 * ram_u16 (p + 2) y.

(** Memory from [kmalloc] becomes a mutex: its fields are whatever was there
    until [mutex_init] writes them all. *)
Definition as_mutex (p : ptr) : K unit :=
  modify (fun s =>
    if bool_decide (is_Some (mutexes s !! p)) then s
    else set_mutexes (<[p := MkMutex NULL empty_list SEM_UNUSED NULL]> (mutexes s)) s).

(** A request without the fields its initialiser leaves out. *)
Definition plain_request (op : net_op) (caller socket reply : ptr) : net_request :=
  NetRequest op caller socket NULL reply NULL 0 [0; 0; 0; 0] 0 [0; 0; 0; 0; 0; 0] false.

Definition submit (req : net_request) : SM (Z * bool) :=
  net_send_request req;;
  w ← net_will_wait;
  mret (0, w).

(** [net_send_args_t]: tx_data at 0, tx_length at 4, dst_ip at 6, dst_port at
    10, use_mac at 12, mac at 13. *)
Definition send_request (caller socket args reply : ptr) (y : sys) : net_request :=
  NetRequest NET_OP_SEND caller socket NULL reply (ram_u32 args y) (ram_u16 (args + 4) y)
    (ram_bytes (args + 6) 4 y) (ram_u16 (args + 10) y) (ram_bytes (args + 13) 6 y)
    (negb (y_ram y (args + 12) =? 0)).

Definition yields (r : sem_result) : Z * bool := (sem_result_code r, bool_decide (r = SEM_OK_YIELD)).

(** One case of the switch: the value for the caller and [should_yield]. *)
Definition svc_case (n : syscall_number) (arg0 arg1 arg2 arg3 : Z) : SM (Z * bool) :=
  caller ← gets (fun y => current_task (y_k y));
  match n with
  | SYS_YIELD => mret (0, true)
  | SYS_UPTIME => t ← gets (fun y => system_ticks (y_k y)); mret (t, false)
  | SYS_MALLOC => p ← in_heap (kmalloc arg0); mret (p, false)
  | SYS_CALLOC => p ← in_heap (kcalloc arg0 arg1); mret (p, false)
  | SYS_FREE => whenb (ptr_on_heap arg0 0) (in_heap (kfree arg0));; mret (0, false)
  | SYS_SEM_CREATE =>
      p ← in_kernel (alloc_sem L);
      whenb (negb (p =? 0)) (in_kernel (semaphore_init p arg0));;
      mret (p, false)
  | SYS_SEM_WAIT =>
      if negb (validate_sem L arg0) then mret (0, false)
      else r ← in_kernel (semaphore_wait arg0); mret (yields r)
  | SYS_SEM_POST =>
      if negb (validate_sem L arg0) then mret (0, false)
      else r ← in_kernel (semaphore_post arg0); mret (yields r)
  | SYS_SEM_CLOSE =>
      if negb (validate_sem L arg0) then mret (0, false)
      else
        in_kernel (semaphore_close arg0);;
        in_kernel (free_sem arg0);;
        mret (0, false)
  | SYS_MUTEX_CREATE =>
      p ← in_heap (kmalloc (sizeof_mutex L));
      whenb (negb (p =? 0)) (in_kernel (as_mutex p;; mutex_init p));;
      mret (p, false)
  | SYS_MUTEX_LOCK =>
      if negb (validate_mutex L arg0) then mret (0, false)
      else r ← in_kernel (mutex_lock arg0); mret (yields r)
  | SYS_MUTEX_UNLOCK =>
      if negb (validate_mutex L arg0) then mret (0, false)
      else r ← in_kernel (mutex_unlock arg0); mret (yields r)
  | SYS_TASK_CREATE => p ← in_kernel (task_create L task_wrapper (u8 arg0) arg1 arg2); mret (p, false)
  | SYS_TASK_EXIT => in_kernel task_exit;; mret (0, true)
  | SYS_TASK_SET_NAME =>
      if negb (validate_task L arg0) then mret (0, false)
      else in_kernel (task_set_name arg0 arg1);; mret (0, false)
  | SYS_SLEEP => in_kernel (sleep_for_ticks arg0);; mret (0, true)
  | SYS_PUTC => in_console (console_write [u8 arg0]);; mret (0, false)
  | SYS_GETC =>
      '(n, bs) ← in_console (console_read 1);
      (match bs with b :: _ => modify (fun y => set_y_ram (store (y_ram y) arg0 b) y) | [] => mret tt end);;
      mret (u32 n, false)
  | SYS_CONSOLE_WRITE =>
      ok ← (if ptr_on_heap arg0 arg1 then mret true
             else
               base ← in_kernel (rd_task caller t_stack_base);
               size ← in_kernel (rd_task caller t_stack_size);
               mret (ptr_on_stack arg0 arg1 base size));
      if negb ok then mret (0, false)
      else
        buf ← gets (ram_bytes arg0 (Z.to_nat arg1));
        in_console (console_write buf);;
        mret (arg1, false)
  | SYS_SOCKET_GET => mret (get_socket L (u8 arg0), false)
  | SYS_SOCKET_OPEN =>
      if negb (validate_socket L arg0) then mret (0, false)
      else submit (plain_request NET_OP_SOCKET_OPEN caller arg0 arg1)
  | SYS_SOCKET_CLOSE =>
      if negb (validate_socket L arg0) then mret (0, false)
      else submit (plain_request NET_OP_SOCKET_CLOSE caller arg0 arg1)
  | SYS_NET_LINK =>
      submit (NetRequest NET_OP_LINK caller NULL arg0 arg1 NULL 0 [0; 0; 0; 0] 0
                [0; 0; 0; 0; 0; 0] false)
  | SYS_NET_RECV =>
      if negb (validate_socket L arg0) then mret (0, false)
      else submit (NetRequest NET_OP_RECV caller arg0 NULL arg3 arg1 (u16 arg2) [0; 0; 0; 0] 0
                     [0; 0; 0; 0; 0; 0] false)
  | SYS_NET_SEND =>
      if negb (validate_socket L arg0) then mret (0, false)
      else req ← gets (send_request caller arg0 arg1 arg2); submit req
  end.

Definition svc_dispatch (arg0 arg1 arg2 arg3 number : Z) : SM Z :=
  '(ret, should_yield) ← match syscall_of number with
    | Some n => svc_case n arg0 arg1 arg2 arg3
    | None => mret (0, false)
    end;
  whenb should_yield (in_kernel request_context_switch);;
  mret ret.
End dispatch.
End system.
Arguments sys D : clear implicits.

(** ** Pointer checks *)

(** The range is not empty at the end and does not wrap around. *)
Lemma range_check p len lo hi :
  0 <= p < 2 ^ 32 -> 0 <= len < 2 ^ 32 -> 0 <= hi < 2 ^ 32 ->
  (if (p =? 0) || (p <? lo) || (u32 (p + len) >=? hi) then false
   else if u32 (p + len) <? p then false else true) = true <->
  p <> 0 /\ lo <= p /\ p + len < hi.
Proof.
  intros Hp Hl Hh. rewrite Z.geb_leb.
  destruct (Z.eqb_spec p 0), (Z.ltb_spec p lo); cbn [orb]; try (split; [done|lia]).
  assert (u32 (p + len) = p + len \/ u32 (p + len) = p + len - 2 ^ 32 /\ 2 ^ 32 <= p + len) as Hu
    by word_lia.
  destruct (Z.leb_spec hi (u32 (p + len))); [split; [done|lia]|].
  destruct (Z.ltb_spec (u32 (p + len)) p); split; (done || lia).
Qed.

(** ** Calls of the kernel core *)

Section core.
Context {D : Type} (L : layout) (tw hs he : ptr).
Implicit Types y : sys D.

Abbreviation dispatch := (svc_dispatch (D := D) L tw hs he).

(** The event of a system call that only works on the kernel core. *)
Definition core_event (n : syscall_number) (arg0 arg1 arg2 : Z) : option event :=
  match n with
  | SYS_SEM_WAIT => Some (EWait arg0)
  | SYS_SEM_POST => Some (EPost arg0)
  | SYS_MUTEX_LOCK => Some (ELock arg0)
  | SYS_MUTEX_UNLOCK => Some (EUnlock arg0)
  | SYS_TASK_CREATE => Some (ECreate (u8 arg0) arg1 arg2)
  | SYS_TASK_EXIT => Some EExit
  | SYS_SLEEP => Some (ESleep arg0)
  | _ => None
  end.

(** The handle passes its check. *)
Definition handle_ok (n : syscall_number) (arg0 : Z) : bool :=
  match n with
  | SYS_SEM_WAIT | SYS_SEM_POST => validate_sem L arg0
  | SYS_MUTEX_LOCK | SYS_MUTEX_UNLOCK => validate_mutex L arg0
  | _ => true
  end.

(** The event with what it answers its caller: the value for the caller's R0,
    and whether the caller gives way. *)
Definition answer (e : event) : K (Z * bool) :=
  match e with
  | EWait p => r ← semaphore_wait p; mret (yields r)
  | EPost p => r ← semaphore_post p; mret (yields r)
  | ELock m => r ← mutex_lock m; mret (yields r)
  | EUnlock m => r ← mutex_unlock m; mret (yields r)
  | ECreate prio func args => p ← task_create L tw prio func args; mret (p, false)
  | EExit => task_exit;; mret (0, true)
  | ESleep n => sleep_for_ticks n;; mret (0, true)
  | _ => exec L tw e;; mret (0, false)
  end.

Lemma answer_exec e s s' :
  exec L tw e s = Ok (tt, s') -> exists v, answer e s = Ok (v, s').
Proof using.
  assert (forall A (m : K A) (f : A -> Z * bool), (_v ← m; mret tt) s = Ok (tt, s') ->
    exists v, (x ← m; mret (f x)) s = Ok (v, s')) as Hm.
  { intros A m f E. apply prog_bind_inv in E as (x & s1 & E1 & E2). injection E2 as ->.
    exists (f x). by rewrite (prog_bind_ok _ _ _ _ _ E1). }
  assert (forall (m : K unit) (v : Z * bool), m s = Ok (tt, s') ->
    exists v', (m;; mret v : K (Z * bool)) s = Ok (v', s')) as Hu.
  { intros m v E. exists v. by rewrite (prog_bind_ok _ _ _ _ _ E). }
  destruct e; cbn [exec answer]; intros E; try (by apply (Hm _ _ _ E)); by apply (Hu _ _ E).
Qed.

Lemma in_kernel_ok {A} (m : K A) (k : A -> prog (sys D) (Z * bool)) y v s' :
  m (y_k y) = Ok (v, s') -> (in_kernel m ≫= k) y = k v (set_y_k s' y).
Proof using. intros E. unfold in_kernel, mbind, prog_bind. by rewrite E. Qed.

(** Running the case is running the event. *)
Lemma svc_case_core n arg0 arg1 arg2 arg3 e y v s' :
  core_event n arg0 arg1 arg2 = Some e -> handle_ok n arg0 = true ->
  answer e (y_k y) = Ok (v, s') ->
  svc_case L tw hs he n arg0 arg1 arg2 arg3 y = Ok (v, set_y_k s' y).
Proof using.
  assert (forall A (m : K A) (f : A -> Z * bool),
    (x ← m; mret (f x)) (y_k y) = Ok (v, s') ->
    (x ← in_kernel m; mret (f x)) y = Ok (v, set_y_k s' y)) as Hm.
  { intros A m f Ex. apply prog_bind_inv in Ex as (x & s1 & E1 & E2). injection E2 as <- ->.
    by rewrite (in_kernel_ok _ _ _ _ _ E1). }
  intros Ee Hh Ex. unfold svc_case.
  rewrite (prog_bind_ok _ _ y (current_task (y_k y)) y) by done.
  destruct n; try done; injection Ee as <-; cbn [handle_ok] in Hh; rewrite ?Hh; cbn [negb answer] in *;
    by apply (Hm _ _ _ Ex).
Qed.

End core.
