(* ===== verification/Frame.v ===== *)
(** * What the kernel operations leave alone

    No operation but PendSV (and the initialisation) writes [current_task].
    The proofs follow the code; the primitives and the combinators are hints
    of the database [frame]. *)
From S2P Require Import Prelude KState Queue Abs Scheduler Sleep Semaphore Mutex Pool Tcb Kernel.

Definition keeps {A} (m : K A) : Prop :=
  forall s v s', m s = Ok (v, s') -> current_task s' = current_task s.

Lemma keeps_bind {A B} (m : K A) (f : A -> K B) :
  keeps m -> (forall a, keeps (f a)) -> keeps (m ≫= f).
Proof.
  intros Hm Hf s v s' E. apply prog_bind_inv in E as (a & s1 & E1 & E2).
  rewrite (Hf _ _ _ _ E2). by eapply Hm.
Qed.
Lemma keeps_ret {A} (a : A) : keeps (mret a).
Proof. by intros s v s' [= _ <-]. Qed.
Lemma keeps_raise {A} e : keeps (raise (A := A) e).
Proof. by intros s v s'. Qed.
Lemma keeps_gets {A} (f : kstate -> A) : keeps (gets f).
Proof. by intros s v s' [= _ <-]. Qed.
Lemma keeps_fetch {A} (f : kstate -> option A) : keeps (fetch f).
Proof. intros s v s'. unfold fetch. destruct (f s); [|done]. by intros [= _ <-]. Qed.
Lemma keeps_modify f : (forall s, current_task (f s) = current_task s) -> keeps (modify f).
Proof. intros H s v s' E. injection E as _ <-. apply H. Qed.
Lemma keeps_whenb b (m : K unit) : keeps m -> keeps (whenb b m).
Proof. intros H. destruct b; [done|apply keeps_ret]. Qed.
Lemma keeps_on_queue {A} r (m : QM A) : keeps (on_queue r m).
Proof.
  intros s v s'. unfold on_queue. destruct (load_list r s) as [q|]; [|done].
  destruct (m (tasks s, q)) as [[a [T q']]|]; [|done]. intros [= _ <-]. by destruct r.
Qed.
Lemma keeps_upd_task x f : keeps (upd_task x f).
Proof. apply keeps_bind; [apply keeps_fetch|]. intros t. by apply keeps_modify. Qed.
Lemma keeps_upd_sem x f : keeps (upd_sem x f).
Proof. apply keeps_bind; [apply keeps_fetch|]. intros t. by apply keeps_modify. Qed.
Lemma keeps_upd_mutex x f : keeps (upd_mutex x f).
Proof. apply keeps_bind; [apply keeps_fetch|]. intros t. by apply keeps_modify. Qed.
Lemma keeps_irq_save : keeps irq_save.
Proof.
  apply keeps_bind; [apply keeps_gets|]. intros p.
  apply keeps_bind; [by apply keeps_modify|]. intros _. apply keeps_ret.
Qed.
Lemma keeps_irq_restore p : keeps (irq_restore p).
Proof. by apply keeps_modify. Qed.

Create HintDb frame.
#[export] Hint Resolve keeps_ret keeps_raise keeps_gets keeps_fetch keeps_on_queue keeps_upd_task
  keeps_upd_sem keeps_upd_mutex keeps_irq_save keeps_irq_restore : frame.

(** Walks through the statements of an operation. *)
Ltac frame :=
  repeat first
    [ progress intros
    | solve [auto with frame]
    | apply keeps_bind
    | apply keeps_whenb
    | apply keeps_modify; by intros []
    | match goal with
      | |- keeps (if ?b then _ else _) => destruct b
      | |- keeps (match ?x with _ => _ end) => destruct x
      | |- keeps (let '_ := ?x in _) => destruct x
      end ].

Lemma keeps_rd_task {A} x (f : tcb -> A) : keeps (rd_task x f).
Proof. unfold rd_task. frame. Qed.
Lemma keeps_rd_sem {A} x (f : semaphore -> A) : keeps (rd_sem x f).
Proof. unfold rd_sem. frame. Qed.
Lemma keeps_rd_mutex {A} x (f : mutex -> A) : keeps (rd_mutex x f).
Proof. unfold rd_mutex. frame. Qed.
#[export] Hint Resolve keeps_rd_task keeps_rd_sem keeps_rd_mutex : frame.

(** ** The operations *)

Lemma keeps_put_task x : keeps (scheduler_put_task x).
Proof. unfold scheduler_put_task. frame. Qed.
#[export] Hint Resolve keeps_put_task : frame.

Lemma keeps_request : keeps request_context_switch.
Proof. unfold request_context_switch, scheduler_next_task. frame. Qed.

Lemma keeps_sleep n : keeps (sleep_for_ticks n).
Proof. unfold sleep_for_ticks. frame. Qed.

Lemma keeps_sem_wait p : keeps (semaphore_wait p).
Proof. unfold semaphore_wait. frame. Qed.
Lemma keeps_sem_post p : keeps (semaphore_post p).
Proof. unfold semaphore_post. frame. Qed.

Lemma keeps_reorder x : keeps (scheduler_reorder x).
Proof. unfold scheduler_reorder. frame. Qed.
#[export] Hint Resolve keeps_reorder : frame.
Lemma keeps_raise_priority fuel x p : keeps (task_raise_priority fuel x p).
Proof. revert x. induction fuel; intros x; cbn [task_raise_priority]; frame. Qed.
Lemma keeps_recalculate_loop fuel m p : keeps (task_recalculate_loop fuel m p).
Proof. revert m p. induction fuel; intros m p; cbn [task_recalculate_loop]; frame. Qed.
#[export] Hint Resolve keeps_raise_priority keeps_recalculate_loop : frame.
Lemma keeps_recalculate x : keeps (task_recalculate_priority x).
Proof. unfold task_recalculate_priority, owned_fuel. frame. Qed.
Lemma keeps_queue_push x m : keeps (mutex_queue_push x m).
Proof. unfold mutex_queue_push. frame. Qed.
Lemma keeps_queue_remove_loop fuel m y prev : keeps (mutex_queue_remove_loop fuel m y prev).
Proof. revert y prev. induction fuel; intros y prev; cbn [mutex_queue_remove_loop]; frame. Qed.
#[export] Hint Resolve keeps_recalculate keeps_queue_push keeps_queue_remove_loop : frame.
Lemma keeps_queue_remove x m : keeps (mutex_queue_remove x m).
Proof. unfold mutex_queue_remove, owned_fuel. frame. Qed.
#[export] Hint Resolve keeps_queue_remove : frame.
Lemma keeps_lock m : keeps (mutex_lock m).
Proof. unfold mutex_lock. frame. Qed.
Lemma keeps_unlock m : keeps (mutex_unlock m).
Proof. unfold mutex_unlock. frame. Qed.
#[export] Hint Resolve keeps_unlock : frame.
Lemma keeps_unlock_loop fuel m : keeps (unlock_all_loop fuel m).
Proof. revert m. induction fuel; intros m; cbn [unlock_all_loop]; frame. Qed.
#[export] Hint Resolve keeps_unlock_loop : frame.
Lemma keeps_exit : keeps task_exit.
Proof. unfold task_exit, mutex_unlock_all_owned, owned_fuel. frame. Qed.

Lemma keeps_alloc_scan L n i : keeps (alloc_task_scan L n i).
Proof. revert i. induction n; intros i; cbn [alloc_task_scan]; frame. Qed.
#[export] Hint Resolve keeps_alloc_scan : frame.
Lemma keeps_create L tw p f x : keeps (create_task L tw p f x).
Proof. unfold create_task, alloc_task. frame. Qed.
#[export] Hint Resolve keeps_create keeps_sleep keeps_sem_wait keeps_sem_post keeps_lock keeps_exit : frame.
Lemma keeps_task_create L tw p f x : keeps (task_create L tw p f x).
Proof. unfold task_create. frame. Qed.
#[export] Hint Resolve keeps_task_create : frame.
