(* ===== verification/SyscallProps.v ===== *)
(** * Theorems: system calls

    The dispatcher on the calls of the kernel core, the checks of pointers
    that come from tasks, and the handles of mutexes. *)
From S2P Require Import Prelude Utils KState Queue Abs Scheduler Sleep Semaphore Mutex Pool Tcb.
From S2P Require Import Invariant Kernel Boot Heap HeapSpec HeapProps Console Frame Syscall.

Section dispatch.
Context {D : Type} (L : layout) (tw hs he : ptr).
Implicit Types y : sys D.

Lemma request_after e s s' :
  layout_ok L -> kernel_ok s -> current_task s <> NULL -> may L e s ->
  keeps (exec L tw e) -> exec L tw e s = Ok (tt, s') ->
  kernel_ok s' /\ exists s'', request_context_switch s' = Ok (tt, s'') /\ kernel_ok s''.
Proof using.
  intros HL Hs Hn He Hk E. destruct (exec_ok L tw s e HL Hs He) as (s1 & E1 & H1).
  rewrite E in E1. injection E1 as <-. split; [done|].
  destruct H1 as (a & Ha & Hi & Hc). rewrite <- (Hk _ _ _ E), <- (view_current _ _ Ha) in Hn.
  destruct (request_safe a Hi Hc Hn) as (a' & Hr & Hi' & Hc' & _).
  destruct (Hr s' Ha) as (s'' & E'' & Ha'). exists s''. split; [done|]. by exists a'.
Qed.

Lemma core_event_keeps n arg0 arg1 arg2 e :
  core_event n arg0 arg1 arg2 = Some e -> keeps (exec L tw e).
Proof using. destruct n; try done; intros [= <-]; cbn [exec]; frame. Qed.

(** The switch is asked for when the caller gives way. *)
Definition switch_after (yield : bool) (s1 s2 : kstate) : Prop :=
  if yield then request_context_switch s1 = Ok (tt, s2) else s2 = s1.

Lemma dispatch_core arg0 arg1 arg2 arg3 number n e y :
  layout_ok L -> kernel_ok (y_k y) -> current_task (y_k y) <> NULL ->
  syscall_of number = Some n -> core_event n arg0 arg1 arg2 = Some e ->
  handle_ok L n arg0 = true -> may L e (y_k y) ->
  exists ret yield s1 s2,
    answer L tw e (y_k y) = Ok ((ret, yield), s1) /\ exec L tw e (y_k y) = Ok (tt, s1) /\
    switch_after yield s1 s2 /\
    svc_dispatch L tw hs he arg0 arg1 arg2 arg3 number y = Ok (ret, set_y_k s2 y) /\
    kernel_ok s1 /\ kernel_ok s2.
Proof using.
  intros HL Hs Hn Hnum Hev Hh Hm. destruct (exec_ok L tw _ e HL Hs Hm) as (s1 & E & _).
  destruct (request_after e _ s1 HL Hs Hn Hm (core_event_keeps _ _ _ _ _ Hev) E)
    as (Hs1 & s2 & E2 & Hs2).
  destruct (answer_exec L tw e _ s1 E) as ([ret b] & Ea). exists ret, b, s1, (if b then s2 else s1).
  pose proof (svc_case_core L tw hs he n arg0 arg1 arg2 arg3 e y _ s1 Hev Hh Ea) as Ec.
  split; [done|]. split; [done|]. unfold svc_dispatch.
  rewrite Hnum, (prog_bind_ok _ _ _ _ _ Ec). destruct b; [|done].
  split_and!; [done| |done..]. cbn [whenb]. unfold in_kernel, mbind, prog_bind.
  cbn [y_k set_y_k]. by rewrite E2.
Qed.
End dispatch.

(** C18: A system call of the kernel core (wait, post, lock, unlock, create, exit,
    sleep) whose handle passes its check and whose event [allowed] accepts runs
    exactly that event on the kernel: the caller gets the event's answer, a
    context switch is requested after it exactly when the answer says the
    caller gives way, the kernel is well formed after both, and no other part
    of the system changes. *)
Theorem svc_core_safe {D} (L : layout) (tw hs he : ptr) arg0 arg1 arg2 arg3 number n e (y : sys D) :
  layout_ok L -> kernel_ok (y_k y) -> current_task (y_k y) <> NULL ->
  syscall_of number = Some n -> core_event n arg0 arg1 arg2 = Some e ->
  handle_ok L n arg0 = true -> allowed L e (y_k y) = true ->
  exists ret yield s1 s2,
    answer L tw e (y_k y) = Ok ((ret, yield), s1) /\ exec L tw e (y_k y) = Ok (tt, s1) /\
    switch_after yield s1 s2 /\
    svc_dispatch L tw hs he arg0 arg1 arg2 arg3 number y = Ok (ret, set_y_k s2 y) /\
    kernel_ok s1 /\ kernel_ok s2.
Proof. intros HL Hs Hc Hnum Hev Hh He. by apply (dispatch_core _ _ _ _ _ _ _ _ _ n); [..|apply allowed_may]. Qed.

(** A system with the demonstration kernel, a heap and no drivers. *)
Definition demo_sys (k : kstate) (h : heap) : sys unit :=
  Sys k h (Console ∅ (repeat NULL DRIVER_MAX) (repeat NULL CONSOLE_MAX_SINKS) tt 0)
    (NetState None NULL NULL) (fun _ => 0).
Definition demo_busy : list event :=
  [ ECreate 255 0 0; ECreate 9 0 0; EPendSV 1; ESemInit (demo_sem 0) 0 ].

(** The running task waits for a semaphore without units: it blocks, and the
    switch to another task is pending. *)
Lemma svc_core_safe_witness :
  let y := demo_sys (after demo_busy) fresh in let e := EWait (demo_sem 0) in
  exists ret yield s1 s2,
    answer demo_layout demo_wrapper e (y_k y) = Ok ((ret, yield), s1) /\
    exec demo_layout demo_wrapper e (y_k y) = Ok (tt, s1) /\ switch_after yield s1 s2 /\
    svc_dispatch demo_layout demo_wrapper demo_start 0x20020000 (demo_sem 0) 0 0 0 6 y =
      Ok (ret, set_y_k s2 y) /\
    kernel_ok s1 /\ kernel_ok s2.
Proof.
  apply (svc_core_safe demo_layout demo_wrapper demo_start 0x20020000 (demo_sem 0) 0 0 0 6
    SYS_SEM_WAIT (EWait (demo_sem 0))).
  - apply demo_layout_ok.
  - apply after_ok. by vm_compute.
  - by vm_compute.
  - done.
  - done.
  - by vm_compute.
  - by vm_compute.
Defined.

(** C32: A pointer range passes the heap check exactly when it lies in the heap
    and ends before the last byte; in particular a length that wraps around
    the address space does not get through.  The check for the stack is the
    same with the bounds of the caller's stack. *)
Theorem range_checks_exact p len lo hi base sz :
  0 <= p < 2 ^ 32 -> 0 <= len < 2 ^ 32 -> 0 <= hi < 2 ^ 32 -> 0 < lo ->
  0 < base -> 0 <= sz -> base + sz < 2 ^ 32 ->
  (ptr_on_heap lo hi p len = true <-> lo <= p /\ p + len < hi) /\
  (ptr_on_stack p len base sz = true <-> base <= p /\ p + len < base + sz).
Proof.
  intros Hp Hl Hh Hlo Hb Hs Hbs. unfold ptr_on_heap, ptr_on_stack.
  rewrite !range_check by (try apply u32_range; lia). rewrite u32_small by lia. split; lia.
Qed.

Lemma range_checks_exact_witness :
  (ptr_on_heap 0x20010000 0x20020000 0x20010010 0xFFFFFFFF = true <->
     0x20010000 <= 0x20010010 /\ 0x20010010 + 0xFFFFFFFF < 0x20020000) /\
  (ptr_on_stack 0x20010010 0xFFFFFFFF 0x20004000 2048 = true <->
     0x20004000 <= 0x20010010 /\ 0x20010010 + 0xFFFFFFFF < 0x20004000 + 2048).
Proof. apply range_checks_exact; lia. Defined.

(** SYS_MUTEX_CREATE takes a mutex from the heap, but SYS_MUTEX_LOCK and
    SYS_MUTEX_UNLOCK accept only addresses at a multiple of the size of a
    mutex from the static pool.  A mutex that misses this is refused: both
    calls return 0, the code of SEM_CLOSE, and change nothing, so nothing is
    ever locked. *)
Theorem heap_mutex_refused {D} (L : layout) (tw hs he : ptr) arg1 arg2 arg3 (y : sys D) m :
  u32 (m - mutex_slots L) mod sizeof_mutex L <> 0 ->
  svc_dispatch L tw hs he m arg1 arg2 arg3 10 y = Ok (0, y) /\
  svc_dispatch L tw hs he m arg1 arg2 arg3 11 y = Ok (0, y).
Proof.
  intros Hm. assert (validate_mutex L m = false) as Hv by (by apply Z.eqb_neq).
  unfold svc_dispatch. change (syscall_of 10) with (Some SYS_MUTEX_LOCK).
  change (syscall_of 11) with (Some SYS_MUTEX_UNLOCK). unfold svc_case.
  rewrite !prog_bind_assoc, !(prog_bind_ok _ _ y (current_task (y_k y)) y) by done.
  by rewrite Hv.
Qed.

Definition demo_sys_two : sys unit := demo_sys (after demo_busy) two_blocks.

Lemma heap_mutex_refused_witness :
  let call := svc_dispatch demo_layout demo_wrapper demo_start 0x20020000 in
  exists m y', call 0 0 0 0 9 demo_sys_two = Ok (m, y') /\
    call m 0 0 0 10 y' = Ok (0, y') /\ call m 0 0 0 11 y' = Ok (0, y').
Proof.
  assert (exists m y', svc_dispatch demo_layout demo_wrapper demo_start 0x20020000 0 0 0 0 9
    demo_sys_two = Ok (m, y') /\ m = demo_start + 64) as (m & y' & E & Em).
  { eexists _, _. split; [vm_compute; reflexivity|done]. }
  exists m, y'. split; [exact E|].
  apply (heap_mutex_refused demo_layout demo_wrapper demo_start 0x20020000 0 0 0 y' m).
  rewrite Em. by vm_compute.
Defined.
