(* ===== verification/LibProps.v ===== *)
(** * Theorems: library routines and the serial port

    [utils.c], [kprintf.c], the ring buffers under the USART driver and the
    console. *)
From Stdlib Require Import Ascii String.
From S2P Require Import Prelude Utils Kprintf KprintfSpec RingBuffer Usart Console Cli.

(** [crc32] detects every error confined to one byte: messages that differ
    in exactly one byte have different checksums. *)
Theorem crc32_detects_byte p b b' s :
  Forall is_byte p -> is_byte b -> is_byte b' -> Forall is_byte s -> b <> b' ->
  crc32 (p ++ b :: s) <> crc32 (p ++ b' :: s).
Proof. apply crc32_differs. Qed.

(** The usual check value of this polynomial, and a message with one byte
    changed. *)
Lemma crc32_detects_byte_witness :
  crc32 (lit "123456789") = 0xCBF43926 /\
  crc32 (lit "1234" ++ 0x35 :: lit "6789") <> crc32 (lit "1234" ++ 0x36 :: lit "6789").
Proof.
  assert (forall l, forallb (fun b => (0 <=? b) && (b <? 256)) l = true -> Forall is_byte l) as H.
  { intros l Hl. apply Forall_forall. intros x Hx. rewrite forallb_forall in Hl.
    specialize (Hl x (proj1 (list_elem_of_In _ _) Hx)). apply andb_true_iff in Hl as [H1 H2].
    unfold is_byte. lia. }
  split; [vm_compute; reflexivity|].
  apply crc32_detects_byte; [apply H; by vm_compute|by split|by split|apply H; by vm_compute|done].
Defined.

(** [strcmp] is 0 exactly on equal strings and negative exactly when the
    first one comes first in the lexicographic order. *)
Theorem strcmp_orders s1 s2 :
  cstring s1 -> cstring s2 ->
  (strcmp s1 s2 = 0 <-> s1 = s2) /\ (strcmp s1 s2 < 0 <-> lex_lt s1 s2).
Proof. apply strcmp_sign. Qed.

Lemma strcmp_orders_witness :
  (strcmp (lit "usart") (lit "usart2") = 0 <-> lit "usart" = lit "usart2") /\
  (strcmp (lit "usart") (lit "usart2") < 0 <-> lex_lt (lit "usart") (lit "usart2")).
Proof. apply strcmp_orders; repeat constructor. Defined.

(** C30: [kvsnprintf] keeps the contract of snprintf: it returns the length of
    the whole text, writes the part that fits followed by a zero, and touches
    no other byte of the buffer; with capacity 0 it touches none.  The text
    [render] is defined for the calls whose arguments have the types of their
    conversions; [%s] with NULL has none, since the code takes [strlen] of it
    first. *)
Theorem kvsnprintf_contract buf cap fmt ap w :
  0 <= cap < 2 ^ 32 -> Z.of_nat (length buf) = cap ->
  render fmt ap = Ok w -> Z.of_nat (length w) < 2 ^ 31 ->
  kvsnprintf buf cap fmt ap = Ok (Z.of_nat (length w), written buf cap w).
Proof. apply kvsnprintf_ok. Qed.

Definition demo_fmt : bytes := lit "%5d|%08x|%s %".
Definition demo_args : list va_arg := [VInt (-42); VInt 48879; VStr (Some (lit "dhcp"))].

Lemma kvsnprintf_contract_witness :
  render demo_fmt demo_args = Ok (lit "  -42|0000beef|dhcp %") /\
  kvsnprintf (repeat 0xAA 12) 12 demo_fmt demo_args =
    Ok (Z.of_nat (length (lit "  -42|0000beef|dhcp %")),
        written (repeat 0xAA 12) 12 (lit "  -42|0000beef|dhcp %")).
Proof.
  split; [vm_compute; reflexivity|].
  apply kvsnprintf_contract; [lia|done|vm_compute; reflexivity|by vm_compute].
Defined.

(** The digits written for a number are right: read back in the base they
    give the number, at most 10 of them are needed (so [tmp[10]] is never
    overrun), and only the number 0 starts with the digit 0. *)
Theorem digits_read_back v base (upper : bool) :
  0 <= v < 2 ^ 32 -> base = 10 \/ base = 16 ->
  exists ds, digits_loop 10 v base (if upper then upper_digits else lower_digits) [] = Ok ds /\
    value_of base ds = v /\ (0 < length ds <= 10)%nat /\
    (forall d ds', ds = d :: ds' -> digit_value d = 0 -> ds' = [] /\ v = 0).
Proof.
  intros Hv Hb.
  assert (digits_for base (if upper then upper_digits else lower_digits)) as Hd.
  { destruct Hb as [-> | ->]; [|apply hex_digits]. destruct (hex_digits upper) as (_ & _ & H).
    split; [lia|]. split; [by destruct upper; vm_compute|]. intros k Hk. apply H. lia. }
  destruct (digits_loop_ok 10 v base _ [] Hd) as (ds & E & H); [destruct Hb as [-> | ->]; cbn; lia|lia|].
  rewrite app_nil_r in E. by exists ds.
Qed.

Lemma digits_read_back_witness :
  exists ds, digits_loop 10 0xFFFFFFFF 10 lower_digits [] = Ok ds /\
    value_of 10 ds = 0xFFFFFFFF /\ (0 < length ds <= 10)%nat /\
    (forall d ds', ds = d :: ds' -> digit_value d = 0 -> ds' = [] /\ 0xFFFFFFFF = 0).
Proof. apply (digits_read_back 0xFFFFFFFF 10 false); [lia|by left]. Defined.

(** Between the tasks and the wire no character is lost, repeated or
    reordered: in every run of writes, reads and interrupts, what was sent
    followed by what is still buffered is what was written, and what was read
    followed by what is still buffered is what the receive buffer accepted. *)
Theorem usart_fifo es gots offs accs u :
  usart_run es usart_boot = Ok (gots, offs, accs, u) ->
  exists r t, usart_rep u r t /\ u_sent u ++ t = offs /\ gots ++ r = accs.
Proof.
  intros E. destruct (usart_run_ok es _ [] [] _ _ _ _ usart_boot_rep (Forall_nil_2 _) E)
    as (r & t & Hu & Es & Eg). by exists r, t.
Qed.

Definition demo_serial : list usart_event :=
  [ UPut 104; UPut 105; UIrq 0x80 0x20 97; UIrq 0x80 0x20 98; UGet; UIrq 0x80 0 0; UPut 33; UGet ].

Lemma usart_fifo_witness :
  exists u, usart_run demo_serial usart_boot = Ok ([97; 98], [104; 105; 33], [97; 98], u) /\
    exists r t, usart_rep u r t /\ u_sent u ++ t = [104; 105; 33] /\ [97; 98] ++ r = [97; 98].
Proof.
  eexists. split; [vm_compute; reflexivity|].
  apply (usart_fifo demo_serial). vm_compute. reflexivity.
Defined.

(** The two ways to read do not mix: [usart2_getc] takes a character without
    taking the unit the handler posted for it, so a later
    [usart2_getc_blocking] is let through with an empty buffer; it returns an
    old character and leaves the buffer apparently full. *)
Theorem usart_stale_read :
  exists u1 u2 u3, usart2_handler 0 0x20 97 usart_boot = Ok (true, u1) /\
    usart2_getc u1 = Ok (Some 97, u2) /\ ring_buffer_empty (u_rx u2) = true /\
    usart2_getc_blocking u2 = Ok (0, u3) /\ ring_buffer_full (u_rx u3) = true.
Proof. eexists _, _, _. split_and!; vm_compute; reflexivity. Qed.

(** A driver is attached to the console at most once, so a write reaches it
    once; attaching fails only when all sinks are taken, and then changes
    nothing. *)
Theorem console_attach_once {D} (c : console D) drv :
  drv <> NULL -> NoDup (filter (fun p => p <> NULL) (c_sinks c)) ->
  exists r c', console_attach drv c = Ok (r, c') /\
    NoDup (filter (fun p => p <> NULL) (c_sinks c')) /\
    (r = 0 -> drv ∈ c_sinks c') /\
    (r <> 0 -> (NULL ∉ c_sinks c) /\ c_sinks c' = c_sinks c).
Proof.
  intros Hd Hn. rewrite (console_attach_ok drv c Hd). eexists _, _. split; [done|].
  by apply attached_once.
Qed.

Definition demo_console : console unit :=
  Console ∅ (repeat NULL DRIVER_MAX) (repeat NULL CONSOLE_MAX_SINKS) tt 0.

Lemma console_attach_once_witness :
  exists r c', console_attach 0x08001000 demo_console = Ok (r, c') /\
    NoDup (filter (fun p => p <> NULL) (c_sinks c')) /\
    (r = 0 -> 0x08001000 ∈ c_sinks c') /\
    (r <> 0 -> (NULL ∉ c_sinks demo_console) /\ c_sinks c' = c_sinks demo_console).
Proof. apply console_attach_once; [done|]. apply NoDup_nil_2. Defined.

(** ** The shell *)

(** C31: The shell is the line editor of the reference: whatever is typed, it
    ends, the line is the list of the typed characters with the erased ones
    gone and at most 127 of them, the echo is that of the reference, and each
    finished line calls exactly the first command of its name or reports it as
    unknown.  The buffer never overflows. *)
Theorem cli_line_editor cs :
  Forall is_byte cs ->
  exists s', cli_loop cs cli_boot = Ok (tt, s') /\ holds_line s' (edits [] cs).1 /\
    cli_events s' = (edits [] cs).2.
Proof. intros Hb. apply (cli_loop_ok cs cli_boot [] cli_boot_line Hb). Qed.

Lemma cli_line_editor_witness :
  exists s', cli_loop (lit "hq" ++ [8] ++ lit "elp" ++ [13]) cli_boot = Ok (tt, s') /\ holds_line s' [] /\
    cli_events s' = [Write [104]; Write [113]; Printf [8; 32; 8] []; Write [101]; Write [108]; Write [112];
                     Printf [13; 10] []; Invoke cli_cmd_help; Printf (lit "> ") []].
Proof.
  apply (cli_line_editor (lit "hq" ++ [8] ++ lit "elp" ++ [13])).
  apply (bool_decide_unpack _). by vm_compute.
Defined.
