(* ===== verification/Dhcp.v ===== *)
(** * DHCP messages ([dhcp.c]: parsing and building)

    A message is a list of bytes in a buffer; reading or writing outside the
    buffer is a fault. *)
From S2P Require Import Prelude Utils.

Definition DHCP_DEFAULT_LENGTH : Z := 240.
Definition DHCP_OPTIONS_START : Z := 240.
Definition DHCP_SERVER_PORT : Z := 6767.
Definition DHCP_CLIENT_PORT : Z := 6868.
Definition BOOTREQUEST : Z := 1.
Definition BOOTREPLY : Z := 2.
Definition CID_CAP : Z := 16.
Definition LEASE_KEY_CAP : Z := 16.

(** Option codes and message types. *)
Definition DHCP_OPT_PAD : Z := 0.
Definition DHCP_OPT_SUBNET_MASK : Z := 1.
Definition DHCP_OPT_ROUTER : Z := 3.
Definition DHCP_OPT_DNS : Z := 6.
Definition DHCP_OPT_BROADCAST_ADDR : Z := 28.
Definition DHCP_OPT_REQUESTED_IP : Z := 50.
Definition DHCP_OPT_LEASE_TIME : Z := 51.
Definition DHCP_OPT_MESSAGE_TYPE : Z := 53.
Definition DHCP_OPT_SERVER_ID : Z := 54.
Definition DHCP_OPT_PARAMETER_REQUEST_LIST : Z := 55.
Definition DHCP_OPT_CLIENT_ID : Z := 61.
Definition DHCP_OPT_EXIT : Z := 255.
Definition DHCP_MSG_DISCOVER : Z := 1.
Definition DHCP_MSG_OFFER : Z := 2.
Definition DHCP_MSG_REQUEST : Z := 3.
Definition DHCP_MSG_DECLINE : Z := 4.
Definition DHCP_MSG_ACK : Z := 5.
Definition DHCP_MSG_RELEASE : Z := 7.

Inductive dhcp_status :=
| DHCP_OK | DHCP_ERR_NOT_DHCP | DHCP_ERR_PARSING | DHCP_ERR_ARG | DHCP_ERR_SHORT | DHCP_ERR_MALFORMED.
#[export] Instance dhcp_status_eq : EqDecision dhcp_status.
Proof. solve_decision. Defined.

(** The part of [dhcp_msg_t] that [parse_options] fills in. *)
Record dhcp_options : Type := DhcpOptions {
  o_requested_ip : bytes; (* 4 *)
  o_has_requested_ip : bool;
  o_message_type : Z;
  o_has_message_type : bool;
  o_server_id : bytes; (* 4 *)
  o_has_server_id : bool;
  o_client_id : bytes; (* CID_CAP *)
  o_client_id_len : Z;
  o_has_client_id : bool;
  o_requested_bitmap : bytes; (* 32 *)
}.

Record dhcp_msg : Type := DhcpMsg {
  m_op : Z;
  m_htype : Z;
  m_hlen : Z;
  m_hops : Z;
  m_xid : bytes; (* 4 *)
  m_secs : Z; (* uint16_t *)
  m_flags : Z; (* uint16_t *)
  m_broadcast_flag : bool;
  m_ciaddr : bytes; (* 4 *)
  m_yiaddr : bytes; (* 4 *)
  m_siaddr : bytes; (* 4 *)
  m_giaddr : bytes; (* 4 *)
  m_chaddr : bytes; (* 16 *)
  m_options : dhcp_options;
  m_lease_key : bytes; (* LEASE_KEY_CAP *)
  m_lease_key_length : Z;
}.

Record dhcp_cfg : Type := DhcpCfg {
  g_start_addr : bytes; g_end_addr : bytes;
  g_server_id : bytes;
  g_lease_time : Z; (* uint32_t *)
  g_subnet_mask : bytes; g_router : bytes; g_dns : bytes; g_broadcast_addr : bytes;
}.

(** ** Buffers *)

Definition getb (buf : bytes) (i : Z) : result Z :=
  match buf !! Z.to_nat i with Some b => Ok b | None => Trap Fault end.
(** [memcpy] of [n] bytes out of a buffer. *)
Definition slice (buf : bytes) (i n : Z) : result bytes :=
  if i + n <=? Z.of_nat (length buf)
  then Ok (take (Z.to_nat n) (drop (Z.to_nat i) buf)) else Trap Fault.
(** [memcpy] of [src] into a buffer at [i]. *)
Definition blit (buf : bytes) (i : Z) (src : bytes) : result bytes :=
  if i + Z.of_nat (length src) <=? Z.of_nat (length buf)
  then Ok (take (Z.to_nat i) buf ++ src ++ drop (Z.to_nat i + length src) buf) else Trap Fault.
Definition putb (buf : bytes) (i v : Z) : result bytes := blit buf i [u8 v].

(** ** Parsing *)

(** [requested_bitmap[tag >> 3] |= 1u << (tag & 7)] for the tags at [pos]. *)
Fixpoint mark_requested (n : nat) (buf : bytes) (pos : Z) (bitmap : bytes) : result bytes :=
  match n with
  | O => Ok bitmap
  | S n =>
      tag ← getb buf pos;
      mark_requested n buf (pos + 1)
        (alter (fun b => u8 (Z.lor b (Z.shiftl 1 (Z.land tag 7)))) (Z.to_nat (Z.shiftr tag 3)) bitmap)
  end.

(** The switch: one option of code [code] whose data is at [pos]. *)
Definition parse_option (buf : bytes) (code pos data_len : Z) (out : dhcp_options)
    : result (dhcp_status * dhcp_options) :=
  let '(DhcpOptions rip hrip ty hty sid hsid cid cidl hcid bm) := out in
  if code =? DHCP_OPT_REQUESTED_IP then
    if negb (data_len =? 4) then Ok (DHCP_ERR_MALFORMED, out)
    else d ← slice buf pos data_len; Ok (DHCP_OK, DhcpOptions d true ty hty sid hsid cid cidl hcid bm)
  else if code =? DHCP_OPT_MESSAGE_TYPE then
    if negb (data_len =? 1) then Ok (DHCP_ERR_MALFORMED, out)
    else b ← getb buf pos; Ok (DHCP_OK, DhcpOptions rip hrip b true sid hsid cid cidl hcid bm)
  else if code =? DHCP_OPT_SERVER_ID then
    if negb (data_len =? 4) then Ok (DHCP_ERR_MALFORMED, out)
    else d ← slice buf pos data_len; Ok (DHCP_OK, DhcpOptions rip hrip ty hty d true cid cidl hcid bm)
  else if code =? DHCP_OPT_PARAMETER_REQUEST_LIST then
    bm ← mark_requested (Z.to_nat data_len) buf pos bm;
    Ok (DHCP_OK, DhcpOptions rip hrip ty hty sid hsid cid cidl hcid bm)
  else if code =? DHCP_OPT_CLIENT_ID then
    if data_len >? CID_CAP then Ok (DHCP_ERR_MALFORMED, out)
    else
      d ← slice buf pos data_len;
      cid ← blit cid 0 d;
      Ok (DHCP_OK, DhcpOptions rip hrip ty hty sid hsid cid data_len true bm)
  else Ok (DHCP_OK, out).

(** Every turn moves on, so [len] turns are enough. *)
Fixpoint parse_loop (fuel : nat) (buf : bytes) (len pos : Z) (out : dhcp_options)
    : result (dhcp_status * dhcp_options) :=
  match fuel with
  | O => Trap Diverge
  | S fuel =>
      if pos + 1 <? len then
        curr_code ← getb buf pos;
        if curr_code =? DHCP_OPT_PAD then parse_loop fuel buf len (u16 (pos + 1)) out
        else if curr_code =? DHCP_OPT_EXIT then Ok (DHCP_OK, out)
        else
          let pos := u16 (pos + 1) in
          data_len ← getb buf pos;
          let pos := u16 (pos + 1) in
          if pos + data_len >? len then Ok (DHCP_ERR_PARSING, out)
          else
            '(st, out) ← parse_option buf curr_code pos data_len out;
            match st with
            | DHCP_OK => parse_loop fuel buf len (u16 (pos + data_len)) out
            | _ => Ok (st, out)
            end
      else Ok (DHCP_OK, out)
  end.

Definition clear_options (out : dhcp_options) : dhcp_options :=
  DhcpOptions (o_requested_ip out) false (o_message_type out) false (o_server_id out) false
    (o_client_id out) (o_client_id_len out) false (repeat 0 32).

Definition parse_options (buf : bytes) (len : Z) (out : dhcp_options)
    : result (dhcp_status * dhcp_options) :=
  parse_loop (S (Z.to_nat len)) buf len DHCP_OPTIONS_START (clear_options out).

(** The message [out] keeps what is not written. *)
Definition dhcp_parse (buf : bytes) (len : Z) (out : dhcp_msg) : result (dhcp_status * dhcp_msg) :=
  if len <? DHCP_DEFAULT_LENGTH then Ok (DHCP_ERR_SHORT, out)
  else
    b236 ← getb buf 236; b237 ← getb buf 237; b238 ← getb buf 238; b239 ← getb buf 239;
    if negb (b236 =? 0x63) || negb (b237 =? 0x82) || negb (b238 =? 0x53) || negb (b239 =? 0x63)
    then Ok (DHCP_ERR_NOT_DHCP, out)
    else
      b1 ← getb buf 1; b2 ← getb buf 2;
      if negb (b1 =? 1) || negb (b2 =? 6) then Ok (DHCP_ERR_MALFORMED, out)
      else
        op ← getb buf 0; hops ← getb buf 3;
        xid ← slice buf 4 4;
        b8 ← getb buf 8; b9 ← getb buf 9; b10 ← getb buf 10; b11 ← getb buf 11;
        ciaddr ← slice buf 12 4; yiaddr ← slice buf 16 4;
        siaddr ← slice buf 20 4; giaddr ← slice buf 24 4;
        chaddr ← slice buf 28 16;
        '(st, o) ← parse_options buf len (m_options out);
        let msg key keylen :=
          DhcpMsg op b1 b2 hops xid (u16 (Z.lor b9 (Z.shiftl b8 8))) (u16 (Z.lor b11 (Z.shiftl b10 8)))
            (negb (Z.land b10 0x80 =? 0)) ciaddr yiaddr siaddr giaddr chaddr o key keylen in
        match st with
        | DHCP_OK =>
            if o_has_client_id o then
              id ← slice (o_client_id o) 0 (o_client_id_len o);
              key ← blit (m_lease_key out) 0 id;
              Ok (DHCP_OK, msg key (o_client_id_len o))
            else
              id ← slice chaddr 0 b2;
              key ← blit (m_lease_key out) 0 id;
              Ok (DHCP_OK, msg key b2)
        | _ => Ok (st, msg (m_lease_key out) (m_lease_key_length out))
        end.

(** ** Building *)

Record option_t : Type := Option {
  p_type : Z; p_len : Z; p_val : Z; p_ptr : option bytes; p_include : bool;
}.

Definition options_size (options : list option_t) : Z :=
  foldl (fun acc o => if p_include o then u16 (acc + (1 + 1 + p_len o)) else acc) 0 options.

Fixpoint write_options (options : list option_t) (out : bytes) (pos : Z) : result (bytes * Z) :=
  match options with
  | [] => Ok (out, pos)
  | o :: options =>
      if negb (p_include o) then write_options options out pos
      else
        out ← putb out pos (p_type o);
        out ← putb out (pos + 1) (p_len o);
        match p_ptr o with
        | Some d =>
            d ← slice d 0 (p_len o);
            out ← blit out (pos + 2) d;
            write_options options out (u16 (pos + 2 + p_len o))
        | None =>
            out ← putb out (pos + 2) (p_val o);
            write_options options out (u16 (pos + 3))
        end
  end.

(** The status, the buffer and [*out_len]. *)
Definition embedd_options (out : bytes) (cap : Z) (options : list option_t) (out_len : Z)
    : result (dhcp_status * bytes * Z) :=
  if DHCP_OPTIONS_START + options_size options >? cap then Ok (DHCP_ERR_ARG, out, out_len)
  else
    '(out, curr_pos) ← write_options options out DHCP_OPTIONS_START;
    '(out, curr_pos) ←
      (if curr_pos <? 300 then
         out ← blit out curr_pos (repeat 0 (Z.to_nat (300 - curr_pos))); Ok (out, 299)
       else Ok (out, curr_pos));
    out ← putb out curr_pos 0xff;
    Ok (DHCP_OK, out, u16 (curr_pos + 1)).

Definition serialized_lease_time (t : Z) : bytes :=
  [u8 (Z.shiftr t 24); u8 (Z.shiftr t 16); u8 (Z.shiftr t 8); u8 t].

Definition reply_options (req : dhcp_msg) (type : Z) (cfg : dhcp_cfg) : list option_t :=
  [ Option DHCP_OPT_MESSAGE_TYPE 1 type None true;
    Option DHCP_OPT_SERVER_ID 4 0 (Some (g_server_id cfg)) true;
    Option DHCP_OPT_LEASE_TIME 4 0 (Some (serialized_lease_time (g_lease_time cfg))) true;
    Option DHCP_OPT_SUBNET_MASK 4 0 (Some (g_subnet_mask cfg)) true;
    Option DHCP_OPT_ROUTER 4 0 (Some (g_router cfg)) true;
    Option DHCP_OPT_DNS 4 0 (Some (g_dns cfg)) true;
    Option DHCP_OPT_BROADCAST_ADDR 4 0 (Some (g_broadcast_addr cfg)) true;
    Option DHCP_OPT_CLIENT_ID (o_client_id_len (m_options req)) 0 (Some (o_client_id (m_options req)))
      (o_has_client_id (m_options req)) ].

Definition dhcp_build_reply (req_raw : bytes) (req : dhcp_msg) (type : Z) (cfg : dhcp_cfg)
    (yiaddr : bytes) (out : bytes) (cap : Z) : result (dhcp_status * bytes * Z) :=
  if cap <? 300 then Ok (DHCP_ERR_ARG, out, 0)
  else
    out ← blit out 0 (repeat 0 (Z.to_nat cap));
    raw ← slice req_raw 0 236;
    out ← blit out 0 raw;
    out ← putb out 0 BOOTREPLY;
    out ← putb out 3 0;
    out ← putb out 8 0; out ← putb out 9 0;
    y ← slice yiaddr 0 4;
    out ← blit out 16 y;
    out ← blit out 236 [0x63; 0x82; 0x53; 0x63];
    '(st, out, n) ← embedd_options out cap (reply_options req type cfg) 0;
    match st with
    | DHCP_OK => Ok (DHCP_OK, out, n)
    | _ => Ok (st, out, 0)
    end.

(** ** Where a reply goes *)

Record dhcp_dest : Type := DhcpDest {
  d_ip : bytes; d_port : Z; d_use_mac : bool;
  d_mac : option bytes; (* None: not written *)
}.

Definition is_zero_addr (a : bytes) : bool := bool_decide (take 4 a = [0; 0; 0; 0]).

Definition dhcp_chose_destination (req : dhcp_msg) (yiaddr : bytes) : dhcp_dest :=
  if negb (is_zero_addr (m_giaddr req)) then DhcpDest (m_giaddr req) DHCP_SERVER_PORT false None
  else if negb (is_zero_addr (m_ciaddr req)) then DhcpDest (m_ciaddr req) DHCP_CLIENT_PORT false None
  else if m_broadcast_flag req then DhcpDest [255; 255; 255; 255] DHCP_CLIENT_PORT false None
  else DhcpDest yiaddr DHCP_CLIENT_PORT true (Some (take 6 (m_chaddr req))).
