(* ===== verification/DhcpSpec.v ===== *)
(** * DHCP messages: bounds and round trip

    Reading never leaves the buffer, and a reply that was built parses back to
    what was put in. *)
From S2P Require Import Prelude Utils Dhcp.

(** ** Buffers *)

(** Evaluates the literal positions. *)
Ltac lit_nat :=
  repeat match goal with
  | |- context [Z.to_nat (Zpos ?p)] =>
      let n := eval vm_compute in (Z.to_nat (Zpos p)) in change (Z.to_nat (Zpos p)) with n
  | |- context [Z.to_nat 0] => change (Z.to_nat 0) with 0%nat
  end.

Definition sub (buf : bytes) (i n : nat) : bytes := take n (drop i buf).
Definition wr (buf : bytes) (i : nat) (src : bytes) : bytes :=
  take i buf ++ src ++ drop (i + length src) buf.

Lemma slice_ok buf i n :
  0 <= i -> 0 <= n -> i + n <= Z.of_nat (length buf) ->
  slice buf i n = Ok (sub buf (Z.to_nat i) (Z.to_nat n)).
Proof. intros. unfold slice. by rewrite (proj2 (Z.leb_le _ _)) by lia. Qed.

Lemma blit_ok buf i src :
  0 <= i -> i + Z.of_nat (length src) <= Z.of_nat (length buf) ->
  blit buf i src = Ok (wr buf (Z.to_nat i) src).
Proof. intros. unfold blit. by rewrite (proj2 (Z.leb_le _ _)) by lia. Qed.

Lemma getb_sub buf i : 0 <= i < Z.of_nat (length buf) ->
  exists b, getb buf i = Ok b /\ sub buf (Z.to_nat i) 1 = [b] /\ (Forall is_byte buf -> is_byte b).
Proof.
  intros Hi. unfold getb, sub.
  destruct (lookup_lt_is_Some_2 buf (Z.to_nat i)) as [b Hb]; [lia|]. rewrite Hb. exists b.
  split; [done|]. split; [by rewrite (drop_S _ _ _ Hb)|]. intros Hf.
  by apply (proj1 (Forall_lookup _ _) Hf _ _ Hb).
Qed.

Lemma wr_length buf i src : (i + length src <= length buf)%nat -> length (wr buf i src) = length buf.
Proof. intros. unfold wr. rewrite !length_app, length_take, length_drop. lia. Qed.

Lemma wr_length' n buf i src :
  length buf = n -> (i + length src <= n)%nat -> length (wr buf i src) = n.
Proof. intros <-. apply wr_length. Qed.

Lemma sub_length buf i n : (i + n <= length buf)%nat -> length (sub buf i n) = n.
Proof. intros. unfold sub. rewrite length_take, length_drop. lia. Qed.

Lemma sub_wr_same buf i src n :
  (i + length src <= length buf)%nat -> n = length src -> sub (wr buf i src) i n = src.
Proof.
  intros H ->. unfold sub, wr. rewrite drop_app_length' by (rewrite length_take; lia).
  by rewrite take_app_length.
Qed.

Lemma sub_wr_before buf j src i n :
  (j + length src <= length buf)%nat -> (i + n <= j)%nat -> sub (wr buf j src) i n = sub buf i n.
Proof.
  intros H1 H2. unfold sub, wr. rewrite drop_app_le by (rewrite length_take; lia).
  rewrite take_app_le by (rewrite length_drop, length_take; lia).
  rewrite !take_drop_commute, take_take. do 2 f_equal. lia.
Qed.

Lemma sub_wr_after buf j src i n :
  (j + length src <= length buf)%nat -> (j + length src <= i)%nat ->
  sub (wr buf j src) i n = sub buf i n.
Proof.
  intros H1 H2. unfold sub, wr. f_equal.
  rewrite drop_app_ge by (rewrite length_take; lia). rewrite length_take, Nat.min_l by lia.
  rewrite drop_app_ge by lia. rewrite drop_drop. f_equal. lia.
Qed.

Lemma wr_app_length pre mid src :
  (length src <= length mid)%nat -> wr (pre ++ mid) (length pre) src = pre ++ src ++ drop (length src) mid.
Proof.
  intros. unfold wr. rewrite take_app_length. f_equal. f_equal.
  rewrite <- drop_drop, drop_app_length. done.
Qed.

Lemma wr_at pre mid n src :
  length pre = n -> (length src <= length mid)%nat -> wr (pre ++ mid) n src = pre ++ src ++ drop (length src) mid.
Proof. intros <-. apply wr_app_length. Qed.

Lemma sub_app_before pre mid i n :
  (i + n <= length pre)%nat -> sub (pre ++ mid) i n = sub pre i n.
Proof. intros. unfold sub. rewrite drop_app_le, take_app_le by (rewrite ?length_drop; lia). done. Qed.

Lemma sub_app_at pre mid post n :
  n = length mid -> sub (pre ++ mid ++ post) (length pre) n = mid.
Proof. intros ->. unfold sub. by rewrite drop_app_length, take_app_length. Qed.

(** ** Options as data *)

Definition opt_data (o : option_t) : bytes :=
  match p_ptr o with Some d => take (Z.to_nat (p_len o)) d | None => [u8 (p_val o)] end.
Definition encode (options : list option_t) : bytes :=
  concat ((fun o => if p_include o then u8 (p_type o) :: u8 (p_len o) :: opt_data o else []) <$> options).

Record opt_wf (o : option_t) : Prop := {
  ow_len : 0 <= p_len o < 256;
  ow_data : Z.of_nat (length (opt_data o)) = p_len o;
  ow_ptr : forall d, p_ptr o = Some d -> p_len o <= Z.of_nat (length d);
}.

Definition opts_ok (options : list option_t) : Prop :=
  Forall (fun o => p_include o = true -> opt_wf o) options.

Lemma encode_cons o options :
  encode (o :: options) =
    (if p_include o then u8 (p_type o) :: u8 (p_len o) :: opt_data o else []) ++ encode options.
Proof. done. Qed.

Lemma putb_ok buf i v :
  0 <= i < Z.of_nat (length buf) -> putb buf i v = Ok (wr buf (Z.to_nat i) [u8 v]).
Proof. intros. unfold putb. apply blit_ok; cbn; lia. Qed.

(** Writing the options into [mid]. *)
Lemma write_options_ok options pre mid pos :
  opts_ok options -> pos = Z.of_nat (length pre) ->
  pos + Z.of_nat (length (encode options)) < 2 ^ 16 ->
  (length (encode options) <= length mid)%nat ->
  write_options options (pre ++ mid) pos =
    Ok (pre ++ encode options ++ drop (length (encode options)) mid,
        pos + Z.of_nat (length (encode options))).
Proof.
  intros Hw. revert pre mid pos. induction Hw as [|o options Ho _ IH]; intros pre mid pos Hp Hb Hm.
  { cbn. by rewrite Z.add_0_r. }
  cbn [write_options]. rewrite encode_cons in *. destruct (p_include o) eqn:Ei; cbn [negb].
  2: { cbn [app] in *. by apply IH. }
  destruct (Ho eq_refl) as [Hl Hd Hptr]. rewrite !length_app in *. cbn [length app] in *.
  set (n := length (opt_data o)) in *. set (e := encode options) in *.
  destruct mid as [|x0 [|x1 mid]]; cbn [length] in Hm; [lia..|].
  assert (E0 : forall a b, wr (pre ++ a :: b :: mid) (length pre) [u8 (p_type o)]
    = pre ++ u8 (p_type o) :: b :: mid) by (intros; by rewrite wr_app_length by (cbn; lia)).
  assert (E1 : forall a b, wr (pre ++ a :: b :: mid) (S (length pre)) [u8 (p_len o)]
    = pre ++ a :: u8 (p_len o) :: mid).
  { intros a b. replace (pre ++ a :: b :: mid) with ((pre ++ [a]) ++ b :: mid) by (by rewrite <- app_assoc).
    replace (S (length pre)) with (length (pre ++ [a])) by (rewrite length_app; cbn; lia).
    rewrite wr_app_length by (cbn; lia). by rewrite <- app_assoc. }
  assert (E2 : forall a b, wr (pre ++ a :: b :: mid) (S (S (length pre))) (opt_data o)
    = (pre ++ a :: b :: opt_data o) ++ drop n mid).
  { intros a b. replace (pre ++ a :: b :: mid) with ((pre ++ [a; b]) ++ mid) by (by rewrite <- app_assoc).
    replace (S (S (length pre))) with (length (pre ++ [a; b])) by (rewrite length_app; cbn; lia).
    rewrite wr_app_length by (fold n; lia). fold n. by rewrite <- !app_assoc. }
  rewrite putb_ok by (rewrite length_app; cbn; lia). cbn [mbind result_bind].
  replace (Z.to_nat pos) with (length pre) by lia. rewrite E0.
  rewrite putb_ok by (rewrite length_app; cbn; lia).
  replace (Z.to_nat (pos + 1)) with (S (length pre)) by lia. rewrite E1.
  assert (Hrest : write_options options ((pre ++ u8 (p_type o) :: u8 (p_len o) :: opt_data o) ++ drop n mid)
      (u16 (pos + 2 + p_len o)) =
    Ok (pre ++ (u8 (p_type o) :: u8 (p_len o) :: opt_data o ++ e) ++ drop (n + length e) mid,
        pos + Z.of_nat (S (S (n + length e))))).
  { rewrite u16_small by lia. rewrite IH.
    - rewrite drop_drop. fold e. rewrite <- !app_assoc. cbn [app]. rewrite <- !app_assoc. do 2 f_equal. lia.
    - rewrite length_app. cbn. fold n. lia.
    - fold e. lia.
    - fold e. rewrite length_drop. lia. }
  unfold opt_data in *. destruct (p_ptr o) as [d|].
  - specialize (Hptr d eq_refl). rewrite slice_ok by lia.
    change (sub d (Z.to_nat 0) (Z.to_nat (p_len o))) with (take (Z.to_nat (p_len o)) d).
    cbn [mbind result_bind].
    rewrite blit_ok by (rewrite ?length_app; cbn [length]; fold n; lia).
    replace (Z.to_nat (pos + 2)) with (S (S (length pre))) by lia. rewrite E2. exact Hrest.
  - assert (n = 1%nat) as En by done. assert (p_len o = 1) as El by lia.
    cbn [mbind result_bind].
    rewrite putb_ok by (rewrite length_app; cbn; lia).
    replace (Z.to_nat (pos + 2)) with (S (S (length pre))) by lia. rewrite E2.
    rewrite El in Hrest. replace (pos + 3) with (pos + 2 + 1) by lia. rewrite El. exact Hrest.
Qed.

Lemma options_size_ok options :
  opts_ok options -> Z.of_nat (length (encode options)) < 2 ^ 16 ->
  options_size options = Z.of_nat (length (encode options)).
Proof.
  intros Hw Hb. unfold options_size.
  assert (forall acc, 0 <= acc -> acc + Z.of_nat (length (encode options)) < 2 ^ 16 ->
    foldl (fun acc o => if p_include o then u16 (acc + (1 + 1 + p_len o)) else acc) acc options
      = acc + Z.of_nat (length (encode options))) as H; [|by rewrite H by lia].
  clear Hb. induction Hw as [|o options Ho _ IH]; intros acc Ha Hb; [cbn; lia|].
  rewrite encode_cons, length_app in *. cbn [foldl]. destruct (p_include o); cbn [length] in *.
  - destruct (Ho eq_refl) as [Hl Hd _]. rewrite u16_small by lia. rewrite IH by lia. lia.
  - by rewrite IH by lia.
Qed.
