(* ===== verification/DhcpParse.v ===== *)
(** * DHCP parsing: the reference grammar

    The option field as a grammar of type-length-value triples, and the proof
    that [parse_options] is its parser: it never leaves the datagram, always
    ends, and gives the result of the grammar. *)
From S2P Require Import Prelude Utils Dhcp DhcpSpec.

(** ** The grammar *)

(** The lengths of the arrays of the message. *)
Record opts_wf (o : dhcp_options) : Prop := {
  of_ip : length (o_requested_ip o) = 4%nat;
  of_sid : length (o_server_id o) = 4%nat;
  of_cid : length (o_client_id o) = 16%nat;
  of_len : o_has_client_id o = true -> 0 <= o_client_id_len o <= 16;
  of_map : length (o_requested_bitmap o) = 32%nat;
}.

Definition mark_tag (bm : bytes) (tag : Z) : bytes :=
  alter (fun b => u8 (Z.lor b (Z.shiftl 1 (Z.land tag 7)))) (Z.to_nat (Z.shiftr tag 3)) bm.

(** What the option with this code and data does to the message. *)
Definition absorb (code : Z) (d : bytes) (o : dhcp_options) : dhcp_status * dhcp_options :=
  let '(DhcpOptions rip hrip ty hty sid hsid cid cidl hcid bm) := o in
  if code =? DHCP_OPT_REQUESTED_IP then
    if (length d =? 4)%nat then (DHCP_OK, DhcpOptions d true ty hty sid hsid cid cidl hcid bm)
    else (DHCP_ERR_MALFORMED, o)
  else if code =? DHCP_OPT_MESSAGE_TYPE then
    match d with
    | [b] => (DHCP_OK, DhcpOptions rip hrip b true sid hsid cid cidl hcid bm)
    | _ => (DHCP_ERR_MALFORMED, o)
    end
  else if code =? DHCP_OPT_SERVER_ID then
    if (length d =? 4)%nat then (DHCP_OK, DhcpOptions rip hrip ty hty d true cid cidl hcid bm)
    else (DHCP_ERR_MALFORMED, o)
  else if code =? DHCP_OPT_PARAMETER_REQUEST_LIST then
    (DHCP_OK, DhcpOptions rip hrip ty hty sid hsid cid cidl hcid (foldl mark_tag bm d))
  else if code =? DHCP_OPT_CLIENT_ID then
    if Z.of_nat (length d) >? CID_CAP then (DHCP_ERR_MALFORMED, o)
    else (DHCP_OK, DhcpOptions rip hrip ty hty sid hsid (d ++ drop (length d) cid) (Z.of_nat (length d)) true bm)
  else (DHCP_OK, o).

(** [Tlv l o st o']: reading the option field [l] into [o] ends with [st] and
    [o'].  The last byte of the field is never read as a code. *)
Inductive Tlv : bytes -> dhcp_options -> dhcp_status -> dhcp_options -> Prop :=
| tlv_end l o : (length l <= 1)%nat -> Tlv l o DHCP_OK o
| tlv_pad x l o st o' : Tlv (x :: l) o st o' -> Tlv (DHCP_OPT_PAD :: x :: l) o st o'
| tlv_exit x l o : Tlv (DHCP_OPT_EXIT :: x :: l) o DHCP_OK o
| tlv_overrun c n l o : c <> DHCP_OPT_PAD -> c <> DHCP_OPT_EXIT ->
    Z.of_nat (length l) < n -> Tlv (c :: n :: l) o DHCP_ERR_PARSING o
| tlv_bad c d l o st o' : c <> DHCP_OPT_PAD -> c <> DHCP_OPT_EXIT ->
    absorb c d o = (st, o') -> st <> DHCP_OK -> Tlv (c :: Z.of_nat (length d) :: d ++ l) o st o'
| tlv_opt c d l o o1 st o' : c <> DHCP_OPT_PAD -> c <> DHCP_OPT_EXIT ->
    absorb c d o = (DHCP_OK, o1) -> Tlv l o1 st o' -> Tlv (c :: Z.of_nat (length d) :: d ++ l) o st o'.

Lemma mark_tags_length d bm : length (foldl mark_tag bm d) = length bm.
Proof. revert bm. induction d as [|t d IH]; intros bm; [done|]. cbn. rewrite IH. apply length_alter. Qed.

Lemma absorb_wf c d o st o' : opts_wf o -> absorb c d o = (st, o') -> opts_wf o'.
Proof.
  intros [H1 H2 H3 H4 H5] E. destruct o as [rip hrip ty hty sid hsid cid cidl hcid bm]. cbn in H1, H2, H3, H4, H5.
  unfold absorb in E.
  repeat match type of E with
  | (if (length _ =? _)%nat then _ else _) = _ => destruct (Nat.eqb_spec (length d) 4)
  | (if _ >? _ then _ else _) = _ => destruct (Z.gtb_spec (Z.of_nat (length d)) CID_CAP)
  | (if ?b then _ else _) = _ => destruct b
  | match ?l with [] => _ | _ => _ end = _ => destruct l as [|? [|]]
  end; apply (inj2 pair) in E as [<- <-]; constructor;
    cbn [o_requested_ip o_server_id o_client_id o_client_id_len o_has_client_id o_requested_bitmap];
    rewrite ?mark_tags_length, ?length_app, ?length_drop; unfold CID_CAP in *; (done || lia).
Qed.

Lemma Tlv_wf l o st o' : Tlv l o st o' -> opts_wf o -> opts_wf o'.
Proof. induction 1; intros Hw; eauto using absorb_wf. Qed.

(** The grammar gives every field a result. *)
Lemma Tlv_total l o : Forall is_byte l -> exists st o', Tlv l o st o'.
Proof.
  revert o. induction l as [l IH] using (induction_ltof1 _ (@length Z)); unfold ltof in IH. intros o Hb.
  destruct l as [|c [|n l]]; [by eexists _, _; apply tlv_end; cbn; lia..|].
  apply Forall_cons in Hb as [Hc Hb]. destruct (decide (c = DHCP_OPT_PAD)) as [->|Hp].
  { destruct (IH (n :: l) ltac:(cbn; lia) o Hb) as (st & o' & H). eexists _, _. by apply tlv_pad. }
  destruct (decide (c = DHCP_OPT_EXIT)) as [->|He]; [eexists _, _; by apply tlv_exit|].
  apply Forall_cons in Hb as [Hn Hb]. unfold is_byte in Hn.
  destruct (decide (Z.of_nat (length l) < n)); [eexists _, _; by apply tlv_overrun|].
  assert (exists d r, l = d ++ r /\ n = Z.of_nat (length d)) as (d & r & -> & ->).
  { exists (take (Z.to_nat n) l), (drop (Z.to_nat n) l). rewrite take_drop, length_take. split; [done|lia]. }
  apply Forall_app in Hb as [_ Hb].
  destruct (absorb c d o) as [st o1] eqn:Ea.
  destruct (decide (st = DHCP_OK)) as [->|Hst]; [|eexists _, _; by apply (tlv_bad c d _ _ _ _ Hp He Ea)].
  destruct (IH r ltac:(cbn [length]; rewrite length_app; lia) o1 Hb) as (st & o' & H).
  eexists _, _. by apply (tlv_opt c d _ _ _ _ _ Hp He Ea).
Qed.

(** ** The parser *)

Lemma getb_app pre b post : getb (pre ++ b :: post) (Z.of_nat (length pre)) = Ok b.
Proof. unfold getb. by rewrite Nat2Z.id, list_lookup_middle. Qed.

Lemma slice_app pre d post n : n = Z.of_nat (length d) ->
  slice (pre ++ d ++ post) (Z.of_nat (length pre)) n = Ok d.
Proof.
  intros ->. rewrite slice_ok by (rewrite ?length_app; lia). rewrite !Nat2Z.id.
  by rewrite sub_app_at.
Qed.

Lemma mark_requested_ok d pre post bm :
  mark_requested (length d) (pre ++ d ++ post) (Z.of_nat (length pre)) bm = Ok (foldl mark_tag bm d).
Proof.
  revert pre bm. induction d as [|t d IH]; intros pre bm; [done|]. cbn [length mark_requested app foldl].
  rewrite getb_app. cbn [mbind result_bind].
  replace (pre ++ t :: d ++ post) with ((pre ++ [t]) ++ d ++ post) by (by rewrite <- app_assoc).
  replace (Z.of_nat (length pre) + 1) with (Z.of_nat (length (pre ++ [t])))
    by (rewrite length_app; cbn; lia). apply IH.
Qed.

Lemma parse_option_ok c d pre post o :
  opts_wf o ->
  parse_option (pre ++ d ++ post) c (Z.of_nat (length pre)) (Z.of_nat (length d)) o = Ok (absorb c d o).
Proof.
  intros [H1 H2 H3 H4 H5]. destruct o as [rip hrip ty hty sid hsid cid cidl hcid bm]. cbn in *.
  unfold parse_option, absorb.
  assert (forall n : nat, (Z.of_nat (length d) =? Z.of_nat n) = (length d =? n)%nat) as Hl.
  { intros n. destruct (Nat.eqb_spec (length d) n), (Z.eqb_spec (Z.of_nat (length d)) (Z.of_nat n)); lia. }
  change 4 with (Z.of_nat 4). change 1 with (Z.of_nat 1). rewrite !Hl, slice_app by done.
  destruct (c =? _); [by destruct (length d =? 4)%nat|].
  destruct (c =? _).
  { destruct d as [|b [|b' d]]; [done| |done]. cbn [length app]. rewrite getb_app. done. }
  destruct (c =? _); [by destruct (length d =? 4)%nat|].
  destruct (c =? _). { rewrite Nat2Z.id, mark_requested_ok. done. }
  destruct (c =? _); [|done]. destruct (Z.gtb_spec (Z.of_nat (length d)) CID_CAP); [done|].
  cbn [mbind result_bind]. rewrite blit_ok by (unfold CID_CAP in *; lia). reflexivity.
Qed.

Lemma u16_step n k : Z.of_nat n + Z.of_nat k < 2 ^ 16 -> u16 (Z.of_nat n + Z.of_nat k) = Z.of_nat (n + k).
Proof. intros. rewrite u16_small; lia. Qed.

(** One turn at an option whose data fits. *)
Lemma parse_loop_step c d pre rest len o fuel :
  c <> DHCP_OPT_PAD -> c <> DHCP_OPT_EXIT -> opts_wf o ->
  Z.of_nat (length pre + 2 + length d) <= len < 2 ^ 16 ->
  parse_loop (S fuel) (pre ++ c :: Z.of_nat (length d) :: d ++ rest) len (Z.of_nat (length pre)) o =
    match absorb c d o with
    | (DHCP_OK, o1) =>
        parse_loop fuel (pre ++ c :: Z.of_nat (length d) :: d ++ rest) len
          (Z.of_nat (length pre + 2 + length d)) o1
    | (st, o1) => Ok (st, o1)
    end.
Proof.
  intros Hp He Hw Hl. cbn [parse_loop]. rewrite (proj2 (Z.ltb_lt _ _)), getb_app by lia.
  cbn [mbind result_bind]. rewrite (proj2 (Z.eqb_neq _ _) Hp), (proj2 (Z.eqb_neq _ _) He).
  rewrite (u16_step _ 1) by lia.
  assert (forall x y, pre ++ c :: x :: y = (pre ++ [c]) ++ x :: y) as E1 by (intros; by rewrite <- app_assoc).
  assert (forall x y, pre ++ c :: x :: y = (pre ++ [c; x]) ++ y) as E2 by (intros; by rewrite <- app_assoc).
  rewrite E1 at 1. replace (length pre + 1)%nat with (length (pre ++ [c])) by (rewrite length_app; cbn; lia).
  rewrite getb_app. cbn [mbind result_bind]. rewrite length_app. cbn [length].
  rewrite (u16_step _ 1) by lia. rewrite Z.gtb_ltb, (proj2 (Z.ltb_ge _ _)) by lia.
  rewrite E2 at 1.
  replace (length pre + 1 + 1)%nat with (length (pre ++ [c; Z.of_nat (length d)]))
    by (rewrite length_app; cbn; lia).
  rewrite parse_option_ok by done. cbn [mbind result_bind]. rewrite length_app. cbn [length].
  rewrite u16_step by lia. by destruct (absorb c d o) as [[] o1].
Qed.

Lemma parse_loop_Tlv l o st o' : Tlv l o st o' ->
  forall pre post fuel, opts_wf o -> (length l < fuel)%nat ->
  Z.of_nat (length pre + length l) < 2 ^ 16 ->
  parse_loop fuel (pre ++ l ++ post) (Z.of_nat (length pre + length l)) (Z.of_nat (length pre)) o
    = Ok (st, o').
Proof.
  induction 1 as [l o Hl|x l o st o' _ IH|x l o|c n l o Hp He Hn|c d l o st o' Hp He Ea Hs
    |c d l o o1 st o' Hp He Ea _ IH];
    intros pre post fuel Hw Hf Hlen; (destruct fuel as [|fuel]; [lia|]).
  - cbn [parse_loop]. by rewrite (proj2 (Z.ltb_ge _ _)) by lia.
  - cbn [parse_loop app]. cbn [length] in *. rewrite (proj2 (Z.ltb_lt _ _)), getb_app by lia.
    cbn [mbind result_bind]. rewrite (u16_step _ 1) by lia.
    specialize (IH (pre ++ [DHCP_OPT_PAD]) post fuel Hw ltac:(lia)).
    rewrite length_app, <- app_assoc in IH. cbn [length app] in IH.
    replace (length pre + S (S (length l)))%nat with (length pre + 1 + S (length l))%nat by lia.
    apply IH. lia.
  - cbn [parse_loop app]. cbn [length] in *. rewrite (proj2 (Z.ltb_lt _ _)) by lia. by rewrite getb_app.
  - cbn [parse_loop app]. cbn [length] in *. rewrite (proj2 (Z.ltb_lt _ _)), getb_app by lia.
    cbn [mbind result_bind]. rewrite (proj2 (Z.eqb_neq _ _) Hp), (proj2 (Z.eqb_neq _ _) He).
    rewrite (u16_step _ 1) by lia.
    replace (getb _ (Z.of_nat (length pre + 1))) with (Ok n).
    2: { pose proof (getb_app (pre ++ [c]) n (l ++ post)) as E. rewrite length_app, <- app_assoc in E.
         cbn [length app] in E. by rewrite E. }
    cbn [mbind result_bind]. rewrite (u16_step _ 1) by lia.
    by rewrite Z.gtb_ltb, (proj2 (Z.ltb_lt _ _)) by lia.
  - cbn [app]. rewrite <- app_assoc. cbn [length] in *. rewrite length_app in *.
    rewrite parse_loop_step by (done || lia). rewrite Ea. by destruct st.
  - cbn [app]. rewrite <- app_assoc. cbn [length] in *. rewrite length_app in *.
    rewrite parse_loop_step by (done || lia). rewrite Ea.
    specialize (IH (pre ++ c :: Z.of_nat (length d) :: d) post fuel (absorb_wf _ _ _ _ _ Hw Ea) ltac:(lia)).
    rewrite length_app, <- app_assoc in IH. cbn [length app] in IH.
    replace (length pre + S (S (length d)) + length l)%nat
      with (length pre + S (S (length d + length l)))%nat in IH by lia.
    replace (length pre + 2 + length d)%nat with (length pre + S (S (length d)))%nat by lia.
    apply IH. lia.
Qed.

Lemma clear_options_wf o : opts_wf o -> opts_wf (clear_options o).
Proof. intros [H1 H2 H3 H4 H5]. by constructor. Qed.

(** The option field of a datagram of [len] bytes. *)
Lemma parse_options_Tlv buf len o st o' :
  240 <= len <= Z.of_nat (length buf) -> len < 2 ^ 16 -> opts_wf o ->
  Tlv (sub buf 240 (Z.to_nat len - 240)) (clear_options o) st o' ->
  parse_options buf len o = Ok (st, o').
Proof.
  intros Hl Hb Hw Ht. pose proof (sub_length buf 240 (Z.to_nat len - 240) ltac:(lia)) as Hs.
  unfold parse_options, DHCP_OPTIONS_START.
  pose proof (parse_loop_Tlv _ _ _ _ Ht (take 240 buf) (drop (Z.to_nat len) buf) (S (Z.to_nat len))
    (clear_options_wf _ Hw)) as E.
  rewrite Hs, length_take, Nat.min_l in E by lia. unfold sub in E.
  replace (drop (Z.to_nat len) buf) with (drop (Z.to_nat len - 240) (drop 240 buf)) in E
    by (rewrite drop_drop; f_equal; lia).
  rewrite !take_drop in E. replace (Z.of_nat (240 + (Z.to_nat len - 240))) with len in E by lia.
  apply E; lia.
Qed.

(** ** The message *)

Definition at_ (buf : bytes) (i : nat) : Z := default 0 (buf !! i).

Lemma getb_at buf i : 0 <= i < Z.of_nat (length buf) -> getb buf i = Ok (at_ buf (Z.to_nat i)).
Proof.
  intros Hi. unfold getb, at_. by destruct (lookup_lt_is_Some_2 buf (Z.to_nat i)) as [b ->]; [lia|].
Qed.

(** The message of a datagram with these options, before the lease key. *)
Definition parsed (buf : bytes) (o : dhcp_options) (key : bytes) (key_len : Z) : dhcp_msg :=
  DhcpMsg (at_ buf 0) (at_ buf 1) (at_ buf 2) (at_ buf 3) (sub buf 4 4)
    (u16 (Z.lor (at_ buf 9) (Z.shiftl (at_ buf 8) 8))) (u16 (Z.lor (at_ buf 11) (Z.shiftl (at_ buf 10) 8)))
    (negb (Z.land (at_ buf 10) 0x80 =? 0))
    (sub buf 12 4) (sub buf 16 4) (sub buf 20 4) (sub buf 24 4) (sub buf 28 16) o key key_len.

(** The lease key: the client identifier, or else the hardware address. *)
Definition key_source (buf : bytes) (o : dhcp_options) : bytes :=
  if o_has_client_id o then take (Z.to_nat (o_client_id_len o)) (o_client_id o) else sub buf 28 6.

Definition accepted_header (buf : bytes) : bool :=
  (at_ buf 236 =? 0x63) && (at_ buf 237 =? 0x82) && (at_ buf 238 =? 0x53) && (at_ buf 239 =? 0x63).
Definition ethernet_header (buf : bytes) : bool := (at_ buf 1 =? 1) && (at_ buf 2 =? 6).

Record msg_wf (m : dhcp_msg) : Prop := {
  mf_options : opts_wf (m_options m);
  mf_key : length (m_lease_key m) = 16%nat;
}.

Lemma key_source_length buf o : opts_wf o -> (44 <= length buf)%nat ->
  (length (key_source buf o) <= 16)%nat /\
  Z.of_nat (length (key_source buf o)) = if o_has_client_id o then o_client_id_len o else 6.
Proof.
  intros Hw Hb. unfold key_source. destruct (o_has_client_id o) eqn:E.
  - pose proof (of_len _ Hw E). rewrite length_take, (of_cid _ Hw). lia.
  - rewrite sub_length; lia.
Qed.

Lemma dhcp_parse_ok buf len out st o :
  240 <= len <= Z.of_nat (length buf) -> len < 2 ^ 16 -> msg_wf out ->
  Tlv (sub buf 240 (Z.to_nat len - 240)) (clear_options (m_options out)) st o ->
  dhcp_parse buf len out =
    Ok (if negb (accepted_header buf) then (DHCP_ERR_NOT_DHCP, out)
        else if negb (ethernet_header buf) then (DHCP_ERR_MALFORMED, out)
        else if bool_decide (st = DHCP_OK) then
          (DHCP_OK, parsed buf o (wr (m_lease_key out) 0 (key_source buf o))
             (Z.of_nat (length (key_source buf o))))
        else (st, parsed buf o (m_lease_key out) (m_lease_key_length out))).
Proof.
  intros Hl Hb [Hw Hk] Ht. pose proof (Tlv_wf _ _ _ _ Ht (clear_options_wf _ Hw)) as Hw'.
  pose proof (key_source_length buf o Hw' ltac:(lia)) as [Hkl Hkn].
  unfold dhcp_parse, DHCP_DEFAULT_LENGTH, accepted_header, ethernet_header.
  rewrite (proj2 (Z.ltb_ge _ _)) by lia. rewrite !getb_at by lia. cbn [mbind result_bind].
  lit_nat. rewrite !negb_andb. destruct (_ || _ || _ || _); [done|].
  destruct (Z.eqb_spec (at_ buf 1) 1); [|done]. destruct (Z.eqb_spec (at_ buf 2) 6) as [E6|]; [|done].
  cbn [negb orb]. rewrite !slice_ok by lia. cbn [mbind result_bind]. lit_nat.
  rewrite (parse_options_Tlv buf len _ _ _ Hl Hb Hw Ht). cbn [mbind result_bind].
  destruct (bool_decide_reflect (st = DHCP_OK)) as [->|Hst]; [|by destruct st].
  unfold key_source in *. destruct (o_has_client_id o) eqn:Eh.
  - pose proof (of_len _ Hw' Eh). rewrite slice_ok by (rewrite ?(of_cid _ Hw'); lia). cbn [mbind result_bind].
    rewrite blit_ok; [|lia|].
    + cbn [mbind result_bind]. rewrite Hkn. done.
    + rewrite sub_length; rewrite ?(of_cid _ Hw'); lia.
  - rewrite E6. rewrite slice_ok by (rewrite ?sub_length; lia). cbn [mbind result_bind]. lit_nat.
    replace (sub (sub buf 28 16) 0 6) with (sub buf 28 6)
      by (unfold sub; rewrite drop_0, take_take; done).
    rewrite blit_ok by lia. cbn [mbind result_bind]. rewrite Hkn. unfold parsed. by rewrite E6.
Qed.

(** Every datagram gets an answer, and the answer is well formed. *)
Lemma dhcp_parse_total buf len out :
  0 <= len <= Z.of_nat (length buf) -> len < 2 ^ 16 -> Forall is_byte buf -> msg_wf out ->
  exists st out', dhcp_parse buf len out = Ok (st, out') /\ msg_wf out' /\
    (st = DHCP_OK -> exists o, 240 <= len /\
      Tlv (sub buf 240 (Z.to_nat len - 240)) (clear_options (m_options out)) DHCP_OK o /\
      opts_wf o /\ accepted_header buf = true /\ ethernet_header buf = true /\
      out' = parsed buf o (wr (m_lease_key out) 0 (key_source buf o)) (Z.of_nat (length (key_source buf o)))).
Proof.
  intros Hl Hb Hf Hw. destruct (Z.ltb_spec len 240) as [Hs|Hs].
  { exists DHCP_ERR_SHORT, out. unfold dhcp_parse, DHCP_DEFAULT_LENGTH.
    rewrite (proj2 (Z.ltb_lt _ _) Hs). by split_and!. }
  destruct (Tlv_total (sub buf 240 (Z.to_nat len - 240)) (clear_options (m_options out))) as (st & o & Ht).
  { unfold sub. by apply Forall_take, Forall_drop. }
  pose proof (Tlv_wf _ _ _ _ Ht (clear_options_wf _ (mf_options _ Hw))) as Hw'.
  pose proof (dhcp_parse_ok buf len out st o ltac:(lia) Hb Hw Ht) as E.
  destruct (accepted_header buf) eqn:Ea; cbn [negb] in E; [|by eexists _, _].
  destruct (ethernet_header buf) eqn:Ee; cbn [negb] in E; [|by eexists _, _].
  destruct (bool_decide_reflect (st = DHCP_OK)) as [->|Hst].
  - destruct (key_source_length buf o Hw' ltac:(lia)) as [Hk _].
    eexists _, _. split; [exact E|]. split.
    + constructor; [done|]. apply wr_length'; [apply Hw|lia].
    + intros _. exists o. by split_and!.
  - eexists _, _. split; [exact E|]. split; [|done]. constructor; [done|apply Hw].
Qed.

Lemma dhcp_parse_inv buf len out m :
  0 <= len <= Z.of_nat (length buf) -> len < 2 ^ 16 -> Forall is_byte buf -> msg_wf out ->
  dhcp_parse buf len out = Ok (DHCP_OK, m) ->
  exists o, 240 <= len /\
    Tlv (sub buf 240 (Z.to_nat len - 240)) (clear_options (m_options out)) DHCP_OK o /\
    opts_wf o /\ accepted_header buf = true /\ ethernet_header buf = true /\
    m = parsed buf o (wr (m_lease_key out) 0 (key_source buf o)) (Z.of_nat (length (key_source buf o))).
Proof.
  intros Hl Hb Hf Hw E. destruct (dhcp_parse_total buf len out Hl Hb Hf Hw) as (st & m' & E' & _ & H).
  rewrite E in E'. injection E' as <- <-. by apply H.
Qed.

(** The verdict on a datagram, with the option field [F] read into options that
    start cleared: every status has its cause, and every cause its status. *)
Record verdict (buf : bytes) (len : Z) (out : dhcp_msg) (st : dhcp_status) (out' : dhcp_msg) : Prop := {
  vd_short : len < 240 -> st = DHCP_ERR_SHORT /\ out' = out;
  vd_cookie : 240 <= len -> accepted_header buf = false -> st = DHCP_ERR_NOT_DHCP /\ out' = out;
  vd_ethernet : 240 <= len -> accepted_header buf = true -> ethernet_header buf = false ->
    st = DHCP_ERR_MALFORMED /\ out' = out;
  vd_options : 240 <= len -> accepted_header buf = true -> ethernet_header buf = true ->
    exists o, Tlv (sub buf 240 (Z.to_nat len - 240)) (clear_options (m_options out)) st o /\
      (st = DHCP_OK -> (length (key_source buf o) <= 16)%nat /\
        out' = parsed buf o (wr (m_lease_key out) 0 (key_source buf o)) (Z.of_nat (length (key_source buf o))));
}.

Lemma dhcp_parse_verdict buf len out :
  0 <= len <= Z.of_nat (length buf) -> len < 2 ^ 16 -> Forall is_byte buf -> msg_wf out ->
  exists st out', dhcp_parse buf len out = Ok (st, out') /\ msg_wf out' /\ verdict buf len out st out'.
Proof.
  intros Hl Hb Hf Hw. destruct (dhcp_parse_total buf len out Hl Hb Hf Hw) as (st & out' & E & Hw' & _).
  exists st, out'. split; [done|]. split; [done|]. destruct (Z.ltb_spec len 240) as [Hs|Hs].
  { unfold dhcp_parse, DHCP_DEFAULT_LENGTH in E. rewrite (proj2 (Z.ltb_lt _ _) Hs) in E.
    injection E as <- <-. split; (done || lia). }
  destruct (Tlv_total (sub buf 240 (Z.to_nat len - 240)) (clear_options (m_options out))) as (st0 & o & Ht).
  { unfold sub. by apply Forall_take, Forall_drop. }
  pose proof (Tlv_wf _ _ _ _ Ht (clear_options_wf _ (mf_options _ Hw))) as Ho.
  destruct (key_source_length buf o Ho ltac:(lia)) as [Hk _].
  rewrite (dhcp_parse_ok buf len out st0 o ltac:(lia) Hb Hw Ht) in E.
  destruct (accepted_header buf) eqn:Ea; cbn [negb] in E; [|injection E as <- <-; split; intros; (lia || congruence || done)].
  destruct (ethernet_header buf) eqn:Ee; cbn [negb] in E; [|injection E as <- <-; split; intros; (lia || congruence || done)].
  split; [lia|congruence|congruence|intros _ _ _]. exists o. case_bool_decide as Hst; injection E as <- <-; subst; done.
Qed.

(** The grammar is unambiguous: a field has one result. *)
Lemma Tlv_fun l o st o1 : Tlv l o st o1 -> forall st' o1', Tlv l o st' o1' -> opts_wf o ->
  Z.of_nat (length l) < 2 ^ 16 -> st = st' /\ o1 = o1'.
Proof.
  intros H st' o1' H' Hw Hl.
  pose proof (parse_loop_Tlv _ _ _ _ H [] [] (S (length l)) Hw (Nat.lt_succ_diag_r _) Hl) as E.
  rewrite (parse_loop_Tlv _ _ _ _ H' [] [] (S (length l)) Hw (Nat.lt_succ_diag_r _) Hl) in E.
  by injection E as -> ->.
Qed.
