(* ===== verification/DhcpReply.v ===== *)
(** * DHCP replies: layout and round trip

    The bytes of the reply [dhcp_build_reply] writes, and what a client that
    parses it reads. *)
From S2P Require Import Prelude Utils Dhcp DhcpSpec DhcpParse.

(** ** Layout *)

(** The fixed part: the request with its first bytes, [secs] and [yiaddr]
    overwritten, and the cookie. *)
Definition reply_fixed (raw yiaddr : bytes) : bytes :=
  wr (wr (wr (wr (wr (take 236 raw) 0 [BOOTREPLY]) 3 [0]) 8 [0]) 9 [0]) 16 yiaddr.
Definition cookie : bytes := [0x63; 0x82; 0x53; 0x63].

Lemma wr_prefix h rest i src :
  (i + length src <= length h)%nat -> wr (h ++ rest) i src = wr h i src ++ rest.
Proof.
  intros. unfold wr. rewrite take_app_le, drop_app_le by lia. by rewrite <- !app_assoc.
Qed.

Lemma reply_fixed_length raw y :
  (236 <= length raw)%nat -> length y = 4%nat -> length (reply_fixed raw y) = 236%nat.
Proof.
  intros Hr Hy. assert (length (take 236 raw) = 236%nat) by (rewrite length_take; lia).
  unfold reply_fixed. repeat (apply wr_length'; [|cbn [length]; lia]). done.
Qed.

Lemma embedd_options_ok options head mid cap n0 :
  opts_ok options -> length head = 240%nat -> (length (encode options) <= 59)%nat ->
  (60 <= length mid)%nat -> 300 <= cap ->
  embedd_options (head ++ mid) cap options n0 =
    Ok (DHCP_OK, head ++ encode options ++ repeat 0 (59 - length (encode options)) ++ 255 :: drop 60 mid, 300).
Proof.
  intros Hw Hh He Hm Hc. unfold embedd_options, DHCP_OPTIONS_START.
  rewrite options_size_ok by (done || lia). rewrite Z.gtb_ltb, (proj2 (Z.ltb_ge _ _)) by lia.
  rewrite (write_options_ok options head mid 240 Hw) by lia. cbn [mbind result_bind].
  set (e := encode options) in *. rewrite (proj2 (Z.ltb_lt _ _)) by lia.
  rewrite app_assoc, blit_ok by (rewrite ?length_app, ?length_drop, ?repeat_length; lia). cbn [mbind result_bind].
  replace (Z.to_nat (240 + Z.of_nat (length e))) with (length (head ++ e)) by (rewrite length_app; lia).
  rewrite wr_app_length by (rewrite repeat_length, length_drop; lia).
  rewrite repeat_length, drop_drop.
  replace (Z.to_nat (300 - (240 + Z.of_nat (length e)))) with ((59 - length e) + 1)%nat by lia.
  rewrite repeat_app. cbn [repeat]. replace (length e + (59 - length e + 1))%nat with 60%nat by lia.
  rewrite <- (app_assoc (repeat 0 _)), (app_assoc (head ++ e)).
  assert (length ((head ++ e) ++ repeat 0 (59 - length e)) = 299%nat) as Hl
    by (rewrite !length_app, repeat_length; lia).
  rewrite putb_ok by (rewrite length_app, Hl; cbn; lia). cbn [mbind result_bind]. lit_nat.
  rewrite (wr_at _ _ 299) by (cbn; lia). cbn [length drop app]. by rewrite <- !app_assoc.
Qed.

Record cfg_wf (cfg : dhcp_cfg) : Prop := {
  cw_server : length (g_server_id cfg) = 4%nat;
  cw_mask : length (g_subnet_mask cfg) = 4%nat;
  cw_router : length (g_router cfg) = 4%nat;
  cw_dns : length (g_dns cfg) = 4%nat;
  cw_broadcast : length (g_broadcast_addr cfg) = 4%nat;
}.

(** The options of a reply, as data. *)
Definition reply_field (req : dhcp_msg) (type : Z) (cfg : dhcp_cfg) : bytes :=
  [53; 1; type] ++ [54; 4] ++ g_server_id cfg ++ [51; 4] ++ serialized_lease_time (g_lease_time cfg) ++
  [1; 4] ++ g_subnet_mask cfg ++ [3; 4] ++ g_router cfg ++ [6; 4] ++ g_dns cfg ++
  [28; 4] ++ g_broadcast_addr cfg ++
  if o_has_client_id (m_options req)
  then [61; o_client_id_len (m_options req)] ++
       take (Z.to_nat (o_client_id_len (m_options req))) (o_client_id (m_options req))
  else [].

Lemma opt_wf_ptr t n d : (n <= length d)%nat -> (n < 256)%nat ->
  opt_wf (Option t (Z.of_nat n) 0 (Some d) true).
Proof.
  intros Hn Hb. constructor; cbn; [lia| |intros ? [= <-]; lia]. rewrite length_take. lia.
Qed.

Lemma reply_options_ok req type cfg :
  cfg_wf cfg -> opts_wf (m_options req) -> is_byte type ->
  opts_ok (reply_options req type cfg) /\
  encode (reply_options req type cfg) = reply_field req type cfg /\
  (length (reply_field req type cfg) <= 57)%nat.
Proof.
  intros [H1 H2 H3 H4 H5] Ho Ht. unfold is_byte in Ht.
  assert (forall t d, length d = 4%nat -> p_include (Option t 4 0 (Some d) true) = true ->
    opt_wf (Option t 4 0 (Some d) true)) as H4b by (intros t d Hd _; apply (opt_wf_ptr t 4); lia).
  assert (forall d : bytes, length d = 4%nat -> take 4 d = d) as Ht4 by (intros; apply take_ge; lia).
  set (c := o_client_id (m_options req)). set (n := o_client_id_len (m_options req)).
  assert (o_has_client_id (m_options req) = true -> 0 <= n <= 16 /\ length c = 16%nat) as Hc
    by (intros Hh; split; [apply (of_len _ Ho Hh)|apply (of_cid _ Ho)]).
  split_and!.
  - unfold reply_options, opts_ok. repeat (apply Forall_cons; split; [try by apply H4b|]); [| |done].
    + constructor; cbn; (lia || done).
    + cbn [p_include]. intros Hh. destruct (Hc Hh). fold n c.
      assert (exists k, n = Z.of_nat k) as [k Ek] by (exists (Z.to_nat n); lia). rewrite Ek, Hh. apply opt_wf_ptr; lia.
  - unfold reply_options, encode, reply_field, opt_data. cbn [fmap list_fmap p_include p_type p_len p_ptr p_val concat].
    lit_nat. rewrite !Ht4 by done. rewrite (u8_small type) by lia. destruct (o_has_client_id _) eqn:Hh.
    + fold n c. destruct (Hc eq_refl). rewrite (u8_small n) by lia. cbn [app]. by rewrite ?app_nil_r, <- ?app_assoc.
    + cbn [app]. by rewrite ?app_nil_r, <- ?app_assoc.
  - unfold reply_field. rewrite !length_app. fold n c. rewrite H1, H2, H3, H4, H5.
    cbn [length serialized_lease_time]. destruct (o_has_client_id _); cbn [length app]; [|lia].
    destruct (Hc eq_refl). rewrite length_take. lia.
Qed.

Definition reply_bytes (raw : bytes) (req : dhcp_msg) (type : Z) (cfg : dhcp_cfg) (y : bytes) : bytes :=
  (reply_fixed raw y ++ cookie) ++ reply_field req type cfg ++
  repeat 0 (59 - length (reply_field req type cfg)) ++ [255].

Lemma reply_bytes_length raw req type cfg y :
  (236 <= length raw)%nat -> length y = 4%nat -> cfg_wf cfg -> opts_wf (m_options req) -> is_byte type ->
  length (reply_bytes raw req type cfg y) = 300%nat.
Proof.
  intros Hr Hy Hc Ho Ht. destruct (reply_options_ok req type cfg Hc Ho Ht) as (_ & _ & Hl).
  unfold reply_bytes. rewrite !length_app, reply_fixed_length, repeat_length by done. cbn [length cookie]. lia.
Qed.

(** A reply is always built, and has 300 bytes. *)
Lemma dhcp_build_reply_ok raw req type cfg y out cap :
  (236 <= length raw)%nat -> length y = 4%nat -> cfg_wf cfg -> opts_wf (m_options req) -> is_byte type ->
  300 <= cap <= Z.of_nat (length out) ->
  exists tail, length tail = (length out - 300)%nat /\
    dhcp_build_reply raw req type cfg y out cap =
      Ok (DHCP_OK, reply_bytes raw req type cfg y ++ tail, 300).
Proof.
  intros Hr Hy Hc Ho Ht Hcap. destruct (reply_options_ok req type cfg Hc Ho Ht) as (Hopt & He & Hl).
  unfold dhcp_build_reply. rewrite (proj2 (Z.ltb_ge _ _)) by lia.
  rewrite blit_ok by (rewrite ?repeat_length; lia). cbn [mbind result_bind]. lit_nat.
  set (o1 := wr out 0 (repeat 0 (Z.to_nat cap))).
  assert (length o1 = length out) as Ho1 by (apply wr_length; rewrite repeat_length; lia).
  clearbody o1. rewrite (slice_ok raw) by lia. cbn [mbind result_bind]. lit_nat.
  change (sub raw 0 236) with (take 236 raw).
  assert (length (take 236 raw) = 236%nat) as Hraw by (rewrite length_take; lia).
  rewrite blit_ok by lia. cbn [mbind result_bind]. lit_nat.
  change (wr o1 0 (take 236 raw)) with (take 236 raw ++ drop (length (take 236 raw)) o1). rewrite Hraw.
  assert (length (drop 236 o1) = (length out - 236)%nat) as Hd by (rewrite length_drop; lia).
  assert (forall h i (src : bytes), length h = 236%nat -> (i + length src <= 236)%nat ->
    length (h ++ drop 236 o1) = length out /\ wr (h ++ drop 236 o1) i src = wr h i src ++ drop 236 o1 /\
    length (wr h i src) = 236%nat) as Hw.
  { intros h i src Hh Hi. split_and!; [rewrite length_app; lia|apply wr_prefix; lia|by apply wr_length']. }
  assert (forall h i b, length h = 236%nat -> 0 <= i < 236 ->
    putb (h ++ drop 236 o1) i b = Ok (wr h (Z.to_nat i) [u8 b] ++ drop 236 o1)) as Hp.
  { intros h i b Hh Hi. destruct (Hw h (Z.to_nat i) [u8 b] Hh ltac:(cbn; lia)) as (E1 & E2 & _).
    by rewrite putb_ok, E2 by lia. }
  do 4 (rewrite Hp; [cbn [mbind result_bind]; lit_nat|
    repeat (apply wr_length'; [|cbn [length]; lia]); done|lia]).
  rewrite (slice_ok y) by lia. cbn [mbind result_bind]. lit_nat.
  replace (sub y 0 4) with y by (unfold sub; rewrite drop_0, take_ge by lia; done).
  match goal with |- context [blit (?h ++ _) 16 _] => assert (length h = 236%nat) as Hh end.
  { repeat (apply wr_length'; [|cbn [length]; lia]). done. }
  destruct (Hw _ 16%nat y Hh ltac:(lia)) as (E1 & E2 & E3).
  rewrite blit_ok by lia. cbn [mbind result_bind]. lit_nat. rewrite E2.
  match goal with |- context [wr ?h 16 y] => change (wr h 16 y) with (reply_fixed raw y) in * end.
  rewrite blit_ok by (rewrite ?length_app; cbn [length]; lia). cbn [mbind result_bind]. lit_nat.
  rewrite (wr_at _ _ 236) by (cbn [length]; lia). cbn [length].
  change [99; 130; 83; 99] with cookie. rewrite drop_drop, (app_assoc (reply_fixed raw y)).
  rewrite embedd_options_ok; [..|lia]; try done.
  - rewrite He. cbn [mbind result_bind]. rewrite drop_drop. exists (drop (236 + 4 + 60) o1). split.
    + rewrite length_drop. lia.
    + unfold reply_bytes. by rewrite <- !app_assoc.
  - rewrite length_app, E3. done.
  - rewrite He. lia.
  - rewrite length_drop. lia.
Qed.

(** ** What a client reads *)

Definition untouched (i n : nat) : Prop :=
  (1 <= i /\ i + n <= 3 \/ 4 <= i /\ i + n <= 8 \/ 10 <= i /\ i + n <= 16 \/ 20 <= i /\ i + n <= 236)%nat.

Lemma reply_fixed_sub raw y i n :
  (236 <= length raw)%nat -> length y = 4%nat -> untouched i n ->
  sub (reply_fixed raw y) i n = sub raw i n.
Proof.
  intros Hr Hy Hu. assert (length (take 236 raw) = 236%nat) as Hl by (rewrite length_take; lia).
  unfold reply_fixed.
  assert (forall h j (src : bytes), length h = 236%nat -> (j + length src <= 236)%nat ->
    (i + n <= j \/ j + length src <= i)%nat -> sub (wr h j src) i n = sub h i n) as Hs.
  { intros h j src Hh Hj [?|?]; [apply sub_wr_before|apply sub_wr_after]; lia. }
  unfold untouched in Hu.
  rewrite !Hs; [|repeat first [apply wr_length' | done | lia]; cbn [length]; lia..].
  unfold sub. rewrite !take_drop_commute, take_take. do 2 f_equal. lia.
Qed.

Lemma reply_bytes_sub raw req type cfg y tail i n :
  (236 <= length raw)%nat -> length y = 4%nat -> untouched i n ->
  sub (reply_bytes raw req type cfg y ++ tail) i n = sub raw i n.
Proof.
  intros Hr Hy Hu. rewrite <- (reply_fixed_sub raw y) by done. unfold reply_bytes. rewrite <- !app_assoc.
  apply sub_app_before. rewrite reply_fixed_length by done. unfold untouched in Hu. lia.
Qed.

Lemma at_sub buf i : at_ buf i = hd 0 (sub buf i 1).
Proof.
  unfold at_, sub. rewrite <- (Nat.add_0_r i) at 1. rewrite <- lookup_drop. by destruct (drop i buf).
Qed.

Lemma tlv_opt' c n d l o o1 st o' : n = Z.of_nat (length d) -> c <> DHCP_OPT_PAD -> c <> DHCP_OPT_EXIT ->
  absorb c d o = (DHCP_OK, o1) -> Tlv l o1 st o' -> Tlv (c :: n :: d ++ l) o st o'.
Proof. intros -> ??. by apply tlv_opt. Qed.

Lemma tlv_pads k o : Tlv (repeat 0 k ++ [255]) o DHCP_OK o.
Proof.
  induction k as [|k IH]; [by apply tlv_end|]. cbn [repeat app].
  destruct k as [|k]; cbn [repeat app] in *; by apply tlv_pad.
Qed.

(** The options a client finds in the reply. *)
Definition reply_opts (req : dhcp_msg) (type : Z) (cfg : dhcp_cfg) (o : dhcp_options) : dhcp_options :=
  let id := take (Z.to_nat (o_client_id_len (m_options req))) (o_client_id (m_options req)) in
  if o_has_client_id (m_options req)
  then DhcpOptions (o_requested_ip o) (o_has_requested_ip o) type true (g_server_id cfg) true
         (id ++ drop (length id) (o_client_id o)) (o_client_id_len (m_options req)) true (o_requested_bitmap o)
  else DhcpOptions (o_requested_ip o) (o_has_requested_ip o) type true (g_server_id cfg) true
         (o_client_id o) (o_client_id_len o) (o_has_client_id o) (o_requested_bitmap o).

Lemma reply_field_Tlv req type cfg o k :
  cfg_wf cfg -> opts_wf (m_options req) ->
  Tlv (reply_field req type cfg ++ repeat 0 k ++ [255]) o DHCP_OK (reply_opts req type cfg o).
Proof.
  intros [H1 H2 H3 H4 H5] Ho. destruct o as [rip hrip ty hty sid hsid cid cidl hcid bm].
  unfold reply_field. rewrite <- !app_assoc. cbn [app].
  assert (forall c d l o st o', c <> DHCP_OPT_PAD -> c <> DHCP_OPT_EXIT -> length d = 4%nat ->
    absorb c d o = (DHCP_OK, o) -> Tlv l o st o' -> Tlv (c :: 4 :: d ++ l) o st o') as Hskip.
  { intros c d l o st o' Hc1 Hc2 Hd Ha Ht. apply (tlv_opt' c 4 d l o o); (done || lia). }
  eapply (tlv_opt' 53 1 [type]); [done..|].
  apply (tlv_opt' 54 4 (g_server_id cfg) _ _ (DhcpOptions rip hrip type true (g_server_id cfg) true cid cidl hcid bm));
    [lia|done|done|cbn; by rewrite H1|].
  do 5 (apply Hskip; [done|done|done|done|]).
  unfold reply_opts. destruct (o_has_client_id (m_options req)) eqn:Hh; [|apply tlv_pads].
  pose proof (of_len _ Ho Hh). pose proof (of_cid _ Ho). cbn [app].
  set (d := take _ _). assert (Z.of_nat (length d) = o_client_id_len (m_options req)) as Ed
    by (unfold d; rewrite length_take; lia).
  eapply (tlv_opt' 61 _ d); [lia|done|done| |apply tlv_pads].
  unfold absorb. cbn [Z.eqb Pos.eqb]. change (61 =? DHCP_OPT_CLIENT_ID) with true.
  rewrite Z.gtb_ltb, (proj2 (Z.ltb_ge _ _)) by (unfold CID_CAP; lia). by rewrite Ed.
Qed.

(** What the reply has in common with the request [req], as a client that
    knows its own identity reads it. *)
Record echoes (req r : dhcp_msg) (type : Z) (cfg : dhcp_cfg) (y : bytes) : Prop := {
  ec_op : m_op r = BOOTREPLY;
  ec_xid : m_xid r = m_xid req;
  ec_flags : m_flags r = m_flags req;
  ec_giaddr : m_giaddr r = m_giaddr req;
  ec_chaddr : m_chaddr r = m_chaddr req;
  ec_yiaddr : m_yiaddr r = y;
  ec_type : o_has_message_type (m_options r) = true /\ o_message_type (m_options r) = type;
  ec_server : o_has_server_id (m_options r) = true /\ o_server_id (m_options r) = g_server_id cfg;
  ec_key_len : m_lease_key_length r = m_lease_key_length req;
  ec_key : take (Z.to_nat (m_lease_key_length r)) (m_lease_key r) =
           take (Z.to_nat (m_lease_key_length req)) (m_lease_key req);
}.

Lemma key_of_parsed buf o key :
  opts_wf o -> (44 <= length buf)%nat -> length key = 16%nat ->
  take (length (key_source buf o)) (wr key 0 (key_source buf o)) = key_source buf o.
Proof.
  intros Ho Hb Hk. destruct (key_source_length buf o Ho Hb) as [Hl _].
  by rewrite <- (sub_wr_same key 0 (key_source buf o) (length (key_source buf o))) at 3 by lia.
Qed.

Lemma at_app pre mid k : at_ (pre ++ mid) (length pre + k) = at_ mid k.
Proof. unfold at_. rewrite lookup_app_r by lia. do 2 f_equal. lia. Qed.

Section reply_reads.
Context (raw y tail : bytes) (req : dhcp_msg) (type : Z) (cfg : dhcp_cfg).
Hypotheses (Hr : (236 <= length raw)%nat) (Hy : length y = 4%nat).

Lemma reply_accepted : accepted_header (reply_bytes raw req type cfg y ++ tail) = true.
Proof using Hr Hy.
  unfold accepted_header, reply_bytes. rewrite <- !app_assoc.
  pose proof (at_app (reply_fixed raw y)) as E. rewrite reply_fixed_length in E by done.
  by rewrite (E _ 0%nat), (E _ 1%nat), (E _ 2%nat), (E _ 3%nat).
Qed.

Lemma reply_sub_yiaddr : sub (reply_bytes raw req type cfg y ++ tail) 16 4 = y.
Proof using Hr Hy.
  unfold reply_bytes. rewrite <- !app_assoc. rewrite sub_app_before by (rewrite reply_fixed_length; done || lia).
  assert (length (take 236 raw) = 236%nat) as Hl by (rewrite length_take; lia).
  unfold reply_fixed. apply sub_wr_same; [|done].
  rewrite Hy, (wr_length' 236); [lia| |cbn [length]; lia].
  repeat (apply wr_length'; [|cbn [length]; lia]). exact Hl.
Qed.

Lemma reply_key_source buf o :
  opts_wf (m_options req) -> sub buf 28 6 = sub raw 28 6 -> o_has_client_id o = false ->
  key_source buf (reply_opts req type cfg o) = key_source raw (m_options req).
Proof using.
  clear Hr Hy. intros Ho Hs Hh. unfold key_source, reply_opts. destruct (o_has_client_id (m_options req)) eqn:E.
  - cbn [o_has_client_id o_client_id_len o_client_id]. pose proof (of_len _ Ho E). pose proof (of_cid _ Ho).
    rewrite take_app_length'; [done|]. rewrite length_take. lia.
  - cbn [o_has_client_id]. by rewrite Hh.
Qed.
End reply_reads.

Lemma reply_echoes raw len m0 req type cfg y tail m1 :
  0 <= len <= Z.of_nat (length raw) -> len < 2 ^ 16 -> Forall is_byte raw -> msg_wf m0 ->
  dhcp_parse raw len m0 = Ok (DHCP_OK, req) ->
  is_byte type -> cfg_wf cfg -> length y = 4%nat -> msg_wf m1 ->
  exists r, dhcp_parse (reply_bytes raw req type cfg y ++ tail) 300 m1 = Ok (DHCP_OK, r) /\
    echoes req r type cfg y.
Proof.
  intros Hl Hb Hf Hw0 E Ht Hc Hy Hw1.
  destruct (dhcp_parse_inv _ _ _ _ Hl Hb Hf Hw0 E) as (o & Hl' & _ & Ho & _ & He & ->).
  set (req := parsed raw o _ _). assert (m_options req = o) as Eo by done.
  assert (236 <= length raw)%nat as Hr by lia. assert (opts_wf (m_options req)) as Ho' by done.
  pose proof (reply_bytes_length raw req type cfg y Hr Hy Hc Ho' Ht) as Hlen.
  set (buf := reply_bytes raw req type cfg y ++ tail).
  assert (forall i n, untouched i n -> sub buf i n = sub raw i n) as Hsub by (intros; by apply reply_bytes_sub).
  assert (forall i, untouched i 1 -> at_ buf i = at_ raw i) as Hat by (intros; by rewrite !at_sub, Hsub).
  set (o1 := reply_opts req type cfg (clear_options (m_options m1))).
  assert (Tlv (sub buf 240 (Z.to_nat 300 - 240)) (clear_options (m_options m1)) DHCP_OK o1) as Htlv.
  { replace (sub buf _ _) with (reply_field req type cfg ++ repeat 0 (59 - length (reply_field req type cfg)) ++ [255]).
    - by apply reply_field_Tlv.
    - unfold buf, reply_bytes. rewrite <- !(app_assoc (_ ++ cookie)).
      assert (length (reply_fixed raw y ++ cookie) = 240%nat) as Eh
        by (rewrite length_app, reply_fixed_length by done; done).
      unfold sub. rewrite drop_app_length' by done. rewrite take_app_length'; [done|].
      unfold reply_bytes in Hlen. rewrite length_app, Eh in Hlen. lia. }
  pose proof (Tlv_wf _ _ _ _ Htlv (clear_options_wf _ (mf_options _ Hw1))) as Ho1.
  pose proof (dhcp_parse_ok buf 300 m1 DHCP_OK o1 ltac:(unfold buf; rewrite length_app; lia) ltac:(lia) Hw1 Htlv) as Ep.
  assert (accepted_header buf = true) as Ha.
  { unfold buf. apply reply_accepted; done. }
  assert (ethernet_header buf = true) as Heb.
  { unfold ethernet_header in *. by rewrite !Hat by (unfold untouched; lia). }
  rewrite Ha, Heb in Ep. cbn [negb] in Ep. rewrite bool_decide_true in Ep by done.
  eexists. split; [exact Ep|].
  assert (key_source buf o1 = key_source raw o) as Ek.
  { apply reply_key_source; [done| |done]. apply Hsub. unfold untouched. lia. }
  constructor; cbn [parsed m_op m_xid m_flags m_giaddr m_chaddr m_yiaddr m_options m_lease_key m_lease_key_length];
    rewrite ?Hsub, ?Hat by (unfold untouched; lia); try done.
  - unfold buf. by rewrite reply_sub_yiaddr.
  - unfold o1, reply_opts. by destruct (o_has_client_id _).
  - unfold o1, reply_opts. by destruct (o_has_client_id _).
  - by rewrite Ek.
  - rewrite Ek, Nat2Z.id. unfold req. cbn [parsed m_lease_key m_lease_key_length]. rewrite ?Nat2Z.id.
    by rewrite !key_of_parsed by (try apply Hw0; try apply Hw1; done || lia).
Qed.
