(* ===== verification/Flash.v ===== *)
(** * The flash driver ([flash.c])

    The whole flash is a list of 32-bit words; the journal lives in sector 3.
    How a cell takes a new word is hardware: the class [NorFlash] states
    what the driver relies on. *)
From S2P Require Import Prelude Utils.

(** Documented behaviour of a flash cell: an erased cell reads all ones and
    takes the word that is programmed into it. *)
Class NorFlash : Type := {
  nor_program : Z -> Z -> Z;
  nor_program_erased w : 0 <= w < 2 ^ 32 -> nor_program 0xFFFFFFFF w = w;
}.
(** A cell whose bits only go from 1 to 0. *)
#[export] Instance nor_and : NorFlash.
Proof.
  refine {| nor_program := Z.land |}.
  intros w Hw. change 0xFFFFFFFF with (Z.ones 32). rewrite Z.land_comm, Z.land_ones by lia.
  by apply Z.mod_small.
Defined.

(** ** Registers *)

Definition FLASH_SR_BUSY : Z := Z.shiftl 1 16.
Definition FLASH_CR_PSIZE_Pos : Z := 8.
Definition FLASH_CR_SNB_Pos : Z := 3.
Definition FLASH_CR_SER : Z := Z.shiftl 1 1.
Definition FLASH_CR_STRT : Z := Z.shiftl 1 16.
Definition FLASH_CR_PG : Z := Z.shiftl 1 0.
Definition FLASH_CR_LOCK : Z := Z.shiftl 1 31.
Definition PSIZE_32 : Z := 2.
Definition FLASH_JOURNAL_SECTOR : Z := 3.
Definition FLASH_BASE : Z := 0x08000000.

Definition flash_sectors : list Z :=
  [0x08000000; 0x08004000; 0x08008000; 0x0800C000; 0x08010000; 0x08020000; 0x08040000; 0x08060000].
(** The sizes in words: the distances to the next sector, the last one 128 KB. *)
Definition sector_words : list Z := [4096; 4096; 4096; 4096; 16384; 32768; 32768; 32768].

Record flash : Type := Flash {
  f_mem : list Z;   (* the words from FLASH_BASE on *)
  f_read : list Z;  (* flash_sector_read_pointer, uint32_t *)
  f_write : list Z; (* flash_sector_write_pointer, uint32_t *)
  f_cr : Z;         (* the control register *)
}.
Abbreviation FM := (prog flash).

Definition set_f_mem (v : list Z) (f : flash) : flash := Flash v (f_read f) (f_write f) (f_cr f).
Definition set_f_read (v : list Z) (f : flash) : flash := Flash (f_mem f) v (f_write f) (f_cr f).
Definition set_f_write (v : list Z) (f : flash) : flash := Flash (f_mem f) (f_read f) v (f_cr f).
Definition set_f_cr (v : Z) (f : flash) : flash := Flash (f_mem f) (f_read f) (f_write f) v.

(** The word index of a sector's first word. *)
Definition sector_base (n : Z) : Z := (List.nth (Z.to_nat n) flash_sectors 0 - FLASH_BASE) / 4.

(** ** The code *)

Section driver.
Context `{NorFlash} (sr : Z). (* what the status register reads *)

(** The two writes to KEYR clear the lock bit. *)
Definition flash_unlock : FM unit :=
  modify (fun f => set_f_cr (Z.land (f_cr f) (Z.lnot FLASH_CR_LOCK)) f).
(** The wait loop: [Diverge] when the masked bit, cut to 8 bits, were not 0. *)
Definition flash_wait : FM unit :=
  if u8 (Z.land sr FLASH_SR_BUSY) =? 0 then mret tt else raise Diverge.
Definition cr_set (mask : Z) : FM unit := modify (fun f => set_f_cr (Z.lor (f_cr f) mask) f).
Definition cr_clear (mask : Z) : FM unit := modify (fun f => set_f_cr (Z.land (f_cr f) (Z.lnot mask)) f).

(** Setting STRT erases the sector that the SNB field of CR selects. *)
Definition erase_selected : FM unit := modify (fun f =>
  let n := Z.land (Z.shiftr (f_cr f) FLASH_CR_SNB_Pos) 15 in
  let base := Z.to_nat (sector_base n) in
  let len := Z.to_nat (List.nth (Z.to_nat n) sector_words 0) in
  set_f_mem (take base (f_mem f) ++ ((fun _ => 0xFFFFFFFF) <$> take len (drop base (f_mem f))) ++
             drop (base + len) (f_mem f)) f).

Definition flash_erase_sector (sector_number : Z) : FM unit :=
  if sector_number >? 7 then mret tt
  else
    flash_unlock;;
    flash_wait;;
    cr_set (Z.shiftl PSIZE_32 FLASH_CR_PSIZE_Pos);;
    cr_set (Z.shiftl sector_number FLASH_CR_SNB_Pos);;
    cr_set FLASH_CR_SER;;
    cr_set FLASH_CR_STRT;; erase_selected;;
    flash_wait;;
    cr_clear (Z.shiftl 0 FLASH_CR_SNB_Pos);;
    cr_clear FLASH_CR_SER;;
    cr_clear FLASH_CR_STRT.

(** A store to the flash: it needs the PG bit and no lock. *)
Definition flash_store (i word : Z) : FM unit := fun f =>
  if negb (Z.land (f_cr f) FLASH_CR_PG =? 0) && (Z.land (f_cr f) FLASH_CR_LOCK =? 0) then
    match f_mem f !! Z.to_nat i with
    | Some old => Ok (tt, set_f_mem (<[Z.to_nat i := nor_program old word]> (f_mem f)) f)
    | None => Trap Fault
    end
  else Trap Fault.

Definition flash_program_word (sector_number word : Z) : FM unit :=
  if sector_number >? 7 then mret tt
  else
    curr_pos ← gets (fun f => List.nth (Z.to_nat sector_number) (f_write f) 0);
    flash_wait;;
    cr_set (Z.shiftl PSIZE_32 FLASH_CR_PSIZE_Pos);;
    cr_set FLASH_CR_PG;;
    flash_store (sector_base sector_number + curr_pos) word;;
    flash_wait;;
    cr_clear FLASH_CR_PG;;
    modify (fun f => set_f_write (alter (fun p => u32 (p + 1)) (Z.to_nat sector_number) (f_write f)) f).

Fixpoint append_words (data : list Z) : FM unit :=
  match data with
  | [] => mret tt
  | w :: data => flash_program_word FLASH_JOURNAL_SECTOR w;; append_words data
  end.

(** The array has [len] words. *)
Definition flash_append_journal (data : list Z) : FM unit :=
  flash_unlock;;
  append_words data;;
  cr_set FLASH_CR_LOCK.

Definition flash_program_journal (data : list Z) : FM unit :=
  flash_erase_sector FLASH_JOURNAL_SECTOR;;
  flash_append_journal data.

Fixpoint read_words (n : nat) (i : Z) : FM (list Z) :=
  match n with
  | O => mret []
  | S n => w ← fetch (fun f => f_mem f !! Z.to_nat i); ws ← read_words n (i + 1); mret (w :: ws)
  end.

Definition flash_read_journal (n_words : Z) : FM (list Z) :=
  curr_pos ← gets (fun f => List.nth (Z.to_nat FLASH_JOURNAL_SECTOR) (f_read f) 0);
  ws ← read_words (Z.to_nat n_words) (sector_base FLASH_JOURNAL_SECTOR + curr_pos);
  modify (fun f => set_f_read
    (alter (fun p => u32 (p + n_words)) (Z.to_nat FLASH_JOURNAL_SECTOR) (f_read f)) f);;
  mret ws.

Definition flash_journal_reset_read_pointer : FM unit :=
  modify (fun f => set_f_read (<[Z.to_nat FLASH_JOURNAL_SECTOR := 0]> (f_read f)) f).
Definition flash_journal_reset_write_pointer : FM unit :=
  modify (fun f => set_f_write (<[Z.to_nat FLASH_JOURNAL_SECTOR := 0]> (f_write f)) f).
Definition flash_journal_set_write_pointer (pom : Z) : FM unit :=
  modify (fun f => set_f_write (<[Z.to_nat FLASH_JOURNAL_SECTOR :=
    u32 (List.nth (Z.to_nat FLASH_JOURNAL_SECTOR) (f_read f) 0 + pom)]> (f_write f)) f).
End driver.
