(* ===== verification/FlashSpec.v ===== *)
(** * The flash driver: appending and reading back

    The journal sector as a list of words behind a read and a write position. *)
From S2P Require Import Prelude Utils Flash.

Definition journal_base : nat := Z.to_nat 12288.
Definition erased : Z := 0xFFFFFFFF.
Definition word_ok (w : Z) : Prop := 0 <= w < 2 ^ 32.

(** The flash with this contents and these journal positions, and no sector
    above 3 left over in the control register. *)
Record jstate (f : flash) (mem : list Z) (rd wr : Z) : Prop := {
  js_mem : f_mem f = mem;
  js_reads : length (f_read f) = 8%nat;
  js_writes : length (f_write f) = 8%nat;
  js_rd : List.nth 3 (f_read f) 0 = rd;
  js_wr : List.nth 3 (f_write f) 0 = wr;
  js_sel : Z.land (f_cr f) 0x60 = 0;
}.

(** The wait loops of the driver never wait: the bit they test does not fit
    the 8-bit variable it is stored in. *)
Lemma flash_wait_never sr f : flash_wait sr f = Ok (tt, f).
Proof.
  unfold flash_wait. replace (u8 (Z.land sr FLASH_SR_BUSY)) with 0; [done|].
  unfold u8. rewrite <- Z.land_ones by lia. rewrite <- Z.land_assoc.
  change (Z.land FLASH_SR_BUSY (Z.ones 8)) with 0. by rewrite Z.land_0_r.
Qed.

(** ** Register bits *)

Lemma land_lor_0 a m k : Z.land a k = 0 -> Z.land m k = 0 -> Z.land (Z.lor a m) k = 0.
Proof. intros H1 H2. by rewrite Z.land_lor_distr_l, H1, H2. Qed.
Lemma land_land_0 a m k : Z.land a k = 0 -> Z.land (Z.land a m) k = 0.
Proof. intros H. by rewrite <- Z.land_assoc, (Z.land_comm m), Z.land_assoc, H. Qed.
Lemma land_lnot_0 a k : Z.land (Z.land a (Z.lnot k)) k = 0.
Proof. by rewrite <- Z.land_assoc, (Z.land_comm (Z.lnot k)), Z.land_lnot_diag, Z.land_0_r. Qed.
#[export] Hint Resolve land_lor_0 land_land_0 land_lnot_0 : kernel.

Lemma pg_set a : Z.land (Z.lor a FLASH_CR_PG) FLASH_CR_PG <> 0.
Proof.
  intros E. apply (f_equal (fun z => Z.testbit z 0)) in E.
  rewrite Z.land_spec, Z.lor_spec in E. change (Z.testbit FLASH_CR_PG 0) with true in E.
  rewrite orb_true_r in E. done.
Qed.

(** ** Appending *)

Lemma lor_into a k k' : Z.land a k' = 0 -> Z.land a (Z.lor k k') = Z.land a k.
Proof. intros Ha. by rewrite Z.land_lor_distr_r, Ha, Z.lor_0_r. Qed.
Lemma lor_absorbs a k : Z.lor (Z.land a k) k = k.
Proof. apply Z.bits_inj'. intros n _. rewrite Z.lor_spec, Z.land_spec. by destruct (Z.testbit a n), (Z.testbit k n). Qed.

Section flash.
Context `{NorFlash} (sr : Z).

Fixpoint program_at (mem : list Z) (p : nat) (data : list Z) : list Z :=
  match data with
  | [] => mem
  | w :: data => program_at (alter (fun old => nor_program old w) p mem) (S p) data
  end.

Lemma program_at_length data mem p : length (program_at mem p data) = length mem.
Proof using. revert mem p. induction data as [|w data IH]; intros mem p; [done|]. cbn. by rewrite IH, length_alter. Qed.

Lemma program_at_erased data pre post :
  Forall word_ok data ->
  program_at (pre ++ repeat erased (length data) ++ post) (length pre) data = pre ++ data ++ post.
Proof using.
  intros Hd. revert pre. induction Hd as [|w data Hw _ IH]; intros pre; [done|].
  cbn [length repeat app program_at]. rewrite alter_app_r_alt by lia. rewrite Nat.sub_diag. cbn [alter list_alter].
  rewrite nor_program_erased by done.
  specialize (IH (pre ++ [w])). rewrite length_app, Nat.add_1_r, <- !app_assoc in IH. exact IH.
Qed.

Lemma nth_alter3 (g : Z -> Z) l : length l = 8%nat ->
  List.nth 3 (alter g 3%nat l) 0 = g (List.nth 3 l 0) /\ length (alter g 3%nat l) = 8%nat.
Proof using. intros Hl. do 8 (destruct l as [|? l]; [done|]). split; [done|by rewrite length_alter]. Qed.

Lemma nth_insert3 v l : length l = 8%nat ->
  List.nth 3 (<[3%nat := v]> l) 0 = v /\ length (<[3%nat := v]> l) = 8%nat.
Proof using. intros Hl. do 8 (destruct l as [|? l]; [done|]). split; [done|by rewrite length_insert]. Qed.

Lemma flash_program_word_ok w f mem rd wr :
  jstate f mem rd wr -> Z.land (f_cr f) FLASH_CR_LOCK = 0 ->
  0 <= wr -> Z.of_nat journal_base + wr < Z.of_nat (length mem) -> Z.of_nat (length mem) < 2 ^ 32 ->
  exists f', flash_program_word sr FLASH_JOURNAL_SECTOR w f = Ok (tt, f') /\
    jstate f' (program_at mem (journal_base + Z.to_nat wr) [w]) rd (wr + 1) /\
    Z.land (f_cr f') FLASH_CR_LOCK = 0.
Proof using.
  intros [Hm Hr Hw Hrd Hwr Hs] Hl H0 Hb Hmx. destruct f as [m rs ws cr]. cbn in *. subst m.
  destruct (nth_alter3 (fun p => u32 (p + 1)) ws Hw) as [En El]. rewrite Hwr in En.
  unfold flash_program_word. change (FLASH_JOURNAL_SECTOR >? 7) with false. cbn match.
  unfold gets, cr_set, cr_clear, modify, mbind, prog_bind. cbn [f_write]. change (Z.to_nat FLASH_JOURNAL_SECTOR) with 3%nat.
  rewrite !flash_wait_never. cbn [f_cr set_f_cr f_mem f_read f_write].
  unfold flash_store, set_f_cr, set_f_mem. cbn [f_cr f_mem f_read f_write].
  rewrite (proj2 (Z.eqb_neq _ _) (pg_set _)). cbn [negb andb].
  rewrite (proj2 (Z.eqb_eq _ _)) by eauto using land_lor_0. rewrite Hwr.
  change (sector_base FLASH_JOURNAL_SECTOR) with (Z.of_nat journal_base).
  replace (Z.to_nat (Z.of_nat journal_base + wr)) with (journal_base + Z.to_nat wr)%nat by lia.
  destruct (lookup_lt_is_Some_2 mem (journal_base + Z.to_nat wr)) as [old Eo]; [lia|]. rewrite Eo.
  rewrite flash_wait_never. cbn. eexists. split; [done|]. split.
  - constructor; cbn; auto with kernel.
    + apply list_eq. intros i. destruct (decide (i = (journal_base + Z.to_nat wr)%nat)) as [->|Hi].
      * rewrite list_lookup_insert_eq by lia. by rewrite list_lookup_alter_eq, Eo.
      * by rewrite list_lookup_insert_ne, list_lookup_alter_ne by done.
    + rewrite En. apply u32_small. lia.
  - cbn. apply land_land_0, land_lor_0; [apply land_lor_0|]; done.
Qed.

Lemma append_words_ok data f mem rd wr :
  jstate f mem rd wr -> Z.land (f_cr f) FLASH_CR_LOCK = 0 ->
  0 <= wr -> Z.of_nat journal_base + wr + Z.of_nat (length data) <= Z.of_nat (length mem) ->
  Z.of_nat (length mem) < 2 ^ 32 ->
  exists f', append_words sr data f = Ok (tt, f') /\
    jstate f' (program_at mem (journal_base + Z.to_nat wr) data) rd (wr + Z.of_nat (length data)).
Proof using.
  revert f mem wr. induction data as [|w data IH]; intros f mem wr Hf Hl H0 Hb Hm.
  { exists f. cbn. by rewrite Z.add_0_r. }
  cbn [length] in *.
  destruct (flash_program_word_ok w f mem rd wr Hf Hl H0 ltac:(lia) Hm) as (f1 & E1 & H1 & Hl1).
  destruct (IH f1 _ (wr + 1) H1 Hl1 ltac:(lia)) as (f2 & E2 & H2); [rewrite program_at_length; lia..|].
  exists f2. split; [cbn [append_words]; by rewrite (prog_bind_ok _ _ _ _ _ E1)|].
  replace (wr + Z.of_nat (S (length data))) with (wr + 1 + Z.of_nat (length data)) by lia.
  replace (journal_base + Z.to_nat (wr + 1))%nat with (S (journal_base + Z.to_nat wr)) in H2 by lia. exact H2.
Qed.

(** Appending never faults while the flash has room, whatever was there. *)
Lemma flash_append_journal_ok data f mem rd wr :
  jstate f mem rd wr ->
  0 <= wr -> Z.of_nat journal_base + wr + Z.of_nat (length data) <= Z.of_nat (length mem) ->
  Z.of_nat (length mem) < 2 ^ 32 ->
  exists f', flash_append_journal sr data f = Ok (tt, f') /\
    jstate f' (program_at mem (journal_base + Z.to_nat wr) data) rd (wr + Z.of_nat (length data)).
Proof using.
  intros Hf H0 Hb Hm. unfold flash_append_journal.
  set (f0 := set_f_cr (Z.land (f_cr f) (Z.lnot FLASH_CR_LOCK)) f).
  assert (jstate f0 mem rd wr) as Hf0.
  { destruct Hf. constructor; try done. cbn. auto with kernel. }
  destruct (append_words_ok data f0 mem rd wr Hf0 (land_lnot_0 _ _) H0 Hb Hm) as (f1 & E1 & [? ? ? ? ? ?]).
  rewrite (prog_bind_ok flash_unlock _ f tt f0) by done. rewrite (prog_bind_ok _ _ _ _ _ E1).
  eexists. split; [done|]. constructor; cbn; auto with kernel.
Qed.

(** ** Erasing *)

(** Erasing sector 3 makes its words [erased] and touches no other word. *)
Lemma flash_erase_ok f mem rd wr :
  jstate f mem rd wr -> (journal_base + 4096 <= length mem)%nat ->
  exists f', flash_erase_sector sr FLASH_JOURNAL_SECTOR f = Ok (tt, f') /\
    jstate f' (take journal_base mem ++ repeat erased 4096 ++ drop (journal_base + 4096) mem) rd wr.
Proof using.
  intros [Hm Hr Hw Hrd Hwr Hs] Hl. unfold flash_erase_sector.
  change (FLASH_JOURNAL_SECTOR >? 7) with false. cbn match.
  unfold flash_unlock, cr_set, cr_clear, erase_selected, modify, mbind, prog_bind, set_f_cr, set_f_mem.
  rewrite flash_wait_never. cbn [f_mem f_read f_write f_cr]. rewrite flash_wait_never.
  eexists. split; [reflexivity|]. cbn [f_mem f_read f_write f_cr].
  set (cr := Z.lor (Z.lor _ FLASH_CR_SER) FLASH_CR_STRT).
  assert (Z.land (Z.shiftr cr FLASH_CR_SNB_Pos) 15 = 3) as ->.
  { unfold cr. set (a := Z.land (f_cr f) _). assert (Z.land a 0x60 = 0) as Ha by (by apply land_land_0).
    clearbody a. change 15 with (Z.shiftr 0x78 FLASH_CR_SNB_Pos). rewrite <- Z.shiftr_land.
    transitivity (Z.shiftr 0x18 FLASH_CR_SNB_Pos); [f_equal|done].
    rewrite !Z.land_lor_distr_l.
    change (Z.land a 0x78) with (Z.land a (Z.lor 0x18 0x60)). rewrite (lor_into a 0x18 0x60 Ha).
    set (b := Z.land a 0x18). transitivity (Z.lor (Z.lor (Z.lor (Z.lor b 0) 0x18) 0) 0); [done|].
    rewrite !Z.lor_0_r. apply lor_absorbs. }
  constructor; cbn [f_mem f_read f_write f_cr]; try done.
  - rewrite Hm. change (Z.to_nat (sector_base 3)) with journal_base. change (Z.to_nat _) with 4096%nat.
    do 2 f_equal. rewrite <- (length_take_le (drop journal_base mem) 4096) at 2 by (rewrite length_drop; lia).
    generalize (take 4096 (drop journal_base mem)). intros l. induction l as [|x l IH]; [done|]. cbn. by rewrite IH.
  - unfold cr. auto 12 with kernel.
Qed.

(** ** Reading *)

Lemma read_words_ok n i f :
  (i + n <= length (f_mem f))%nat -> read_words n (Z.of_nat i) f = Ok (take n (drop i (f_mem f)), f).
Proof using.
  revert i. induction n as [|n IH]; intros i Hi; [done|]. cbn [read_words].
  destruct (lookup_lt_is_Some_2 (f_mem f) i) as [w Ew]; [lia|].
  rewrite (prog_bind_ok _ _ f w f) by (unfold fetch; by rewrite Nat2Z.id, Ew).
  replace (Z.of_nat i + 1) with (Z.of_nat (S i)) by lia.
  rewrite (prog_bind_ok _ _ _ _ _ (IH (S i) ltac:(lia))). by rewrite (drop_S _ _ _ Ew).
Qed.

Lemma flash_read_journal_ok n f mem rd wr :
  jstate f mem rd wr -> 0 <= rd -> (journal_base + Z.to_nat rd + n <= length mem)%nat ->
  Z.of_nat (length mem) < 2 ^ 32 ->
  exists f', flash_read_journal (Z.of_nat n) f =
      Ok (take n (drop (journal_base + Z.to_nat rd) mem), f') /\
    jstate f' mem (rd + Z.of_nat n) wr.
Proof using.
  intros [Hm Hr Hw Hrd Hwr Hs] H0 Hl Hx. unfold flash_read_journal. change (Z.to_nat FLASH_JOURNAL_SECTOR) with 3%nat.
  rewrite (prog_bind_ok (gets _) _ f rd f) by (unfold gets; by rewrite Hrd).
  change (sector_base FLASH_JOURNAL_SECTOR) with (Z.of_nat journal_base).
  replace (Z.of_nat journal_base + rd) with (Z.of_nat (journal_base + Z.to_nat rd)) by lia.
  rewrite Nat2Z.id, (prog_bind_ok _ _ _ _ _ (read_words_ok n (journal_base + Z.to_nat rd) f ltac:(rewrite Hm; lia))). rewrite Hm.
  eexists. split; [done|]. destruct (nth_alter3 (fun p => u32 (p + Z.of_nat n)) _ Hr) as [E El].
  constructor; cbn; try done. rewrite E, Hrd. apply u32_small. lia.
Qed.
End flash.
