(* ===== verification/Lease.v ===== *)
(** * The lease table and its journal ([dhcp.c])

    Choosing addresses, the handlers of the DHCP messages, and the records
    that keep the table in flash. *)
From S2P Require Import Prelude Utils Dhcp Flash.

Definition LEASE_ST_FREE : Z := 0.
Definition LEASE_ST_OFFERED : Z := 1.
Definition LEASE_ST_BOUND : Z := 2.
Definition LEASE_ST_DECLINED : Z := 3.

Record lease_slot : Type := Slot {
  l_state : Z;
  l_key : bytes; (* LEASE_KEY_CAP *)
  l_key_len : Z; (* uint8_t *)
  l_expires_at : Z; (* uint32_t *)
}.
Record lease_table : Type := Table {
  t_slots : list lease_slot;
  t_size : Z; (* uint8_t *)
  t_start_addr : bytes; (* 4 *)
}.
Definition set_l_state (v : Z) (s : lease_slot) : lease_slot := Slot v (l_key s) (l_key_len s) (l_expires_at s).
Definition set_l_expires_at (v : Z) (s : lease_slot) : lease_slot := Slot (l_state s) (l_key s) (l_key_len s) v.
Definition set_t_slots (v : list lease_slot) (t : lease_table) : lease_table :=
  Table v (t_size t) (t_start_addr t).

(** ** Choosing an address *)

(** [now_seconds] is a 32-bit number of seconds. *)
Definition slot_alive (slot : lease_slot) (now_seconds : Z) : bool :=
  negb (l_state slot =? LEASE_ST_FREE) && (s32 (now_seconds - l_expires_at slot) <? 0).

(** [memcmp(a, b, n) == 0]; [n] is at most the length of both arrays. *)
Definition same_bytes (n : Z) (a b : bytes) : bool :=
  bool_decide (take (Z.to_nat n) a = take (Z.to_nat n) b).
Definition byte (a : bytes) (i : nat) : Z := default 0 (a !! i).

(** [start_addr] with [idx] added to its last byte. *)
Definition pool_addr (table : lease_table) (idx : Z) : bytes :=
  alter (fun b => u8 (b + idx)) 3%nat (t_start_addr table).

(** The clock is read again and again: [uptime i] is what [sys_uptime]
    returns, in milliseconds, when slot [i] is looked at. *)
Fixpoint chose_scan (n i : nat) (uptime : nat -> Z) (slots : list lease_slot) (key : bytes) (key_len : Z)
    (first_free : option nat) : result (option nat * option nat) :=
  match n with
  | O => Ok (None, first_free)
  | S n =>
      match slots !! i with
      | None => Trap Fault
      | Some slot =>
          let first_free :=
            if bool_decide (first_free = None) &&
               ((l_state slot =? LEASE_ST_FREE) || negb (slot_alive slot (uptime i / 1000)))
            then Some i else first_free in
          if negb (key_len =? l_key_len slot) || negb (same_bytes key_len (l_key slot) key)
          then chose_scan n (S i) uptime slots key key_len first_free
          else if l_state slot =? LEASE_ST_DECLINED
          then chose_scan n (S i) uptime slots key key_len first_free
          else Ok (Some i, first_free)
      end
  end.

(** The chosen address, [None] when [has_chosen] stays false, and the table. *)
Definition chose_address (uptime : nat -> Z) (table : lease_table) (key : bytes) (key_len lease_time : Z)
    : result (dhcp_status * option bytes * lease_table) :=
  if (key_len =? 0) || (key_len >? LEASE_KEY_CAP) then Ok (DHCP_ERR_ARG, None, table)
  else
    '(found, first_free) ←
      chose_scan (Z.to_nat (t_size table)) 0 uptime (t_slots table) key key_len None;
    let now := uptime (Z.to_nat (t_size table)) / 1000 in
    match found, first_free with
    | Some i, _ =>
        Ok (DHCP_OK, Some (pool_addr table (Z.of_nat i)),
            set_t_slots (alter (set_l_expires_at (u32 (now + lease_time))) i (t_slots table)) table)
    | None, Some i =>
        match t_slots table !! i with
        | None => Trap Fault
        | Some slot =>
            k ← slice key 0 key_len;
            k ← blit (l_key slot) 0 k;
            Ok (DHCP_OK, Some (pool_addr table (Z.of_nat i)),
                set_t_slots (<[i := Slot LEASE_ST_OFFERED k key_len (u32 (now + 60))]> (t_slots table)) table)
        end
    | None, None => Ok (DHCP_OK, None, table)
    end.

(** ** Records *)

Definition header_magic : bytes := [0x4c; 0x48; 0x44; 0x52].
Definition record_magic : bytes := [0x4c; 0x53; 0x4c; 0x54].
Definition JOURNAL_VER : Z := 1.

(** The four bytes of a word, lowest first. *)
Definition word_bytes (w : Z) : bytes := [u8 w; u8 (Z.shiftr w 8); u8 (Z.shiftr w 16); u8 (Z.shiftr w 24)].
(** The cast of a byte array to an array of words, and back. *)
Fixpoint words_of (bs : bytes) : list Z :=
  match bs with
  | a :: b :: c :: d :: bs => (a + 2 ^ 8 * b + 2 ^ 16 * c + 2 ^ 24 * d) :: words_of bs
  | _ => []
  end.
Definition bytes_of (ws : list Z) : bytes := concat (word_bytes <$> ws).

(** A byte past the end of [slot->key] faults: 16 bytes are copied. *)
Definition serialize_record (slot : lease_slot) (addr : bytes) : result bytes :=
  key ← slice (l_key slot) 0 16;
  let body := record_magic ++ [u8 (l_state slot); u8 (l_key_len slot)] ++
    [byte addr 0; byte addr 1; byte addr 2; byte addr 3] ++ word_bytes (l_expires_at slot) ++ key ++ [0] in
  Ok (body ++ [u8 (crc32 body)]).

Definition compact_header (table : lease_table) : bytes :=
  let a := t_start_addr table in
  let body := header_magic ++ [0; JOURNAL_VER] ++ [0; 32] ++ [byte a 0; byte a 1; byte a 2; byte a 3] in
  body ++ [u8 (t_size table)] ++ [u8 (crc32 body)] ++ [0; 0].

Section journal.
Context `{NorFlash} (sr : Z).

Definition liftr {A} (m : result A) : FM A := fun f =>
  match m with Ok a => Ok (a, f) | Trap e => Trap e end.

Definition write_record (record : bytes) : FM unit := flash_append_journal sr (words_of record).

Fixpoint compact_loop (n : nat) (i : nat) (table : lease_table) : FM unit :=
  match n with
  | O => mret tt
  | S n =>
      match t_slots table !! i with
      | None => raise Fault
      | Some slot =>
          (if l_state slot =? LEASE_ST_FREE then mret tt
           else record ← liftr (serialize_record slot (pool_addr table (Z.of_nat i))); write_record record);;
          compact_loop n (S i) table
      end
  end.

Definition journal_compact (table : lease_table) : FM unit :=
  flash_journal_reset_write_pointer;;
  flash_program_journal sr (words_of (compact_header table));;
  compact_loop (Z.to_nat (t_size table)) 0 table.

(** What a valid record does to the table. *)
Definition load_record (table : lease_table) (b : bytes) : lease_table :=
  let idx := u8 (byte b 9 - byte (t_start_addr table) 3) in
  if idx >=? t_size table then table
  else
    let expires := Z.lor (Z.lor (Z.lor (byte b 10) (Z.shiftl (byte b 11) 8)) (Z.shiftl (byte b 12) 16))
                         (Z.shiftl (byte b 13) 24) in
    set_t_slots (<[Z.to_nat idx := Slot (byte b 4) (take 16 (drop 14 b)) (byte b 5) (u32 expires)]>
                   (t_slots table)) table.

(** Every turn reads 8 words; the loop leaves the flash before [fuel] runs out
    when [fuel] is its length. *)
Fixpoint load_loop (fuel : nat) (table : lease_table) (should_compact : bool) : FM (lease_table * bool) :=
  match fuel with
  | O => raise Diverge
  | S fuel =>
      ws ← flash_read_journal 8;
      let b := bytes_of ws in
      if negb (bool_decide (take 4 b = record_magic)) then mret (table, should_compact)
      else if negb (u8 (crc32 (take 31 b)) =? byte b 31) then load_loop fuel table true
      else load_loop fuel (load_record table b) should_compact
  end.

(** The table and [*should_compact]. *)
Definition load_lease_table (table : lease_table) : FM (lease_table * bool) :=
  ws ← flash_read_journal 4;
  let h := bytes_of ws in
  if negb (bool_decide (take 4 h = header_magic)) || negb (byte h 4 =? 0) ||
     negb (byte h 5 =? JOURNAL_VER) || negb (byte h 6 =? 0) || negb (byte h 7 =? 32) ||
     negb (bool_decide (take 4 (drop 8 h) = take 4 (t_start_addr table))) ||
     negb (byte h 12 =? t_size table)
  then flash_journal_reset_read_pointer;; mret (table, true)
  else
    fuel ← gets (fun f => S (length (f_mem f)));
    '(table, should_compact) ← load_loop fuel table false;
    flash_journal_set_write_pointer (-8);;
    mret (table, should_compact).

(** [setup_lease_table], with the zeroed slots of a fresh allocation. *)
Definition setup_lease_table (cfg : dhcp_cfg) : FM lease_table :=
  let size := u8 (byte (g_end_addr cfg) 3 - byte (g_start_addr cfg) 3 + 1) in
  let slots := repeat (Slot 0 (repeat 0 16) 0 0) (Z.to_nat size) in
  '(table, should_compact) ← load_lease_table (Table slots size (take 4 (g_start_addr cfg)));
  whenb should_compact (journal_compact table);;
  mret table.
End journal.
