(* ===== verification/JournalSpec.v ===== *)
(** * The journal: what a reboot finds

    Records, their bytes and words, and the proof that loading replays them. *)
From S2P Require Import Prelude Utils Dhcp DhcpSpec Flash FlashSpec Lease.

(** ** Bytes and words *)

Lemma u8_word w k : 0 <= w -> 0 <= k -> u8 (Z.shiftr w k) = w / 2 ^ k mod 256.
Proof. intros. unfold u8. by rewrite Z.shiftr_div_pow2. Qed.

Lemma word_bytes_of a b c d :
  is_byte a -> is_byte b -> is_byte c -> is_byte d ->
  word_bytes (a + 2 ^ 8 * b + 2 ^ 16 * c + 2 ^ 24 * d) = [a; b; c; d].
Proof.
  unfold is_byte, word_bytes. intros. set (w := a + _ + _ + _). rewrite !u8_word by lia.
  unfold u8. repeat f_equal; unfold w; Z.to_euclidean_division_equations; lia.
Qed.

Lemma bytes_words bs k :
  Forall is_byte bs -> length bs = (4 * k)%nat -> bytes_of (words_of bs) = bs /\ length (words_of bs) = k /\
  Forall word_ok (words_of bs).
Proof.
  revert bs. induction k as [|k IH]; intros bs Hb Hl; [by destruct bs|].
  destruct bs as [|a [|b [|c [|d bs]]]]; cbn [length] in Hl; [lia..|].
  do 4 apply Forall_cons in Hb as [? Hb]. destruct (IH bs Hb ltac:(lia)) as (E1 & E2 & E3).
  cbn [words_of]. split_and!.
  - unfold bytes_of in *. cbn [fmap list_fmap concat]. by rewrite word_bytes_of, E1 by done.
  - cbn. by rewrite E2.
  - constructor; [|done]. unfold is_byte, word_ok in *. lia.
Qed.

Lemma word_bytes_byte w : Forall is_byte (word_bytes w).
Proof. unfold word_bytes. repeat constructor; apply u8_range. Qed.

(** The expiry is read back. *)
Lemma expires_back w : 0 <= w < 2 ^ 32 ->
  u32 (Z.lor (Z.lor (Z.lor (u8 w) (Z.shiftl (u8 (Z.shiftr w 8)) 8)) (Z.shiftl (u8 (Z.shiftr w 16)) 16))
         (Z.shiftl (u8 (Z.shiftr w 24)) 24)) = w.
Proof.
  intros Hw. rewrite !u8_word by lia. unfold u8.
  rewrite (lor_shiftl (w mod 256)) by (Z.to_euclidean_division_equations; lia).
  rewrite (lor_shiftl (_ + _ * 2 ^ 8)) by (Z.to_euclidean_division_equations; lia).
  rewrite (lor_shiftl (_ + _ * 2 ^ 16)) by (Z.to_euclidean_division_equations; lia).
  rewrite u32_small; Z.to_euclidean_division_equations; lia.
Qed.

(** ** Records *)

Record slot_ok (s : lease_slot) : Prop := {
  so_state : 0 <= l_state s < 256;
  so_key : length (l_key s) = 16%nat;
  so_key_bytes : Forall is_byte (l_key s);
  so_key_len : is_byte (l_key_len s);
  so_expires : 0 <= l_expires_at s < 2 ^ 32;
}.
Record table_ok (t : lease_table) : Prop := {
  to_size : Z.of_nat (length (t_slots t)) = t_size t;
  to_bound : t_size t < 256;
  to_start : length (t_start_addr t) = 4%nat;
  to_start_bytes : Forall is_byte (t_start_addr t);
  to_slots : Forall slot_ok (t_slots t);
}.

Record rec_ok (r : bytes) : Prop := {
  ro_length : length r = 32%nat;
  ro_bytes : Forall is_byte r;
  ro_magic : take 4 r = record_magic;
}.
Definition rec_valid (r : bytes) : bool := u8 (crc32 (take 31 r)) =? byte r 31.

Lemma byte_is_byte a i : Forall is_byte a -> is_byte (byte a i).
Proof.
  intros Ha. unfold byte. destruct (a !! i) as [b|] eqn:E; [|cbn; unfold is_byte; lia].
  by apply (proj1 (Forall_lookup _ _) Ha _ _ E).
Qed.

Lemma pool_addr_ok t i :
  table_ok t -> length (pool_addr t i) = 4%nat /\ Forall is_byte (pool_addr t i) /\
  byte (pool_addr t i) 3 = u8 (byte (t_start_addr t) 3 + i).
Proof.
  intros [_ _ Hl Hb _]. unfold pool_addr. destruct (t_start_addr t) as [|a [|b [|c [|d [|]]]]]; try done.
  do 4 apply Forall_cons in Hb as [? Hb]. cbn. split_and!; [done| |done].
  repeat apply Forall_cons_2; try done. apply u8_range.
Qed.

Definition record_of (s : lease_slot) (addr : bytes) : bytes :=
  let body := record_magic ++ [u8 (l_state s); u8 (l_key_len s)] ++
    [byte addr 0; byte addr 1; byte addr 2; byte addr 3] ++ word_bytes (l_expires_at s) ++ l_key s ++ [0] in
  body ++ [u8 (crc32 body)].

Lemma serialize_record_ok s addr :
  slot_ok s -> serialize_record s addr = Ok (record_of s addr).
Proof.
  intros [_ Hk _ _ _]. unfold serialize_record. rewrite slice_ok by lia. cbn [mbind result_bind].
  replace (sub (l_key s) (Z.to_nat 0) (Z.to_nat 16)) with (l_key s); [done|].
  unfold sub. lit_nat. by rewrite drop_0, take_ge by lia.
Qed.

Lemma record_of_ok s addr :
  slot_ok s -> Forall is_byte addr -> rec_ok (record_of s addr) /\ rec_valid (record_of s addr) = true.
Proof.
  intros [Hs Hk Hkb Hkl He] Ha. unfold record_of. set (body := record_magic ++ _).
  assert (length body = 31%nat) as Hb by (unfold body; rewrite !length_app; cbn; lia).
  split; [constructor|].
  - rewrite length_app, Hb. done.
  - rewrite Forall_app. split; [|repeat constructor; apply u8_range].
    unfold body. rewrite !Forall_app. split_and!; try done.
    + repeat constructor; done.
    + repeat constructor; apply u8_range.
    + repeat constructor; by apply byte_is_byte.
    + apply word_bytes_byte.
    + repeat constructor. unfold is_byte. lia.
  - done.
  - unfold rec_valid. rewrite take_app_length' by done. unfold byte.
    rewrite lookup_app_r, Hb by lia. apply Z.eqb_refl.
Qed.

Lemma byte_S x l k : byte (x :: l) (S k) = byte l k.
Proof. done. Qed.
Lemma byte_0 x l : byte (x :: l) 0 = x.
Proof. done. Qed.

(** A record gives back the slot it was made from. *)
Lemma load_record_of t t' s i :
  table_ok t -> slot_ok s -> t_start_addr t' = t_start_addr t -> t_size t' = t_size t ->
  Z.of_nat i < t_size t ->
  load_record t' (record_of s (pool_addr t (Z.of_nat i))) = set_t_slots (<[i := s]> (t_slots t')) t'.
Proof.
  intros Ht [Hs Hk Hkb Hkl He] Est Esz Hi. destruct (pool_addr_ok t (Z.of_nat i) Ht) as (_ & _ & Ha).
  pose proof (to_bound _ Ht). set (addr := pool_addr _ _) in *.
  assert (exists c, record_of s addr =
    [0x4c; 0x53; 0x4c; 0x54; u8 (l_state s); u8 (l_key_len s); byte addr 0; byte addr 1; byte addr 2; byte addr 3;
     u8 (l_expires_at s); u8 (Z.shiftr (l_expires_at s) 8); u8 (Z.shiftr (l_expires_at s) 16);
     u8 (Z.shiftr (l_expires_at s) 24)] ++ l_key s ++ [0; c]) as [c ->].
  { eexists. unfold record_of. rewrite <- !app_assoc. reflexivity. }
  unfold load_record. cbn [app]. rewrite !byte_S, !byte_0.
  rewrite Ha, Est, Esz.
  match goal with |- context [drop 14 ?l] => change (drop 14 l) with (l_key s ++ [0; c]) end.
  rewrite take_app_length' by done.
  assert (u8 (u8 (byte (t_start_addr t) 3 + Z.of_nat i) - byte (t_start_addr t) 3) = Z.of_nat i) as ->.
  { pose proof (byte_is_byte (t_start_addr t) 3 (to_start_bytes _ Ht)). unfold is_byte in *.
    clear -H H0 Hi. unfold u8. rewrite Zminus_mod_idemp_l. replace (_ - _) with (Z.of_nat i) by lia.
    apply Z.mod_small. lia. }
  rewrite Z.geb_leb, (proj2 (Z.leb_gt _ _)) by lia. rewrite Nat2Z.id, (u8_small (l_state s)), (u8_small (l_key_len s)) by done.
  rewrite expires_back by done. by destruct s.
Qed.

(** ** Loading *)

Definition replay (tc : lease_table * bool) (r : bytes) : lease_table * bool :=
  if rec_valid r then (load_record tc.1 r, tc.2) else (tc.1, true).

Definition rec_words (recs : list bytes) : list Z := concat (words_of <$> recs).

Lemma rec_words_length recs : Forall rec_ok recs -> length (rec_words recs) = (8 * length recs)%nat.
Proof.
  unfold rec_words. induction 1 as [|r recs [Hl Hb _] _ IH]; [done|]. cbn [fmap list_fmap concat length].
  rewrite length_app, IH. destruct (bytes_words r 8 Hb ltac:(lia)) as (_ & -> & _). lia.
Qed.

Section load.
Context `{NorFlash} (sr : Z).

(** The journal ends at words that are no record. *)
Definition no_record (tail : list Z) : Prop :=
  (8 <= length tail)%nat /\ take 4 (bytes_of (take 8 tail)) <> record_magic.

Lemma load_loop_ok recs : forall fuel tc tail f mem rd wr,
  Forall rec_ok recs -> no_record tail -> (length recs < fuel)%nat ->
  jstate f mem rd wr -> 0 <= rd -> Z.of_nat (length mem) < 2 ^ 32 ->
  drop (journal_base + Z.to_nat rd) mem = rec_words recs ++ tail ->
  exists f', load_loop fuel tc.1 tc.2 f = Ok (foldl replay tc recs, f') /\
    jstate f' mem (rd + 8 * Z.of_nat (length recs) + 8) wr.
Proof using.
  induction recs as [|r recs IH]; intros fuel tc tail f mem rd wr Hr Ht Hf Hj H0 Hm Hd;
    (destruct fuel as [|fuel]; [cbn in Hf; lia|]); cbn [load_loop].
  - assert (journal_base + Z.to_nat rd + 8 <= length mem)%nat as Hlen.
    { apply (f_equal length) in Hd. rewrite length_drop in Hd. destruct Ht as [Ht _].
      rewrite length_app in Hd. cbn [length rec_words fmap list_fmap concat] in Hd. lia. }
    destruct (flash_read_journal_ok 8 f mem rd wr Hj H0 Hlen Hm) as (f' & E & Hj').
    change (Z.of_nat 8) with 8 in *. rewrite (prog_bind_ok _ _ _ _ _ E), Hd. destruct Ht as [_ Ht].
    cbn [rec_words fmap list_fmap concat app]. rewrite bool_decide_false by done.
    exists f'. split; [by destruct tc|]. by rewrite Z.add_0_r.
  - apply Forall_cons in Hr as [[Hl Hb Hmg] Hr]. destruct (bytes_words r 8 Hb ltac:(lia)) as (Ebs & Ewl & _).
    unfold rec_words in Hd. cbn [fmap list_fmap concat] in Hd. rewrite <- app_assoc in Hd.
    assert (journal_base + Z.to_nat rd + 8 <= length mem)%nat as Hlen.
    { apply (f_equal length) in Hd. rewrite length_drop, length_app in Hd. lia. }
    destruct (flash_read_journal_ok 8 f mem rd wr Hj H0 Hlen Hm) as (f' & E & Hj').
    change (Z.of_nat 8) with 8 in *. rewrite (prog_bind_ok _ _ _ _ _ E), Hd.
    rewrite take_app_length' by done. rewrite Ebs, bool_decide_true by done. cbn [negb].
    assert (drop (journal_base + Z.to_nat (rd + 8)) mem = rec_words recs ++ tail) as Hd'.
    { replace (journal_base + Z.to_nat (rd + 8))%nat with (journal_base + Z.to_nat rd + 8)%nat by lia.
      by rewrite <- drop_drop, Hd, drop_app_length' by done. }
    destruct (IH fuel (replay tc r) tail f' mem (rd + 8) wr Hr Ht ltac:(cbn in Hf; lia) Hj' ltac:(lia) Hm Hd')
      as (f2 & E2 & Hj2).
    exists f2. split.
    + cbn [foldl]. rewrite <- E2. unfold replay, rec_valid. by destruct (_ =? _).
    + cbn [length]. replace (rd + 8 * Z.of_nat (S (length recs)) + 8)
        with (rd + 8 + 8 * Z.of_nat (length recs) + 8) by lia. done.
Qed.

(** A journal for this table, with these records and erased words behind. *)
Record journal (f : flash) (t : lease_table) (recs : list bytes) (rd : Z) : Prop := {
  jr_recs : Forall rec_ok recs;
  jr_room : (4 + 8 * length recs <= 4096)%nat;
  jr_mem : exists pre post,
    jstate f (pre ++ (words_of (compact_header t) ++ rec_words recs ++
                      repeat erased (4096 - (4 + 8 * length recs))) ++ post) rd
      (4 + 8 * Z.of_nat (length recs)) /\
    length pre = journal_base /\ Z.of_nat (length pre + 4096 + length post) < 2 ^ 32;
}.

Lemma header_shape t : exists c, compact_header t =
  [0x4c; 0x48; 0x44; 0x52; 0; 1; 0; 32; byte (t_start_addr t) 0; byte (t_start_addr t) 1;
   byte (t_start_addr t) 2; byte (t_start_addr t) 3; u8 (t_size t); u8 c; 0; 0].
Proof using. eexists. unfold compact_header. reflexivity. Qed.

Lemma header_ok t : table_ok t -> 0 <= t_size t ->
  length (compact_header t) = 16%nat /\ Forall is_byte (compact_header t).
Proof using.
  intros [_ Hb Hs Hsb _] H0. destruct (header_shape t) as [c ->]. split; [done|].
  repeat apply Forall_cons_2; try apply Forall_nil_2; try apply u8_range;
    first [by apply byte_is_byte | unfold is_byte; lia].
Qed.

Lemma no_record_erased n post : (8 <= n)%nat -> no_record (repeat erased n ++ post).
Proof using.
  intros Hn. replace n with (8 + (n - 8))%nat by lia. rewrite repeat_app, <- app_assoc. split.
  - rewrite !length_app, repeat_length. lia.
  - by rewrite take_app_length'.
Qed.

(** Resetting the processor: the positions start at 0 again. *)
Definition reboot (f : flash) : flash := Flash (f_mem f) (repeat 0 8) (repeat 0 8) 0.

Lemma load_lease_table_ok f t t' recs rd :
  journal f t recs rd -> table_ok t -> (4 + 8 * S (length recs) <= 4096)%nat ->
  t_size t' = t_size t -> t_start_addr t' = t_start_addr t ->
  exists f' rd', load_lease_table t' (reboot f) = Ok (foldl replay (t', false) recs, f') /\
    journal f' t recs rd'.
Proof using.
  intros [Hr _ (pre & post & [Hm _ _ _ _ _] & Hpre & Hmx)] Ht Hroom Esz Est.
  assert (0 <= t_size t) as H0 by (pose proof (to_size _ Ht); lia).
  destruct (header_ok t Ht H0) as [Hhl Hhb]. destruct (bytes_words _ 4 Hhb ltac:(lia)) as (Ehb & Ehl & _).
  set (mem := pre ++ _ ++ post) in *.
  assert (length mem = (length pre + 4096 + length post)%nat) as Hlen.
  { unfold mem. rewrite !length_app, Ehl, rec_words_length, repeat_length by done. lia. }
  assert (jstate (reboot f) mem 0 0) as Hj by (by constructor).
  destruct (flash_read_journal_ok 4 (reboot f) mem 0 0 Hj ltac:(lia) ltac:(lia) ltac:(lia)) as (f1 & E1 & Hj1).
  change (Z.of_nat 4) with 4 in *. unfold load_lease_table. rewrite (prog_bind_ok _ _ _ _ _ E1).
  assert (drop (journal_base + Z.to_nat 0) mem = words_of (compact_header t) ++ rec_words recs ++
    repeat erased (4096 - (4 + 8 * length recs)) ++ post) as Hd0.
  { unfold mem. rewrite drop_app_length' by lia. by rewrite <- !app_assoc. }
  rewrite Hd0, take_app_length', Ehb by done. clear Ehb Hhb.
  replace (take 4 (drop 8 (compact_header t))) with (take 4 (t_start_addr t)).
  2: { pose proof (to_start _ Ht) as Hs. destruct (header_shape t) as [c ->].
       by destruct (t_start_addr t) as [|a [|b [|d [|e [|]]]]]. }
  assert (t_size t = u8 (t_size t)) as Es by (rewrite u8_small; [done|pose proof (to_bound _ Ht); lia]).
  rewrite Est, Esz, (bool_decide_true (take 4 (t_start_addr t) = _)) by done.
  destruct (header_shape t) as [c Eh]. rewrite Eh. rewrite !byte_S, !byte_0, <- Es, !Z.eqb_refl.
  rewrite bool_decide_true by done. cbn [negb orb Z.eqb JOURNAL_VER Pos.eqb].
  rewrite (prog_bind_ok (gets _) _ f1 (S (length mem)) f1) by (unfold gets; by rewrite (js_mem _ _ _ _ Hj1)).
  assert (drop (journal_base + Z.to_nat (0 + 4)) mem = rec_words recs ++
    repeat erased (4096 - (4 + 8 * length recs)) ++ post) as Hd4.
  { replace (journal_base + Z.to_nat (0 + 4))%nat with (journal_base + Z.to_nat 0 + 4)%nat by lia.
    by rewrite <- drop_drop, Hd0, drop_app_length' by done. }
  assert (no_record (repeat erased (4096 - (4 + 8 * length recs)) ++ post)) as Hnr by (apply no_record_erased; lia).
  destruct (load_loop_ok recs (S (length mem)) (t', false) _ f1 mem (0 + 4) 0 Hr Hnr ltac:(lia) Hj1 ltac:(lia)
    ltac:(lia) Hd4) as (f2 & E2 & Hj2).
  cbn [fst snd] in E2.
  rewrite (prog_bind_ok _ _ _ _ _ E2). destruct (foldl replay (t', false) recs) as [t1 c1].
  eexists _, _. split; [done|]. constructor; [done|lia|]. exists pre, post. split; [|split; assumption].
  destruct Hj2 as [Hm2 Hr2 Hw2 Hrd2 Hwr2 Hs2].
  destruct (nth_insert3 (u32 (List.nth 3 (f_read f2) 0 + -8)) _ Hw2) as [En El].
  constructor; cbn [set_f_write f_mem f_read f_write f_cr];
    [exact Hm2|exact Hr2|exact El|exact Hrd2| |exact Hs2].
  etransitivity; [exact En|]. rewrite Hrd2, u32_small; lia.
Qed.

(** ** Appending and compacting *)

(** Words appended right behind what is written end up in the journal. *)
Lemma append_at pre body data k post f rd :
  jstate f (pre ++ (body ++ repeat erased k) ++ post) rd (Z.of_nat (length body)) ->
  length pre = journal_base -> Forall word_ok data -> (length data <= k)%nat ->
  Z.of_nat (length pre + (length body + k) + length post) < 2 ^ 32 ->
  exists f', flash_append_journal sr data f = Ok (tt, f') /\
    jstate f' (pre ++ (body ++ data ++ repeat erased (k - length data)) ++ post) rd
      (Z.of_nat (length body) + Z.of_nat (length data)).
Proof using.
  intros Hj Hp Hd Hk Hm.
  destruct (flash_append_journal_ok sr data f _ rd _ Hj) as (f' & E & Hj');
    [lia|rewrite !length_app, repeat_length; lia..|].
  exists f'. split; [exact E|].
  replace k with (length data + (k - length data))%nat in Hj' at 1 by lia.
  rewrite repeat_app, Nat2Z.id in Hj'.
  pose proof (program_at_erased data (pre ++ body) (repeat erased (k - length data) ++ post) Hd) as Ep.
  rewrite length_app, Hp in Ep. rewrite <- !app_assoc in *. rewrite Ep in Hj'. exact Hj'.
Qed.

Lemma journal_append f t recs rd r :
  journal f t recs rd -> table_ok t -> rec_ok r -> (4 + 8 * S (length recs) <= 4096)%nat ->
  exists f', write_record sr r f = Ok (tt, f') /\ journal f' t (recs ++ [r]) rd.
Proof using.
  intros [Hr _ (pre & post & Hj & Hpre & Hmx)] Ht Hrec Hroom.
  assert (0 <= t_size t) as H0 by (pose proof (to_size _ Ht); lia).
  destruct (header_ok t Ht H0) as [Hhl Hhb]. destruct (bytes_words _ 4 Hhb ltac:(lia)) as (_ & Ehl & _).
  destruct (bytes_words r 8 (ro_bytes _ Hrec) ltac:(rewrite (ro_length _ Hrec); lia)) as (_ & Erl & Erw).
  pose proof (rec_words_length recs Hr) as Erec.
  set (body := words_of (compact_header t) ++ rec_words recs) in *.
  assert (Z.of_nat (length body) = 4 + 8 * Z.of_nat (length recs)) as Hbody
    by (unfold body; rewrite length_app; lia).
  rewrite (app_assoc (words_of _)) in Hj. fold body in Hj. rewrite <- Hbody in Hj.
  destruct (append_at pre body (words_of r) _ post f rd Hj Hpre Erw) as (f' & E & Hj'); [lia|lia|].
  exists f'. split; [exact E|]. constructor.
  - apply Forall_app. split; [exact Hr|by constructor].
  - rewrite length_app. cbn [length]. lia.
  - exists pre, post. split; [|split; assumption]. rewrite Erl, Hbody in Hj'.
    unfold rec_words. rewrite fmap_app, concat_app, length_app. cbn [length fmap list_fmap concat].
    rewrite app_nil_r. fold (rec_words recs).
    replace (4096 - (4 + 8 * (length recs + 1)))%nat with (4096 - (4 + 8 * length recs) - 8)%nat by lia.
    replace (4 + 8 * Z.of_nat (length recs + 1)) with (4 + 8 * Z.of_nat (length recs) + Z.of_nat 8) by lia.
    unfold body in Hj'. rewrite <- !app_assoc in Hj' |- *. exact Hj'.
Qed.

(** What compaction writes: a record for every slot that is not free. *)
Fixpoint live_log (i : nat) (slots : list lease_slot) : list (nat * lease_slot) :=
  match slots with
  | [] => []
  | s :: slots => if l_state s =? LEASE_ST_FREE then live_log (S i) slots else (i, s) :: live_log (S i) slots
  end.
Definition log_records (t : lease_table) (log : list (nat * lease_slot)) : list bytes :=
  (fun e => record_of e.2 (pool_addr t (Z.of_nat e.1))) <$> log.

(** The calls that append the records of a log. *)
Fixpoint append_log (t : lease_table) (log : list (nat * lease_slot)) : FM unit :=
  match log with
  | [] => mret tt
  | (i, s) :: log =>
      record ← liftr (serialize_record s (pool_addr t (Z.of_nat i)));
      write_record sr record;;
      append_log t log
  end.

Lemma append_log_ok t log : forall f recs rd,
  table_ok t -> Forall (fun e => slot_ok e.2) log -> journal f t recs rd ->
  (4 + 8 * (length recs + length log) <= 4096)%nat ->
  exists f', append_log t log f = Ok (tt, f') /\ journal f' t (recs ++ log_records t log) rd.
Proof using.
  induction log as [|[i s] log IH]; intros f recs rd Ht Hl Hj Hroom.
  { exists f. cbn. by rewrite app_nil_r. }
  apply Forall_cons in Hl as [Hs Hl]. cbn [length snd] in *.
  destruct (pool_addr_ok t (Z.of_nat i) Ht) as (_ & Hab & _).
  destruct (journal_append f t recs rd (record_of s (pool_addr t (Z.of_nat i))) Hj Ht) as (f1 & E1 & Hj1).
  { apply record_of_ok; assumption. }
  { lia. }
  destruct (IH f1 _ rd Ht Hl Hj1) as (f2 & E2 & Hj2); [rewrite length_app; cbn [length]; lia|].
  exists f2. split.
  - cbn [append_log]. unfold liftr at 1, mbind at 1, prog_bind at 1. rewrite serialize_record_ok by done.
    by rewrite (prog_bind_ok _ _ _ _ _ E1).
  - rewrite <- app_assoc in Hj2. exact Hj2.
Qed.

Lemma compact_loop_log n : forall i t,
  (i + n = length (t_slots t))%nat -> Forall slot_ok (t_slots t) ->
  forall f, compact_loop sr n i t f = append_log t (live_log i (drop i (t_slots t))) f.
Proof using.
  induction n as [|n IH]; intros i t Hn Hs f; [by rewrite drop_ge by lia|]. cbn [compact_loop].
  destruct (lookup_lt_is_Some_2 (t_slots t) i) as [s Es]; [lia|]. rewrite Es, (drop_S _ _ _ Es).
  cbn [live_log]. destruct (l_state s =? LEASE_ST_FREE).
  - unfold mbind at 1, prog_bind at 1. cbn [mret prog_ret]. apply IH; [lia|done].
  - rewrite prog_bind_assoc. cbn [append_log]. unfold liftr, mbind at 1 3, prog_bind at 1 3.
    destruct (serialize_record s _); [|done]. unfold mbind, prog_bind. destruct (write_record sr _ _) as [[[] f1]|]; [|done].
    apply IH; [lia|done].
Qed.

Lemma live_log_ok i slots : Forall slot_ok slots -> Forall (fun e => slot_ok e.2) (live_log i slots).
Proof using. intros Hs. revert i. induction Hs; intros i; cbn; [done|]. destruct (_ =? _); auto. Qed.
Lemma live_log_length i slots : (length (live_log i slots) <= length slots)%nat.
Proof using.
  revert i. induction slots as [|s slots IH]; intros i; [done|]. cbn.
  specialize (IH (S i)). destruct (_ =? _); cbn [length]; lia.
Qed.
Lemma live_log_bound i slots :
  Forall (fun e => (e.1 < i + length slots)%nat) (live_log i slots).
Proof using.
  revert i. induction slots as [|s slots IH]; intros i; [done|]. cbn [live_log length].
  specialize (IH (S i)). replace (i + S (length slots))%nat with (S i + length slots)%nat by lia.
  destruct (_ =? _); [done|]. constructor; [cbn; lia|done].
Qed.

Lemma journal_compact_ok f t mem rd wr :
  table_ok t -> jstate f mem rd wr -> (journal_base + 4096 <= length mem)%nat -> Z.of_nat (length mem) < 2 ^ 32 ->
  exists f', journal_compact sr t f = Ok (tt, f') /\ journal f' t (log_records t (live_log 0 (t_slots t))) rd.
Proof using.
  intros Ht Hj Hl Hm. assert (0 <= t_size t) as H0 by (pose proof (to_size _ Ht); lia).
  destruct (header_ok t Ht H0) as [Hhl Hhb]. destruct (bytes_words _ 4 Hhb ltac:(lia)) as (_ & Ehl & Ehw).
  pose proof (to_size _ Ht). pose proof (to_bound _ Ht). pose proof (live_log_length 0 (t_slots t)).
  unfold journal_compact, flash_journal_reset_write_pointer, flash_program_journal.
  change (Z.to_nat FLASH_JOURNAL_SECTOR) with 3%nat.
  set (f0 := set_f_write (<[3%nat:=0]> (f_write f)) f).
  assert (jstate f0 mem rd 0) as Hj0.
  { destruct Hj as [E1 E2 E3 E4 E5 E6]. destruct (nth_insert3 0 _ E3) as [En El].
    constructor; cbn [f0 set_f_write f_mem f_read f_write f_cr]; assumption. }
  rewrite (prog_bind_ok (modify _) _ f tt f0) by done. clearbody f0.
  rewrite prog_bind_assoc.
  destruct (flash_erase_ok sr f0 mem rd 0 Hj0 Hl) as (f1 & E1 & Hj1). rewrite (prog_bind_ok _ _ _ _ _ E1).
  set (pre := take journal_base mem) in *. set (post := drop (journal_base + 4096) mem) in *.
  assert (length pre = journal_base) as Hpre by (unfold pre; rewrite length_take; lia).
  assert (length pre + 4096 + length post = length mem)%nat as Hsum
    by (rewrite Hpre; unfold post; rewrite length_drop; lia).
  destruct (append_at pre [] (words_of (compact_header t)) 4096 post f1 rd Hj1 Hpre Ehw) as (f2 & E2 & Hj2);
    [lia|cbn [length]; lia|].
  rewrite (prog_bind_ok _ _ _ _ _ E2).
  assert (journal f2 t [] rd) as Hjr.
  { constructor; [apply Forall_nil_2|cbn [length]; lia|]. exists pre, post. split; [|split; [exact Hpre|lia]].
    rewrite Ehl in Hj2. cbn [rec_words fmap list_fmap concat app length] in *. exact Hj2. }
  rewrite compact_loop_log by (try apply Ht; lia).
  destruct (append_log_ok t (live_log 0 (t_slots t)) f2 [] rd Ht) as (f3 & E3 & Hj3);
    [apply live_log_ok, Ht|exact Hjr|cbn [length]; lia|].
  exists f3. split; [|exact Hj3]. exact E3.
Qed.

(** ** What a reboot finds *)

Definition clear_slot (s : lease_slot) : lease_slot :=
  if l_state s =? LEASE_ST_FREE then Slot 0 (repeat 0 16) 0 0 else s.
Definition fresh (t : lease_table) : lease_table :=
  set_t_slots (repeat (Slot 0 (repeat 0 16) 0 0) (length (t_slots t))) t.
(** The slots after a log of updates. *)
Definition apply_log (log : list (nat * lease_slot)) (slots : list lease_slot) : list lease_slot :=
  foldl (fun l e => <[e.1 := e.2]> l) slots log.

Lemma apply_live_log slots A :
  apply_log (live_log (length A) slots) (A ++ repeat (Slot 0 (repeat 0 16) 0 0) (length slots)) =
  A ++ (clear_slot <$> slots).
Proof using.
  revert A. induction slots as [|s slots IH]; intros A; [done|]. cbn [live_log length repeat fmap list_fmap].
  unfold clear_slot at 1. destruct (l_state s =? LEASE_ST_FREE).
  - specialize (IH (A ++ [Slot 0 (repeat 0 16) 0 0])). rewrite length_app, Nat.add_1_r, <- !app_assoc in IH. exact IH.
  - unfold apply_log. cbn [foldl fst snd]. rewrite insert_app_r_alt, Nat.sub_diag by lia. cbn [insert list_insert].
    specialize (IH (A ++ [s])). rewrite length_app, Nat.add_1_r, <- !app_assoc in IH. exact IH.
Qed.

Lemma replay_log t log t' c :
  table_ok t -> t_size t' = t_size t -> t_start_addr t' = t_start_addr t ->
  Forall (fun e => slot_ok e.2 /\ (e.1 < length (t_slots t))%nat) log ->
  foldl replay (t', c) (log_records t log) = (set_t_slots (apply_log log (t_slots t')) t', c).
Proof using.
  intros Ht. revert t'. induction log as [|[i s] log IH]; intros t' Esz Est Hl; [by destruct t'|].
  apply Forall_cons in Hl as [[Hs Hi] Hl]. cbn [fst snd] in *.
  destruct (pool_addr_ok t (Z.of_nat i) Ht) as (_ & Hab & _).
  destruct (record_of_ok s _ Hs Hab) as [_ Hv]. unfold log_records. cbn [fmap list_fmap foldl fst snd].
  unfold replay at 2. rewrite Hv. cbn [fst snd].
  rewrite (load_record_of t t' s i Ht Hs Est Esz) by (rewrite <- (to_size _ Ht); lia).
  fold (log_records t log). rewrite IH by done. done.
Qed.

(** Compaction, a log of appended records, a reset, and loading: the table is
    the compacted one with the updates of the log applied in order. *)
Lemma journal_survives t f mem rd wr log :
  table_ok t -> jstate f mem rd wr -> (journal_base + 4096 <= length mem)%nat -> Z.of_nat (length mem) < 2 ^ 32 ->
  Forall (fun e => slot_ok e.2 /\ (e.1 < length (t_slots t))%nat) log ->
  (4 + 8 * (length (live_log 0 (t_slots t)) + length log + 1) <= 4096)%nat ->
  exists f1 f2 f3, journal_compact sr t f = Ok (tt, f1) /\ append_log t log f1 = Ok (tt, f2) /\
    load_lease_table (fresh t) (reboot f2) =
      Ok ((set_t_slots (apply_log log (clear_slot <$> t_slots t)) t, false), f3).
Proof using.
  intros Ht Hj Hl Hm Hlog Hroom.
  destruct (journal_compact_ok f t mem rd wr Ht Hj Hl Hm) as (f1 & E1 & Hj1).
  assert (length (log_records t (live_log 0 (t_slots t))) = length (live_log 0 (t_slots t))) as El
    by (apply length_fmap).
  destruct (append_log_ok t log f1 (log_records t (live_log 0 (t_slots t))) rd Ht) as (f2 & E2 & Hj2); [|exact Hj1|lia|].
  { eapply Forall_impl; [exact Hlog|]. by intros ? []. }
  destruct (load_lease_table_ok f2 t (fresh t) _ rd Hj2 Ht) as (f3 & rd3 & E3 & _); [|done|done|].
  { rewrite length_app, El. unfold log_records. rewrite length_fmap. lia. }
  exists f1, f2, f3. split_and!; [exact E1|exact E2|]. rewrite E3.
  unfold log_records. rewrite <- fmap_app. fold (log_records t (live_log 0 (t_slots t) ++ log)).
  rewrite (replay_log t); [|done..|].
  2: { apply Forall_app. split; [|exact Hlog]. apply Forall_and. split; [apply live_log_ok, Ht|].
       apply (live_log_bound 0). }
  do 3 f_equal. unfold fresh. cbn [t_slots set_t_slots]. unfold apply_log at 1. rewrite foldl_app.
  change (foldl _ (repeat _ _) _) with (apply_log (live_log (length (@nil lease_slot)) (t_slots t))
    ([] ++ repeat (Slot 0 (repeat 0 16) 0 0) (length (t_slots t)))).
  by rewrite apply_live_log.
Qed.
End load.
