(* ===== verification/Server.v ===== *)
(** * The DHCP server ([dhcp.c]: the handlers and one turn of [dhcp_task])

    The state of the task: the lease table, the flash, the message that is
    reused for every datagram, and the reply buffer. *)
From S2P Require Import Prelude Utils Dhcp Flash Lease.

Record net_send_args : Type := SendArgs {
  a_tx_data : ptr;
  a_tx_length : Z; (* uint16_t *)
  a_dst_ip : bytes; (* 4 *)
  a_dst_port : Z; (* uint16_t *)
  a_use_mac : bool;
  a_mac : bytes; (* 6 *)
}.
#[export] Instance net_send_args_eq : EqDecision net_send_args.
Proof. solve_decision. Defined.
Definition zero_args : net_send_args := SendArgs NULL 0 [0; 0; 0; 0] 0 false [0; 0; 0; 0; 0; 0].

Record server : Type := Server {
  v_table : lease_table;
  v_flash : flash;
  v_msg : dhcp_msg;
  v_reply : bytes;
}.
Abbreviation DM := (prog server).

Definition set_v_table (v : lease_table) (s : server) : server := Server v (v_flash s) (v_msg s) (v_reply s).
Definition set_v_flash (v : flash) (s : server) : server := Server (v_table s) v (v_msg s) (v_reply s).
Definition set_v_msg (v : dhcp_msg) (s : server) : server := Server (v_table s) (v_flash s) v (v_reply s).
Definition set_v_reply (v : bytes) (s : server) : server := Server (v_table s) (v_flash s) (v_msg s) v.

Section handlers.
Context `{NorFlash} (sr : Z) (cfg : dhcp_cfg) (reply_buffer : ptr).

Definition on_flash {A} (m : FM A) : DM A := fun s =>
  match m (v_flash s) with Ok (a, f) => Ok (a, set_v_flash f s) | Trap e => Trap e end.
Definition pure {A} (m : result A) : DM A := fun s =>
  match m with Ok a => Ok (a, s) | Trap e => Trap e end.

(** The slot of an address, by its last byte: [None] is the early return. *)
Definition slot_index (addr : bytes) (table : lease_table) : option nat :=
  let slot_idx := byte addr 3 - byte (t_start_addr table) 3 in
  if (slot_idx <? 0) || (slot_idx >=? t_size table) then None else Some (Z.to_nat slot_idx).
Definition fetch_slot (i : nat) : DM lease_slot := fetch (fun s => t_slots (v_table s) !! i).
Definition put_slot (i : nat) (slot : lease_slot) : DM unit :=
  modify (fun s => set_v_table (set_t_slots (<[i := slot]> (t_slots (v_table s))) (v_table s)) s).
(** The test on the key that every handler makes. *)
Definition owns (slot : lease_slot) (m : dhcp_msg) : bool :=
  (l_key_len slot =? m_lease_key_length m) && same_bytes (l_key_len slot) (l_key slot) (m_lease_key m).

Definition dhcp_handle_decline (uptime : Z) (m : dhcp_msg) : DM unit :=
  if negb (o_has_requested_ip (m_options m)) then mret tt
  else
    table ← gets v_table;
    match slot_index (o_requested_ip (m_options m)) table with
    | None => mret tt
    | Some i =>
        slot ← fetch_slot i;
        if negb (owns slot m) then mret tt
        else put_slot i (Slot LEASE_ST_DECLINED (l_key slot) (l_key_len slot) (u32 (uptime / 1000 + 300)))
    end.

Definition dhcp_handle_release (m : dhcp_msg) : DM unit :=
  table ← gets v_table;
  match slot_index (m_ciaddr m) table with
  | None => mret tt
  | Some i =>
      slot ← fetch_slot i;
      if negb (owns slot m) then mret tt
      else
        let slot := Slot LEASE_ST_FREE (l_key slot) (l_key_len slot) 0 in
        put_slot i slot;;
        record ← pure (serialize_record slot (m_ciaddr m));
        on_flash (write_record sr record)
  end.

(** A reply in the reply buffer, and the arguments to send it. *)
Definition reply_to (net_buffer : bytes) (m : dhcp_msg) (type : Z) (addr : bytes) (args : net_send_args)
    : DM (dhcp_status * net_send_args) :=
  out ← gets v_reply;
  '(st, out, n) ← pure (dhcp_build_reply net_buffer m type cfg addr out 1000);
  modify (set_v_reply out);;
  match st with
  | DHCP_OK =>
      let dest := dhcp_chose_destination m addr in
      mret (DHCP_OK, SendArgs reply_buffer n (take 4 (d_ip dest)) (d_port dest) (d_use_mac dest)
                       (match d_mac dest with Some mac => mac | None => a_mac args end))
  | _ => mret (st, args)
  end.

(** What a handler prints on an error path. *)
Inductive note := NO_ADDRESS | NO_OFFER | NO_ACK.
(** The note on a reply that could not be built. *)
Definition unless_ok (st : dhcp_status) (n : note) : list note := if bool_decide (st = DHCP_OK) then [] else [n].

(** The notes, the status and the arguments. *)
Definition dhcp_build_offer_args (uptime : nat -> Z) (net_buffer : bytes) (m : dhcp_msg) (args : net_send_args)
    : DM (list note * dhcp_status * net_send_args) :=
  table ← gets v_table;
  '(_st, chosen, table) ← pure (chose_address uptime table (m_lease_key m) (m_lease_key_length m) (g_lease_time cfg));
  modify (set_v_table table);;
  match chosen with
  | None => mret ([NO_ADDRESS], DHCP_ERR_ARG, args)
  | Some addr =>
      '(st, args) ← reply_to net_buffer m DHCP_MSG_OFFER addr args;
      mret (unless_ok st NO_OFFER, st, args)
  end.

(** The clock is read for the test and again for the new expiry. *)
Definition dhcp_handle_request (uptime uptime' : Z) (net_buffer : bytes) (m : dhcp_msg) (args : net_send_args)
    : DM (list note * dhcp_status * net_send_args) :=
  if o_has_server_id (m_options m) && negb (same_bytes 4 (o_server_id (m_options m)) (g_server_id cfg))
  then mret ([], DHCP_ERR_ARG, args)
  else
    let requested_addr := if o_has_requested_ip (m_options m) then o_requested_ip (m_options m) else m_ciaddr m in
    table ← gets v_table;
    match slot_index requested_addr table with
    | None => mret ([], DHCP_ERR_ARG, args)
    | Some i =>
        slot ← fetch_slot i;
        if slot_alive slot (uptime / 1000) && owns slot m then
          let slot := Slot LEASE_ST_BOUND (l_key slot) (l_key_len slot) (u32 (uptime' / 1000 + g_lease_time cfg)) in
          put_slot i slot;;
          record ← pure (serialize_record slot requested_addr);
          on_flash (write_record sr record);;
          '(st, args) ← reply_to net_buffer m DHCP_MSG_ACK requested_addr args;
          mret (unless_ok st NO_ACK, st, args)
        else mret ([], DHCP_OK, zero_args)
    end.

(** One turn of the loop, for a datagram of [got] bytes in [net_buffer]: what
    is sent, if anything.  [args] is the uninitialised argument struct. *)
Definition dhcp_turn (uptime : nat -> Z) (now now' : Z) (net_buffer : bytes) (got : Z) (args : net_send_args)
    : DM (option net_send_args) :=
  m ← gets v_msg;
  '(st, m) ← pure (dhcp_parse net_buffer got m);
  modify (set_v_msg m);;
  match st with
  | DHCP_OK =>
      if negb (m_op m =? BOOTREQUEST) || negb (o_has_message_type (m_options m)) then mret None
      else
        let type := o_message_type (m_options m) in
        if type =? DHCP_MSG_DISCOVER then
          '(_notes, st, args) ← dhcp_build_offer_args uptime net_buffer m args;
          mret (if bool_decide (st = DHCP_OK) then Some args else None)
        else if type =? DHCP_MSG_REQUEST then
          '(_notes, st, args) ← dhcp_handle_request now now' net_buffer m args;
          mret (if bool_decide (st = DHCP_OK) && negb (bool_decide (args = zero_args)) then Some args else None)
        else if type =? DHCP_MSG_DECLINE then
          dhcp_handle_decline now m;;
          '(_notes, st, args) ← dhcp_build_offer_args uptime net_buffer m args;
          mret (if bool_decide (st = DHCP_OK) then Some args else None)
        else if type =? DHCP_MSG_RELEASE then dhcp_handle_release m;; mret None
        else mret None
  | _ => mret None
  end.
End handlers.
