(* ===== verification/ServerSpec.v ===== *)
(** * The DHCP server: safety of a turn, and who may take an address *)
From S2P Require Import Prelude Utils Dhcp DhcpSpec DhcpParse DhcpReply Flash FlashSpec Lease Server.

(** ** Well-formed state *)

Record table_wf (t : lease_table) : Prop := {
  tw_size : Z.of_nat (length (t_slots t)) = t_size t;
  tw_start : length (t_start_addr t) = 4%nat;
  tw_keys : Forall (fun s => length (l_key s) = 16%nat) (t_slots t);
}.
(** [k] more words fit into the flash. *)
Definition flash_room (f : flash) (k : Z) : Prop := exists mem rd wr,
  jstate f mem rd wr /\ 0 <= wr /\ Z.of_nat journal_base + wr + k <= Z.of_nat (length mem) < 2 ^ 32.
Record server_ok (s : server) (k : Z) : Prop := {
  sv_table : table_wf (v_table s);
  sv_flash : flash_room (v_flash s) k;
  sv_msg : msg_wf (v_msg s);
  sv_reply : 1000 <= Z.of_nat (length (v_reply s));
}.

Lemma server_ok_le s k k' : server_ok s k -> k' <= k -> server_ok s k'.
Proof.
  intros [Ht (mem & rd & wr & Hj & H0 & Hb) Hm Hr] Hk. constructor; try done.
  exists mem, rd, wr. split_and!; [done|done|lia|lia].
Qed.

(** A message that [dhcp_parse] accepted. *)
Record msg_ok (m : dhcp_msg) : Prop := {
  mo_wf : msg_wf m;
  mo_key_len : 0 <= m_lease_key_length m <= 16;
  mo_ciaddr : length (m_ciaddr m) = 4%nat;
}.

Lemma parsed_ok buf len out m :
  0 <= len <= Z.of_nat (length buf) -> len < 2 ^ 16 -> Forall is_byte buf -> msg_wf out ->
  dhcp_parse buf len out = Ok (DHCP_OK, m) -> msg_ok m /\ 240 <= len.
Proof.
  intros Hl Hb Hf Hw E. destruct (dhcp_parse_inv _ _ _ _ Hl Hb Hf Hw E) as (o & Hl' & _ & Ho & _ & _ & ->).
  destruct (key_source_length buf o Ho ltac:(lia)) as [Hk _]. split; [|done].
  constructor; cbn [parsed m_lease_key_length m_ciaddr]; [|lia|apply sub_length; lia].
  constructor; [done|]. apply wr_length'; [apply Hw|lia].
Qed.

Lemma table_put t i slot :
  table_wf t -> length (l_key slot) = 16%nat -> table_wf (set_t_slots (<[i := slot]> (t_slots t)) t).
Proof.
  intros [Hs Ha Hk] Hl. constructor; cbn; [by rewrite length_insert|done|by apply Forall_insert].
Qed.

Lemma slot_key t i slot : table_wf t -> t_slots t !! i = Some slot -> length (l_key slot) = 16%nat.
Proof. intros Ht E. apply (proj1 (Forall_lookup _ _) (tw_keys _ Ht) _ _ E). Qed.

(** ** Choosing an address *)

Definition matches (slot : lease_slot) (key : bytes) (key_len : Z) : bool :=
  (key_len =? l_key_len slot) && same_bytes key_len (l_key slot) key.

Lemma matches_owns slot m : matches slot (m_lease_key m) (m_lease_key_length m) = owns slot m.
Proof.
  unfold matches, owns. rewrite Z.eqb_sym. by destruct (Z.eqb_spec (l_key_len slot) (m_lease_key_length m)) as [->|].
Qed.

(** The slots the scan stops at: the client's own one, and the first one that
    is free or has run out. *)
Record scan_result (uptime : nat -> Z) (slots : list lease_slot) (key : bytes) (key_len : Z)
    (found ff : option nat) : Prop := {
  sr_found : forall j, found = Some j -> exists s, slots !! j = Some s /\ matches s key key_len = true /\
    l_state s <> LEASE_ST_DECLINED;
  sr_free : forall j, ff = Some j -> exists s, slots !! j = Some s /\
    (l_state s = LEASE_ST_FREE \/ slot_alive s (uptime j / 1000) = false);
  sr_none : found = None -> forall j s, slots !! j = Some s -> matches s key key_len = true ->
    l_state s = LEASE_ST_DECLINED;
  sr_full : found = None -> ff = None -> forall j s, slots !! j = Some s -> slot_alive s (uptime j / 1000) = true;
}.

Lemma chose_scan_ok uptime slots key key_len n : forall i ff,
  (i + n = length slots)%nat ->
  (forall j, ff = Some j -> exists s, slots !! j = Some s /\
    (l_state s = LEASE_ST_FREE \/ slot_alive s (uptime j / 1000) = false)) ->
  (forall j s, (j < i)%nat -> slots !! j = Some s -> matches s key key_len = true -> l_state s = LEASE_ST_DECLINED) ->
  (ff = None -> forall j s, (j < i)%nat -> slots !! j = Some s -> slot_alive s (uptime j / 1000) = true) ->
  exists found ff', chose_scan n i uptime slots key key_len ff = Ok (found, ff') /\
    scan_result uptime slots key key_len found ff'.
Proof.
  induction n as [|n IH]; intros i ff Hn Hff Hno Hal.
  { exists None, ff. split; [done|]. constructor; [done|done| |].
    - intros _ j s Hj. apply (Hno j s); [|done]. apply lookup_lt_Some in Hj. lia.
    - intros _ Ef j s Hj. apply (Hal Ef j s); [|done]. apply lookup_lt_Some in Hj. lia. }
  cbn [chose_scan]. destruct (lookup_lt_is_Some_2 slots i) as [slot Es]; [lia|]. rewrite Es.
  set (ff1 := if bool_decide (ff = None) && _ then Some i else ff).
  assert (forall j, ff1 = Some j -> exists s, slots !! j = Some s /\
    (l_state s = LEASE_ST_FREE \/ slot_alive s (uptime j / 1000) = false)) as Hff1.
  { unfold ff1. intros j. destruct (_ && _) eqn:E; [|apply Hff]. intros [= <-]. exists slot. split; [done|].
    apply andb_prop in E as [_ E]. apply orb_prop in E as [E|E].
    - left. by apply Z.eqb_eq.
    - right. by apply negb_true_iff. }
  assert (ff1 = None -> forall j s, (j < S i)%nat -> slots !! j = Some s -> slot_alive s (uptime j / 1000) = true) as Hal1.
  { unfold ff1. destruct (decide (ff = None)) as [Ef|Ef].
    2: { rewrite bool_decide_false by done. cbn [andb]. by intros. }
    rewrite bool_decide_true by done. cbn [andb]. destruct (_ || _) eqn:E; [done|]. intros _ j s Hj Ej.
    apply orb_false_elim in E as [_ E]. apply negb_false_iff in E.
    destruct (decide (j = i)) as [->|]; [congruence|]. apply (Hal Ef j s); [lia|done]. }
  assert (matches slot key key_len = true -> l_state slot = LEASE_ST_DECLINED ->
    forall j s, (j < S i)%nat -> slots !! j = Some s -> matches s key key_len = true -> l_state s = LEASE_ST_DECLINED)
    as Hd.
  { intros _ Hs j s Hj Ej. destruct (decide (j = i)) as [->|]; [congruence|]. apply (Hno j s); [lia|done]. }
  fold (matches slot key key_len). rewrite <- negb_andb. fold (matches slot key key_len).
  destruct (matches slot key key_len) eqn:Em; cbn [negb].
  - destruct (Z.eqb_spec (l_state slot) LEASE_ST_DECLINED) as [Ed|Ed].
    + apply IH; [lia|done| |exact Hal1]. by apply Hd.
    + exists (Some i), ff1. split; [done|]. constructor; [|done|done|done]. intros j [= <-]. eauto.
  - apply IH; [lia|done| |exact Hal1]. intros j s Hj Ej. destruct (decide (j = i)) as [->|]; [congruence|]. apply (Hno j s); [lia|done].
Qed.

(** Slot [slot] stays: it is alive all the time and belongs to another key. *)
Definition foreign (uptime : nat -> Z) (key : bytes) (key_len : Z) (slot : lease_slot) : Prop :=
  (forall j, slot_alive slot (uptime j / 1000) = true) /\ matches slot key key_len = false.

Lemma alive_not_free slot now : slot_alive slot now = true -> l_state slot <> LEASE_ST_FREE.
Proof. unfold slot_alive. intros E. apply andb_prop in E as [E _]. apply negb_true_iff, Z.eqb_neq in E. done. Qed.

Lemma pool_addr_length t i : length (t_start_addr t) = 4%nat -> length (pool_addr t i) = 4%nat.
Proof. intros. unfold pool_addr. by rewrite length_alter. Qed.

(** Either the client's own lease is renewed, or a slot that is free or has
    run out is taken over, or nothing changes. *)
Inductive chosen_slot (uptime : nat -> Z) (t : lease_table) (key : bytes) (key_len lease_time : Z) :
    dhcp_status -> option bytes -> lease_table -> Prop :=
| cs_arg : key_len = 0 -> chosen_slot uptime t key key_len lease_time DHCP_ERR_ARG None t
| cs_own i s : t_slots t !! i = Some s -> matches s key key_len = true -> l_state s <> LEASE_ST_DECLINED ->
    chosen_slot uptime t key key_len lease_time DHCP_OK (Some (pool_addr t (Z.of_nat i)))
      (set_t_slots (<[i := set_l_expires_at (u32 (uptime (Z.to_nat (t_size t)) / 1000 + lease_time)) s]> (t_slots t)) t)
| cs_free i s : t_slots t !! i = Some s ->
    (l_state s = LEASE_ST_FREE \/ slot_alive s (uptime i / 1000) = false) ->
    (forall j s', t_slots t !! j = Some s' -> matches s' key key_len = true -> l_state s' = LEASE_ST_DECLINED) ->
    chosen_slot uptime t key key_len lease_time DHCP_OK (Some (pool_addr t (Z.of_nat i)))
      (set_t_slots (<[i := Slot LEASE_ST_OFFERED (wr (l_key s) 0 (take (Z.to_nat key_len) key)) key_len
                             (u32 (uptime (Z.to_nat (t_size t)) / 1000 + 60))]> (t_slots t)) t)
| cs_full :
    (forall j s', t_slots t !! j = Some s' -> matches s' key key_len = true -> l_state s' = LEASE_ST_DECLINED) ->
    (forall j s', t_slots t !! j = Some s' -> slot_alive s' (uptime j / 1000) = true) ->
    chosen_slot uptime t key key_len lease_time DHCP_OK None t.

Lemma chose_address_ok uptime t key key_len lease_time :
  table_wf t -> length key = 16%nat -> 0 <= key_len <= 16 ->
  exists st chosen t', chose_address uptime t key key_len lease_time = Ok (st, chosen, t') /\
    chosen_slot uptime t key key_len lease_time st chosen t'.
Proof.
  intros Ht Hk Hl. unfold chose_address, LEASE_KEY_CAP.
  rewrite (Z.gtb_ltb key_len), (proj2 (Z.ltb_ge 16 key_len)), orb_false_r by lia.
  destruct (Z.eqb_spec key_len 0) as [->|Hk0]; [by eexists _, _, _; split; [|apply cs_arg]|].
  destruct (chose_scan_ok uptime (t_slots t) key key_len (Z.to_nat (t_size t)) 0 None) as (found & ff & E & Hs);
    [rewrite <- (tw_size _ Ht); lia|done|lia|lia|].
  rewrite E. cbn [mbind result_bind]. destruct found as [i|].
  - destruct (sr_found _ _ _ _ _ _ Hs i eq_refl) as (s & Es & Hm & Hd). eexists _, _, _. split; [done|].
    assert (alter (set_l_expires_at (u32 (uptime (Z.to_nat (t_size t)) / 1000 + lease_time))) i (t_slots t) =
      <[i := set_l_expires_at (u32 (uptime (Z.to_nat (t_size t)) / 1000 + lease_time)) s]> (t_slots t)) as ->.
    { apply list_eq. intros j. destruct (decide (j = i)) as [->|Hj].
      - rewrite list_lookup_insert_eq by (by eapply lookup_lt_Some). by rewrite list_lookup_alter_eq, Es.
      - by rewrite list_lookup_insert_ne, list_lookup_alter_ne by done. }
    by apply cs_own.
  - destruct ff as [i|]; [|eexists _, _, _; split; [done|apply cs_full; [by apply (sr_none _ _ _ _ _ _ Hs)|by apply (sr_full _ _ _ _ _ _ Hs)]]].
    destruct (sr_free _ _ _ _ _ _ Hs i eq_refl) as (s & Es & Hf). rewrite Es.
    pose proof (slot_key t i s Ht Es) as Hsk.
    rewrite slice_ok by lia. cbn [mbind result_bind]. lit_nat.
    change (sub key 0 ?n) with (take n key).
    rewrite blit_ok by (rewrite ?length_take; lia). cbn [mbind result_bind]. lit_nat.
    eexists _, _, _. split; [done|]. apply cs_free; [done|done|]. by apply (sr_none _ _ _ _ _ _ Hs).
Qed.

Lemma chosen_slot_wf uptime t key key_len lease_time st chosen t' :
  table_wf t -> length key = 16%nat -> 0 <= key_len <= 16 ->
  chosen_slot uptime t key key_len lease_time st chosen t' ->
  table_wf t' /\ (forall a, chosen = Some a -> length a = 4%nat) /\
  (forall i slot, t_slots t !! i = Some slot -> foreign uptime key key_len slot -> t_slots t' !! i = Some slot).
Proof.
  intros Ht Hk Hl. destruct 1 as [_|i s Es Hm Hd|i s Es Hf _|_ _].
  - by split_and!.
  - split_and!.
    + apply table_put; [done|]. cbn. by eapply slot_key.
    + intros a [= <-]. by apply pool_addr_length, Ht.
    + intros j slot Ej [_ Hn]. destruct (decide (i = j)) as [->|Hij]; [congruence|]. cbn. by rewrite list_lookup_insert_ne.
  - split_and!.
    + apply table_put; [done|]. cbn. apply wr_length'; [by eapply slot_key|]. rewrite length_take. lia.
    + intros a [= <-]. by apply pool_addr_length, Ht.
    + intros j slot Ej [Ha Hn]. destruct (decide (i = j)) as [->|Hij]; [|cbn; by rewrite list_lookup_insert_ne].
      exfalso. rewrite Es in Ej. injection Ej as ->. destruct Hf as [Hf|Hf]; [|by rewrite Ha in Hf].
      by apply (alive_not_free slot (uptime 0%nat / 1000)).
  - by split_and!.
Qed.

(** ** The handlers *)

Section handlers.
Context `{NorFlash} (sr : Z) (cfg : dhcp_cfg) (reply_buffer : ptr).
Hypothesis (Hcfg : cfg_wf cfg).

(** The reply is in the buffer, and the arguments say where it goes. *)
Record replied (net_buffer : bytes) (m : dhcp_msg) (type : Z) (addr : bytes) (args : net_send_args)
    (s s' : server) : Prop := {
  rp_table : v_table s' = v_table s;
  rp_flash : v_flash s' = v_flash s;
  rp_msg : v_msg s' = v_msg s;
  rp_reply : exists tail, v_reply s' = reply_bytes net_buffer m type cfg addr ++ tail;
  rp_buffer : a_tx_data args = reply_buffer;
  rp_length : a_tx_length args = 300;
  rp_port : a_dst_port args <> 0;
}.

Lemma reply_to_ok net_buffer m type addr args s k :
  server_ok s k -> opts_wf (m_options m) -> length addr = 4%nat -> is_byte type -> (236 <= length net_buffer)%nat ->
  exists args' s', reply_to cfg reply_buffer net_buffer m type addr args s = Ok ((DHCP_OK, args'), s') /\
    server_ok s' k /\ replied net_buffer m type addr args' s s'.
Proof using Hcfg.
  intros [Ht Hf Hm Hr] Ho Ha Hty Hn. unfold reply_to.
  destruct (dhcp_build_reply_ok net_buffer m type cfg addr (v_reply s) 1000 Hn Ha Hcfg Ho Hty ltac:(lia))
    as (tail & Hl & E).
  rewrite (prog_bind_ok (gets v_reply) _ s (v_reply s) s) by done.
  rewrite (prog_bind_ok (pure _) _ s _ s) by (unfold pure; by rewrite E).
  cbn beta iota. rewrite (prog_bind_ok (modify _) _ s tt _ eq_refl).
  eexists _, _. split; [done|]. split; constructor; cbn; try done.
  - rewrite length_app, reply_bytes_length by done. lia.
  - by exists tail.
  - unfold dhcp_chose_destination. repeat case_match; done.
Qed.

Lemma words_of_length bs k : length bs = (4 * k)%nat -> length (words_of bs) = k.
Proof using.
  revert bs. induction k as [|k IH]; intros bs Hl; [by destruct bs|].
  destruct bs as [|a [|b [|c [|d bs]]]]; cbn [length] in Hl; [lia..|]. cbn. by rewrite IH by lia.
Qed.

(** Serialising a slot and appending it takes 8 words and cannot fail. *)
Lemma log_slot_ok slot addr s k :
  server_ok s (8 + k) -> 0 <= k -> length (l_key slot) = 16%nat ->
  exists record s', serialize_record slot addr = Ok record /\
    on_flash (write_record sr record) s = Ok (tt, s') /\ server_ok s' k /\
    v_table s' = v_table s /\ v_msg s' = v_msg s /\ v_reply s' = v_reply s.
Proof using.
  intros [Ht (mem & rd & wr & Hj & H0 & Hb) Hm Hr] Hk0 Hk.
  assert (exists record, serialize_record slot addr = Ok record /\ length record = 32%nat) as (record & E & Hl).
  { unfold serialize_record. rewrite slice_ok by lia. cbn [mbind result_bind]. eexists. split; [done|].
    rewrite !length_app, sub_length by lia. done. }
  pose proof (words_of_length record 8 ltac:(lia)) as Hw.
  destruct (flash_append_journal_ok sr (words_of record) (v_flash s) mem rd wr Hj) as (f' & Ef & Hj'); [lia..|].
  exists record, (set_v_flash f' s). split; [done|]. split; [unfold on_flash, write_record; by rewrite Ef|].
  split; [|by split_and!]. constructor; cbn; try done.
  eexists _, rd, _. split; [exact Hj'|]. rewrite program_at_length. lia.
Qed.

(** What every handler keeps: the state is well formed, and the slots of
    other clients that are alive stay as they are. *)
Record handled (uptime : nat -> Z) (m : dhcp_msg) (k : Z) (s s' : server) : Prop := {
  hd_ok : server_ok s' k;
  hd_msg : v_msg s' = v_msg s;
  hd_foreign i slot : t_slots (v_table s) !! i = Some slot ->
    foreign uptime (m_lease_key m) (m_lease_key_length m) slot -> t_slots (v_table s') !! i = Some slot;
}.

Lemma handled_refl uptime m k s : server_ok s k -> handled uptime m k s s.
Proof using. by constructor. Qed.
Lemma handled_trans uptime m k k' s1 s2 s3 :
  handled uptime m k s1 s2 -> handled uptime m k' s2 s3 -> handled uptime m k' s1 s3.
Proof using. intros [A1 A2 A3] [B1 B2 B3]. constructor; [done|by rewrite B2|eauto]. Qed.

(** Writing a slot of the client itself. *)
Lemma put_slot_handled uptime m k i slot slot' s :
  server_ok s k -> t_slots (v_table s) !! i = Some slot -> owns slot m = true -> length (l_key slot') = 16%nat ->
  exists s', put_slot i slot' s = Ok (tt, s') /\ handled uptime m k s s' /\ t_slots (v_table s') !! i = Some slot'.
Proof using.
  intros [Ht Hf Hm Hr] Es Ho Hk. eexists. split; [done|]. split.
  - constructor; [constructor; try done; by apply table_put|done|].
    intros j slot1 Ej [_ Hn]. destruct (decide (i = j)) as [->|]; [|cbn; by rewrite list_lookup_insert_ne].
    rewrite matches_owns in Hn. congruence.
  - cbn. apply list_lookup_insert_eq. by eapply lookup_lt_Some.
Qed.

Lemma slot_index_lookup addr t i : table_wf t -> slot_index addr t = Some i -> exists s, t_slots t !! i = Some s.
Proof using.
  intros Ht. unfold slot_index. destruct (Z.ltb_spec (byte addr 3 - byte (t_start_addr t) 3) 0) as [|H0]; [done|].
  rewrite Z.geb_leb. destruct (Z.leb_spec (t_size t) (byte addr 3 - byte (t_start_addr t) 3)); [done|].
  intros [= <-]. apply lookup_lt_is_Some_2. rewrite <- (Nat2Z.id (length _)), (tw_size _ Ht). lia.
Qed.

Lemma fetch_slot_ok i slot s : t_slots (v_table s) !! i = Some slot -> fetch_slot i s = Ok (slot, s).
Proof using. intros E. unfold fetch_slot, fetch. by rewrite E. Qed.

Lemma decline_ok uptime up m k s :
  server_ok s k -> msg_ok m -> exists s', dhcp_handle_decline up m s = Ok (tt, s') /\ handled uptime m k s s'.
Proof using.
  intros Hs Hm. unfold dhcp_handle_decline. destruct (o_has_requested_ip _); cbn [negb]; [|by eexists; split; [|apply handled_refl]].
  rewrite (prog_bind_ok (gets v_table) _ s _ s) by done.
  destruct (slot_index _ _) as [i|] eqn:Ei; [|by eexists; split; [|apply handled_refl]].
  destruct (slot_index_lookup _ _ _ (sv_table _ _ Hs) Ei) as [slot Es].
  rewrite (prog_bind_ok _ _ _ _ _ (fetch_slot_ok i slot s Es)).
  destruct (owns slot m) eqn:Eo; cbn [negb]; [|by eexists; split; [|apply handled_refl]].
  destruct (put_slot_handled uptime m k i slot (Slot LEASE_ST_DECLINED (l_key slot) (l_key_len slot) (u32 (up / 1000 + 300)))
    s Hs Es Eo (slot_key _ _ _ (sv_table _ _ Hs) Es)) as (s' & E & Hh & _). eauto.
Qed.

Lemma release_ok uptime m k s :
  server_ok s (8 + k) -> 0 <= k -> msg_ok m ->
  exists s', dhcp_handle_release sr m s = Ok (tt, s') /\ handled uptime m k s s'.
Proof using.
  intros Hs Hk Hm. assert (handled uptime m k s s) as Hrefl by (apply handled_refl; eapply server_ok_le; [done|lia]).
  unfold dhcp_handle_release. rewrite (prog_bind_ok (gets v_table) _ s _ s) by done.
  destruct (slot_index _ _) as [i|] eqn:Ei; [|by eexists].
  destruct (slot_index_lookup _ _ _ (sv_table _ _ Hs) Ei) as [slot Es].
  rewrite (prog_bind_ok _ _ _ _ _ (fetch_slot_ok i slot s Es)).
  destruct (owns slot m) eqn:Eo; cbn [negb]; [|by eexists].
  set (slot' := Slot LEASE_ST_FREE _ _ 0).
  assert (length (l_key slot') = 16%nat) as Hk' by apply (slot_key _ _ _ (sv_table _ _ Hs) Es).
  destruct (put_slot_handled uptime m (8 + k) i slot slot' s Hs Es Eo Hk') as (s1 & E1 & Hh1 & _).
  rewrite (prog_bind_ok _ _ _ _ _ E1).
  destruct (log_slot_ok slot' (m_ciaddr m) s1 k (hd_ok _ _ _ _ _ Hh1) Hk Hk') as (r & s2 & E2 & E3 & Hs2 & Et & Em & _).
  rewrite (prog_bind_ok (pure _) _ s1 r s1) by (unfold pure; by rewrite E2).
  exists s2. split; [done|]. apply (handled_trans _ _ _ _ _ _ _ Hh1). constructor; [done|done|]. by rewrite Et.
Qed.

Lemma offer_ok uptime net_buffer m args k s :
  server_ok s k -> msg_ok m -> (236 <= length net_buffer)%nat ->
  exists r s', dhcp_build_offer_args cfg reply_buffer uptime net_buffer m args s = Ok (r, s') /\ handled uptime m k s s'.
Proof using Hcfg.
  intros Hs [Hmw Hkl _] Hn. unfold dhcp_build_offer_args. rewrite (prog_bind_ok (gets v_table) _ s _ s) by done.
  destruct (chose_address_ok uptime (v_table s) (m_lease_key m) (m_lease_key_length m) (g_lease_time cfg)
    (sv_table _ _ Hs) (mf_key _ Hmw) Hkl) as (st & chosen & t' & E & Hc).
  destruct (chosen_slot_wf _ _ _ _ _ _ _ _ (sv_table _ _ Hs) (mf_key _ Hmw) Hkl Hc) as (Ht' & Ha & Hfor).
  rewrite (prog_bind_ok (pure _) _ s _ s) by (unfold pure; by rewrite E).
  cbn beta iota. rewrite (prog_bind_ok (modify _) _ s tt _ eq_refl).
  assert (handled uptime m k s (set_v_table t' s)) as Hh.
  { constructor; [destruct Hs; by constructor|done|exact Hfor]. }
  destruct chosen as [addr|]; [|by eexists _, _].
  destruct (reply_to_ok net_buffer m DHCP_MSG_OFFER addr args _ k (hd_ok _ _ _ _ _ Hh) (mf_options _ Hmw)
    (Ha _ eq_refl) ltac:(unfold is_byte, DHCP_MSG_OFFER; lia) Hn) as (args' & s' & E' & Hs' & [Et _ Em _ _ _ _]).
  rewrite (prog_bind_ok _ _ _ _ _ E').
  eexists _, _. split; [done|]. apply (handled_trans _ _ _ _ _ _ _ Hh). constructor; [done|done|]. by rewrite Et.
Qed.

Lemma request_ok uptime up up' net_buffer m args k s :
  server_ok s (8 + k) -> 0 <= k -> msg_ok m -> (236 <= length net_buffer)%nat ->
  exists r s', dhcp_handle_request sr cfg reply_buffer up up' net_buffer m args s = Ok (r, s') /\ handled uptime m k s s'.
Proof using Hcfg.
  intros Hs Hk [Hmw Hkl Hci] Hn.
  assert (handled uptime m k s s) as Hrefl by (apply handled_refl; eapply server_ok_le; [done|lia]).
  unfold dhcp_handle_request. destruct (_ && negb _); [by eexists _, _|].
  set (addr := if o_has_requested_ip _ then _ else _).
  assert (length addr = 4%nat) as Ha by (unfold addr; destruct (o_has_requested_ip _); [apply of_ip, Hmw|done]).
  rewrite (prog_bind_ok (gets v_table) _ s _ s) by done.
  destruct (slot_index addr _) as [i|] eqn:Ei; [|by eexists _, _].
  destruct (slot_index_lookup _ _ _ (sv_table _ _ Hs) Ei) as [slot Es].
  rewrite (prog_bind_ok _ _ _ _ _ (fetch_slot_ok i slot s Es)).
  destruct (slot_alive _ _); cbn [andb]; [|by eexists _, _].
  destruct (owns slot m) eqn:Eo; [|by eexists _, _].
  set (slot' := Slot LEASE_ST_BOUND _ _ _).
  assert (length (l_key slot') = 16%nat) as Hk' by apply (slot_key _ _ _ (sv_table _ _ Hs) Es).
  destruct (put_slot_handled uptime m (8 + k) i slot slot' s Hs Es Eo Hk') as (s1 & E1 & Hh1 & _).
  rewrite (prog_bind_ok _ _ _ _ _ E1).
  destruct (log_slot_ok slot' addr s1 k (hd_ok _ _ _ _ _ Hh1) Hk Hk') as (r & s2 & E2 & E3 & Hs2 & Et & Em & _).
  rewrite (prog_bind_ok (pure _) _ s1 r s1) by (unfold pure; by rewrite E2).
  rewrite (prog_bind_ok _ _ _ _ _ E3).
  destruct (reply_to_ok net_buffer m DHCP_MSG_ACK addr args s2 k Hs2 (mf_options _ Hmw) Ha
    ltac:(unfold is_byte, DHCP_MSG_ACK; lia) Hn) as (args' & s' & E' & Hs' & [Et' _ Em' _ _ _ _]).
  rewrite (prog_bind_ok _ _ _ _ _ E').
  eexists _, _. split; [done|]. apply (handled_trans _ _ _ _ _ _ _ Hh1). constructor; [done| |].
  - by rewrite Em', Em.
  - by rewrite Et', Et.
Qed.
End handlers.

(** Every datagram is handled to an end. *)
Lemma dhcp_turn_ok `{NorFlash} sr cfg rb uptime now now' net_buffer got args s k :
  cfg_wf cfg -> server_ok s (8 + k) -> 0 <= k ->
  Forall is_byte net_buffer -> 0 <= got <= Z.of_nat (length net_buffer) -> got < 2 ^ 16 ->
  exists sent s', dhcp_turn sr cfg rb uptime now now' net_buffer got args s = Ok (sent, s') /\ server_ok s' k /\
    forall i slot, t_slots (v_table s) !! i = Some slot ->
      (forall j, slot_alive slot (uptime j / 1000) = true) -> owns slot (v_msg s') = false ->
      t_slots (v_table s') !! i = Some slot.
Proof.
  intros Hc Hs Hk Hb Hg Hg16. unfold dhcp_turn. rewrite (prog_bind_ok (gets v_msg) _ s _ s) by done.
  destruct (dhcp_parse_total net_buffer got (v_msg s) Hg Hg16 Hb (sv_msg _ _ Hs)) as (st & m & E & Hm & _).
  rewrite (prog_bind_ok (pure _) _ s (st, m) s) by (unfold pure; by rewrite E). cbn beta iota.
  set (s1 := set_v_msg m s). rewrite (prog_bind_ok (modify _) _ s tt s1) by done.
  assert (server_ok s1 (8 + k)) as Hs1 by (destruct Hs; by constructor).
  assert (forall X (r : X) s', handled uptime m k s1 s' -> server_ok s' k /\
    forall i slot, t_slots (v_table s) !! i = Some slot -> (forall j, slot_alive slot (uptime j / 1000) = true) ->
      owns slot (v_msg s') = false -> t_slots (v_table s') !! i = Some slot) as Hdone.
  { intros X r s' [H1 H2 H3]. split; [done|]. intros i slot Ei Ha Ho. apply H3; [done|]. split; [done|].
    rewrite matches_owns. by rewrite H2 in Ho. }
  assert (exists sent s', @mret (prog server) _ _ (@None net_send_args) s1 = Ok (sent, s') /\ handled uptime m k s1 s') as Hnone
    by (eexists _, _; split; [done|apply handled_refl; eapply server_ok_le; [done|lia]]).
  match goal with |- exists sent s', ?run = _ /\ _ =>
    assert (exists sent s', run = Ok (sent, s') /\ handled uptime m k s1 s') as (sent & s' & E' & Hh) end.
  2: { exists sent, s'. split; [done|]. by apply (Hdone _ sent). }
  destruct st; try exact Hnone.
  destruct (parsed_ok _ _ _ _ Hg Hg16 Hb (sv_msg _ _ Hs) E) as [Hmo Hl].
  destruct (_ || _); [exact Hnone|].
  destruct (_ =? DHCP_MSG_DISCOVER).
  { destruct (offer_ok cfg rb Hc uptime net_buffer m args (8 + k) s1 Hs1 Hmo ltac:(lia)) as ([[ns' st'] a'] & s2 & E2 & H2).
    rewrite (prog_bind_ok _ _ _ _ _ E2). eexists _, _. split; [done|].
    apply (handled_trans _ _ _ _ _ _ _ H2), handled_refl. eapply server_ok_le; [apply H2|lia]. }
  destruct (_ =? DHCP_MSG_REQUEST).
  { destruct (request_ok sr cfg rb Hc uptime now now' net_buffer m args k s1 Hs1 Hk Hmo ltac:(lia)) as ([[ns' st'] a'] & s2 & E2 & H2).
    rewrite (prog_bind_ok _ _ _ _ _ E2). by eexists _, _. }
  destruct (_ =? DHCP_MSG_DECLINE).
  { destruct (decline_ok uptime now m (8 + k) s1 Hs1 Hmo) as (s2 & E2 & H2). rewrite (prog_bind_ok _ _ _ _ _ E2).
    destruct (offer_ok cfg rb Hc uptime net_buffer m args (8 + k) s2 (hd_ok _ _ _ _ _ H2) Hmo ltac:(lia)) as ([[ns' st'] a'] & s3 & E3 & H3).
    rewrite (prog_bind_ok _ _ _ _ _ E3). eexists _, _. split; [done|].
    apply (handled_trans _ _ _ _ _ _ _ H2), (handled_trans _ _ _ _ _ _ _ H3), handled_refl.
    eapply server_ok_le; [apply H3|lia]. }
  destruct (_ =? DHCP_MSG_RELEASE); [|exact Hnone].
  destruct (release_ok sr uptime m k s1 Hs1 Hk Hmo) as (s2 & E2 & H2). rewrite (prog_bind_ok _ _ _ _ _ E2). by eexists _, _.
Qed.
