(* ===== verification/DhcpProps.v ===== *)
(** * DHCP: the properties *)
From S2P Require Import Prelude Utils Dhcp DhcpSpec DhcpParse DhcpReply Flash FlashSpec Lease JournalSpec.
From S2P Require Import Server ServerSpec.

(** ** A demonstration: a client, the configuration of the server, a message *)

Definition demo_mac : bytes := [2; 0; 0; 0; 0; 7].
Definition demo_request (type : Z) (more : bytes) : bytes :=
  [1; 1; 6; 0; 9; 8; 7; 6] ++ repeat 0 20 ++ demo_mac ++ repeat 0 202 ++ cookie ++ [53; 1; type] ++ more ++ [255; 0].
Definition demo_discover : bytes := demo_request 1 [61; 3; 5; 6; 7].
Definition demo_cfg : dhcp_cfg :=
  DhcpCfg [192; 168; 0; 50] [192; 168; 0; 51] [192; 168; 0; 105] 3600
    [255; 255; 255; 0] [192; 168; 0; 1] [8; 8; 8; 8] [192; 168; 0; 255].
Definition demo_options : dhcp_options :=
  DhcpOptions (repeat 0 4) false 0 false (repeat 0 4) false (repeat 0 16) 0 false (repeat 0 32).
Definition demo_msg : dhcp_msg :=
  DhcpMsg 0 0 0 0 (repeat 0 4) 0 0 false (repeat 0 4) (repeat 0 4) (repeat 0 4) (repeat 0 4) (repeat 0 16)
    demo_options (repeat 0 16) 0.
Definition demo_free : lease_slot := Slot 0 (repeat 0 16) 0 0.
Definition demo_table : lease_table := Table [demo_free; demo_free] 2 [192; 168; 0; 50].

Lemma demo_msg_wf : msg_wf demo_msg.
Proof. constructor; [constructor|]; done. Defined.
Lemma demo_cfg_wf : cfg_wf demo_cfg.
Proof. by constructor. Defined.

(** ** Messages *)



(** C24: A reply echoes the request: the client that parses the 300 bytes of an
    OFFER or ACK reads its own transaction id, flags, relay address, hardware
    address and lease key back, the assigned address, the message type and the
    server id. *)
Theorem dhcp_reply_echoes raw len m0 req type cfg y out cap m1 :
  0 <= len <= Z.of_nat (length raw) -> len < 2 ^ 16 -> Forall is_byte raw -> msg_wf m0 ->
  dhcp_parse raw len m0 = Ok (DHCP_OK, req) ->
  is_byte type -> cfg_wf cfg -> length y = 4%nat -> 300 <= cap <= Z.of_nat (length out) -> msg_wf m1 ->
  exists reply r, dhcp_build_reply raw req type cfg y out cap = Ok (DHCP_OK, reply, 300) /\
    length reply = length out /\ dhcp_parse reply 300 m1 = Ok (DHCP_OK, r) /\ echoes req r type cfg y.
Proof.
  intros Hl Hb Hf Hw0 E Ht Hc Hy Hcap Hw1.
  destruct (parsed_ok _ _ _ _ Hl Hb Hf Hw0 E) as [[[Hor _] _ _] Hl240].
  destruct (dhcp_build_reply_ok raw req type cfg y out cap ltac:(lia) Hy Hc Hor Ht Hcap) as (tail & Htl & Eb).
  destruct (reply_echoes raw len m0 req type cfg y tail m1 Hl Hb Hf Hw0 E Ht Hc Hy Hw1) as (r & Er & Hr).
  exists (reply_bytes raw req type cfg y ++ tail), r. split_and!; try done.
  rewrite length_app, reply_bytes_length by (done || lia). lia.
Qed.

Definition demo_parsed : dhcp_msg :=
  match dhcp_parse demo_discover 250 demo_msg with Ok (_, m) => m | Trap _ => demo_msg end.

Lemma dhcp_reply_echoes_witness :
  exists reply r,
    dhcp_build_reply demo_discover demo_parsed 2 demo_cfg [192; 168; 0; 50] (repeat 0 300) 300
      = Ok (DHCP_OK, reply, 300) /\
    length reply = length (repeat 0 300) /\ dhcp_parse reply 300 demo_msg = Ok (DHCP_OK, r) /\
    echoes demo_parsed r 2 demo_cfg [192; 168; 0; 50].
Proof.
  apply (dhcp_reply_echoes _ 250 demo_msg); [vm_compute; split; intros [=]|done| |exact demo_msg_wf
    |by vm_compute|by unfold is_byte|exact demo_cfg_wf|done|vm_compute; split; intros [=]|exact demo_msg_wf].
  apply (bool_decide_unpack _). vm_compute. done.
Defined.

(** ** The server *)

(** C13: Every datagram is handled to an end without a fault, the state stays
    well formed, the journal takes at most 8 words, and a lease that is alive
    and belongs to another client is not touched, whatever the message says. *)
Theorem dhcp_turn_safe `{NorFlash} sr cfg rb uptime now now' net_buffer got args s k :
  cfg_wf cfg -> server_ok s (8 + k) -> 0 <= k ->
  Forall is_byte net_buffer -> 0 <= got <= Z.of_nat (length net_buffer) -> got < 2 ^ 16 ->
  exists sent s', dhcp_turn sr cfg rb uptime now now' net_buffer got args s = Ok (sent, s') /\ server_ok s' k /\
    forall i slot, t_slots (v_table s) !! i = Some slot ->
      (forall j, slot_alive slot (uptime j / 1000) = true) -> owns slot (v_msg s') = false ->
      t_slots (v_table s') !! i = Some slot.
Proof. apply dhcp_turn_ok. Qed.

Definition demo_flash : flash := Flash (repeat erased (Z.to_nat 16384)) (repeat 0 8) (repeat 0 8) 0.
Definition demo_bound : lease_slot := Slot LEASE_ST_BOUND (repeat 9 16) 6 1000.
Definition demo_server : server :=
  Server (Table [demo_free; demo_bound] 2 [192; 168; 0; 50]) demo_flash demo_msg (repeat 0 (Z.to_nat 1000)).
Definition demo_args : net_send_args := SendArgs 0x20001000 0 [0; 0; 0; 0] 0 false (repeat 0 6).

Lemma demo_flash_ok : jstate demo_flash (repeat erased (Z.to_nat 16384)) 0 0.
Proof. by constructor. Defined.
Lemma demo_server_ok : server_ok demo_server 8.
Proof.
  constructor; [constructor; [done|done|by repeat constructor]| |exact demo_msg_wf|done].
  exists (repeat erased (Z.to_nat 16384)), 0, 0. split; [exact demo_flash_ok|]. rewrite repeat_length.
  unfold journal_base. lia.
Defined.

Lemma dhcp_turn_safe_witness :
  slot_alive demo_bound (5000 / 1000) = true /\
  exists sent s',
    dhcp_turn 0 demo_cfg 0x20002000 (fun _ => 5000) 5000 5000 demo_discover 250 demo_args demo_server = Ok (sent, s') /\
    server_ok s' 0 /\
    forall i slot, t_slots (v_table demo_server) !! i = Some slot ->
      (forall j : nat, slot_alive slot ((fun _ => 5000) j / 1000) = true) -> owns slot (v_msg s') = false ->
      t_slots (v_table s') !! i = Some slot.
Proof.
  split; [done|].
  apply (dhcp_turn_safe 0 demo_cfg 0x20002000 (fun _ => 5000) 5000 5000 demo_discover 250 demo_args demo_server 0);
    [exact demo_cfg_wf|exact demo_server_ok|done| |vm_compute; split; intros [=]|done].
  apply (bool_decide_unpack _). vm_compute. done.
Defined.

(** The first and the last byte of the pool do not wrap around. *)
Definition pool_fits (t : lease_table) : Prop :=
  is_byte (byte (t_start_addr t) 3) /\ byte (t_start_addr t) 3 + t_size t <= 256.

Lemma slot_index_pool t i :
  table_wf t -> pool_fits t -> (i < length (t_slots t))%nat -> slot_index (pool_addr t (Z.of_nat i)) t = Some i.
Proof.
  intros [Hs Ha _] [Hb Hf] Hi. unfold slot_index, is_byte in *.
  assert (byte (pool_addr t (Z.of_nat i)) 3 = byte (t_start_addr t) 3 + Z.of_nat i) as ->.
  { unfold pool_addr, byte in *. destruct (t_start_addr t) as [|a [|b [|c [|d [|]]]]]; try done. cbn in *.
    apply u8_small. lia. }
  rewrite (proj2 (Z.ltb_ge _ _)), Z.geb_leb, (proj2 (Z.leb_gt _ _)) by lia. cbn [orb]. f_equal. lia.
Qed.

Lemma s32_before x y d : 0 <= x -> x < y <= x + d -> d < 2 ^ 31 -> s32 (x - u32 y) < 0.
Proof. intros. unfold s32. replace (u32 (x - u32 y)) with (u32 (x - y)) by (unfold u32; by rewrite Zminus_mod_idemp_r).
  destruct (Z.ltb_spec (u32 (x - y)) (2 ^ 31)); word_lia. Qed.

(** The slot of an offer is alive while the offer lasts. *)
Lemma offered_slot uptime t m lease_time addr t' now :
  table_wf t -> msg_ok m ->
  (forall j slot, t_slots t !! j = Some slot -> owns slot m = true -> l_state slot <> LEASE_ST_FREE) ->
  chose_address uptime t (m_lease_key m) (m_lease_key_length m) lease_time = Ok (DHCP_OK, Some addr, t') ->
  60 <= lease_time < 2 ^ 31 - 1 ->
  0 <= uptime (Z.to_nat (t_size t)) / 1000 <= now -> now < uptime (Z.to_nat (t_size t)) / 1000 + 60 ->
  exists i slot, addr = pool_addr t (Z.of_nat i) /\ t_slots t' !! i = Some slot /\ owns slot m = true /\
    slot_alive slot now = true /\ table_wf t' /\ t_start_addr t' = t_start_addr t /\ t_size t' = t_size t.
Proof.
  intros Ht [Hmw Hkl Hci] Hfree E Hlt Hup Hup2.
  destruct (chose_address_ok uptime t (m_lease_key m) (m_lease_key_length m) lease_time Ht (mf_key _ Hmw) Hkl)
    as (st & chosen & t2 & E2 & Hch).
  rewrite E in E2. injection E2 as <- <- <-.
  destruct (chosen_slot_wf _ _ _ _ _ _ _ _ Ht (mf_key _ Hmw) Hkl Hch) as (Ht' & _ & _).
  inversion Hch as [|i sl Esl Hm Hd EA EB|i sl Esl Hf Hno EA EB|]; subst.
  - eexists i, _. split; [done|]. split; [cbn; apply list_lookup_insert_eq; by eapply lookup_lt_Some|].
    rewrite matches_owns in Hm. split_and!; [exact Hm| |exact Ht'|done|done].
    unfold slot_alive. cbn [set_l_expires_at l_state l_expires_at].
    rewrite (proj2 (Z.eqb_neq _ _) (Hfree _ _ Esl Hm)). cbn [negb andb]. apply Z.ltb_lt.
    apply (s32_before _ _ (2 ^ 31 - 1)); lia.
  - eexists i, _. split; [done|]. split; [cbn; apply list_lookup_insert_eq; by eapply lookup_lt_Some|].
    split_and!; [| |exact Ht'|done|done].
    + unfold owns, same_bytes. cbn [l_key_len l_key]. rewrite Z.eqb_refl. cbn [andb].
      apply bool_decide_eq_true. pose proof (slot_key _ _ _ Ht Esl).
      pose proof (mf_key _ Hmw).
      change (take ?n (wr ?a 0 ?b)) with (sub (wr a 0 b) 0 n). apply sub_wr_same; rewrite length_take; lia.
    + unfold slot_alive. cbn [l_state l_expires_at]. apply Z.ltb_lt. apply (s32_before _ _ (2 ^ 31 - 1)); lia.
Qed.

(** The address a REQUEST asks for: option 50, or else [ciaddr]. *)
Definition asks_for (m : dhcp_msg) : bytes :=
  if o_has_requested_ip (m_options m) then o_requested_ip (m_options m) else m_ciaddr m.
(** A REQUEST to this server: it names it, or no server. *)
Definition asks_us (m : dhcp_msg) (cfg : dhcp_cfg) : Prop :=
  o_has_server_id (m_options m) = true -> same_bytes 4 (o_server_id (m_options m)) (g_server_id cfg) = true.

Lemma asks_us_passes m cfg : asks_us m cfg ->
  o_has_server_id (m_options m) && negb (same_bytes 4 (o_server_id (m_options m)) (g_server_id cfg)) = false.
Proof. unfold asks_us. destruct (o_has_server_id _); [|done]. intros H. by rewrite H. Qed.

(** The same pool of addresses. *)
Definition same_pool (t t' : lease_table) : Prop := t_size t = t_size t' /\ t_start_addr t = t_start_addr t'.

(** C14: An offer is kept: when a client none of whose slots is released (state
    FREE with its key; such a client is offered the slot and never gets it, see
    [released_never_acked]) is offered an address, and its REQUEST for this
    address reaches the server within 60 seconds and names this server or none,
    the server binds the slot for the lease time and sends an ACK with this
    address.  In between the table may change in the slots of others (messages
    of other clients leave this one alone, see [dhcp_turn_safe]). *)
Theorem offer_then_ack `{NorFlash} sr cfg rb uptime t m addr t' s k up up' net_buffer args :
  cfg_wf cfg -> table_wf t -> pool_fits t -> msg_ok m ->
  (forall j slot, t_slots t !! j = Some slot -> owns slot m = true -> l_state slot <> LEASE_ST_FREE) ->
  chose_address uptime t (m_lease_key m) (m_lease_key_length m) (g_lease_time cfg) = Ok (DHCP_OK, Some addr, t') ->
  server_ok s (8 + k) -> 0 <= k -> (236 <= length net_buffer)%nat ->
  same_pool (v_table s) t -> (forall i, addr = pool_addr t (Z.of_nat i) -> t_slots (v_table s) !! i = t_slots t' !! i) ->
  asks_us m cfg -> asks_for m = addr ->
  60 <= g_lease_time cfg < 2 ^ 31 - 1 ->
  0 <= uptime (Z.to_nat (t_size t)) / 1000 <= up / 1000 -> up / 1000 < uptime (Z.to_nat (t_size t)) / 1000 + 60 ->
  exists i args' s', addr = pool_addr t (Z.of_nat i) /\
    dhcp_handle_request sr cfg rb up up' net_buffer m args s = Ok (([], DHCP_OK, args'), s') /\
    args' <> zero_args /\ a_tx_length args' = 300 /\
    (exists tail, v_reply s' = reply_bytes net_buffer m DHCP_MSG_ACK cfg addr ++ tail) /\
    exists slot, t_slots (v_table s') !! i = Some slot /\ owns slot m = true /\ l_state slot = LEASE_ST_BOUND /\
      l_expires_at slot = u32 (up' / 1000 + g_lease_time cfg).
Proof.
  intros Hc Ht Hp Hm Hfree E Hs Hk Hn [Esz Esa] Heq Hus Hfor Hlt Hup Hup2.
  destruct (offered_slot uptime t m (g_lease_time cfg) addr t' (up / 1000) Ht Hm Hfree E Hlt)
    as (i & slot & Ea & Es & Ho & Hal & _); [lia|lia|].
  rewrite <- (Heq i Ea) in Es. clear Heq.
  exists i.
  unfold dhcp_handle_request. fold (asks_for m). rewrite Hfor.
  rewrite asks_us_passes by done.
  rewrite (prog_bind_ok (gets v_table) _ s _ s) by done.
  assert (slot_index addr (v_table s) = Some i) as ->.
  { replace addr with (pool_addr (v_table s) (Z.of_nat i)) by (unfold pool_addr; by rewrite Esa).
    apply slot_index_pool; [apply Hs|unfold pool_fits; by rewrite Esa, Esz|by eapply lookup_lt_Some]. }
  rewrite (prog_bind_ok _ _ _ _ _ (fetch_slot_ok i slot s Es)). rewrite Hal, Ho. cbn [andb].
  set (slot' := Slot LEASE_ST_BOUND _ _ _).
  assert (length (l_key slot') = 16%nat) as Hk' by apply (slot_key _ _ _ (sv_table _ _ Hs) Es).
  destruct (put_slot_handled uptime m (8 + k) i slot slot' s Hs Es Ho Hk') as (s1 & E1 & Hh1 & Es1).
  rewrite (prog_bind_ok _ _ _ _ _ E1).
  destruct (log_slot_ok sr slot' addr s1 k (hd_ok _ _ _ _ _ Hh1) Hk Hk') as (r & s2 & E3 & E4 & Hs2 & Et2 & _).
  rewrite (prog_bind_ok (pure _) _ s1 r s1) by (unfold pure; by rewrite E3).
  rewrite (prog_bind_ok _ _ _ _ _ E4).
  assert (length addr = 4%nat) as Hal4 by (rewrite Ea; by apply pool_addr_length, Ht).
  destruct (reply_to_ok cfg rb Hc net_buffer m DHCP_MSG_ACK addr args s2 k Hs2 (mf_options _ (mo_wf _ Hm)) Hal4
    ltac:(unfold is_byte, DHCP_MSG_ACK; lia) Hn) as (args' & s' & E' & Hs' & [Et' _ _ Hr _ Hlen Hport]).
  rewrite (prog_bind_ok _ _ _ _ _ E'). exists args', s'. split_and!; try done.
  - intros ->. done.
  - exists slot'. split_and!; try done. by rewrite Et', Et2.
Qed.

(** It names the server. *)
Definition demo_ask_bytes : bytes := demo_request 3 [54; 4; 192; 168; 0; 105; 50; 4; 192; 168; 0; 50].
Definition demo_ask : dhcp_msg :=
  match dhcp_parse demo_ask_bytes 257 demo_msg with Ok (_, m) => m | Trap _ => demo_msg end.
Lemma demo_ask_ok : msg_ok demo_ask.
Proof.
  refine (proj1 (parsed_ok demo_ask_bytes 257 demo_msg demo_ask _ _ _ _ _)).
  - vm_compute. split; intros [=].
  - done.
  - apply (bool_decide_unpack _). vm_compute. done.
  - exact demo_msg_wf.
  - by vm_compute.
Defined.
Definition demo_offered : lease_table :=
  Table [Slot LEASE_ST_OFFERED (demo_mac ++ repeat 0 10) 6 65; demo_free] 2 [192; 168; 0; 50].
Definition demo_offered_server : server := Server demo_offered demo_flash demo_msg (repeat 0 (Z.to_nat 1000)).
Lemma demo_offered_ok : server_ok demo_offered_server 8.
Proof.
  destruct demo_server_ok as [_ Hf Hm Hr].
  constructor; [constructor; [done|done|by repeat constructor]|exact Hf|exact Hm|exact Hr].
Defined.

Lemma offer_then_ack_witness :
  chose_address (fun _ => 5000) demo_table (m_lease_key demo_ask) (m_lease_key_length demo_ask) (g_lease_time demo_cfg)
    = Ok (DHCP_OK, Some [192; 168; 0; 50], demo_offered) /\
  exists i args' s', [192; 168; 0; 50] = pool_addr demo_table (Z.of_nat i) /\
    dhcp_handle_request 0 demo_cfg 0x20002000 6000 6000 demo_ask_bytes demo_ask demo_args demo_offered_server
      = Ok (([], DHCP_OK, args'), s') /\
    args' <> zero_args /\ a_tx_length args' = 300 /\
    (exists tail, v_reply s' = reply_bytes demo_ask_bytes demo_ask DHCP_MSG_ACK demo_cfg [192; 168; 0; 50] ++ tail) /\
    exists slot, t_slots (v_table s') !! i = Some slot /\ owns slot demo_ask = true /\ l_state slot = LEASE_ST_BOUND /\
      l_expires_at slot = u32 (6000 / 1000 + g_lease_time demo_cfg).
Proof.
  assert (chose_address (fun _ => 5000) demo_table (m_lease_key demo_ask) (m_lease_key_length demo_ask)
    (g_lease_time demo_cfg) = Ok (DHCP_OK, Some [192; 168; 0; 50], demo_offered)) as E by (by vm_compute).
  split; [exact E|].
  apply (offer_then_ack 0 demo_cfg 0x20002000 (fun _ => 5000) demo_table demo_ask [192; 168; 0; 50] demo_offered
    demo_offered_server 0 6000 6000 demo_ask_bytes demo_args).
  - exact demo_cfg_wf.
  - constructor; [done|done|by repeat constructor].
  - split; [by unfold is_byte|done].
  - exact demo_ask_ok.
  - intros [|[|j]] slot Ej; [injection Ej as <-; by vm_compute..|done].
  - exact E.
  - exact demo_offered_ok.
  - done.
  - by apply Nat.leb_le.
  - done.
  - intros [|i] Hi; [done|by destruct i].
  - intros _. by vm_compute.
  - by vm_compute.
  - done.
  - done.
  - done.
Defined.

(** A client that released its lease is locked out of it: the slot keeps
    its key with the state FREE, so every DISCOVER offers the address again
    and leaves the slot FREE, and every REQUEST for it is dropped without an
    answer. *)
Theorem released_never_acked `{NorFlash} sr cfg rb uptime t m i slot lease_time :
  table_wf t -> pool_fits t -> msg_ok m -> m_lease_key_length m <> 0 ->
  t_slots t !! i = Some slot -> l_state slot = LEASE_ST_FREE -> owns slot m = true ->
  (forall j slot', t_slots t !! j = Some slot' -> owns slot' m = true -> j = i) ->
  asks_for m = pool_addr t (Z.of_nat i) ->
  exists t' slot', chose_address uptime t (m_lease_key m) (m_lease_key_length m) lease_time
      = Ok (DHCP_OK, Some (pool_addr t (Z.of_nat i)), t') /\
    t_slots t' !! i = Some slot' /\ l_state slot' = LEASE_ST_FREE /\ owns slot' m = true /\
    forall up up' net_buffer args s, v_table s = t' -> asks_us m cfg ->
      dhcp_handle_request sr cfg rb up up' net_buffer m args s = Ok (([], DHCP_OK, zero_args), s).
Proof.
  intros Ht Hp [Hmw Hkl _] Hk0 Es Hfree Ho Huniq Hfor.
  destruct (chose_address_ok uptime t (m_lease_key m) (m_lease_key_length m) lease_time Ht (mf_key _ Hmw) Hkl)
    as (st & chosen & t' & E & Hch).
  destruct (chosen_slot_wf _ _ _ _ _ _ _ _ Ht (mf_key _ Hmw) Hkl Hch) as (Ht' & _ & _).
  inversion Hch as [|j sl Ej Hm Hd|j sl Ej _ Hno|Hno _]; subst.
  - done.
  - rewrite matches_owns in Hm. pose proof (Huniq _ _ Ej Hm) as ->. rewrite Es in Ej. injection Ej as <-.
    eexists _, _. split; [exact E|]. cbn [t_slots set_t_slots].
    split; [apply list_lookup_insert_eq; by eapply lookup_lt_Some|]. split_and!; [exact Hfree|exact Ho|].
    intros up up' nb args s Et Hus. unfold dhcp_handle_request. fold (asks_for m). rewrite Hfor, asks_us_passes by done.
    rewrite (prog_bind_ok (gets v_table) _ s _ s) by done.
    replace (slot_index _ (v_table s)) with (Some i).
    2: { rewrite <- (slot_index_pool t i Ht Hp) by (by eapply lookup_lt_Some). by rewrite Et. }
    set (slot' := set_l_expires_at _ slot) in *.
    assert (t_slots (v_table s) !! i = Some slot') as Es'.
    { rewrite Et. cbn. apply list_lookup_insert_eq. by eapply lookup_lt_Some. }
    rewrite (prog_bind_ok _ _ _ _ _ (fetch_slot_ok i slot' s Es')).
    unfold slot_alive. cbn [slot' set_l_expires_at l_state]. by rewrite Hfree.
  - rewrite (Hno i slot Es) in Hfree by (by rewrite matches_owns). done.
  - rewrite (Hno i slot Es) in Hfree by (by rewrite matches_owns). done.
Qed.

Definition demo_released : lease_slot := Slot LEASE_ST_FREE (demo_mac ++ repeat 0 10) 6 0.
Definition demo_released_table : lease_table := Table [demo_released; demo_free] 2 [192; 168; 0; 50].

Lemma released_never_acked_witness :
  exists t' slot', chose_address (fun _ => 5000) demo_released_table (m_lease_key demo_ask) (m_lease_key_length demo_ask) 3600
      = Ok (DHCP_OK, Some (pool_addr demo_released_table (Z.of_nat 0)), t') /\
    t_slots t' !! 0%nat = Some slot' /\ l_state slot' = LEASE_ST_FREE /\ owns slot' demo_ask = true /\
    forall up up' net_buffer args s, v_table s = t' -> asks_us demo_ask demo_cfg ->
      dhcp_handle_request 0 demo_cfg 0x20002000 up up' net_buffer demo_ask args s = Ok (([], DHCP_OK, zero_args), s).
Proof.
  apply (released_never_acked 0 demo_cfg 0x20002000 (fun _ => 5000) demo_released_table demo_ask 0 demo_released 3600).
  - constructor; [done|done|by repeat constructor].
  - split; [by unfold is_byte|done].
  - exact demo_ask_ok.
  - by vm_compute.
  - done.
  - done.
  - by vm_compute.
  - intros [|[|j]] slot Ej; [done|injection Ej as <-; by vm_compute|done].
  - by vm_compute.
Defined.

(** ** The journal *)

(** C15: A reset loses nothing: after the journal was compacted and any log of
    slot updates was appended to it, as long as both fit into the sector,
    loading it after a reset gives the slots at the compaction, the free ones
    cleared, with the updates of the log applied in their order, and asks for
    no compaction. *)
Theorem journal_replays `{NorFlash} sr t f mem rd wr log :
  table_ok t -> jstate f mem rd wr -> (journal_base + 4096 <= length mem)%nat -> Z.of_nat (length mem) < 2 ^ 32 ->
  Forall (fun e => slot_ok e.2 /\ (e.1 < length (t_slots t))%nat) log ->
  (4 + 8 * (length (live_log 0 (t_slots t)) + length log + 1) <= 4096)%nat ->
  exists f1 f2 f3, journal_compact sr t f = Ok (tt, f1) /\ append_log sr t log f1 = Ok (tt, f2) /\
    load_lease_table (fresh t) (reboot f2) =
      Ok ((set_t_slots (apply_log log (clear_slot <$> t_slots t)) t, false), f3).
Proof. apply journal_survives. Qed.

Lemma demo_slot_ok slot : bool_decide (Forall is_byte (l_key slot)) = true -> length (l_key slot) = 16%nat ->
  0 <= l_state slot < 256 -> is_byte (l_key_len slot) -> 0 <= l_expires_at slot < 2 ^ 32 -> slot_ok slot.
Proof. intros H%bool_decide_eq_true. by constructor. Defined.
Lemma demo_free_ok : slot_ok demo_free.
Proof. by apply demo_slot_ok; unfold is_byte; cbn. Defined.
Lemma demo_bound_ok : slot_ok demo_bound.
Proof. by apply demo_slot_ok; unfold is_byte; cbn. Defined.
Definition demo_log : list (nat * lease_slot) := [(0%nat, demo_bound); (1%nat, demo_free)].

Lemma journal_replays_witness :
  exists f1 f2 f3, journal_compact 0 demo_table demo_flash = Ok (tt, f1) /\ append_log 0 demo_table demo_log f1 = Ok (tt, f2) /\
    load_lease_table (fresh demo_table) (reboot f2) =
      Ok ((set_t_slots (apply_log demo_log (clear_slot <$> t_slots demo_table)) demo_table, false), f3).
Proof.
  apply (journal_replays 0 demo_table demo_flash (repeat erased (Z.to_nat 16384)) 0 0 demo_log).
  - constructor; [done|done|done|repeat constructor; unfold is_byte; lia|].
    by do 2 (constructor; [exact demo_free_ok|]).
  - exact demo_flash_ok.
  - rewrite repeat_length. unfold journal_base. lia.
  - rewrite repeat_length. lia.
  - constructor; [split; [exact demo_bound_ok|cbn; lia]|].
    constructor; [split; [exact demo_free_ok|cbn; lia]|]. apply Forall_nil_2.
  - apply Nat.leb_le. by vm_compute.
Defined.
