(* ===== verification/Spi.v ===== *)
(** * Memory-mapped registers and the SPI driver ([gpio.h], [rcc.h], [spi.c])

    Everything the driver does to the outside is an access in a log: reads and
    writes of registers, the mutex, sleeping.  What a read returns is up to
    the hardware: a function of the log so far. *)
From S2P Require Import Prelude Utils.

Inductive access :=
| Rd (addr value : Z)
| Wr (addr value : Z)
| Sleep (ticks : Z)
| LockInit
| Lock
| Unlock.

(** What a register access needs of the state it runs on. *)
Class Mmio (S : Type) := {
  mm_read : Z -> prog S Z;
  mm_write : Z -> Z -> prog S unit;
}.

(** ** Registers *)

Definition GPIOA : Z := 0x40020000.
Definition MODER : Z := 0x00.
Definition OTYPER : Z := 0x04.
Definition OSPEEDR : Z := 0x08.
Definition PUPDR : Z := 0x0C.
Definition BSRR : Z := 0x18.
Definition AFR : Z := 0x20.
Definition GPIO_MODE_OUTPUT : Z := 1.
Definition GPIO_MODE_AF : Z := 2.
Definition GPIO_OSPEEDR_FAST : Z := 2.
Definition GPIO_PUPDR_NOPP : Z := 0.
Definition RCC_AHB1ENR : Z := 0x40023830.
Definition RCC_APB2ENR : Z := 0x40023844.
Definition RCC_AHB1ENR_GPIOAEN : Z := 1.
Definition RCC_APB2ENR_SPI1EN : Z := Z.shiftl 1 12.

Section gpio.
Context {S : Type} `{Mmio S}.

(** [reg &= ~mask] and [reg |= mask] *)
Definition reg_and_not (reg mask : Z) : prog S unit :=
  v ← mm_read reg; mm_write reg (Z.land v (u32 (Z.lnot mask))).
Definition reg_or (reg mask : Z) : prog S unit :=
  v ← mm_read reg; mm_write reg (Z.lor v (u32 mask)).

Definition SET_GPIO_MODE (gpio function pin : Z) : prog S unit :=
  reg_and_not (gpio + MODER) (Z.shiftl 3 (2 * pin));;
  reg_or (gpio + MODER) (Z.shiftl function (2 * pin)).
Definition SET_GPIO_AF (gpio function pin : Z) : prog S unit :=
  reg_and_not (gpio + AFR + 4 * (pin / 8)) (Z.shiftl 15 (4 * (pin mod 8)));;
  reg_or (gpio + AFR + 4 * (pin / 8)) (Z.shiftl function (4 * (pin mod 8))).
Definition SET_GPIO_OTYPER (gpio open_drain pin : Z) : prog S unit :=
  reg_and_not (gpio + OTYPER) (Z.shiftl 1 pin);;
  reg_or (gpio + OTYPER) (Z.shiftl open_drain pin).
Definition SET_GPIO_OSPEEDR (gpio speed pin : Z) : prog S unit :=
  reg_and_not (gpio + OSPEEDR) (Z.shiftl 3 (2 * pin));;
  reg_or (gpio + OSPEEDR) (Z.shiftl speed (2 * pin)).
Definition SET_GPIO_PUPDR (gpio pup pin : Z) : prog S unit :=
  reg_and_not (gpio + PUPDR) (Z.shiftl 3 (2 * pin));;
  reg_or (gpio + PUPDR) (Z.shiftl pup (2 * pin)).
Definition GPIO_PIN_HIGH (gpio pin : Z) : prog S unit := mm_write (gpio + BSRR) (Z.shiftl 1 pin).
Definition GPIO_PIN_LOW (gpio pin : Z) : prog S unit := mm_write (gpio + BSRR) (Z.shiftl 1 (pin + 16)).
End gpio.

Definition SPI1_CR1 : Z := 0x40013000.
Definition SPI1_CR2 : Z := 0x40013004.
Definition SPI1_SR : Z := 0x40013008.
Definition SPI1_DR : Z := 0x4001300C.
Definition SPI_CR1_MSTR : Z := Z.shiftl 1 2.
Definition SPI_CR1_BR_DIV8 : Z := Z.shiftl 2 3.
Definition SPI_CR1_SPE : Z := Z.shiftl 1 6.
Definition SPI_CR1_SSI : Z := Z.shiftl 1 8.
Definition SPI_CR1_SSM : Z := Z.shiftl 1 9.
Definition SPI_SR_RXNE : Z := 1.
Definition SPI_SR_TXE : Z := Z.shiftl 1 1.
Definition SPI1_PIN_CS : Z := 4.
Definition SPI1_PIN_SCK : Z := 5.
Definition SPI1_PIN_MISO : Z := 6.
Definition SPI1_PIN_MOSI : Z := 7.
Definition SPI1_AF : Z := 5.
Definition SPI_SPIN_LIMIT : nat := 100.

(** ** The driver *)

Inductive spi_return := SPI_OK | SPI_ERR_TIMEOUT | SPI_ERR_FAULT | SPI_ERR_ARG.
Inductive spi_state := SPI_ST_UNINIT | SPI_ST_CONFIGURED | SPI_ST_READY | SPI_ST_FAULTED.
#[export] Instance spi_return_eq : EqDecision spi_return.
Proof. solve_decision. Defined.
#[export] Instance spi_state_eq : EqDecision spi_state.
Proof. solve_decision. Defined.

(** Null pointers are [None]; [rx_data] is the contents of its buffer. *)
Record spi_frame : Type := Frame {
  header : option bytes;
  header_len : Z;
  tx_data : option bytes;
  rx_data : option bytes;
  data_len : Z;
  is_read : bool;
}.

Record spi : Type := Spi {
  sp_state : spi_state;
  sp_log : list access; (* oldest first *)
}.
Definition set_sp_state (v : spi_state) (s : spi) : spi := Spi v (sp_log s).
Definition note (a : access) : prog spi unit := modify (fun s => Spi (sp_state s) (sp_log s ++ [a])).
Definition bit_set (v mask : Z) : bool := negb (Z.land v mask =? 0).

Section driver.
(** [answer] is the hardware; [after_wait] is the driver state that the other
    tasks left when the call of [sys_mutex_lock] returns.  [Lock] and [Unlock]
    in the log are these calls.  The driver ignores their results, and the
    static [spi1_lock] lies outside the pool of mutexes: the kernel takes the
    handle only if its distance from the pool is a multiple of the size of a
    mutex (see [SyscallProps.heap_mutex_refused]); otherwise both calls return
    at once and nothing is locked, which is an [after_wait] that changes
    nothing. *)
Context (answer : Z -> list access -> Z) (after_wait : list access -> spi_state -> spi_state).

#[export] Instance spi_mmio : Mmio spi := {|
  mm_read a := v ← gets (fun s => answer a (sp_log s)); note (Rd a v);; mret v;
  mm_write a v := note (Wr a v);
|}.

Definition sys_mutex_lock : prog spi unit :=
  note Lock;; modify (fun s => set_sp_state (after_wait (sp_log s) (sp_state s)) s).
Definition sys_mutex_unlock : prog spi unit := note Unlock.

Definition spi1_cs_select : prog spi unit := GPIO_PIN_LOW GPIOA SPI1_PIN_CS.
Definition spi1_cs_deselect : prog spi unit := GPIO_PIN_HIGH GPIOA SPI1_PIN_CS.

Definition setup_pin (pin : Z) : prog spi unit :=
  SET_GPIO_MODE GPIOA GPIO_MODE_AF pin;;
  SET_GPIO_OTYPER GPIOA 0 pin;;
  SET_GPIO_OSPEEDR GPIOA GPIO_OSPEEDR_FAST pin;;
  SET_GPIO_PUPDR GPIOA GPIO_PUPDR_NOPP pin;;
  SET_GPIO_AF GPIOA SPI1_AF pin.

(** The registers of [spi1_configure]. *)
Definition spi1_setup : prog spi unit :=
  reg_or RCC_AHB1ENR RCC_AHB1ENR_GPIOAEN;;
  reg_or RCC_APB2ENR RCC_APB2ENR_SPI1EN;;
  SET_GPIO_MODE GPIOA GPIO_MODE_OUTPUT SPI1_PIN_CS;;
  SET_GPIO_OTYPER GPIOA 0 SPI1_PIN_CS;;
  SET_GPIO_OSPEEDR GPIOA GPIO_OSPEEDR_FAST SPI1_PIN_CS;;
  spi1_cs_deselect;;
  setup_pin SPI1_PIN_SCK;;
  setup_pin SPI1_PIN_MISO;;
  setup_pin SPI1_PIN_MOSI;;
  mm_write SPI1_CR1 0;;
  mm_write SPI1_CR1 (Z.lor (Z.lor (Z.lor SPI_CR1_MSTR SPI_CR1_BR_DIV8) SPI_CR1_SSM) SPI_CR1_SSI);;
  mm_write SPI1_CR2 0;;
  reg_or SPI1_CR1 SPI_CR1_SPE.

Definition spi1_configure : prog spi spi_return :=
  state ← gets sp_state;
  if negb (bool_decide (state = SPI_ST_UNINIT)) then mret SPI_ERR_ARG
  else
    spi1_setup;;
    modify (set_sp_state SPI_ST_CONFIGURED);;
    mret SPI_OK.

Definition spi1_start : prog spi spi_return :=
  state ← gets sp_state;
  if negb (bool_decide (state = SPI_ST_CONFIGURED)) then mret SPI_ERR_ARG
  else
    note LockInit;;
    modify (set_sp_state SPI_ST_READY);;
    mret SPI_OK.

Definition spi1_recover : prog spi spi_return :=
  state ← gets sp_state;
  if negb (bool_decide (state = SPI_ST_FAULTED)) then mret SPI_ERR_ARG
  else
    sys_mutex_lock;;
    modify (set_sp_state SPI_ST_UNINIT);;
    spi1_configure;;
    mm_read SPI1_DR;;
    modify (set_sp_state SPI_ST_READY);;
    sys_mutex_unlock;;
    mret SPI_OK.

(** The wait for a bit of SR: [false] when [spins] reached the limit, after
    [n] more reads. *)
Fixpoint spin (n : nat) (mask : Z) : prog spi bool :=
  match n with
  | O => mret false
  | S n => sr ← mm_read SPI1_SR; if bit_set sr mask then mret true else spin n mask
  end.

(** The status and the received byte. *)
Definition spi1_transfer (data : Z) : prog spi (spi_return * Z) :=
  tx ← spin SPI_SPIN_LIMIT SPI_SR_TXE;
  if negb tx then mret (SPI_ERR_TIMEOUT, 0)
  else
    mm_write SPI1_DR data;;
    rx ← spin SPI_SPIN_LIMIT SPI_SR_RXNE;
    if negb rx then mm_read SPI1_DR;; mret (SPI_ERR_TIMEOUT, 0)
    else dr ← mm_read SPI1_DR; mret (SPI_OK, u8 dr).

Fixpoint header_loop (n i : nat) (h : bytes) : prog spi spi_return :=
  match n with
  | O => mret SPI_OK
  | S n =>
      b ← fetch (fun _ => h !! i);
      '(r, _) ← spi1_transfer b;
      match r with SPI_OK => header_loop n (S i) h | _ => mret r end
  end.

Fixpoint data_loop (n i : nat) (is_read : bool) (tx rx : bytes) : prog spi (spi_return * bytes) :=
  match n with
  | O => mret (SPI_OK, rx)
  | S n =>
      b ← (if is_read then mret 0xFF else fetch (fun _ => tx !! i));
      '(r, received) ← spi1_transfer b;
      match r with
      | SPI_OK =>
          rx ← (if is_read then fetch (fun _ => _ ← rx !! i; Some (<[i := received]> rx)) else mret rx);
          data_loop n (S i) is_read tx rx
      | _ => mret (r, rx)
      end
  end.

Definition is_none {A} (o : option A) : bool := match o with None => true | _ => false end.

(** The header, then the data: what is between the edges of the chip select. *)
Definition frame_phases (frame : spi_frame) : prog spi (spi_return * option bytes) :=
  r ← header_loop (Z.to_nat (header_len frame)) 0 (default [] (header frame));
  match r with
  | SPI_OK =>
      '(r, rx) ← data_loop (Z.to_nat (data_len frame)) 0 (is_read frame) (default [] (tx_data frame))
                   (default [] (rx_data frame));
      mret (r, (fun _ => rx) <$> rx_data frame)
  | _ => mret (r, rx_data frame)
  end.

(** The status and the receive buffer. *)
Definition spi1_transfer_frame (frame : spi_frame) : prog spi (spi_return * option bytes) :=
  state ← gets sp_state;
  if bool_decide (state = SPI_ST_UNINIT) then mret (SPI_ERR_ARG, rx_data frame)
  else if (header_len frame >? 0) && is_none (header frame) then mret (SPI_ERR_ARG, rx_data frame)
  else if (data_len frame >? 0) && ((is_read frame && is_none (rx_data frame)) ||
                                    (negb (is_read frame) && is_none (tx_data frame)))
  then mret (SPI_ERR_ARG, rx_data frame)
  else if bool_decide (state = SPI_ST_FAULTED) then mret (SPI_ERR_FAULT, rx_data frame)
  else
    sys_mutex_lock;;
    state ← gets sp_state;
    if bool_decide (state = SPI_ST_FAULTED) then sys_mutex_unlock;; mret (SPI_ERR_FAULT, rx_data frame)
    else
      sr ← mm_read SPI1_SR;
      whenb (bit_set sr SPI_SR_RXNE) (mm_read SPI1_DR;; mret tt);;
      spi1_cs_select;;
      '(r, rx) ← frame_phases frame;
      spi1_cs_deselect;;
      whenb (bool_decide (r = SPI_ERR_TIMEOUT)) (modify (set_sp_state SPI_ST_FAULTED));;
      sys_mutex_unlock;;
      mret (r, rx).
End driver.
