(* ===== verification/SpiSpec.v ===== *)
(** * The SPI driver: what a frame does to the bus

    For every behaviour of the hardware: the accesses of a transfer. *)
From S2P Require Import Prelude Utils Spi.

(** The bytes put on the bus, the words read from it, the chip select. *)
Definition dr_writes (l : list access) : list Z :=
  omap (fun a => match a with Wr r v => if r =? SPI1_DR then Some v else None | _ => None end) l.
Definition dr_reads (l : list access) : list Z :=
  omap (fun a => match a with Rd r v => if r =? SPI1_DR then Some v else None | _ => None end) l.
(** Neither the pins nor the mutex. *)
Definition quiet (a : access) : bool :=
  match a with Rd _ _ => true | Wr r _ => negb (r =? GPIOA + BSRR) | _ => false end.

Definition cs_low : access := Wr (GPIOA + BSRR) (Z.shiftl 1 (SPI1_PIN_CS + 16)).
Definition cs_high : access := Wr (GPIOA + BSRR) (Z.shiftl 1 SPI1_PIN_CS).

Section spec.
Context (answer : Z -> list access -> Z) (after_wait : list access -> spi_state -> spi_state).

(** A program that only adds quiet accesses, at most [n] of them. *)
Record extends (s s' : spi) (n : nat) (t : list access) : Prop := {
  ex_state : sp_state s' = sp_state s;
  ex_log : sp_log s' = sp_log s ++ t;
  ex_quiet : forallb quiet t = true;
  ex_bound : (length t <= n)%nat;
}.

Lemma extends_refl s n : extends s s n [].
Proof using. constructor; [done|by rewrite app_nil_r|done|cbn; lia]. Qed.
Lemma extends_trans s1 s2 s3 n m t u :
  extends s1 s2 n t -> extends s2 s3 m u -> extends s1 s3 (n + m) (t ++ u).
Proof using.
  intros [A1 A2 A3 A4] [B1 B2 B3 B4]. constructor; [congruence|by rewrite B2, A2, app_assoc| |rewrite length_app; lia].
  by rewrite forallb_app, A3, B3.
Qed.
Lemma extends_le s s' n m t : extends s s' n t -> (n <= m)%nat -> extends s s' m t.
Proof using. intros [? ? ? ?] ?. constructor; [done..|lia]. Qed.

Lemma dr_writes_app l l' : dr_writes (l ++ l') = dr_writes l ++ dr_writes l'.
Proof using. apply omap_app. Qed.
Lemma dr_reads_app l l' : dr_reads (l ++ l') = dr_reads l ++ dr_reads l'.
Proof using. apply omap_app. Qed.

Lemma spin_ok n mask s : exists b s' t, spin answer n mask s = Ok (b, s') /\ extends s s' n t /\
  dr_writes t = [] /\ dr_reads t = [].
Proof using.
  revert s. induction n as [|n IH]; intros s; [by eexists _, s, []; split_and!; [..|apply extends_refl| |]|].
  cbn [spin]. set (v := answer SPI1_SR (sp_log s)). set (s1 := Spi (sp_state s) (sp_log s ++ [Rd SPI1_SR v])).
  rewrite (prog_bind_ok _ _ s v s1) by done.
  assert (extends s s1 1 [Rd SPI1_SR v]) as H1 by (constructor; cbn; [done..|lia]).
  destruct (bit_set v mask); [by exists true, s1, [Rd SPI1_SR v]; split_and!; [|apply (extends_le _ _ 1); [|lia]| |]|].
  destruct (IH s1) as (b & s' & t & E & He & Ew & Er). exists b, s', ([Rd SPI1_SR v] ++ t). split_and!; [done| |done|done].
  by apply (extends_trans s s1 s' 1 n).
Qed.

(** A byte: exchanged, or lost to a timeout. *)
Definition byte_done (b : Z) (r : spi_return) (v : Z) (t : list access) : Prop :=
  (r = SPI_OK /\ dr_writes t = [b] /\ exists w, dr_reads t = [w] /\ v = u8 w) \/
  (r = SPI_ERR_TIMEOUT /\ dr_writes t `prefix_of` [b]).

Lemma spi1_transfer_ok b s : exists r v s' t, spi1_transfer answer b s = Ok ((r, v), s') /\
  extends s s' 202 t /\ byte_done b r v t.
Proof using.
  unfold spi1_transfer. destruct (spin_ok SPI_SPIN_LIMIT SPI_SR_TXE s) as (b1 & s1 & t1 & E1 & H1 & W1 & R1).
  rewrite (prog_bind_ok _ _ _ _ _ E1). destruct b1; cbn [negb].
  2: { eexists _, _, s1, t1. split_and!; [done|apply (extends_le _ _ _ _ _ H1); unfold SPI_SPIN_LIMIT; lia|].
       right. split; [done|]. rewrite W1. apply prefix_nil. }
  set (s2 := Spi (sp_state s1) (sp_log s1 ++ [Wr SPI1_DR b])).
  rewrite (prog_bind_ok _ _ s1 tt s2) by done.
  assert (extends s1 s2 1 [Wr SPI1_DR b]) as H2 by (constructor; cbn; [done..|lia]).
  destruct (spin_ok SPI_SPIN_LIMIT SPI_SR_RXNE s2) as (b3 & s3 & t3 & E3 & H3 & W3 & R3).
  rewrite (prog_bind_ok _ _ _ _ _ E3).
  set (v := answer SPI1_DR (sp_log s3)). set (s4 := Spi (sp_state s3) (sp_log s3 ++ [Rd SPI1_DR v])).
  assert (extends s3 s4 1 [Rd SPI1_DR v]) as H4 by (constructor; cbn; [done..|lia]).
  pose proof (extends_trans _ _ _ _ _ _ _ (extends_trans _ _ _ _ _ _ _ (extends_trans _ _ _ _ _ _ _ H1 H2) H3) H4) as H.
  destruct b3; cbn [negb].
  - rewrite (prog_bind_ok _ _ s3 v s4) by done. eexists _, _, s4, _. split_and!; [done|exact H|]. left.
    rewrite !dr_writes_app, !dr_reads_app, W1, W3, R1, R3. split_and!; [done|done|]. by exists v.
  - rewrite (prog_bind_ok _ _ s3 v s4) by done. eexists _, _, s4, _. split_and!; [done|exact H|]. right.
    rewrite !dr_writes_app, W1, W3. split; [done|]. cbn. by exists [].
Qed.

(** A sequence of bytes: all of them, or the first ones and a timeout. *)
Definition bytes_done (bs : list Z) (r : spi_return) (vs : list Z) (t : list access) : Prop :=
  (r = SPI_OK /\ dr_writes t = bs /\ vs = u8 <$> dr_reads t /\ length vs = length bs) \/
  (r = SPI_ERR_TIMEOUT /\ dr_writes t `prefix_of` bs).

Lemma bytes_done_cons b bs v r vs t u :
  byte_done b SPI_OK v t -> bytes_done bs r vs u -> bytes_done (b :: bs) r (v :: vs) (t ++ u).
Proof using.
  intros [(_ & Ew & w & Er & ->)|[[=] _]] Hb. unfold bytes_done. rewrite dr_writes_app, dr_reads_app, Ew, Er.
  destruct Hb as [(-> & -> & -> & Hl)|[-> Hp]]; [left|right].
  - split_and!; [done|done|done|]. cbn. by rewrite Hl.
  - split; [done|]. by apply prefix_cons.
Qed.
Lemma bytes_done_stop b bs v vs t : byte_done b SPI_ERR_TIMEOUT v t -> bytes_done (b :: bs) SPI_ERR_TIMEOUT vs t.
Proof using.
  intros [[[=] _]|[_ Hp]]. right. split; [done|]. etrans; [exact Hp|]. by exists bs.
Qed.
Lemma byte_done_cases b r v t : byte_done b r v t -> r = SPI_OK \/ r = SPI_ERR_TIMEOUT.
Proof using. intros [[-> _]|[-> _]]; [by left|by right]. Qed.

Lemma header_loop_ok h n : forall i s, (i + n <= length h)%nat ->
  exists r vs s' t, header_loop answer n i h s = Ok (r, s') /\ extends s s' (202 * n) t /\
    bytes_done (take n (drop i h)) r vs t.
Proof using.
  induction n as [|n IH]; intros i s Hi.
  { exists SPI_OK, [], s, []. split_and!; [done|apply extends_refl|]. by left. }
  destruct (lookup_lt_is_Some_2 h i) as [b Eb]; [lia|]. cbn [header_loop].
  rewrite (prog_bind_ok _ _ s b s) by (unfold fetch; by rewrite Eb). rewrite (drop_S _ _ _ Eb). cbn [take].
  destruct (spi1_transfer_ok b s) as (r & v & s1 & t1 & E1 & H1 & D1). rewrite (prog_bind_ok _ _ _ _ _ E1).
  cbn beta iota. destruct (byte_done_cases _ _ _ _ D1) as [-> | ->].
  - destruct (IH (S i) s1 ltac:(lia)) as (r & vs & s2 & t2 & E2 & H2 & D2).
    exists r, (v :: vs), s2, (t1 ++ t2). split_and!; [exact E2| |by apply bytes_done_cons].
    apply (extends_le _ _ (202 + 202 * n)); [by apply (extends_trans s s1 s2)|lia].
  - eexists _, [], s1, t1. split_and!; [done|apply (extends_le _ _ _ _ _ H1); lia|]. by eapply bytes_done_stop.
Qed.

(** What is written in the data phase, and the buffer after it. *)
Definition data_out (rd : bool) (tx : bytes) (n : nat) : list Z := if rd then repeat 0xFF n else take n tx.

Lemma data_loop_ok rd tx n : forall i s rx,
  (rd = true -> (i + n <= length rx)%nat) -> (rd = false -> (i + n <= length tx)%nat) ->
  exists r vs rx' s' t, data_loop answer n i rd tx rx s = Ok ((r, rx'), s') /\ extends s s' (202 * n) t /\
    bytes_done (data_out rd (drop i tx) n) r vs t /\ length rx' = length rx /\
    (r = SPI_OK -> rx' = if rd then take i rx ++ vs ++ drop (i + n) rx else rx).
Proof using.
  induction n as [|n IH]; intros i s rx Hr Ht.
  { exists SPI_OK, [], rx, s, []. split_and!; [done|apply extends_refl| |done|].
    - left. by destruct rd.
    - intros _. destruct rd; [|done]. by rewrite Nat.add_0_r, app_nil_l, take_drop. }
  cbn [data_loop].
  assert (exists b, (if rd then mret 0xFF else fetch (fun _ => tx !! i)) s = Ok (b, s) /\
    data_out rd (drop i tx) (S n) = b :: data_out rd (drop (S i) tx) n) as (b & Eb & Ed).
  { destruct rd; [by exists 0xFF|]. destruct (lookup_lt_is_Some_2 tx i) as [b Eb]; [specialize (Ht eq_refl); lia|].
    exists b. unfold fetch. rewrite Eb. split; [done|]. by rewrite (drop_S _ _ _ Eb). }
  rewrite (prog_bind_ok _ _ s b s Eb), Ed.
  destruct (spi1_transfer_ok b s) as (r & v & s1 & t1 & E1 & H1 & D1). rewrite (prog_bind_ok _ _ _ _ _ E1).
  cbn beta iota. destruct (byte_done_cases _ _ _ _ D1) as [-> | ->].
  2: { eexists _, [], rx, s1, t1. split_and!; [done|apply (extends_le _ _ _ _ _ H1); lia|by eapply bytes_done_stop|done|done]. }
  set (rx1 := if rd then <[i := v]> rx else rx).
  rewrite (prog_bind_ok _ _ s1 rx1 s1).
  2: { destruct rd; [|done]. unfold fetch, rx1. destruct (lookup_lt_is_Some_2 rx i) as [o Eo]; [specialize (Hr eq_refl); lia|].
       by rewrite Eo. }
  assert (length rx1 = length rx) as Hl by (unfold rx1; destruct rd; [apply length_insert|done]).
  destruct (IH (S i) s1 rx1) as (r & vs & rx' & s2 & t2 & E2 & H2 & D2 & Hl2 & Hx).
  { intros Hrd. rewrite Hl. specialize (Hr Hrd). lia. }
  { intros Hrd. specialize (Ht Hrd). lia. }
  exists r, (v :: vs), rx', s2, (t1 ++ t2). split_and!; [exact E2| |by apply bytes_done_cons|lia|].
  - apply (extends_le _ _ (202 + 202 * n)); [by apply (extends_trans s s1 s2)|lia].
  - intros Hrk. rewrite (Hx Hrk). unfold rx1. destruct rd; [|done]. specialize (Hr eq_refl).
    rewrite (take_S_r _ _ v) by (apply list_lookup_insert_eq; lia). rewrite take_insert_ge, drop_insert_lt by lia.
    rewrite <- app_assoc. cbn. do 2 f_equal. by replace (i + S n)%nat with (S (i + n)) by lia.
Qed.

(** ** Frames *)

Record frame_ok (f : spi_frame) (h tx rx : bytes) : Prop := {
  fo_header : header f = Some h;
  fo_header_len : 0 <= header_len f <= Z.of_nat (length h);
  fo_data_len : 0 <= data_len f;
  fo_tx : default [] (tx_data f) = tx;
  fo_rx : default [] (rx_data f) = rx;
  fo_read : is_read f = true -> rx_data f = Some rx /\ data_len f <= Z.of_nat (length rx);
  fo_write : is_read f = false -> tx_data f = Some tx /\ data_len f <= Z.of_nat (length tx);
}.

Definition frame_bytes (f : spi_frame) (h tx : bytes) : list Z :=
  take (Z.to_nat (header_len f)) h ++ data_out (is_read f) tx (Z.to_nat (data_len f)).
(** The receive buffer when [words] were read during the frame. *)
Definition frame_received (f : spi_frame) (words : list Z) : option bytes :=
  if is_read f
  then (fun rx => (u8 <$> drop (Z.to_nat (header_len f)) words) ++ drop (Z.to_nat (data_len f)) rx) <$> rx_data f
  else rx_data f.

Definition frame_outcome (f : spi_frame) (h tx : bytes) (st : spi_state) (body : list access)
    (r : spi_return) (rx : option bytes) (st' : spi_state) : Prop :=
  (r = SPI_OK /\ st' = st /\ dr_writes body = frame_bytes f h tx /\ rx = frame_received f (dr_reads body)) \/
  (r = SPI_ERR_TIMEOUT /\ st' = SPI_ST_FAULTED /\ dr_writes body `prefix_of` frame_bytes f h tx).

Lemma bytes_done_ok bs r vs t : bytes_done bs r vs t -> r = SPI_OK \/ r = SPI_ERR_TIMEOUT.
Proof using. intros [[-> _]|[-> _]]; [by left|by right]. Qed.

Lemma frame_guards f h tx rx : frame_ok f h tx rx ->
  (header_len f >? 0) && is_none (header f) = false /\
  (data_len f >? 0) && ((is_read f && is_none (rx_data f)) || (negb (is_read f) && is_none (tx_data f))) = false.
Proof using.
  intros [Eh _ _ _ _ Hr Hw]. rewrite Eh. cbn [is_none]. rewrite andb_false_r. split; [done|].
  destruct (is_read f).
  - destruct (Hr eq_refl) as [-> _]. cbn. apply andb_false_r.
  - destruct (Hw eq_refl) as [-> _]. cbn. apply andb_false_r.
Qed.

Lemma frame_phases_ok f h tx rx s : frame_ok f h tx rx ->
  exists r rx' s' body, frame_phases answer f s = Ok ((r, rx'), s') /\
    extends s s' (202 * (Z.to_nat (header_len f) + Z.to_nat (data_len f))) body /\
    ((r = SPI_OK /\ dr_writes body = frame_bytes f h tx /\ rx' = frame_received f (dr_reads body)) \/
     (r = SPI_ERR_TIMEOUT /\ dr_writes body `prefix_of` frame_bytes f h tx)).
Proof using.
  intros [Eh Hh Hd Etx Erx Hr Hw]. unfold frame_phases. rewrite Eh, Etx, Erx. cbn [default].
  destruct (header_loop_ok h (Z.to_nat (header_len f)) 0 s ltac:(lia)) as (r1 & vs1 & s1 & t1 & E1 & H1 & D1).
  rewrite drop_0 in D1. unfold default, from_option. rewrite (prog_bind_ok _ _ _ _ _ E1).
  destruct D1 as [(-> & W1 & V1 & L1)|[-> P1]].
  2: { eexists _, _, s1, t1. split_and!; [done|apply (extends_le _ _ _ _ _ H1); lia|]. right. split; [done|].
       etrans; [exact P1|]. by eexists. }
  destruct (data_loop_ok (is_read f) tx (Z.to_nat (data_len f)) 0 s1 rx) as (r2 & vs2 & rx2 & s2 & t2 & E2 & H2 & D2 & L2 & X2).
  { intros Hrd. destruct (Hr Hrd) as [_ ?]. lia. }
  { intros Hrd. destruct (Hw Hrd) as [_ ?]. lia. }
  rewrite (prog_bind_ok _ _ _ _ _ E2). cbn beta iota.
  pose proof (extends_trans _ _ _ _ _ _ _ H1 H2) as H12.
  eexists _, _, s2, (t1 ++ t2). split_and!; [done|by apply (extends_le _ _ _ _ _ H12); lia|].
  unfold frame_bytes, frame_received. rewrite dr_writes_app, dr_reads_app, W1.
  destruct D2 as [(-> & W2 & V2 & L3)|[-> P2]]; [left|right].
  - rewrite W2, drop_0. split_and!; [done|done|]. rewrite (X2 eq_refl). destruct (is_read f) eqn:Ef.
    + destruct (Hr eq_refl) as [Erx2 _]. rewrite Erx2. cbn. rewrite V2, drop_app_length'; [done|].
      rewrite V1, length_fmap, length_take in L1. lia.
    + destruct (rx_data f); [|done]. cbn in Erx. by subst.
  - split; [done|]. rewrite drop_0 in P2. by apply prefix_app.
Qed.

Lemma spi1_transfer_frame_ok f h tx rx s :
  frame_ok f h tx rx -> sp_state s <> SPI_ST_UNINIT -> sp_state s <> SPI_ST_FAULTED ->
  let st := after_wait (sp_log s ++ [Lock]) (sp_state s) in
  st <> SPI_ST_FAULTED ->
  exists r rx' s' lead body, spi1_transfer_frame answer after_wait f s = Ok ((r, rx'), s') /\
    sp_log s' = sp_log s ++ Lock :: lead ++ cs_low :: body ++ [cs_high; Unlock] /\
    forallb quiet (lead ++ body) = true /\ dr_writes lead = [] /\
    (length (lead ++ body) <= 2 + 202 * (Z.to_nat (header_len f) + Z.to_nat (data_len f)))%nat /\
    frame_outcome f h tx st body r rx' (sp_state s').
Proof using.
  intros Hf Hu Hfl st Hst. destruct (frame_guards f h tx rx Hf) as [G1 G2]. unfold spi1_transfer_frame.
  rewrite (prog_bind_ok (gets _) _ s (sp_state s) s) by done.
  rewrite (bool_decide_false (sp_state s = SPI_ST_UNINIT)), G1, G2, (bool_decide_false (sp_state s = SPI_ST_FAULTED)) by done.
  set (s1 := Spi st (sp_log s ++ [Lock])). rewrite (prog_bind_ok (sys_mutex_lock after_wait) _ s tt s1) by done.
  rewrite (prog_bind_ok (gets _) _ s1 st s1) by done. rewrite bool_decide_false by done.
  set (v := answer SPI1_SR (sp_log s1)). set (s2 := Spi st (sp_log s1 ++ [Rd SPI1_SR v])).
  rewrite (prog_bind_ok _ _ s1 v s2) by done.
  assert (exists lead s3, whenb (bit_set v SPI_SR_RXNE) (mm_read (Mmio := spi_mmio answer) SPI1_DR;; mret tt) s2
      = Ok (tt, s3) /\
    s3 = Spi st (sp_log s1 ++ lead) /\ forallb quiet lead = true /\ dr_writes lead = [] /\ (length lead <= 2)%nat)
    as (lead & s3 & E3 & -> & Q3 & W3 & L3).
  { destruct (bit_set v SPI_SR_RXNE); cbn [whenb].
    - eexists [Rd SPI1_SR v; Rd SPI1_DR _], _. split; [done|]. split_and!; [|done..|cbn; lia].
      cbn. by rewrite <- !app_assoc.
    - exists [Rd SPI1_SR v], s2. split_and!; [done..|cbn; lia]. }
  rewrite (prog_bind_ok _ _ _ _ _ E3). set (s3 := Spi _ (_ ++ lead)).
  set (s4 := Spi st (sp_log s3 ++ [cs_low])). rewrite (prog_bind_ok (spi1_cs_select answer) _ s3 tt s4) by done.
  destruct (frame_phases_ok f h tx rx s4 Hf) as (r & rx' & s5 & body & E5 & [X1 X2 X3 X4] & D).
  rewrite (prog_bind_ok _ _ _ _ _ E5). cbn beta iota.
  set (s6 := Spi (sp_state s5) (sp_log s5 ++ [cs_high])). rewrite (prog_bind_ok (spi1_cs_deselect answer) _ s5 tt s6) by done.
  set (s7 := if bool_decide (r = SPI_ERR_TIMEOUT) then set_sp_state SPI_ST_FAULTED s6 else s6).
  rewrite (prog_bind_ok (whenb _ _) _ s6 tt s7) by (unfold s7; by destruct (bool_decide _)).
  eexists r, rx', (Spi (sp_state s7) (sp_log s7 ++ [Unlock])), lead, body. split_and!; [done| | |done| |].
  - assert (sp_log s7 = sp_log s6) as El by (unfold s7; by destruct (bool_decide _)). cbn [sp_log]. rewrite El.
    cbn [s6 sp_log]. rewrite X2. cbn [s4 s3 s1 sp_log]. rewrite <- !app_assoc. done.
  - by rewrite forallb_app, Q3, X3.
  - rewrite length_app. lia.
  - cbn [sp_state]. unfold s7. destruct D as [(-> & W & R)|[-> P]]; [left|right].
    + rewrite bool_decide_false by done. split_and!; [done|exact X1|done|done].
    + rewrite bool_decide_true by done. by split_and!.
Qed.
End spec.
