(* ===== verification/W5500.v ===== *)
(** * The W5500 driver ([w5500.c], [w5500.h])

    Written against the interface of a bus that transfers frames; the SPI
    driver is one.  [kprintf] lines are left out. *)
From S2P Require Import Prelude Utils KState Pool Spi.

(** What the driver needs of the system below it. *)
Class SpiBus (B : Type) := {
  bus_mmio :: Mmio B;
  bus_frame : spi_frame -> prog B (spi_return * option bytes);
  bus_recover : prog B spi_return;
  sys_sleep : Z -> prog B unit;
}.

(** The SPI driver is such a bus. *)
Definition spi_bus (answer : Z -> list access -> Z) (after_wait : list access -> spi_state -> spi_state) : SpiBus spi := {|
  bus_mmio := spi_mmio answer;
  bus_frame := spi1_transfer_frame answer after_wait;
  bus_recover := spi1_recover answer after_wait;
  sys_sleep ticks := note (Sleep ticks);
|}.

(** ** Registers and commands *)

Definition W5500_RESET_PIN : Z := 1.
Definition W5500_BSB_COMMON : Z := 0.
Definition W5500_CTRL_RWB_READ : Z := Z.shiftl 0 2.
Definition W5500_CTRL_RWB_WRITE : Z := Z.shiftl 1 2.
Definition W5500_CTRL_OM_VDM : Z := Z.shiftl 0 0.
Definition W5500_GAR : Z := 0x01.
Definition W5500_SUBR : Z := 0x05.
Definition W5500_SHAR : Z := 0x09.
Definition W5500_SIPR : Z := 0x0F.
Definition W5500_PHYCFGR : Z := 0x2E.
Definition W5500_VERSIONR : Z := 0x39.
Definition W5500_BSB_SOCK_REG (n : Z) : Z := u8 (1 + Z.shiftl n 2).
Definition _TX (n : Z) : Z := u8 (2 + Z.shiftl n 2).
Definition _RX (n : Z) : Z := u8 (3 + Z.shiftl n 2).
Definition SOCKET_MR : Z := 0x00.
Definition SOCKET_CR : Z := 0x01.
Definition SOCKET_IR : Z := 0x02.
Definition SOCKET_SR : Z := 0x03.
Definition SOCKET_PORT : Z := 0x04.
Definition SOCKET_DHAR : Z := 0x06.
Definition SOCKET_DIPR : Z := 0x0C.
Definition SOCKET_DPORT : Z := 0x10.
Definition SOCKET_TX_FSR : Z := 0x20.
Definition SOCKET_TX_RD : Z := 0x22.
Definition SOCKET_TX_WR : Z := 0x24.
Definition SOCKET_RX_RSR : Z := 0x26.
Definition SOCKET_RX_RD : Z := 0x28.
Definition SOCKET_CMD_OPEN : Z := 0x01.
Definition SOCKET_CMD_CLOSE : Z := 0x10.
Definition SOCKET_CMD_SEND : Z := 0x20.
Definition SOCKET_CMD_SEND_MAC : Z := 0x21.
Definition SOCKET_CMD_RECV : Z := 0x40.
Definition SOCKET_SR_INIT : Z := 0x13.
Definition SOCKET_SR_UDP : Z := 0x22.
Definition SOCKET_IR_TIMEOUT : Z := 0x08.
Definition SOCKET_IR_SENDOK : Z := 0x10.
Definition SOCK_CLOSED : Z := 0x00.
Definition INIT_ATTEMPTS : nat := 5.
Definition OPEN_MAX_TRIES : nat := 5.
Definition CLOSE_MAX_TRIES : nat := 5.
Definition SEND_TRIES : nat := 5.

Inductive w5500_status :=
| W5500_OK | W5500_ERR_TRANSIENT | W5500_ERR_FAULT | W5500_ERR_UNSTABLE | W5500_ERR_STATE | W5500_ERR_ARG
| W5500_ERR_UNREACHABLE.
#[export] Instance w5500_status_eq : EqDecision w5500_status.
Proof. solve_decision. Defined.

Definition protocol_bits (p : socket_protocol) : Z :=
  match p with CLOSED => 0 | TCP => 1 | UDP => 2 | MACRAW => 4 end.
Definition set_k_status (v : socket_status) (k : socket) : socket :=
  MkSocket (k_number k) (k_port k) (k_protocol k) v (k_has_unreaped_send k).
Definition set_k_has_unreaped_send (v : bool) (k : socket) : socket :=
  MkSocket (k_number k) (k_port k) (k_protocol k) (k_status k) v.

(** [if (st != W5500_OK) return err;] and
    [if (st != W5500_OK && st != W5500_ERR_TRANSIENT) return err;] *)
Definition ok_or {B A} (st : w5500_status) (err k : prog B A) : prog B A :=
  match st with W5500_OK => k | _ => err end.
Definition usable_or {B A} (st : w5500_status) (err k : prog B A) : prog B A :=
  match st with W5500_OK | W5500_ERR_TRANSIENT => k | _ => err end.

(** [do body while (again && ++tries < n)]: [inl None] is [tries == n],
    [inr] an early return of the body. *)
Fixpoint retry {B V R} (n : nat) (v : V) (body : V -> prog B (V + R)) (again : V -> bool) : prog B (option V + R) :=
  match n with
  | O => mret (inl None)
  | S n =>
      r ← body v;
      match r with
      | inr e => mret (inr e)
      | inl v => if again v then retry n v body again else mret (inl (Some v))
      end
  end.

(** ** Transfers *)

Section driver.
Context {B : Type} `{SpiBus B}.
Abbreviation WM := (prog B).

Definition w5500_transfer (addr bsb : Z) (is_read : bool) (tx rx : option bytes) (len : Z)
    : WM (w5500_status * option bytes) :=
  let control := u8 (Z.lor (Z.lor (Z.shiftl bsb 3) W5500_CTRL_OM_VDM)
                       (if is_read then W5500_CTRL_RWB_READ else W5500_CTRL_RWB_WRITE)) in
  let h := [Z.land (Z.shiftr addr 8) 0xFF; Z.land addr 0xFF; control] in
  '(spi_ret, rx) ← bus_frame (Frame (Some h) 3 tx rx len is_read);
  mret (match spi_ret with
        | SPI_ERR_ARG => W5500_ERR_ARG
        | SPI_ERR_TIMEOUT => W5500_ERR_TRANSIENT
        | SPI_ERR_FAULT => W5500_ERR_FAULT
        | SPI_OK => W5500_OK
        end, rx).

(** The status and what the variable holds then; [data] is its old value. *)
Definition w5500_read8 (addr bsb data : Z) : WM (w5500_status * Z) :=
  '(st, rx) ← w5500_transfer addr bsb true None (Some [data]) 1;
  mret (st, List.nth 0 (default [] rx) 0).
Definition w5500_write8 (addr bsb v : Z) : WM w5500_status :=
  '(st, _) ← w5500_transfer addr bsb false (Some [u8 v]) None 1; mret st.
Definition w5500_read16 (addr bsb data : Z) : WM (w5500_status * Z) :=
  '(st, rx) ← w5500_transfer addr bsb true None (Some [0; 0]) 2;
  let v := default [] rx in
  mret (st, match st with W5500_OK => Z.lor (Z.shiftl (List.nth 0 v 0) 8) (List.nth 1 v 0) | _ => data end).
Definition w5500_write16 (addr bsb data : Z) : WM w5500_status :=
  '(st, _) ← w5500_transfer addr bsb false (Some [u8 (Z.shiftr data 8); Z.land data 0xFF]) None 2; mret st.

(** [n] iterations are left. *)
Fixpoint stable_loop (n : nat) (addr bsb data : Z) : WM (w5500_status * Z) :=
  match n with
  | O => mret (W5500_ERR_UNSTABLE, data)
  | S n =>
      '(st, a) ← w5500_read16 addr bsb 0;
      ok_or st (mret (st, data))
        ('(st, b) ← w5500_read16 addr bsb 0;
         ok_or st (mret (st, data))
           (if a =? b then mret (st, a) else stable_loop n addr bsb data))
  end.
Definition w5500_read16_stable (addr bsb data : Z) : WM (w5500_status * Z) := stable_loop 255 addr bsb data.

(** ** Bringing the chip up *)

Definition w5500_reset_pin_init : WM unit :=
  reg_or RCC_AHB1ENR RCC_AHB1ENR_GPIOAEN;;
  SET_GPIO_MODE GPIOA GPIO_MODE_OUTPUT W5500_RESET_PIN;;
  SET_GPIO_OTYPER GPIOA 0 W5500_RESET_PIN;;
  SET_GPIO_OSPEEDR GPIOA GPIO_OSPEEDR_FAST W5500_RESET_PIN;;
  GPIO_PIN_HIGH GPIOA W5500_RESET_PIN.

Definition w5500_hw_reset : WM unit :=
  GPIO_PIN_LOW GPIOA W5500_RESET_PIN;;
  sys_sleep 1;;
  GPIO_PIN_HIGH GPIOA W5500_RESET_PIN;;
  sys_sleep 60.

Definition w5500_get_version (data : Z) : WM (w5500_status * Z) :=
  w5500_read8 W5500_VERSIONR W5500_BSB_COMMON data.

Definition w5500_bring_up : WM w5500_status :=
  r ← retry INIT_ATTEMPTS 0
        (fun version =>
           w5500_reset_pin_init;;
           w5500_hw_reset;;
           '(st, version) ← w5500_get_version version;
           usable_or st (mret (inr st)) (mret (inl version)))
        (fun version => negb (version =? 4));
  mret (match r with inr st => st | inl None => W5500_ERR_STATE | inl (Some _) => W5500_OK end).

Definition w5500_init (mac ip gateway subnet : bytes) : WM w5500_status :=
  st ← w5500_bring_up;
  ok_or st (mret st)
    ('(st, _) ← w5500_transfer W5500_SHAR W5500_BSB_COMMON false (Some mac) None 6;
     ok_or st (mret st)
       ('(st, _) ← w5500_transfer W5500_SIPR W5500_BSB_COMMON false (Some ip) None 4;
        ok_or st (mret st)
          ('(st, _) ← w5500_transfer W5500_GAR W5500_BSB_COMMON false (Some gateway) None 4;
           ok_or st (mret st)
             ('(st, _) ← w5500_transfer W5500_SUBR W5500_BSB_COMMON false (Some subnet) None 4;
              ok_or st (mret st) (mret W5500_OK))))).

(** [up] is the old value of [*up]. *)
Definition w5500_link_up (up : Z) : WM (w5500_status * Z) :=
  '(st, data) ← w5500_read8 W5500_PHYCFGR W5500_BSB_COMMON 0;
  mret (st, match st with W5500_OK => Z.land data 1 | _ => up end).

(** ** Sockets *)

(** A null socket is [None]. *)
Definition w5500_socket_close (socket : option socket) : WM (w5500_status * option Pool.socket) :=
  match socket with
  | None => mret (W5500_ERR_ARG, None)
  | Some k =>
      if k_number k >? 7 then mret (W5500_ERR_ARG, Some k)
      else
        let bsb := W5500_BSB_SOCK_REG (k_number k) in
        _st ← w5500_write8 SOCKET_CR bsb SOCKET_CMD_CLOSE;
        r ← retry CLOSE_MAX_TRIES 1
              (fun current_sr =>
                 sys_sleep 1;;
                 '(st, current_sr) ← w5500_read8 SOCKET_SR bsb current_sr;
                 usable_or st (mret (inr st)) (mret (inl current_sr)))
              (fun current_sr => negb (current_sr =? SOCK_CLOSED));
        mret (match r with
              | inr st => (st, Some k)
              | inl None => (W5500_ERR_TRANSIENT, Some (set_k_status SOCKET_STATUS_ERROR k))
              | inl (Some _) => (W5500_OK, Some (set_k_status SOCKET_STATUS_CLOSED k))
              end)
  end.

(** From the OPEN command on, with the status register that is waited for. *)
Definition open_wait (bsb mode wanted_sr : Z) (k : socket) : WM (w5500_status * option socket) :=
  let failed := Some (set_k_status SOCKET_STATUS_ERROR k) in
  r ← retry OPEN_MAX_TRIES 0
        (fun current_sr =>
           sys_sleep 2;;
           '(st, current_sr) ← w5500_read8 SOCKET_SR bsb current_sr;
           usable_or st (mret (inr st)) (mret (inl current_sr)))
        (fun current_sr => negb (wanted_sr =? current_sr));
  match r with
  | inr st => mret (st, Some k)
  | inl None => mret (W5500_ERR_TRANSIENT, failed)
  | inl (Some _) =>
      '(st, current_mr) ← w5500_read8 SOCKET_MR bsb 0;
      ok_or st (mret (st, failed))
        ('(st, current_port) ← w5500_read16 SOCKET_PORT bsb 0;
         ok_or st (mret (st, failed))
           (if negb (current_mr =? mode) then mret (W5500_ERR_STATE, failed)
            else if negb (current_port =? k_port k) then mret (W5500_ERR_STATE, failed)
            else mret (W5500_OK, Some (set_k_status SOCKET_STATUS_OPEN k))))
  end.

Definition w5500_socket_open (socket : option socket) : WM (w5500_status * option Pool.socket) :=
  match socket with
  | None => mret (W5500_ERR_ARG, None)
  | Some k =>
      if k_number k >? 7 then mret (W5500_ERR_ARG, Some k)
      else
        '(st, closed) ← w5500_socket_close (Some k);
        ok_or st (mret (st, closed))
          (let k := default k closed in
           let bsb := W5500_BSB_SOCK_REG (k_number k) in
           let mode := protocol_bits (k_protocol k) in
           st ← w5500_write8 SOCKET_MR bsb mode;
           ok_or st (mret (st, Some k))
             (st ← w5500_write16 SOCKET_PORT bsb (k_port k);
              ok_or st (mret (st, Some k))
                (st ← w5500_write8 SOCKET_CR bsb SOCKET_CMD_OPEN;
                 ok_or st (mret (st, Some k))
                   match k_protocol k with
                   | TCP => open_wait bsb mode SOCKET_SR_INIT k
                   | UDP => open_wait bsb mode SOCKET_SR_UDP k
                   | _ => mret (W5500_ERR_ARG, Some (set_k_status SOCKET_STATUS_ERROR k))
                   end)))
  end.

(** ** Receiving *)

Record udp_header : Type := UdpHeader {
  h_src_ip : bytes; (* 4 *)
  h_src_port : Z; (* uint16_t *)
  h_length : Z; (* uint16_t *)
}.

(** The status, the header and the read pointer. *)
Definition w5500_recv_udp_header (k : socket) (hd : udp_header) (read_pointer : Z)
    : WM (w5500_status * udp_header * Z) :=
  '(st, read_pointer) ← w5500_read16 SOCKET_RX_RD (W5500_BSB_SOCK_REG (k_number k)) read_pointer;
  ok_or st (mret (st, hd, read_pointer))
    ('(st, rx) ← w5500_transfer read_pointer (_RX (k_number k)) true None (Some (repeat 0 8)) 8;
     ok_or st (mret (st, hd, read_pointer))
       (let b i := List.nth i (default [] rx) 0 in
        mret (W5500_OK, UdpHeader [b 0%nat; b 1%nat; b 2%nat; b 3%nat] (Z.lor (Z.shiftl (b 4%nat) 8) (b 5%nat))
                          (Z.lor (Z.shiftl (b 6%nat) 8) (b 7%nat)), read_pointer))).

(** The out parameters of a receive. *)
Record recv_out : Type := RecvOut {
  rv_got : Z; (* uint16_t *)
  rv_src_ip : bytes; (* 4 *)
  rv_src_port : Z; (* uint16_t *)
  rv_truncated : bool;
}.
Definition nothing (o : recv_out) : recv_out := RecvOut 0 (rv_src_ip o) (rv_src_port o) false.

(** After the payload: retiring the datagram.  [read_pointer] is behind its
    header. *)
Definition recv_commit (bsb recv_len read_pointer length maxlen : Z) (buffer : bytes) (o : recv_out)
    : WM (w5500_status * option bytes * recv_out) :=
  let failed st := (st, Some buffer, nothing o) in
  st ← w5500_write16 SOCKET_RX_RD bsb (u16 (read_pointer + length));
  ok_or st (mret (failed st))
    (st ← w5500_write8 SOCKET_CR bsb SOCKET_CMD_RECV;
     ok_or st
       (_st ← w5500_write16 SOCKET_RX_RD bsb (u16 (read_pointer - 8)); mret (failed st))
       (r ← retry 5 SOCKET_CMD_RECV
              (fun current_cr =>
                 sys_sleep 1;;
                 '(st, current_cr) ← w5500_read8 SOCKET_CR bsb current_cr;
                 usable_or st
                   (_st ← w5500_write16 SOCKET_RX_RD bsb (u16 (read_pointer - 8)); mret (inr (failed st)))
                   (mret (inl current_cr)))
              (fun current_cr => negb (current_cr =? 0));
        match r with
        | inr e => mret e
        | inl None =>
            _st ← w5500_write16 SOCKET_RX_RD bsb (u16 (read_pointer - 8));
            mret (failed W5500_ERR_TRANSIENT)
        | inl (Some _) =>
            '(st, new_recv_len) ← w5500_read16_stable SOCKET_RX_RSR bsb 0xFFFF;
            ok_or st (mret (failed st))
              (if new_recv_len >=? recv_len then mret (failed W5500_ERR_UNSTABLE)
               else mret (W5500_OK, Some buffer,
                          RecvOut (rv_got o) (rv_src_ip o) (rv_src_port o) (length >? maxlen)))
        end)).

(** The status, the buffer and the out parameters. *)
Definition w5500_socket_recv (socket : option socket) (buffer : option bytes) (maxlen : Z) (o : recv_out)
    : WM (w5500_status * option bytes * recv_out) :=
  match socket, buffer with
  | Some k, Some buf =>
      if maxlen =? 0 then mret (W5500_ERR_ARG, buffer, o)
      else
        let bsb := W5500_BSB_SOCK_REG (k_number k) in
        '(st, recv_len) ← w5500_read16_stable SOCKET_RX_RSR bsb 0;
        ok_or st (mret (st, buffer, o))
          (if recv_len =? 0 then mret (W5500_OK, buffer, nothing o)
           else
             '(st, hd, read_pointer) ← w5500_recv_udp_header k (UdpHeader [0; 0; 0; 0] 0 0) 0;
             ok_or st (mret (st, buffer, nothing o))
               (let read_pointer := u16 (read_pointer + 8) in
                let length_to_read := if h_length hd <? maxlen then h_length hd else maxlen in
                '(st, rx) ← w5500_transfer read_pointer (_RX (k_number k)) true None buffer length_to_read;
                ok_or st (mret (st, rx, nothing o))
                  (recv_commit bsb recv_len read_pointer (h_length hd) maxlen (default [] rx)
                     (RecvOut length_to_read (h_src_ip hd) (h_src_port hd) (rv_truncated o)))))
  | _, _ => mret (W5500_ERR_ARG, buffer, o)
  end.

(** ** Sending *)

Definition w5500_ir_clear (k : socket) (mask : Z) : WM w5500_status :=
  w5500_write8 SOCKET_IR (W5500_BSB_SOCK_REG (k_number k)) mask.

Definition w5500_reset_tx_wr (k : socket) : WM w5500_status :=
  '(st, tx_rd) ← w5500_read16 SOCKET_TX_RD (W5500_BSB_SOCK_REG (k_number k)) 0;
  ok_or st (mret st) (w5500_write16 SOCKET_TX_WR (W5500_BSB_SOCK_REG (k_number k)) tx_rd).

(** What the last send left behind: [inr] is the early return, with whether
    [*sent] is zeroed. *)
Definition reap_send (k : socket) : WM (socket + w5500_status * bool * socket) :=
  if k_has_unreaped_send k then
    '(st, ir) ← w5500_read8 SOCKET_IR (W5500_BSB_SOCK_REG (k_number k)) 0;
    ok_or st (mret (inr (st, false, k)))
      (if bit_set ir SOCKET_IR_SENDOK then
         let k := set_k_has_unreaped_send false k in
         st ← w5500_ir_clear k SOCKET_IR_SENDOK;
         ok_or st (mret (inr (st, false, k))) (mret (inl k))
       else if bit_set ir SOCKET_IR_TIMEOUT then
         st ← w5500_ir_clear k SOCKET_IR_TIMEOUT;
         ok_or st (mret (inr (st, false, k)))
           (st ← w5500_reset_tx_wr k;
            ok_or st (mret (inr (st, false, k))) (mret (inl (set_k_has_unreaped_send false k))))
       else mret (inr (W5500_ERR_TRANSIENT, true, k)))
  else
    st ← w5500_ir_clear k (Z.lor SOCKET_IR_SENDOK SOCKET_IR_TIMEOUT);
    ok_or st (mret (inr (st, false, k))) (mret (inl k)).

(** The payload and its destination, up to the new TX_WR. *)
Definition send_fill (k : socket) (write_pointer : Z) (tx : bytes) (tx_length : Z) (dst_ip : bytes) (dst_port : Z)
    (dst_mac : option bytes) : WM w5500_status :=
  let bsb := W5500_BSB_SOCK_REG (k_number k) in
  '(st, _) ← w5500_transfer write_pointer (_TX (k_number k)) false (Some tx) None tx_length;
  ok_or st (mret st)
    ('(st, _) ← w5500_transfer SOCKET_DIPR bsb false (Some dst_ip) None 4;
     ok_or st (mret st)
       (st ← w5500_write16 SOCKET_DPORT bsb dst_port;
        ok_or st (mret st)
          ('(st, _) ← match dst_mac with
                      | Some mac => w5500_transfer SOCKET_DHAR bsb false (Some mac) None 6
                      | None => mret (W5500_OK, None)
                      end;
           ok_or st (mret st) (w5500_write16 SOCKET_TX_WR bsb (u16 (write_pointer + tx_length)))))).

(** The command and its two waits: the status, [*sent] and the socket. *)
Definition send_commit (k : socket) (write_pointer tx_length : Z) (cmd : Z) : WM (w5500_status * Z * socket) :=
  let bsb := W5500_BSB_SOCK_REG (k_number k) in
  let restore st : WM (w5500_status * Z * socket) :=
    _st ← w5500_write16 SOCKET_TX_WR bsb write_pointer; mret (st, 0, k) in
  _st ← w5500_ir_clear k SOCKET_IR_SENDOK;
  st ← w5500_write8 SOCKET_CR bsb cmd;
  ok_or st (restore st)
    (r ← retry 5 SOCKET_CMD_SEND
           (fun current_cr =>
              sys_sleep 1;;
              '(st, current_cr) ← w5500_read8 SOCKET_CR bsb current_cr;
              usable_or st (e ← restore st; mret (inr e)) (mret (inl current_cr)))
           (fun current_cr => negb (current_cr =? 0));
     match r with
     | inr e => mret e
     | inl None => restore W5500_ERR_TRANSIENT
     | inl (Some _) =>
         r ← retry 5 0
               (fun current_ir =>
                  sys_sleep 1;;
                  '(st, current_ir) ← w5500_read8 SOCKET_IR bsb current_ir;
                  usable_or st (e ← restore st; mret (inr e))
                    (if bit_set current_ir SOCKET_IR_TIMEOUT then
                       _st ← w5500_reset_tx_wr k;
                       _st ← w5500_ir_clear k SOCKET_IR_TIMEOUT;
                       mret (inr (W5500_ERR_UNREACHABLE, 0, k))
                     else mret (inl current_ir)))
               (fun current_ir => negb (bit_set current_ir SOCKET_IR_SENDOK));
         match r with
         | inr e => mret e
         | inl None => mret (W5500_OK, tx_length, set_k_has_unreaped_send true k)
         | inl (Some _) => mret (W5500_OK, tx_length, k)
         end
     end).

(** The status, [*sent] ([sent] is its old value) and the socket. *)
Definition w5500_socket_send (socket : option socket) (tx_data : option bytes) (tx_length sent : Z) (dst_ip : bytes)
    (dst_port : Z) (dst_mac : option bytes) : WM (w5500_status * Z * option Pool.socket) :=
  match socket, tx_data with
  | Some k, Some tx =>
      if (tx_length =? 0) || (dst_port =? 0) then mret (W5500_ERR_ARG, sent, Some k)
      else
        let bsb := W5500_BSB_SOCK_REG (k_number k) in
        r ← reap_send k;
        match r with
        | inr (st, zero, k) => mret (st, if zero : bool then 0 else sent, Some k)
        | inl k =>
            r ← retry SEND_TRIES 0
                  (fun tx_available =>
                     sys_sleep 1;;
                     '(st, tx_available) ← w5500_read16_stable SOCKET_TX_FSR bsb tx_available;
                     usable_or st (mret (inr st)) (mret (inl tx_available)))
                  (fun tx_available => tx_available <? tx_length);
            match r with
            | inr st => mret (st, sent, Some k)
            | inl None => mret (W5500_ERR_TRANSIENT, 0, Some k)
            | inl (Some _) =>
                '(st, write_pointer) ← w5500_read16 SOCKET_TX_WR bsb 0;
                ok_or st (mret (st, 0, Some k))
                  (st ← send_fill k write_pointer tx tx_length dst_ip dst_port dst_mac;
                   ok_or st (mret (st, 0, Some k))
                     ('(st, sent, k) ← send_commit k write_pointer tx_length
                                         (match dst_mac with None => SOCKET_CMD_SEND | Some _ => SOCKET_CMD_SEND_MAC end);
                      mret (st, sent, Some k)))
            end
        end
  | _, _ => mret (W5500_ERR_ARG, sent, socket)
  end.
End driver.
