(* ===== verification/W5500Spec.v ===== *)
(** * Receiving with the W5500: a socket is a queue of datagrams

    What the driver relies on of the chip, and that a receive that reports
    success took the first datagram off the queue.  Datagrams may arrive at any
    time, also between the two bytes of a register, and frames may fail. *)
From S2P Require Import Prelude Utils KState Pool Spi W5500.

(** ** The header of a frame *)

Lemma addr_hi addr : 0 <= addr < 65536 -> Z.land (Z.shiftr addr 8) 0xFF = addr / 256.
Proof.
  intros. rewrite Z.shiftr_div_pow2 by lia. change 0xFF with (Z.ones 8). rewrite Z.land_ones by lia.
  apply Z.mod_small. Z.to_euclidean_division_equations; lia.
Qed.
Lemma addr_lo addr : Z.land addr 0xFF = addr mod 256.
Proof. change 0xFF with (Z.ones 8). by rewrite Z.land_ones by lia. Qed.
Lemma byte_hi addr : 0 <= addr < 65536 -> is_byte (addr / 256).
Proof. intros. unfold is_byte. Z.to_euclidean_division_equations; lia. Qed.
Lemma byte_lo addr : is_byte (addr mod 256).
Proof. unfold is_byte. by apply Z.mod_pos_bound. Qed.
Lemma control_byte b (rd : bool) : 0 <= b < 32 ->
  u8 (Z.lor (Z.lor (Z.shiftl b 3) W5500_CTRL_OM_VDM) (if rd then W5500_CTRL_RWB_READ else W5500_CTRL_RWB_WRITE)) =
  8 * b + (if rd then 0 else 4).
Proof.
  intros. change W5500_CTRL_OM_VDM with 0. change W5500_CTRL_RWB_READ with 0. change W5500_CTRL_RWB_WRITE with 4.
  rewrite Z.lor_0_r, Z.lor_comm, lor_shiftl by (destruct rd; lia). rewrite u8_small; destruct rd; lia.
Qed.

Lemma be16 v : 0 <= v < 65536 -> Z.lor (Z.shiftl (v / 256) 8) (v mod 256) = v.
Proof.
  intros. rewrite Z.lor_comm, lor_shiftl by (Z.to_euclidean_division_equations; lia).
  Z.to_euclidean_division_equations; lia.
Qed.

(** ** The queue of a socket *)

Record datagram : Type := Datagram { dg_ip : bytes; dg_port : Z; dg_data : bytes }.
Record datagram_ok (d : datagram) : Prop := {
  dg_ip_ok : length (dg_ip d) = 4%nat;
  dg_port_ok : 0 <= dg_port d < 65536;
  dg_length : Z.of_nat (length (dg_data d)) < 65536;
}.
(** What the chip keeps for a datagram: an 8-byte header and the payload. *)
Definition stored (d : datagram) : bytes :=
  dg_ip d ++ [dg_port d / 256; dg_port d mod 256;
              Z.of_nat (length (dg_data d)) / 256; Z.of_nat (length (dg_data d)) mod 256] ++ dg_data d.
Definition stored_all (ds : list datagram) : bytes := concat (stored <$> ds).

Definition block (n : Z) : Z := 4 * n + 1.
Definition rx_block (n : Z) : Z := 4 * n + 3.

Lemma stored_length d : datagram_ok d -> length (stored d) = (8 + length (dg_data d))%nat.
Proof. intros [Hl _ _]. unfold stored. rewrite !length_app, Hl. done. Qed.



Lemma block_eq n : 0 <= n < 8 -> W5500_BSB_SOCK_REG n = block n /\ _RX n = rx_block n /\ 0 <= block n < 32 /\ 0 <= rx_block n < 32.
Proof.
  intros. unfold W5500_BSB_SOCK_REG, _RX, block, rx_block. rewrite !Z.shiftl_mul_pow2 by lia. rewrite !u8_small by lia. lia.
Qed.

(** The results of a receive, from the queue alone. *)
Definition recv_spec (ds : list datagram) (buf : bytes) (maxlen : Z) (o : recv_out)
    : w5500_status * option bytes * recv_out :=
  match ds with
  | [] => (W5500_OK, Some buf, nothing o)
  | d :: _ =>
      let len := Z.of_nat (length (dg_data d)) in
      let got := Z.min len maxlen in
      (W5500_OK, Some (take (Z.to_nat got) (dg_data d) ++ drop (Z.to_nat got) buf),
       RecvOut got (dg_ip d) (dg_port d) (maxlen <? len))
  end.

Lemma stored_all_cons d ds : stored_all (d :: ds) = stored d ++ stored_all ds.
Proof. done. Qed.


(** ** The chip *)

(** [reg s block addr] is the byte the chip holds there. *)
Class W5500Regs (B : Type) := {
  reg : B -> Z -> Z -> Z;
  reg_byte : forall s b a, is_byte (reg s b a);
}.

Section regs.
Context {B : Type} {Hregs : W5500Regs B}.

Definition reg16 (s : B) (b a : Z) : Z := 256 * reg s b a + reg s b (a + 1).

(** The receive side of socket [n]: the datagrams [ds] lie in its buffer from
    [base] on, the received size is theirs, the write pointer is behind them,
    and the read pointer the host last wrote is [rd].  The chip looks at the
    read pointer when it gets RECV. *)
Record rx_state (s : B) (n : Z) (ds : list datagram) (base rd : Z) : Prop := {
  rx_ok : Forall datagram_ok ds;
  rx_size : Z.of_nat (length (stored_all ds)) < 65536;
  rx_rsr : reg16 s (block n) SOCKET_RX_RSR = Z.of_nat (length (stored_all ds));
  rx_rd : reg16 s (block n) SOCKET_RX_RD = rd;
  rx_wr : reg16 s (block n) 0x2A = u16 (base + Z.of_nat (length (stored_all ds)));
  rx_mem : forall i v, stored_all ds !! i = Some v -> reg s (rx_block n) (u16 (base + Z.of_nat i)) = v;
}.
Definition rx_queue (s : B) (n : Z) (ds : list datagram) : Prop := exists base, rx_state s n ds base base.

(** Between [s] and [s'] datagrams may have arrived; nothing else happened to
    the receive side of any socket. *)
Definition arrives (s s' : B) : Prop := forall n ds base rd,
  0 <= n < 8 -> rx_state s n ds base rd -> exists new, rx_state s' n (ds ++ new) base rd.

(** The bytes of a frame are read at the instants [t], between [s] and [s']. *)
Record samples (s : B) (t : nat -> B) (s' : B) : Prop := {
  sm_first : arrives s (t 0%nat);
  sm_next : forall i, arrives (t i) (t (S i));
  sm_last : forall i, arrives (t i) s';
}.
End regs.

Class W5500Chip (B : Type) `{SpiBus B, W5500Regs B} := {
  (** A read frame of the variable length mode: 16 bits of address, then the
      block and the direction.  Complete or not, it changes nothing. *)
  chip_read : forall s hi lo b rx n r rx' s',
    is_byte hi -> is_byte lo -> 0 <= b < 32 -> 0 <= n <= Z.of_nat (length rx) ->
    bus_frame (Frame (Some [hi; lo; 8 * b]) 3 None (Some rx) n true) s = Ok ((r, rx'), s') ->
    arrives s s' /\
    (r = SPI_OK -> exists t, samples s t s' /\
       rx' = Some (((fun i => reg (t i) b (u16 (256 * hi + lo + Z.of_nat i))) <$> seq 0 (Z.to_nat n)) ++
                   drop (Z.to_nat n) rx));
  (** The read pointer of a socket is a plain register. *)
  chip_write_rx_rd : forall s n v w rx s', 0 <= n < 8 -> is_byte v -> is_byte w ->
    bus_frame (Frame (Some [0; 0x28; 8 * (4 * n + 1) + 4]) 3 (Some [v; w]) None 2 false) s = Ok ((SPI_OK, rx), s') ->
    forall m ds base rd, 0 <= m < 8 -> rx_state s m ds base rd ->
      exists new, rx_state s' m (ds ++ new) base (if m =? n then 256 * v + w else rd);
  (** RECV frees what lies before the read pointer. *)
  chip_recv : forall s n rx s', 0 <= n < 8 ->
    bus_frame (Frame (Some [0; 0x01; 8 * (4 * n + 1) + 4]) 3 (Some [0x40]) None 1 false) s = Ok ((SPI_OK, rx), s') ->
    (forall d ds base rd, rx_state s n (d :: ds) base rd -> rd = u16 (base + Z.of_nat (length (stored d))) ->
       exists new, rx_state s' n (ds ++ new) rd rd) /\
    (forall m ds base rd, 0 <= m < 8 -> m <> n -> rx_state s m ds base rd ->
       exists new, rx_state s' m (ds ++ new) base rd);
  chip_sleep : forall s t s', sys_sleep t s = Ok (tt, s') -> arrives s s';
}.

Section spec.
Context {B : Type} {Hbus : SpiBus B} {Hregs : W5500Regs B} {Hchip : W5500Chip B}.
Implicit Types s : B.

Lemma arrives_refl s : arrives s s.
Proof using. intros n ds base rd _ Hs. exists []. by rewrite app_nil_r. Qed.
Lemma arrives_trans s1 s2 s3 : arrives s1 s2 -> arrives s2 s3 -> arrives s1 s3.
Proof using.
  intros H1 H2 n ds base rd Hn Hs. destruct (H1 n ds base rd Hn Hs) as [d1 Hd1].
  destruct (H2 n _ base rd Hn Hd1) as [d2 Hd2]. exists (d1 ++ d2). by rewrite app_assoc.
Qed.
Lemma samples_arrives s t s' i : samples s t s' -> arrives s (t i).
Proof using.
  intros [H1 H2 _]. induction i as [|i IH]; [done|]. by eapply arrives_trans.
Qed.

Lemma stored_all_app ds1 ds2 : stored_all (ds1 ++ ds2) = stored_all ds1 ++ stored_all ds2.
Proof using. unfold stored_all. by rewrite fmap_app, concat_app. Qed.
Lemma stored_all_nil ds : Forall datagram_ok ds -> length (stored_all ds) = 0%nat -> ds = [].
Proof using.
  intros Hd. destruct ds as [|d ds]; [done|]. apply Forall_cons in Hd as [Hd _].
  rewrite stored_all_cons, length_app, stored_length by done. lia.
Qed.

(** ** Reading registers *)

Lemma transfer_read s addr b rx n st rx' s' :
  0 <= addr < 65536 -> 0 <= b < 32 -> 0 <= n <= Z.of_nat (length rx) ->
  w5500_transfer addr b true None (Some rx) n s = Ok ((st, rx'), s') ->
  arrives s s' /\
  (st = W5500_OK -> exists t, samples s t s' /\
     rx' = Some (((fun i => reg (t i) b (u16 (addr + Z.of_nat i))) <$> seq 0 (Z.to_nat n)) ++
                 drop (Z.to_nat n) rx)).
Proof using All.
  intros Ha Hb Hn E. unfold w5500_transfer in E.
  rewrite (control_byte b true Hb), addr_hi, addr_lo, Z.add_0_r in E by done.
  apply prog_bind_inv in E as ([r rx1] & s1 & E1 & E2). injection E2 as Est <- <-.
  destruct (chip_read s (addr / 256) (addr mod 256) b rx n r rx1 s1 (byte_hi _ Ha) (byte_lo _) Hb Hn E1) as [H1 H2].
  split; [done|]. intros ->. rewrite <- Z.div_mod in H2 by done. apply H2. by destruct r.
Qed.

Lemma read8_arrives s addr b d st v s' :
  0 <= addr < 65536 -> 0 <= b < 32 -> w5500_read8 addr b d s = Ok ((st, v), s') -> arrives s s'.
Proof using All.
  intros Ha Hb E. unfold w5500_read8 in E. apply prog_bind_inv in E as ([st1 rx1] & s1 & E1 & E2).
  injection E2 as <- <- <-. apply transfer_read in E1; [apply E1|done|done|cbn; lia].
Qed.

(** The two bytes come from two instants. *)
Lemma read16_samples s addr b d st v s' :
  0 <= addr < 65535 -> 0 <= b < 32 -> w5500_read16 addr b d s = Ok ((st, v), s') ->
  arrives s s' /\
  (st = W5500_OK -> exists t, samples s t s' /\ v = 256 * reg (t 0%nat) b addr + reg (t 1%nat) b (addr + 1)).
Proof using All.
  intros Ha Hb E. unfold w5500_read16 in E. apply prog_bind_inv in E as ([st1 rx1] & s1 & E1 & E2).
  injection E2 as <- Ev <-. apply transfer_read in E1 as [H1 H2]; [|lia|done|cbn; lia].
  split; [done|]. intros ->. destruct (H2 eq_refl) as (t & Ht & ->). exists t. split; [done|].
  change (Z.to_nat 2) with 2%nat in Ev. cbn [seq fmap list_fmap app default from_option List.nth id] in Ev.
  change (Z.of_nat 0) with 0 in Ev. change (Z.of_nat 1) with 1 in Ev.
  rewrite Z.add_0_r, !u16_small in Ev by lia. subst v.
  pose proof (reg_byte (t 1%nat) b (addr + 1)) as Hr. unfold is_byte in Hr.
  rewrite Z.lor_comm, lor_shiftl by lia. lia.
Qed.

Lemma reg16_bytes s b a : reg s b a = reg16 s b a / 256 /\ reg s b (a + 1) = reg16 s b a mod 256.
Proof using.
  unfold reg16. pose proof (reg_byte s b (a + 1)) as Hr. unfold is_byte in Hr.
  Z.to_euclidean_division_equations; lia.
Qed.

Section socket.
Context (n : Z) (Hn : 0 <= n < 8).

Lemma block_range : 0 <= block n < 32 /\ 0 <= rx_block n < 32.
Proof using Hn. unfold block, rx_block. lia. Qed.

Lemma read_rd s d st v s' ds base rd :
  rx_state s n ds base rd -> w5500_read16 SOCKET_RX_RD (block n) d s = Ok ((st, v), s') ->
  arrives s s' /\ (st = W5500_OK -> v = rd).
Proof using All.
  intros Hs E. apply read16_samples in E as [H1 H2]; [|unfold SOCKET_RX_RD; lia|apply block_range].
  split; [done|]. intros Est. destruct (H2 Est) as (t & Ht & ->).
  destruct (samples_arrives _ _ _ 0 Ht n ds base rd Hn Hs) as [d0 S0].
  destruct (samples_arrives _ _ _ 1 Ht n ds base rd Hn Hs) as [d1 S1].
  rewrite (proj1 (reg16_bytes (t 0%nat) _ _)), (proj2 (reg16_bytes (t 1%nat) _ _)).
  rewrite (rx_rd _ _ _ _ _ S0), (rx_rd _ _ _ _ _ S1). symmetry. by apply Z.div_mod.
Qed.

(** Two equal readings of the received size are its value at one instant: it
    only grows. *)
Lemma read_rsr_stable s d st v s' ds base rd :
  rx_state s n ds base rd -> w5500_read16_stable SOCKET_RX_RSR (block n) d s = Ok ((st, v), s') ->
  arrives s s' /\
  (st = W5500_OK -> exists s1 new, arrives s1 s' /\ rx_state s1 n (ds ++ new) base rd /\
     v = Z.of_nat (length (stored_all (ds ++ new)))).
Proof using All.
  intros Hs E. unfold w5500_read16_stable in E. revert E. generalize 255%nat. intros fuel.
  revert s ds Hs. induction fuel as [|fuel IH]; intros s ds Hs E; cbn [stable_loop] in E.
  { injection E as <- _ <-. split; [apply arrives_refl|done]. }
  apply prog_bind_inv in E as ([st1 a] & s1 & E1 & E).
  apply read16_samples in E1 as [H1 R1]; [|unfold SOCKET_RX_RSR; lia|apply block_range].
  destruct (decide (st1 = W5500_OK)) as [->|Hst].
  2: { destruct st1; try done; cbn in E; injection E as <- _ <-; by split. }
  cbn [ok_or] in E. apply prog_bind_inv in E as ([st2 b] & s2 & E2 & E).
  apply read16_samples in E2 as [H2 R2]; [|unfold SOCKET_RX_RSR; lia|apply block_range].
  assert (arrives s s2) as H12 by (by eapply arrives_trans).
  destruct (decide (st2 = W5500_OK)) as [->|Hst].
  2: { destruct st2; try done; cbn in E; injection E as <- _ <-; by split. }
  cbn [ok_or] in E. destruct (Z.eqb_spec a b) as [Eab|].
  - injection E as <- <- <-. split; [done|]. intros _.
    destruct (R1 eq_refl) as (t & Ht & Ea), (R2 eq_refl) as (u & Hu & Eb).
    destruct (sm_first _ _ _ Ht n ds base rd Hn Hs) as [d0 S0].
    destruct (sm_next _ _ _ Ht 0%nat n _ base rd Hn S0) as [d1 S1].
    destruct (sm_last _ _ _ Ht 1%nat n _ base rd Hn S1) as [d2 S2].
    destruct (sm_first _ _ _ Hu n _ base rd Hn S2) as [d3 S3].
    exists (t 1%nat), (d0 ++ d1). rewrite app_assoc. split; [|split; [done|]].
    { eapply arrives_trans; [apply (sm_last _ _ _ Ht)|exact H2]. }
    pose proof (rx_rsr _ _ _ _ _ S0) as L0. pose proof (rx_rsr _ _ _ _ _ S1) as L1.
    pose proof (rx_rsr _ _ _ _ _ S3) as L3.
    rewrite !stored_all_app, !length_app in *. rewrite <- L1.
    rewrite (proj1 (reg16_bytes (t 0%nat) _ _)) in Ea. rewrite (proj1 (reg16_bytes (u 0%nat) _ _)) in Eb.
    rewrite (proj2 (reg16_bytes (t 1%nat) _ _)) in Ea. rewrite (proj2 (reg16_bytes (u 1%nat) _ _)) in Eb.
    Z.to_euclidean_division_equations; lia.
  - destruct (H12 n ds base rd Hn Hs) as [d2 S2]. destruct (IH s2 _ S2 E) as [H3 R3].
    split; [by eapply arrives_trans|]. intros Est. destruct (R3 Est) as (s3 & d3 & H4 & S4 & ->).
    exists s3, (d2 ++ d3). by rewrite app_assoc.
Qed.

(** ** Reading a datagram *)

(** What a frame reads of the first datagram, whatever arrives meanwhile. *)
Lemma read_stored s d ds base rd o m rx st rx' s' :
  rx_state s n (d :: ds) base rd -> 0 <= m <= Z.of_nat (length rx) ->
  (o + Z.to_nat m <= length (stored d))%nat ->
  w5500_transfer (u16 (base + Z.of_nat o)) (rx_block n) true None (Some rx) m s = Ok ((st, rx'), s') ->
  arrives s s' /\
  (st = W5500_OK -> rx' = Some (take (Z.to_nat m) (drop o (stored d)) ++ drop (Z.to_nat m) rx)).
Proof using All.
  intros Hs Hm Ho E. apply transfer_read in E as [H1 H2]; [|apply u16_range|apply block_range|done].
  split; [done|]. intros Est. destruct (H2 Est) as (t & Ht & ->). do 2 f_equal.
  apply list_eq. intros i. rewrite list_lookup_fmap. destruct (decide (i < Z.to_nat m)%nat) as [Hi|Hi].
  - rewrite lookup_seq_lt by done. cbn. rewrite lookup_take_lt, lookup_drop by done.
    destruct (lookup_lt_is_Some_2 (stored d) (o + i)) as [v Ev]; [lia|]. rewrite Ev. f_equal.
    destruct (samples_arrives _ _ _ i Ht n _ base rd Hn Hs) as [new Si].
    rewrite <- (rx_mem _ _ _ _ _ Si (o + i) v).
    + f_equal. unfold u16. rewrite Zplus_mod_idemp_l. f_equal. lia.
    + cbn [app]. rewrite stored_all_cons, lookup_app_l by lia. exact Ev.
  - rewrite lookup_seq_ge by lia. rewrite lookup_take_ge by lia. done.
Qed.

(** ** Retiring it *)

Lemma write_rd s v s' :
  0 <= v < 65536 -> w5500_write16 SOCKET_RX_RD (block n) v s = Ok (W5500_OK, s') ->
  forall m ds base rd, 0 <= m < 8 -> rx_state s m ds base rd ->
    exists new, rx_state s' m (ds ++ new) base (if m =? n then v else rd).
Proof using All.
  intros Hv E. unfold w5500_write16, w5500_transfer in E.
  rewrite (control_byte (block n) false) in E by apply block_range.
  rewrite (Z.shiftr_div_pow2 v 8), (addr_lo v) in E by lia. change (2 ^ 8) with 256 in E.
  rewrite u8_small in E by apply (byte_hi v Hv).
  change (Z.land (Z.shiftr SOCKET_RX_RD 8) 0xFF) with 0 in E. change (Z.land SOCKET_RX_RD 0xFF) with 0x28 in E.
  unfold block in E. rewrite prog_bind_assoc in E. apply prog_bind_inv in E as ([r rx] & s1 & E1 & E2).
  injection E2 as Er <-. assert (r = SPI_OK) as -> by (by destruct r). intros m ds base rd Hm Hs.
  destruct (chip_write_rx_rd s n (v / 256) (v mod 256) rx s1 Hn (byte_hi _ Hv) (byte_lo _) E1 m ds base rd Hm Hs)
    as [new Hnew].
  exists new. by rewrite <- Z.div_mod in Hnew.
Qed.

Lemma recv_command s s' :
  w5500_write8 SOCKET_CR (block n) SOCKET_CMD_RECV s = Ok (W5500_OK, s') ->
  (forall d ds base rd, rx_state s n (d :: ds) base rd -> rd = u16 (base + Z.of_nat (length (stored d))) ->
     exists new, rx_state s' n (ds ++ new) rd rd) /\
  (forall m ds base rd, 0 <= m < 8 -> m <> n -> rx_state s m ds base rd ->
     exists new, rx_state s' m (ds ++ new) base rd).
Proof using All.
  intros E. unfold w5500_write8, w5500_transfer in E.
  rewrite (control_byte (block n) false) in E by apply block_range.
  unfold block in E. rewrite prog_bind_assoc in E. apply prog_bind_inv in E as ([r rx] & s1 & E1 & E2).
  injection E2 as Er <-. assert (r = SPI_OK) as -> by (by destruct r).
  exact (chip_recv s n rx s1 Hn E1).
Qed.

(** A loop whose body only lets time pass, or returns something in [P]. *)
Lemma retry_arrives {V R} (P : R -> Prop) k (v : V) body again s r s' :
  (forall v s r s', body v s = Ok (r, s') -> match r with inl _ => arrives s s' | inr e => P e end) ->
  retry k v body again s = Ok (r, s') -> match r with inl _ => arrives s s' | inr e => P e end.
Proof using.
  intros Hb. revert v s. induction k as [|k IH]; intros v s E; cbn [retry] in E.
  { injection E as <- <-. apply arrives_refl. }
  apply prog_bind_inv in E as (r1 & s1 & E1 & E2). apply Hb in E1. destruct r1 as [v1|e].
  - destruct (again v1); [|injection E2 as <- <-; exact E1].
    apply IH in E2. destruct r; [by eapply arrives_trans|exact E2].
  - injection E2 as <- <-. exact E1.
Qed.

Lemma recv_commit_ok s d ds p total maxlen buf o rx o' s' :
  rx_state s n (d :: ds) p p ->
  recv_commit (block n) total (u16 (p + 8)) (Z.of_nat (length (dg_data d))) maxlen buf o s =
    Ok ((W5500_OK, rx, o'), s') ->
  rx = Some buf /\
  o' = RecvOut (rv_got o) (rv_src_ip o) (rv_src_port o) (Z.of_nat (length (dg_data d)) >? maxlen) /\
  (exists new, rx_queue s' n (ds ++ new)) /\
  (forall m ds' base rd, 0 <= m < 8 -> m <> n -> rx_state s m ds' base rd ->
     exists more, rx_state s' m (ds' ++ more) base rd).
Proof using All.
  intros Hs E. set (len := Z.of_nat (length (dg_data d))) in *. unfold recv_commit in E. cbv zeta in E.
  set (p' := u16 (u16 (p + 8) + len)) in E.
  assert (p' = u16 (p + Z.of_nat (length (stored d)))) as Ep.
  { pose proof (rx_ok _ _ _ _ _ Hs) as [Hd _]%Forall_cons. rewrite (stored_length d Hd).
    unfold p', u16. rewrite Zplus_mod_idemp_l. f_equal. unfold len. lia. }
  apply prog_bind_inv in E as (st1 & s1 & E1 & E).
  destruct (decide (st1 = W5500_OK)) as [->|]; [|by destruct st1].
  pose proof (write_rd s p' s1 (u16_range _) E1) as W1. cbn [ok_or] in E.
  apply prog_bind_inv in E as (st2 & s2 & E2 & E).
  destruct (decide (st2 = W5500_OK)) as [->|].
  2: { destruct st2; try done; apply prog_bind_inv in E as (? & ? & _ & E); discriminate E. }
  pose proof (recv_command s1 s2 E2) as [R2 O2]. cbn [ok_or] in E.
  apply prog_bind_inv in E as (r & s3 & E3 & E).
  apply (retry_arrives (fun e => e.1.1 <> W5500_OK)) in E3.
  2: { intros cr t r' t' Et. apply prog_bind_inv in Et as ([] & t1 & T1 & Et). apply chip_sleep in T1.
       apply prog_bind_inv in Et as ([st c] & t2 & T2 & Et).
       apply read8_arrives in T2; [|unfold SOCKET_CR; lia|apply block_range].
       assert (arrives t t2) as Ht by (by eapply arrives_trans).
       destruct st; cbn [usable_or] in Et; first [injection Et as <- <-; exact Ht
         |apply prog_bind_inv in Et as (? & ? & _ & Et); injection Et as <- <-; done]. }
  destruct r as [[cr|]|e].
  2: { apply prog_bind_inv in E as (? & ? & _ & E). discriminate E. }
  2: { injection E as -> <-. done. }
  apply prog_bind_inv in E as ([st4 m] & s4 & E4 & E).
  destruct (W1 n (d :: ds) p p Hn Hs) as [n1 S1]. rewrite Z.eqb_refl in S1.
  destruct (R2 d (ds ++ n1) p p' S1 Ep) as [n2 S2].
  destruct (E3 n _ p' p' Hn S2) as [n3 S3].
  destruct (read_rsr_stable _ _ _ _ _ _ _ _ S3 E4) as [H4 _].
  destruct (H4 n _ p' p' Hn S3) as [n4 S4].
  destruct (decide (st4 = W5500_OK)) as [->|]; [|by destruct st4]. cbn [ok_or] in E.
  destruct (m >=? total); [done|]. injection E as <- <- <-. split; [done|]. split; [done|]. split.
  - exists (n1 ++ n2 ++ n3 ++ n4). exists p'. by rewrite !app_assoc.
  - intros m' ds' base rd Hm Hne Hm'. destruct (W1 m' _ _ _ Hm Hm') as [k1 K1].
    rewrite (proj2 (Z.eqb_neq m' n) Hne) in K1. destruct (O2 m' _ _ _ Hm Hne K1) as [k2 K2].
    destruct (E3 m' _ _ _ Hm K2) as [k3 K3]. destruct (H4 m' _ _ _ Hm K3) as [k4 K4].
    exists (k1 ++ k2 ++ k3 ++ k4). by rewrite !app_assoc.
Qed.
End socket.

(** ** A receive *)

Lemma header_fields d :
  datagram_ok d ->
  let b i := List.nth i (take 8 (stored d) ++ []) 0 in
  UdpHeader [b 0%nat; b 1%nat; b 2%nat; b 3%nat] (Z.lor (Z.shiftl (b 4%nat) 8) (b 5%nat))
    (Z.lor (Z.shiftl (b 6%nat) 8) (b 7%nat)) = UdpHeader (dg_ip d) (dg_port d) (Z.of_nat (length (dg_data d))).
Proof using.
  intros [Hip Hport Hlen]. cbv zeta. unfold stored. destruct (dg_ip d) as [|a [|b [|c [|e [|]]]]]; try done.
  cbn [app take List.nth]. by rewrite !be16 by lia.
Qed.

Lemma recv_udp_header_ok s k d ds base hd rp st hd' rp' s' :
  0 <= k_number k < 8 -> rx_state s (k_number k) (d :: ds) base base ->
  w5500_recv_udp_header k hd rp s = Ok ((st, hd', rp'), s') ->
  arrives s s' /\
  (st = W5500_OK -> hd' = UdpHeader (dg_ip d) (dg_port d) (Z.of_nat (length (dg_data d))) /\ rp' = base).
Proof using All.
  intros Hk Hs E. destruct (block_eq _ Hk) as (Eb & Er & _). unfold w5500_recv_udp_header in E. rewrite Eb, Er in E.
  apply prog_bind_inv in E as ([st1 v] & s1 & E1 & E).
  destruct (read_rd _ Hk _ _ _ _ _ _ _ _ Hs E1) as [H1 V1].
  destruct (decide (st1 = W5500_OK)) as [->|].
  2: { destruct st1; try done; injection E as <- _ _ <-; by split. }
  rewrite (V1 eq_refl) in E. cbn [ok_or] in E.
  apply prog_bind_inv in E as ([st2 rx] & s2 & E2 & E).
  destruct (H1 _ _ _ _ Hk Hs) as [n1 S1].
  assert (base = u16 (base + Z.of_nat 0)) as Eb0.
  { rewrite <- (rx_rd _ _ _ _ _ Hs) at 1 2. rewrite Z.add_0_r, u16_small; [done|].
    unfold reg16. pose proof (reg_byte s (block (k_number k)) SOCKET_RX_RD).
    pose proof (reg_byte s (block (k_number k)) (SOCKET_RX_RD + 1)). unfold is_byte in *. lia. }
  rewrite Eb0 in E2.
  pose proof (rx_ok _ _ _ _ _ Hs) as [Hd _]%Forall_cons. pose proof (stored_length d Hd) as Hl.
  destruct (read_stored _ Hk s1 d (ds ++ n1) base base 0 8 (repeat 0 8) st2 rx s2 S1) as [H2 R2];
    [rewrite repeat_length; lia|lia|exact E2|].
  assert (arrives s s2) as H12 by (by eapply arrives_trans).
  destruct (decide (st2 = W5500_OK)) as [->|].
  2: { destruct st2; try done; injection E as <- _ _ <-; by split. }
  cbn [ok_or] in E. rewrite (R2 eq_refl) in E. change (Z.to_nat 8) with 8%nat in E.
  cbn [drop default from_option id repeat] in E. injection E as <- <- <- <-. split; [done|]. intros _.
  split; [|done]. exact (header_fields d Hd).
Qed.

Lemma socket_recv_pops_core s k ds buf maxlen o rx o' s' :
  0 <= k_number k < 8 -> rx_queue s (k_number k) ds -> 0 < maxlen <= Z.of_nat (length buf) ->
  w5500_socket_recv (Some k) (Some buf) maxlen o s = Ok ((W5500_OK, rx, o'), s') ->
  exists new later,
    recv_spec (ds ++ new) buf maxlen o = (W5500_OK, rx, o') /\
    rx_queue s' (k_number k) (tail (ds ++ new) ++ later) /\
    forall m ds', 0 <= m < 8 -> m <> k_number k -> rx_queue s m ds' -> exists more, rx_queue s' m (ds' ++ more).
Proof using All.
  intros Hk [base Hq] Hm E. destruct (block_eq _ Hk) as (Eb & Er & _). unfold w5500_socket_recv in E.
  rewrite (proj2 (Z.eqb_neq maxlen 0)), Eb, Er in E by lia. cbv zeta in E. set (n := k_number k) in *.
  apply prog_bind_inv in E as ([st1 v] & s1 & E1 & E).
  destruct (read_rsr_stable n Hk _ _ _ _ _ _ _ _ Hq E1) as [H1 V1].
  destruct (decide (st1 = W5500_OK)) as [->|]; [|by destruct st1].
  destruct (V1 eq_refl) as (t & new & Ht & St & ->). cbn [ok_or] in E.
  assert (forall m ds', 0 <= m < 8 -> rx_queue s m ds' -> exists more, rx_queue s1 m (ds' ++ more)) as Hoth.
  { intros m ds' Hm' [b Hb]. destruct (H1 _ _ _ _ Hm' Hb) as [more ?]. exists more, b. done. }
  destruct (Ht _ _ _ _ Hk St) as [n1 S1].
  destruct (Z.eqb_spec (Z.of_nat (length (stored_all (ds ++ new)))) 0) as [E0|E0].
  { injection E as <- <- <-. exists new, n1.
    assert (ds ++ new = []) as En by (apply stored_all_nil; [eapply rx_ok, St|lia]).
    rewrite En in *. split; [done|]. split; [by exists base|].
    intros m ds' ? _. by apply Hoth. }
  destruct (ds ++ new) as [|d q] eqn:Eq; [done|]. cbn [app] in S1.
  pose proof (rx_ok _ _ _ _ _ S1) as [Hd _]%Forall_cons. pose proof (stored_length d Hd) as Hl.
  apply prog_bind_inv in E as ([[st2 hd] rp] & s2 & E2 & E).
  destruct (recv_udp_header_ok _ _ _ _ _ _ _ _ _ _ _ Hk S1 E2) as [H2 V2].
  destruct (decide (st2 = W5500_OK)) as [->|]; [|by destruct st2].
  destruct (V2 eq_refl) as [-> ->]. cbn [ok_or h_length h_src_ip h_src_port] in E.
  destruct (H2 _ _ _ _ Hk S1) as [n2 S2]. cbn [app] in S2.
  set (len := Z.of_nat (length (dg_data d))) in *.
  replace (if len <? maxlen then len else maxlen) with (Z.min len maxlen) in E
    by (destruct (Z.ltb_spec len maxlen); lia).
  set (got := Z.min len maxlen) in *.
  apply prog_bind_inv in E as ([st3 rx3] & s3 & E3 & E).
  destruct (read_stored n Hk s2 d _ base base 8 got buf st3 rx3 s3 S2) as [H3 R3]; [lia|lia|exact E3|].
  destruct (decide (st3 = W5500_OK)) as [->|]; [|by destruct st3].
  rewrite (R3 eq_refl) in E. cbn [ok_or default from_option id] in E.
  destruct (H3 _ _ _ _ Hk S2) as [n3 S3]. cbn [app] in S3.
  destruct (recv_commit_ok n Hk s3 d _ base _ maxlen _ _ rx o' s' S3 E) as (-> & -> & [n4 Q4] & O4).
  exists new, (n1 ++ n2 ++ n3 ++ n4). split; [|split].
  - rewrite Eq. cbn [recv_spec rv_got rv_src_ip rv_src_port]. fold len got. rewrite Z.gtb_ltb. do 3 f_equal.
    unfold stored. rewrite app_assoc, drop_app_length'; [done|]. rewrite length_app, (dg_ip_ok _ Hd). done.
  - rewrite Eq. cbn [tail]. by rewrite !app_assoc.
  - intros m ds' Hm' Hne Hq'. destruct (Hoth m ds' Hm' Hq') as [k1 [b K1]].
    destruct (H2 _ _ _ _ Hm' K1) as [k2 K2]. destruct (H3 _ _ _ _ Hm' K2) as [k3 K3].
    destruct (O4 m _ _ _ Hm' Hne K3) as [k4 K4]. exists (k1 ++ k2 ++ k3 ++ k4), b. by rewrite !app_assoc.
Qed.
End spec.
