(* ===== verification/Net.v ===== *)
(** * The network task ([net.c]: [net_task] and a turn of its loop)

    It owns the chip: it takes a request, calls the driver, maps the status of
    the driver to the one the client sees, and recovers. *)
From S2P Require Import Prelude Utils KState Pool Spi W5500 Syscall.

Inductive net_status :=
| NET_STATUS_OK | NET_STATUS_FAULT | NET_STATUS_RETRY | NET_STATUS_BAD_REQUEST | NET_STATUS_UNREACHABLE
| NET_STATUS_DEAD.
#[export] Instance net_status_eq : EqDecision net_status.
Proof. solve_decision. Defined.

(** [net_reply_t]: the out parameters of a receive, and the status. *)
Record net_reply : Type := NetReply {
  y_out : recv_out;
  y_status : net_status;
}.

(** A request with what its pointers lead to: the contents of the buffer, the
    result and the reply slot.  The socket is in the pool. *)
Record net_job : Type := NetJob {
  j_op : net_op;
  j_socket : ptr;
  j_result : Z;
  j_reply : net_reply;
  j_buffer : option bytes;
  j_buf_len : Z;
  j_dst_ip : bytes;
  j_dst_port : Z;
  j_dst_mac : bytes;
  j_use_mac : bool;
}.

Definition net_mac : bytes := [0xEE; 0xFF; 0xEE; 0xFF; 0xEE; 0xFF].
Definition net_ip : bytes := [192; 168; 0; 105].
Definition net_gateway : bytes := [192; 168; 0; 1].
Definition net_subnet : bytes := [255; 255; 255; 0].

(** What a request leaves behind. *)
Record net_done_job : Type := NetDone {
  e_sockets : gmap ptr socket;
  e_result : Z;
  e_reply : net_reply;
  e_buffer : option bytes;
  e_init_status : w5500_status;
}.

Section net.
Context {B : Type} `{SpiBus B} (L : layout).

(** The socket of a request: null, or an entry of the pool. *)
Definition socket_at (p : ptr) (sockets : gmap ptr socket) : prog B (option socket) :=
  if p =? NULL then mret None else k ← fetch (fun _ => sockets !! p); mret (Some k).
Definition socket_back (p : ptr) (k : option socket) (sockets : gmap ptr socket) : gmap ptr socket :=
  match k with Some k => <[p := k]> sockets | None => sockets end.

(** The first switch: the call of the driver. *)
Definition net_call (j : net_job) (sockets : gmap ptr socket)
    : prog B (w5500_status * gmap ptr socket * Z * recv_out * option bytes) :=
  let out := y_out (j_reply j) in
  match j_op j with
  | NET_OP_LINK =>
      '(st, up) ← w5500_link_up 0;
      mret (st, sockets, match st with W5500_OK => up | _ => j_result j end, out, j_buffer j)
  | NET_OP_SOCKET_OPEN =>
      k ← socket_at (j_socket j) sockets;
      '(st, k) ← w5500_socket_open k;
      mret (st, socket_back (j_socket j) k sockets, j_result j, out, j_buffer j)
  | NET_OP_RECV =>
      k ← socket_at (j_socket j) sockets;
      '(st, buffer, out) ← w5500_socket_recv k (j_buffer j) (j_buf_len j) out;
      mret (st, sockets, j_result j, out, buffer)
  | NET_OP_SEND =>
      k ← socket_at (j_socket j) sockets;
      '(st, sent, k) ← w5500_socket_send k (j_buffer j) (j_buf_len j) (rv_got out) (j_dst_ip j) (j_dst_port j)
                         (if j_use_mac j then Some (j_dst_mac j) else None);
      mret (st, socket_back (j_socket j) k sockets, j_result j,
            RecvOut sent (rv_src_ip out) (rv_src_port out) (rv_truncated out), j_buffer j)
  | NET_OP_SOCKET_CLOSE =>
      k ← socket_at (j_socket j) sockets;
      '(st, k) ← w5500_socket_close k;
      mret (st, socket_back (j_socket j) k sockets, j_result j, out, j_buffer j)
  end.

(** The second switch: the status of the client, the sockets, and the new
    [init_status]. *)
Definition net_settle (st : w5500_status) (sockets : gmap ptr socket) (init_status : w5500_status)
    : prog B (net_status * gmap ptr socket * w5500_status) :=
  match st with
  | W5500_OK => mret (NET_STATUS_OK, sockets, init_status)
  | W5500_ERR_UNREACHABLE => mret (NET_STATUS_UNREACHABLE, sockets, init_status)
  | W5500_ERR_UNSTABLE | W5500_ERR_TRANSIENT => mret (NET_STATUS_RETRY, sockets, init_status)
  | W5500_ERR_ARG => mret (NET_STATUS_BAD_REQUEST, sockets, init_status)
  | W5500_ERR_STATE =>
      init_status ← w5500_init net_mac net_ip net_gateway net_subnet;
      mret (match init_status with W5500_OK => NET_STATUS_FAULT | _ => NET_STATUS_DEAD end,
            socket_memory_init L sockets, init_status)
  | W5500_ERR_FAULT =>
      _ret ← bus_recover;
      mret (NET_STATUS_FAULT, sockets, init_status)
  end.

(** One turn, between the two semaphores. *)
Definition net_turn (init_status : w5500_status) (j : net_job) (sockets : gmap ptr socket) : prog B net_done_job :=
  match init_status with
  | W5500_OK =>
      '(st, sockets, result, out, buffer) ← net_call j sockets;
      '(status, sockets, init_status) ← net_settle st sockets init_status;
      mret (NetDone sockets result (NetReply out status) buffer init_status)
  | _ => mret (NetDone sockets (j_result j) (NetReply (y_out (j_reply j)) NET_STATUS_DEAD) (j_buffer j) init_status)
  end.

(** The turns one after the other; what becomes of each request. *)
Fixpoint net_loop (init_status : w5500_status) (jobs : list net_job) (sockets : gmap ptr socket)
    : prog B (list net_done_job) :=
  match jobs with
  | [] => mret []
  | j :: jobs =>
      e ← net_turn init_status j sockets;
      rest ← net_loop (e_init_status e) jobs (e_sockets e);
      mret (e :: rest)
  end.
(** The whole task over the requests it takes; its two semaphores, the copy of
    a request and the post that answers it are in Mailbox.v. *)
Definition net_task (jobs : list net_job) (sockets : gmap ptr socket) : prog B (list net_done_job) :=
  init_status ← w5500_init net_mac net_ip net_gateway net_subnet;
  net_loop init_status jobs sockets.
End net.
