(* ===== verification/NetLive.v ===== *)
(** * The network task never stops

    Every function of the W5500 driver comes to an end, whatever the bus
    returns, and leaves the bus at rest.  The interface of the proof is the
    class [SteadyBus]: a bus that takes every well-formed frame.  The SPI
    driver is one, for every hardware. *)
From S2P Require Import Prelude Utils KState Pool Spi SpiSpec W5500 Net.

(** ** The interface *)

(** A frame whose header and buffers are as long as they are said to be. *)
Definition frame_fits (f : spi_frame) : Prop := exists h tx rx, frame_ok f h tx rx.
(** The buffer that comes back: as long as before, and bytes when it was. *)
Definition rx_kept (f : spi_frame) (rx : option bytes) : Prop :=
  length <$> rx = length <$> rx_data f /\
  (from_option (Forall is_byte) True (rx_data f) -> from_option (Forall is_byte) True rx).
(** A write that does not move the chip select pin. *)
Definition spares_cs (a v : Z) : bool :=
  negb (a =? GPIOA + BSRR) || negb (Z.testbit v SPI1_PIN_CS || Z.testbit v (SPI1_PIN_CS + 16)).

Class SteadyBus (B : Type) `{SpiBus B} := {
  steady : B -> Prop;
  steady_read a s : steady s -> exists v s', mm_read a s = Ok (v, s') /\ steady s';
  steady_write a v s : spares_cs a v = true -> steady s -> exists s', mm_write a v s = Ok (tt, s') /\ steady s';
  steady_frame f s : frame_fits f -> steady s ->
    exists r rx s', bus_frame f s = Ok ((r, rx), s') /\ rx_kept f rx /\ steady s';
  steady_recover s : steady s -> exists r s', bus_recover s = Ok (r, s') /\ steady s';
  steady_sleep n s : steady s -> exists s', sys_sleep n s = Ok (tt, s') /\ steady s';
}.

Section live.
Context {B : Type} `{SteadyBus B}.

(** The program ends on a bus at rest, with a value in [P], and leaves the
    bus at rest. *)
Definition ends {A} (P : A -> Prop) (m : prog B A) : Prop :=
  forall s, steady s -> exists a s', m s = Ok (a, s') /\ P a /\ steady s'.
Abbreviation ends_any := (ends (fun _ => True)).

Lemma ends_ret {A} (P : A -> Prop) a : P a -> ends P (mret a).
Proof using. intros Ha s Hs. by exists a, s. Qed.
Lemma ends_bind {A C} (P : A -> Prop) (Q : C -> Prop) (m : prog B A) k :
  ends P m -> (forall a, P a -> ends Q (k a)) -> ends Q (m ≫= k).
Proof using.
  intros Hm Hk s Hs. destruct (Hm s Hs) as (a & s1 & E & Ha & H1). destruct (Hk a Ha s1 H1) as (c & s2 & E2 & Hc & H2).
  exists c, s2. by rewrite (prog_bind_ok _ _ _ _ _ E).
Qed.
Lemma ends_weaken {A} (P Q : A -> Prop) m : ends P m -> (forall a, P a -> Q a) -> ends Q m.
Proof using. intros Hm HPQ s Hs. destruct (Hm s Hs) as (a & s' & E & Ha & H'). exists a, s'. auto. Qed.
Lemma ends_any_of {A} (P : A -> Prop) m : ends P m -> ends_any m.
Proof using. intros Hm. by eapply ends_weaken. Qed.

Lemma ends_read a : ends_any (mm_read a).
Proof using. intros s Hs. destruct (steady_read a s Hs) as (v & s' & E & H'). by exists v, s'. Qed.
Lemma ends_write a v : spares_cs a v = true -> ends_any (mm_write a v).
Proof using. intros Ha s Hs. destruct (steady_write a v s Ha Hs) as (s' & E & H'). by exists tt, s'. Qed.
Lemma ends_update a f : a <> GPIOA + BSRR -> ends_any (v ← mm_read a; mm_write a (f v)).
Proof using.
  intros Ha. eapply ends_bind; [apply ends_read|]. intros v _. apply ends_write. unfold spares_cs.
  by rewrite (proj2 (Z.eqb_neq _ _) Ha).
Qed.
Lemma ends_or a m : a <> GPIOA + BSRR -> ends_any (reg_or a m).
Proof using. apply (ends_update a (fun v => Z.lor v (u32 m))). Qed.
Lemma ends_and_not a m : a <> GPIOA + BSRR -> ends_any (reg_and_not a m).
Proof using. apply (ends_update a (fun v => Z.land v (u32 (Z.lnot m)))). Qed.
Lemma ends_sleep n : ends_any (sys_sleep n).
Proof using. intros s Hs. destruct (steady_sleep n s Hs) as (s' & E & H'). by exists tt, s'. Qed.
Lemma ends_recover : ends_any bus_recover.
Proof using. intros s Hs. destruct (steady_recover s Hs) as (r & s' & E & H'). by exists r, s'. Qed.

Lemma ends_ok_or {A} (P : A -> Prop) st err k : ends P err -> ends P k -> ends P (ok_or st err k).
Proof using. intros H1 H2. by destruct st. Qed.
Lemma ends_usable_or {A} (P : A -> Prop) st err k : ends P err -> ends P k -> ends P (usable_or st err k).
Proof using. intros H1 H2. by destruct st. Qed.

(** A result of the body that ends the loop is in [P]. *)
Definition early {V R} (P : R -> Prop) (r : V + R) : Prop := match r with inr e => P e | inl _ => True end.
Lemma ends_retry {V R} (P : R -> Prop) n (v : V) body again :
  (forall v, ends (early P) (body v)) -> ends (early P) (retry n v body again).
Proof using.
  intros Hb. revert v. induction n as [|n IH]; intros v; cbn [retry]; [by apply ends_ret|].
  eapply ends_bind; [apply Hb|]. intros [v'|e] He; [destruct (again v'); [apply IH|by apply ends_ret]|by apply ends_ret].
Qed.

(** ** Transfers *)

(** The status is anything; the buffer is kept. *)
Lemma ends_transfer addr bsb rd tx rx len :
  0 <= len -> (rd = true -> exists b, rx = Some b /\ len <= Z.of_nat (length b)) ->
  (rd = false -> exists b, tx = Some b /\ len <= Z.of_nat (length b)) ->
  ends (fun r => length <$> r.2 = length <$> rx /\
                 (from_option (Forall is_byte) True rx -> from_option (Forall is_byte) True r.2))
    (w5500_transfer addr bsb rd tx rx len).
Proof using.
  intros Hl Hr Ht s Hs. unfold w5500_transfer. set (f := Frame _ _ _ _ _ _).
  assert (frame_fits f) as Hf.
  { eexists _, (default [] tx), (default [] rx). split; cbn [f header header_len data_len tx_data rx_data is_read];
      [reflexivity|cbn; lia|done|done|done| |].
    - intros Hrd. destruct (Hr Hrd) as (b & -> & Hb). by split.
    - intros Hrd. destruct (Ht Hrd) as (b & -> & Hb). by split. }
  destruct (steady_frame f s Hf Hs) as (r & rx' & s' & E & Hk & H'). rewrite (prog_bind_ok _ _ _ _ _ E).
  eexists _, s'. split; [done|]. split; [exact Hk|done].
Qed.

Lemma ends_transfer_any addr bsb rd tx rx len :
  0 <= len -> (rd = true -> exists b, rx = Some b /\ len <= Z.of_nat (length b)) ->
  (rd = false -> exists b, tx = Some b /\ len <= Z.of_nat (length b)) ->
  ends_any (w5500_transfer addr bsb rd tx rx len).
Proof using. intros. by eapply ends_any_of, ends_transfer. Qed.
Lemma ends_send addr bsb b len :
  0 <= len <= Z.of_nat (length b) -> ends_any (w5500_transfer addr bsb false (Some b) None len).
Proof using. intros Hl. apply ends_transfer_any; [lia|done|]. intros _. exists b. split; [done|lia]. Qed.

Lemma ends_read8 addr bsb data : ends_any (w5500_read8 addr bsb data).
Proof using.
  unfold w5500_read8. eapply ends_bind; [apply ends_transfer_any; [lia| |done]|intros [st rx] _; by apply ends_ret].
  intros _. exists [data]. split; [done|cbn; lia].
Qed.
Lemma ends_write8 addr bsb v : ends_any (w5500_write8 addr bsb v).
Proof using. unfold w5500_write8. eapply ends_bind; [apply ends_send; cbn; lia|intros [st rx] _; by apply ends_ret]. Qed.
Lemma ends_read16 addr bsb data : ends_any (w5500_read16 addr bsb data).
Proof using.
  unfold w5500_read16. eapply ends_bind; [apply ends_transfer_any; [lia| |done]|intros [st rx] _; by apply ends_ret].
  intros _. exists [0; 0]. split; [done|cbn; lia].
Qed.
Lemma ends_write16 addr bsb v : ends_any (w5500_write16 addr bsb v).
Proof using. unfold w5500_write16. eapply ends_bind; [apply ends_send; cbn; lia|intros [st rx] _; by apply ends_ret]. Qed.
Lemma ends_read16_stable addr bsb data : ends_any (w5500_read16_stable addr bsb data).
Proof using.
  unfold w5500_read16_stable. generalize 255%nat. intros k. induction k as [|k IH]; cbn [stable_loop]; [by apply ends_ret|].
  eapply ends_bind; [apply ends_read16|intros [st a] _]. apply ends_ok_or; [by apply ends_ret|].
  eapply ends_bind; [apply ends_read16|intros [st2 b] _]. apply ends_ok_or; [by apply ends_ret|].
  destruct (a =? b); [by apply ends_ret|exact IH].
Qed.

Lemma ends_retry_any {V R} n (v : V) (body : V -> prog B (V + R)) again :
  (forall v, ends_any (body v)) -> ends_any (retry n v body again).
Proof using.
  intros Hb. eapply ends_any_of, (ends_retry (fun _ => True)). intros v'. eapply ends_weaken; [apply Hb|]. by intros [].
Qed.

(** One step into a program of which nothing but its end is asked. *)
Ltac ends_step :=
  lazymatch goal with
  | |- ends _ (mret _) => apply ends_ret; exact I
  | |- ends _ (w5500_read8 _ _ _) => apply ends_read8
  | |- ends _ (w5500_write8 _ _ _) => apply ends_write8
  | |- ends _ (w5500_read16 _ _ _) => apply ends_read16
  | |- ends _ (w5500_write16 _ _ _) => apply ends_write16
  | |- ends _ (w5500_read16_stable _ _ _) => apply ends_read16_stable
  | |- ends _ (sys_sleep _) => apply ends_sleep
  | |- ends _ bus_recover => apply ends_recover
  | |- ends _ (reg_or _ _) => apply ends_or; discriminate
  | |- ends _ (reg_and_not _ _) => apply ends_and_not; discriminate
  | |- ends _ (mm_write _ _) => apply ends_write; reflexivity
  | |- ends _ (ok_or _ _ _) => apply ends_ok_or
  | |- ends _ (usable_or _ _ _) => apply ends_usable_or
  | |- ends _ (retry _ _ _ _) => apply ends_retry_any; intros ?
  | |- ends _ (mbind _ _) => eapply (ends_bind (fun _ => True)); [|intros ? _]
  | |- ends _ (let '(_, _) := ?p in _) => destruct p
  | |- ends _ (if ?b then _ else _) => destruct b
  | |- ends _ (match ?x with _ => _ end) => destruct x
  end.
Ltac ends := repeat ends_step.

Lemma ends_bring_up : ends_any w5500_bring_up.
Proof using.
  unfold w5500_bring_up, w5500_reset_pin_init, w5500_hw_reset, w5500_get_version, SET_GPIO_MODE, SET_GPIO_OTYPER,
    SET_GPIO_OSPEEDR, GPIO_PIN_HIGH, GPIO_PIN_LOW. ends.
Qed.
Lemma ends_init : ends_any (w5500_init net_mac net_ip net_gateway net_subnet).
Proof using.
  unfold w5500_init. eapply ends_bind; [apply ends_bring_up|]. intros st _.
  repeat first [apply ends_send; cbn; lia|ends_step].
Qed.
Lemma ends_link_up up : ends_any (w5500_link_up up).
Proof using. unfold w5500_link_up. ends. Qed.
Lemma ends_close k : ends_any (w5500_socket_close k).
Proof using. unfold w5500_socket_close. ends. Qed.
Lemma ends_open_wait bsb mode sr k : ends_any (open_wait bsb mode sr k).
Proof using. unfold open_wait. ends. Qed.
Lemma ends_open k : ends_any (w5500_socket_open k).
Proof using. unfold w5500_socket_open. repeat first [apply ends_close|apply ends_open_wait|ends_step]. Qed.

(** *** Receiving *)

Lemma byte_at_nonneg l i : Forall is_byte l -> 0 <= List.nth i l 0.
Proof using.
  intros Hl. destruct (lt_dec i (length l)) as [Hi|Hi]; [|by rewrite nth_overflow by lia].
  apply Forall_forall with (x := List.nth i l 0) in Hl; [by destruct Hl|]. apply list_elem_of_In. by apply nth_In.
Qed.
Lemma ends_udp_header k hd rp :
  0 <= h_length hd -> ends (fun r => 0 <= h_length r.1.2) (w5500_recv_udp_header k hd rp).
Proof using.
  intros Hh. unfold w5500_recv_udp_header. eapply ends_bind; [apply ends_read16|intros [st rp'] _].
  apply ends_ok_or; [by apply ends_ret|].
  eapply ends_bind; [apply ends_transfer; [lia| |done]|].
  { intros _. eexists. split; [done|]. rewrite repeat_length. lia. }
  intros [st2 rx] [_ Hb]. cbn [snd] in Hb. apply ends_ok_or; [by apply ends_ret|]. apply ends_ret. cbn [fst snd h_length].
  assert (Forall is_byte (default [] rx)) as Hrx.
  { assert (from_option (Forall is_byte) True rx) as H1; [|by destruct rx].
    apply Hb. cbn. repeat (constructor; [unfold is_byte; lia|]). constructor. }
  apply Z.lor_nonneg. split; [apply Z.shiftl_nonneg|]; by apply byte_at_nonneg.
Qed.

(** The buffer that comes back is as long as it was. *)
Definition same_buffer (b : option bytes) (r : w5500_status * option bytes * recv_out) : Prop :=
  length <$> r.1.2 = length <$> b.

Lemma ends_recv_commit bsb n rp len maxlen buf o :
  ends (same_buffer (Some buf)) (recv_commit bsb n rp len maxlen buf o).
Proof using.
  unfold recv_commit. eapply ends_bind; [apply ends_write16|intros st _]. apply ends_ok_or; [by apply ends_ret|].
  eapply ends_bind; [apply ends_write8|intros st2 _]. apply ends_ok_or.
  { eapply ends_bind; [apply ends_write16|intros st3 _]. by apply ends_ret. }
  eapply ends_bind.
  { apply (ends_retry (same_buffer (Some buf))). intros v.
    eapply ends_bind; [apply ends_sleep|intros _ _]. eapply ends_bind; [apply ends_read8|intros [st3 cr] _].
    apply ends_usable_or; [|by apply ends_ret]. eapply ends_bind; [apply ends_write16|intros st4 _]. by apply ends_ret. }
  intros [[cr|]|e] He; [| |by apply ends_ret].
  - eapply ends_bind; [apply ends_read16_stable|intros [st3 m] _]. apply ends_ok_or; [by apply ends_ret|].
    destruct (_ >=? _); by apply ends_ret.
  - eapply ends_bind; [apply ends_write16|intros st3 _]. by apply ends_ret.
Qed.

Lemma ends_recv k buf maxlen o :
  0 <= maxlen -> (forall b, buf = Some b -> maxlen <= Z.of_nat (length b)) ->
  ends (same_buffer buf) (w5500_socket_recv k buf maxlen o).
Proof using.
  intros Hm Hb. unfold w5500_socket_recv. destruct k as [k|]; [|by apply ends_ret]. destruct buf as [buf|]; [|by apply ends_ret].
  specialize (Hb buf eq_refl). destruct (maxlen =? 0); [by apply ends_ret|].
  eapply ends_bind; [apply ends_read16_stable|intros [st n] _]. apply ends_ok_or; [by apply ends_ret|].
  destruct (n =? 0); [by apply ends_ret|].
  eapply ends_bind; [apply ends_udp_header; done|]. intros [[st2 hd] rp] Hh. cbn [fst snd] in Hh.
  apply ends_ok_or; [by apply ends_ret|].
  set (len := if h_length hd <? maxlen then h_length hd else maxlen).
  assert (0 <= len <= maxlen) as Hlen by (unfold len; destruct (Z.ltb_spec (h_length hd) maxlen); lia).
  eapply ends_bind; [apply ends_transfer; [lia| |done]|].
  { intros _. exists buf. split; [done|lia]. }
  intros [st3 rx] [Hr _]. cbn [snd] in Hr. destruct rx as [rx|]; [|done]. injection Hr as Hr.
  apply ends_ok_or; [apply ends_ret; unfold same_buffer; cbn; by rewrite Hr|].
  eapply ends_weaken; [apply ends_recv_commit|]. intros r E. unfold same_buffer in *. rewrite E. cbn. by rewrite Hr.
Qed.

(** *** Sending *)

Lemma ends_ir_clear k m : ends_any (w5500_ir_clear k m).
Proof using. apply ends_write8. Qed.
Lemma ends_reset_tx_wr k : ends_any (w5500_reset_tx_wr k).
Proof using. unfold w5500_reset_tx_wr. ends. Qed.
Lemma ends_reap k : ends_any (reap_send k).
Proof using. unfold reap_send. repeat first [apply ends_ir_clear|apply ends_reset_tx_wr|ends_step]. Qed.
Lemma ends_send_fill k wp tx n ip port mac :
  0 <= n <= Z.of_nat (length tx) -> (4 <= length ip)%nat -> from_option (fun m : bytes => (6 <= length m)%nat) True mac ->
  ends_any (send_fill k wp tx n ip port mac).
Proof using.
  intros Hn Hip Hmac. unfold send_fill. eapply ends_bind; [by apply ends_send|intros [st b] _]. apply ends_ok_or; [by apply ends_ret|].
  eapply ends_bind; [apply ends_send; lia|intros [st2 b2] _]. apply ends_ok_or; [by apply ends_ret|].
  eapply ends_bind; [apply ends_write16|intros st3 _]. apply ends_ok_or; [by apply ends_ret|].
  eapply ends_bind; [|intros [st4 b4] _; ends].
  destruct mac as [mac|]; [cbn in Hmac; apply ends_send; lia|by apply ends_ret].
Qed.
Lemma ends_send_commit k wp n cmd : ends_any (send_commit k wp n cmd).
Proof using. unfold send_commit. cbv zeta. repeat first [apply ends_ir_clear|apply ends_reset_tx_wr|ends_step]. Qed.
Lemma ends_socket_send k tx n sent ip port mac :
  0 <= n -> (forall b, tx = Some b -> n <= Z.of_nat (length b)) -> (4 <= length ip)%nat ->
  from_option (fun m : bytes => (6 <= length m)%nat) True mac ->
  ends_any (w5500_socket_send k tx n sent ip port mac).
Proof using.
  intros Hn Hb Hip Hmac. unfold w5500_socket_send. destruct k as [k|]; [|by apply ends_ret].
  destruct tx as [tx|]; [|by apply ends_ret]. specialize (Hb tx eq_refl).
  repeat first [apply ends_reap|apply ends_send_fill; [by split|done|done]|apply ends_send_commit|ends_step].
Qed.

(** ** The task *)

Context (L : layout).

(** A request as the system calls make it: no socket or one of the pool, and
    buffers as long as they are said to be. *)
Record job_ok (j : net_job) : Prop := {
  jo_socket : j_socket j = NULL \/ exists i, (i < N_SOCKETS)%nat /\ j_socket j = socket_slot L i;
  jo_len : 0 <= j_buf_len j;
  jo_buffer b : j_buffer j = Some b -> j_buf_len j <= Z.of_nat (length b);
  jo_ip : (4 <= length (j_dst_ip j))%nat;
  jo_mac : (6 <= length (j_dst_mac j))%nat;
}.
(** Every socket of the pool is there. *)
Definition pool_full (S : gmap ptr socket) : Prop := forall i, (i < N_SOCKETS)%nat -> is_Some (S !! socket_slot L i).

Lemma pool_full_insert p k S : pool_full S -> pool_full (<[p := k]> S).
Proof using. intros HS i Hi. destruct (decide (p = socket_slot L i)) as [->|Hp].
  - rewrite lookup_insert_eq. by eexists.
  - rewrite lookup_insert_ne by done. by apply HS.
Qed.
Lemma pool_full_scan n i S : pool_full S -> pool_full (socket_memory_scan L n i S).
Proof using. revert i S. induction n as [|n IH]; intros i S HS; [done|]. cbn. by apply IH, pool_full_insert. Qed.
Lemma pool_full_init S : pool_full (socket_memory_init L S).
Proof using.
  assert (forall n i S j, (i <= j < i + n)%nat \/ is_Some (S !! socket_slot L j) ->
    is_Some (socket_memory_scan L n i S !! socket_slot L j)) as Hscan.
  { clear S. induction n as [|n IH]; intros i S j Hj; [destruct Hj; [lia|done]|]. cbn. apply IH.
    destruct (decide (j = i)) as [->|Hji]; [right; rewrite lookup_insert_eq; by eexists|].
    destruct Hj as [Hj|Hj]; [left; lia|right].
    destruct (decide (socket_slot L i = socket_slot L j)) as [->|Hp]; [rewrite lookup_insert_eq; by eexists|].
    by rewrite lookup_insert_ne. }
  intros j Hj. apply Hscan. left. lia.
Qed.
Lemma pool_full_back p k S : pool_full S -> pool_full (socket_back p k S).
Proof using. intros HS. destruct k as [k|]; [by apply pool_full_insert|done]. Qed.

Lemma ends_socket_at j S : job_ok j -> pool_full S -> ends_any (socket_at (j_socket j) S).
Proof using.
  intros [[E|(i & Hi & E)] _ _ _ _] HS; unfold socket_at; rewrite E.
  - rewrite Z.eqb_refl. by apply ends_ret.
  - destruct (_ =? NULL); [by apply ends_ret|]. destruct (HS i Hi) as [k Ek].
    intros s Hs. exists (Some k), s. unfold fetch, mbind, prog_bind. by rewrite Ek.
Qed.

(** The call keeps the pool and the length of the buffer. *)
Lemma ends_call j S : job_ok j -> pool_full S ->
  ends (fun r => pool_full r.1.1.1.2 /\ length <$> r.2 = length <$> j_buffer j) (net_call j S).
Proof using.
  intros Hj HS. pose proof (ends_socket_at j S Hj HS) as Hat. destruct Hj as [_ Hl Hb Hip Hmac].
  unfold net_call. destruct (j_op j).
  - eapply ends_bind; [apply ends_link_up|intros [st up] _]. by apply ends_ret.
  - eapply ends_bind; [exact Hat|intros k _]. eapply ends_bind; [apply ends_open|intros [st k'] _].
    apply ends_ret. split; [by apply pool_full_back|done].
  - eapply ends_bind; [exact Hat|intros k _]. eapply ends_bind; [apply ends_close|intros [st k'] _].
    apply ends_ret. split; [by apply pool_full_back|done].
  - eapply ends_bind; [exact Hat|intros k _]. eapply ends_bind; [by apply ends_recv|intros [[st buf] out] Hr].
    apply ends_ret. by split.
  - eapply ends_bind; [exact Hat|intros k _]. eapply ends_bind; [apply ends_socket_send; try done; by destruct (j_use_mac j)|].
    intros [[st sent] k'] _. apply ends_ret. split; [by apply pool_full_back|done].
Qed.
Lemma ends_settle st S i : pool_full S -> ends (fun r => pool_full r.1.2) (net_settle L st S i).
Proof using.
  intros HS. unfold net_settle. destruct st; try by apply ends_ret.
  - eapply ends_bind; [apply ends_recover|intros r _]. by apply ends_ret.
  - eapply ends_bind; [apply ends_init|intros st _]. apply ends_ret. by apply pool_full_scan.
Qed.
Lemma ends_turn i j S : job_ok j -> pool_full S ->
  ends (fun e => pool_full (e_sockets e) /\ length <$> e_buffer e = length <$> j_buffer j /\
                 (i <> W5500_OK -> y_status (e_reply e) = NET_STATUS_DEAD)) (net_turn L i j S).
Proof using.
  intros Hj HS. unfold net_turn. destruct (decide (i = W5500_OK)) as [->|Hi].
  - eapply ends_bind; [by apply ends_call|]. intros [[[[st S'] res] out] buf] [HS' Hbuf]. cbn [fst snd] in *.
    eapply ends_bind; [by apply ends_settle|]. intros [[status S''] i'] HS''. by apply ends_ret.
  - destruct i; [done|by apply ends_ret..].
Qed.

(** The status a client sees for a status of the driver; [init] is the outcome
    of bringing the chip up again, when that was tried. *)
Definition client_status (st init : w5500_status) : net_status :=
  match st, init with
  | W5500_OK, _ => NET_STATUS_OK
  | W5500_ERR_UNREACHABLE, _ => NET_STATUS_UNREACHABLE
  | (W5500_ERR_UNSTABLE | W5500_ERR_TRANSIENT), _ => NET_STATUS_RETRY
  | W5500_ERR_ARG, _ => NET_STATUS_BAD_REQUEST
  | W5500_ERR_FAULT, _ => NET_STATUS_FAULT
  | W5500_ERR_STATE, W5500_OK => NET_STATUS_FAULT
  | W5500_ERR_STATE, _ => NET_STATUS_DEAD
  end.

(** What the task repairs after a status of the driver: a faulted bus is
    recovered, a chip in a wrong state is brought up again. *)
Inductive healed : w5500_status -> B -> w5500_status -> B -> Prop :=
| healed_bus s r s' : bus_recover s = Ok (r, s') -> healed W5500_ERR_FAULT s W5500_OK s'
| healed_chip s i s' :
    w5500_init net_mac net_ip net_gateway net_subnet s = Ok (i, s') -> healed W5500_ERR_STATE s i s'
| healed_not st s : st <> W5500_ERR_FAULT -> st <> W5500_ERR_STATE -> healed st s W5500_OK s.

(** One request from the bus state [s] to [s'].  While the chip is dead the
    reply says so and nothing else changes.  Otherwise the driver is called
    once; the result, the out parameters and the buffer are what it returned,
    and the status of the reply stands for its status. *)
Inductive turn_done : w5500_status -> gmap ptr socket -> B -> net_job -> net_done_job -> B -> Prop :=
| turn_dead i S s j :
    i <> W5500_OK ->
    turn_done i S s j (NetDone S (j_result j) (NetReply (y_out (j_reply j)) NET_STATUS_DEAD) (j_buffer j) i) s
| turn_served S s j st S1 result out buffer s1 i s' :
    net_call j S s = Ok ((st, S1, result, out, buffer), s1) -> healed st s1 i s' ->
    turn_done W5500_OK S s j
      (NetDone (if decide (st = W5500_ERR_STATE) then socket_memory_init L S1 else S1) result
         (NetReply out (client_status st i)) buffer i) s'.

(** The requests one after the other: each finds the bus, the sockets and the
    health of the chip as the one before left them. *)
Inductive turns_done : w5500_status -> gmap ptr socket -> B -> list net_job -> list net_done_job -> B -> Prop :=
| turns_nil i S s : turns_done i S s [] [] s
| turns_cons i S s j jobs e es s1 s2 :
    turn_done i S s j e s1 -> turns_done (e_init_status e) (e_sockets e) s1 jobs es s2 ->
    turns_done i S s (j :: jobs) (e :: es) s2.

Lemma settle_healed st S i s status S' i' s' :
  net_settle L st S i s = Ok ((status, S', i'), s') -> i = W5500_OK ->
  healed st s i' s' /\ status = client_status st i' /\
  S' = if decide (st = W5500_ERR_STATE) then socket_memory_init L S else S.
Proof using.
  intros E ->. destruct st; cbn [net_settle] in E;
    try (injection E as <- <- <- <-; split_and!; [by constructor|done|done]).
  - apply prog_bind_inv in E as (r & s1 & E1 & E). injection E as <- <- <- <-.
    split_and!; [by econstructor|done|done].
  - apply prog_bind_inv in E as (r & s1 & E1 & E). injection E as <- <- <- <-.
    split_and!; [by econstructor|by destruct r|done].
Qed.

Lemma turn_runs i j S s e s' : net_turn L i j S s = Ok (e, s') -> turn_done i S s j e s'.
Proof using.
  intros E. unfold net_turn in E. destruct (decide (i = W5500_OK)) as [->|Hi].
  - apply prog_bind_inv in E as ([[[[st S1] result] out] buffer] & s1 & E1 & E).
    apply prog_bind_inv in E as ([[status S2] i2] & s2 & E2 & E). injection E as <- <-.
    destruct (settle_healed _ _ _ _ _ _ _ _ E2 eq_refl) as (Hh & -> & ->). by eapply turn_served.
  - destruct i; try done; injection E as <- <-; by apply turn_dead.
Qed.

Lemma loop_runs i jobs S s es s' : net_loop L i jobs S s = Ok (es, s') -> turns_done i S s jobs es s'.
Proof using.
  revert i S s es. induction jobs as [|j jobs IH]; intros i S s es E; cbn [net_loop] in E.
  - injection E as <- <-. constructor.
  - apply prog_bind_inv in E as (e & s1 & E1 & E). apply prog_bind_inv in E as (rest & s2 & E2 & E).
    injection E as <- <-. econstructor; [by apply turn_runs|by apply IH].
Qed.

Lemma task_runs jobs S s es s' : net_task L jobs S s = Ok (es, s') ->
  exists i s0, w5500_init net_mac net_ip net_gateway net_subnet s = Ok (i, s0) /\ turns_done i S s0 jobs es s'.
Proof using.
  intros E. unfold net_task in E. apply prog_bind_inv in E as (i & s0 & E0 & E). exists i, s0.
  split; [done|by apply loop_runs].
Qed.

(** The buffer of every request keeps its length. *)
Definition answered (j : net_job) (e : net_done_job) : Prop := length <$> e_buffer e = length <$> j_buffer j.
Lemma ends_loop i jobs S : Forall job_ok jobs -> pool_full S -> ends (Forall2 answered jobs) (net_loop L i jobs S).
Proof using.
  intros Hj. revert i S. induction Hj as [|j jobs Hj _ IH]; intros i S HS; cbn [net_loop]; [by apply ends_ret|].
  eapply ends_bind; [by apply ends_turn|]. intros e (HS' & Hbuf & _).
  eapply ends_bind; [by apply IH|]. intros es Hes. apply ends_ret. by constructor.
Qed.
Lemma ends_task jobs S : Forall job_ok jobs -> pool_full S -> ends (Forall2 answered jobs) (net_task L jobs S).
Proof using. intros Hj HS. unfold net_task. eapply ends_bind; [apply ends_init|]. intros st _. by apply ends_loop. Qed.
End live.

(** ** The SPI driver is such a bus *)

(** The rules of the bus: the mutex is not taken twice and not given back by
    one who does not have it, chip select goes low under the mutex only and is
    high again before the mutex is released. *)
Definition bus_step (st : bool * bool) (a : access) : option (bool * bool) :=
  let '(locked, selected) := st in
  match a with
  | Lock => if locked then None else Some (true, selected)
  | Unlock => if locked && negb selected then Some (false, false) else None
  | Wr r v =>
      if spares_cs r v then Some st
      else if Z.testbit v SPI1_PIN_CS then Some (locked, false)
      else if locked then Some (true, true) else None
  | _ => Some st
  end.
Definition bus_run (st : bool * bool) (l : list access) : option (bool * bool) :=
  foldl (fun o a => st ← o; bus_step st a) (Some st) l.
(** All accesses so far follow the rules, and the bus is at rest. *)
Definition at_rest (l : list access) : Prop := bus_run (false, false) l = Some (false, false).

Lemma bus_run_None l : foldl (fun o a => st ← o; bus_step st a) None l = None.
Proof. by induction l. Qed.
Lemma bus_run_app st l l' : bus_run st (l ++ l') = (st' ← bus_run st l; bus_run st' l').
Proof.
  unfold bus_run. rewrite foldl_app. destruct (foldl _ (Some st) l) as [st'|]; [done|]. apply bus_run_None.
Qed.
Lemma bus_run_cons st a l : bus_run st (a :: l) = (st' ← bus_step st a; bus_run st' l).
Proof. change (a :: l) with ([a] ++ l). by rewrite bus_run_app. Qed.
Lemma bus_run_quiet st l : forallb quiet l = true -> bus_run st l = Some st.
Proof.
  induction l as [|a l IH]; [done|]. cbn [forallb]. intros [Ha Hl]%andb_prop. rewrite bus_run_cons.
  assert (bus_step st a = Some st) as ->; [|by apply IH].
  destruct st as [lk sel], a as [| |n| | |]; cbn in Ha |- *; try done. unfold spares_cs. by rewrite Ha.
Qed.
Lemma at_rest_quiet l l' : at_rest l -> forallb quiet l' = true -> at_rest (l ++ l').
Proof. unfold at_rest. intros Hl Hq. rewrite bus_run_app, Hl. by apply bus_run_quiet. Qed.
Lemma at_rest_frame l lead body :
  at_rest l -> forallb quiet (lead ++ body) = true ->
  at_rest (l ++ Lock :: lead ++ cs_low :: body ++ [cs_high; Unlock]).
Proof.
  unfold at_rest. rewrite forallb_app. intros Hl [H1 H2]%andb_prop.
  rewrite bus_run_app, Hl. cbn [mbind option_bind]. rewrite bus_run_cons. cbn [bus_step mbind option_bind].
  rewrite bus_run_app, (bus_run_quiet _ lead) by done. cbn [mbind option_bind]. rewrite bus_run_cons.
  change (bus_step (true, false) cs_low) with (Some (true, true)). cbn [mbind option_bind].
  by rewrite bus_run_app, (bus_run_quiet _ body).
Qed.

Section spi.
Context (answer : Z -> list access -> Z) (after_wait : list access -> spi_state -> spi_state).

(** The program takes the bus from [st] to [st'], whatever the driver state. *)
Definition takes {A} (st : bool * bool) (m : prog spi A) (st' : bool * bool) : Prop := forall s,
  bus_run (false, false) (sp_log s) = Some st -> exists a s', m s = Ok (a, s') /\ bus_run (false, false) (sp_log s') = Some st'.

Lemma takes_bind {A C} st1 st2 st3 (m : prog spi A) (k : A -> prog spi C) :
  takes st1 m st2 -> (forall a, takes st2 (k a) st3) -> takes st1 (m ≫= k) st3.
Proof using.
  intros Hm Hk s Hs. destruct (Hm s Hs) as (a & s1 & E & H1). destruct (Hk a s1 H1) as (c & s2 & E2 & H2).
  exists c, s2. by rewrite (prog_bind_ok _ _ _ _ _ E).
Qed.
Lemma takes_same {A} st (m : prog spi A) : (forall s, exists a s', m s = Ok (a, s') /\ sp_log s' = sp_log s) -> takes st m st.
Proof using. intros Hm s Hs. destruct (Hm s) as (a & s' & E & El). exists a, s'. by rewrite El. Qed.
Lemma takes_note st a st' : bus_step st a = Some st' -> takes st (note a) st'.
Proof using.
  intros Ha s Hs. eexists _, _. split; [done|]. cbn [sp_log]. rewrite bus_run_app, Hs. cbn [mbind option_bind].
  by rewrite bus_run_cons, Ha.
Qed.
Lemma takes_ret {A} st (a : A) : takes st (mret a) st.
Proof using. apply takes_same. intros s. by exists a, s. Qed.
Lemma takes_gets {A} st (f : spi -> A) : takes st (gets f) st.
Proof using. apply takes_same. intros s. by exists (f s), s. Qed.
Lemma takes_set st v : takes st (modify (set_sp_state v)) st.
Proof using. apply takes_same. intros s. by eexists _, _. Qed.
Lemma takes_read st a : takes st (mm_read (Mmio := spi_mmio answer) a) st.
Proof using.
  intros s Hs. eexists _, _. split; [done|]. cbn [sp_log]. rewrite bus_run_app, Hs. cbn. by destruct st.
Qed.
Lemma takes_write st a v : spares_cs a v = true -> takes st (mm_write (Mmio := spi_mmio answer) a v) st.
Proof using. intros Ha. apply takes_note. destruct st. cbn. by rewrite Ha. Qed.
Lemma takes_update st a f : a <> GPIOA + BSRR ->
  takes st (v ← mm_read (Mmio := spi_mmio answer) a; mm_write (Mmio := spi_mmio answer) a (f v)) st.
Proof using.
  intros Ha. eapply takes_bind; [apply takes_read|]. intros v. apply takes_write. unfold spares_cs.
  by rewrite (proj2 (Z.eqb_neq _ _) Ha).
Qed.
Lemma takes_or st a m : a <> GPIOA + BSRR -> takes st (reg_or (H := spi_mmio answer) a m) st.
Proof using. apply (takes_update st a (fun v => Z.lor v (u32 m))). Qed.
Lemma takes_and_not st a m : a <> GPIOA + BSRR -> takes st (reg_and_not (H := spi_mmio answer) a m) st.
Proof using. apply (takes_update st a (fun v => Z.land v (u32 (Z.lnot m)))). Qed.
Lemma takes_high lk : takes (lk, false) (spi1_cs_deselect answer) (lk, false).
Proof using. by apply takes_note. Qed.
Lemma takes_lock : takes (false, false) (sys_mutex_lock after_wait) (true, false).
Proof using.
  unfold sys_mutex_lock. eapply takes_bind; [by apply takes_note|]. intros _. apply takes_same. intros s. by eexists _, _.
Qed.

Lemma takes_setup lk : takes (lk, false) (spi1_setup answer) (lk, false).
Proof using.
  unfold spi1_setup, setup_pin, SET_GPIO_MODE, SET_GPIO_OTYPER, SET_GPIO_OSPEEDR, SET_GPIO_PUPDR, SET_GPIO_AF.
  repeat lazymatch goal with
    | |- takes _ (mbind _ _) _ => eapply takes_bind; [|intros ?]
    | |- takes _ (reg_or _ _) _ => apply takes_or; discriminate
    | |- takes _ (reg_and_not _ _) _ => apply takes_and_not; discriminate
    | |- takes _ (mm_write _ _) _ => apply takes_write; reflexivity
    | |- takes _ (spi1_cs_deselect _) _ => apply takes_high
    end.
Qed.
Lemma takes_configure lk : takes (lk, false) (spi1_configure answer) (lk, false).
Proof using.
  unfold spi1_configure. eapply takes_bind; [apply takes_gets|]. intros st. destruct (negb _); [apply takes_ret|].
  eapply takes_bind; [apply takes_setup|intros _]. eapply takes_bind; [apply takes_set|intros _]. apply takes_ret.
Qed.
Lemma takes_recover : takes (false, false) (spi1_recover answer after_wait) (false, false).
Proof using.
  unfold spi1_recover. eapply takes_bind; [apply takes_gets|]. intros st. destruct (negb _); [apply takes_ret|].
  eapply takes_bind; [apply takes_lock|intros _]. eapply takes_bind; [apply takes_set|intros _].
  eapply takes_bind; [apply takes_configure|intros _]. eapply takes_bind; [apply takes_read|intros _].
  eapply takes_bind; [apply takes_set|intros _]. eapply takes_bind; [by apply takes_note|intros _]. apply takes_ret.
Qed.

(** *** What a frame does to the buffer *)

Definition kept (rx rx' : bytes) : Prop := length rx' = length rx /\ (Forall is_byte rx -> Forall is_byte rx').

Lemma data_loop_kept rd tx n : forall i rx s r rx' s',
  data_loop answer n i rd tx rx s = Ok ((r, rx'), s') -> kept rx rx'.
Proof using.
  induction n as [|n IH]; intros i rx s r rx' s'; cbn [data_loop]; [by intros [= _ <- _]|].
  intros (b & s1 & _ & E)%prog_bind_inv. destruct (spi1_transfer_ok answer b s1) as (r1 & v & s2 & t & E1 & _ & D).
  rewrite (prog_bind_ok _ _ _ _ _ E1) in E. cbn beta iota in E. destruct r1; try by (injection E as _ <- _).
  apply prog_bind_inv in E as (rx1 & s3 & E3 & E). apply IH in E as [El Eb].
  assert (kept rx rx1) as [Hl Hb]; [|split; [lia|auto]].
  destruct rd; [|by injection E3 as <- _]. unfold fetch in E3. destruct (rx !! i); [|done]. cbn in E3. injection E3 as <- _.
  split; [apply length_insert|]. intros Hrx. apply Forall_insert; [done|].
  destruct D as [(_ & _ & w & _ & ->)|[[=] _]]. apply u8_range.
Qed.
Lemma frame_phases_kept f s r rx s' : frame_phases answer f s = Ok ((r, rx), s') -> rx_kept f rx.
Proof using.
  unfold frame_phases. intros (r1 & s1 & _ & E)%prog_bind_inv. destruct r1; try by (injection E as _ <- _; split).
  apply prog_bind_inv in E as ([r2 rx2] & s2 & E2 & E). injection E as _ <- _. apply data_loop_kept in E2 as [El Eb].
  unfold rx_kept. destruct (rx_data f) as [b|]; cbn in *; [|done]. split; [by rewrite El|exact Eb].
Qed.
Lemma frame_kept f s r rx s' : spi1_transfer_frame answer after_wait f s = Ok ((r, rx), s') -> rx_kept f rx.
Proof using.
  assert (rx_kept f (rx_data f)) as H0 by done.
  unfold spi1_transfer_frame. intros (st & s1 & _ & E)%prog_bind_inv.
  repeat match type of E with (if ?b then _ else _) _ = _ => destruct b; [by injection E as _ <- _|] end.
  apply prog_bind_inv in E as (? & s2 & _ & E). apply prog_bind_inv in E as (st2 & s3 & _ & E).
  destruct (bool_decide _); [by apply prog_bind_inv in E as (? & s4 & _ & [= _ <- _])|].
  do 3 (apply prog_bind_inv in E as (? & ? & _ & E)).
  apply prog_bind_inv in E as ([r1 rx1] & s5 & E5 & E). apply frame_phases_kept in E5.
  do 3 (apply prog_bind_inv in E as (? & ? & _ & E)). by injection E as _ <- _.
Qed.

(** A frame on a bus at rest. *)
Lemma frame_steady f s :
  frame_fits f -> at_rest (sp_log s) ->
  exists r rx s', spi1_transfer_frame answer after_wait f s = Ok ((r, rx), s') /\ at_rest (sp_log s').
Proof using.
  intros (h & tx & rx & Hf) Hs.
  destruct (decide (sp_state s = SPI_ST_UNINIT)) as [Hu|Hu].
  { unfold spi1_transfer_frame. rewrite (prog_bind_ok (gets _) _ s (sp_state s) s) by done.
    rewrite (bool_decide_true (sp_state s = _)) by done. by eexists _, _, s. }
  destruct (decide (sp_state s = SPI_ST_FAULTED)) as [Hx|Hx].
  { destruct (frame_guards f h tx rx Hf) as [G1 G2]. unfold spi1_transfer_frame.
    rewrite (prog_bind_ok (gets _) _ s (sp_state s) s) by done.
    rewrite (bool_decide_false (sp_state s = SPI_ST_UNINIT)), G1, G2, (bool_decide_true (sp_state s = _)) by done.
    by eexists _, _, s. }
  set (st := after_wait (sp_log s ++ [Lock]) (sp_state s)). destruct (decide (st = SPI_ST_FAULTED)) as [Hst|Hst].
  - destruct (frame_guards f h tx rx Hf) as [G1 G2]. unfold spi1_transfer_frame.
    rewrite (prog_bind_ok (gets _) _ s (sp_state s) s) by done.
    rewrite (bool_decide_false (sp_state s = SPI_ST_UNINIT)), G1, G2, (bool_decide_false (sp_state s = SPI_ST_FAULTED)) by done.
    rewrite (prog_bind_ok (sys_mutex_lock after_wait) _ s tt (Spi st (sp_log s ++ [Lock]))) by done.
    rewrite (prog_bind_ok (gets _) _ _ st (Spi st (sp_log s ++ [Lock]))) by done.
    rewrite (bool_decide_true (st = SPI_ST_FAULTED)) by done.
    eexists _, _, _. split; [reflexivity|]. cbn [sp_log]. unfold at_rest. by rewrite !bus_run_app, Hs.
  - destruct (spi1_transfer_frame_ok answer after_wait f h tx rx s Hf Hu Hx Hst) as (r & rx' & s' & lead & body & E & El & Hq & _).
    exists r, rx', s'. split; [exact E|]. rewrite El. by apply at_rest_frame.
Qed.

#[export] Instance spi_steady : SteadyBus (H := spi_bus answer after_wait) spi.
Proof using.
  refine (Build_SteadyBus spi _ (fun s => at_rest (sp_log s)) _ _ _ _ _).
  - intros a s Hs. exact (takes_read _ a s Hs).
  - intros a v s Ha Hs. destruct (takes_write _ a v Ha s Hs) as ([] & s' & E & H'). by exists s'.
  - intros f s Hf Hs. destruct (frame_steady f s Hf Hs) as (r & rx & s' & E & H'). exists r, rx, s'.
    split; [exact E|]. split; [by eapply frame_kept|done].
  - intros s Hs. exact (takes_recover s Hs).
  - intros n s Hs. destruct (takes_note (false, false) (Sleep n) (false, false) eq_refl s Hs) as ([] & s' & E & H'). by exists s'.
Defined.
End spi.
