(* ===== verification/NetSpec.v ===== *)
(** * The network task over the SPI driver: after a timeout *)
From S2P Require Import Prelude Utils KState Pool Spi SpiSpec W5500 Syscall Net.

Section spec.
Context (answer : Z -> list access -> Z) (after_wait : list access -> spi_state -> spi_state).
#[local] Existing Instance spi_mmio.

(** The log grows, and no byte is put on the bus. *)
Definition no_bytes (s s' : spi) : Prop := exists t, sp_log s' = sp_log s ++ t /\ dr_writes t = [].
Lemma no_bytes_refl s : no_bytes s s.
Proof using. exists []. by rewrite app_nil_r. Qed.
Lemma no_bytes_trans s1 s2 s3 : no_bytes s1 s2 -> no_bytes s2 s3 -> no_bytes s1 s3.
Proof using.
  intros (t & E & W) (u & E' & W'). exists (t ++ u). by rewrite E', E, <- app_assoc, dr_writes_app, W, W'.
Qed.

(** A program that keeps the driver state, and one that ends in [st]. *)
Definition calm {A} (m : prog spi A) : Prop := forall s, exists a s', m s = Ok (a, s') /\
  sp_state s' = sp_state s /\ no_bytes s s'.
Definition settles {A} (m : prog spi A) (v : A) (st : spi_state) : Prop := forall s, exists s', m s = Ok (v, s') /\
  sp_state s' = st /\ no_bytes s s'.

Lemma calm_bind {A C} (m : prog spi A) (k : A -> prog spi C) : calm m -> (forall a, calm (k a)) -> calm (m ≫= k).
Proof using.
  intros Hm Hk s. destruct (Hm s) as (a & s1 & E1 & S1 & N1). destruct (Hk a s1) as (c & s2 & E2 & S2 & N2).
  exists c, s2. rewrite (prog_bind_ok _ _ _ _ _ E1). split_and!; [done|congruence|by eapply no_bytes_trans].
Qed.
Lemma settles_bind {A C} (m : prog spi A) (k : A -> prog spi C) v st :
  calm m -> (forall a, settles (k a) v st) -> settles (m ≫= k) v st.
Proof using.
  intros Hm Hk s. destruct (Hm s) as (a & s1 & E1 & S1 & N1). destruct (Hk a s1) as (s2 & E2 & S2 & N2).
  exists s2. rewrite (prog_bind_ok _ _ _ _ _ E1). split_and!; [done..|by eapply no_bytes_trans].
Qed.
Lemma settles_set {A} (v : A) st : settles (modify (set_sp_state st);; mret v) v st.
Proof using. intros s. eexists. split; [done|]. split; [done|]. exists []. by rewrite app_nil_r. Qed.
Lemma calm_ret {A} (a : A) : calm (mret a).
Proof using. intros s. exists a, s. split_and!; [done..|apply no_bytes_refl]. Qed.
Lemma calm_read a : calm (mm_read (Mmio := spi_mmio answer) a).
Proof using. intros s. eexists _, _. split; [done|]. split; [done|]. by eexists. Qed.
Lemma calm_write a v : a <> SPI1_DR -> calm (mm_write (Mmio := spi_mmio answer) a v).
Proof using.
  intros Ha s. eexists _, _. split; [done|]. split; [done|]. eexists. split; [done|]. cbn.
  by rewrite (proj2 (Z.eqb_neq _ _) Ha).
Qed.

Create HintDb calm.
#[local] Hint Resolve calm_ret calm_read : calm.
#[local] Hint Extern 1 (calm (mm_write _ _)) => apply calm_write; done : calm.
#[local] Hint Extern 2 (calm (_ ≫= _)) => apply calm_bind; [|intros ?] : calm.

Lemma calm_reg_or a v : a <> SPI1_DR -> calm (reg_or (H := spi_mmio answer) a v).
Proof using. intros Ha. apply calm_bind; [apply calm_read|]. intros x. by apply calm_write. Qed.
Lemma calm_reg_and_not a v : a <> SPI1_DR -> calm (reg_and_not (H := spi_mmio answer) a v).
Proof using. intros Ha. apply calm_bind; [apply calm_read|]. intros x. by apply calm_write. Qed.
#[local] Hint Extern 1 (calm (reg_or _ _)) => apply calm_reg_or; done : calm.
#[local] Hint Extern 1 (calm (reg_and_not _ _)) => apply calm_reg_and_not; done : calm.

Lemma calm_setup : calm (spi1_setup answer).
Proof using.
  unfold spi1_setup, setup_pin, SET_GPIO_MODE, SET_GPIO_OTYPER, SET_GPIO_OSPEEDR, SET_GPIO_PUPDR, SET_GPIO_AF,
    spi1_cs_deselect, GPIO_PIN_HIGH.
  eauto 60 with calm.
Qed.

Lemma configure_ok s : sp_state s = SPI_ST_UNINIT ->
  exists s', spi1_configure answer s = Ok (SPI_OK, s') /\ sp_state s' = SPI_ST_CONFIGURED /\ no_bytes s s'.
Proof using.
  intros Hs. unfold spi1_configure. rewrite (prog_bind_ok (gets _) _ s (sp_state s) s) by done.
  rewrite Hs, bool_decide_true by done. cbn [negb].
  apply (settles_bind (spi1_setup answer) _ SPI_OK SPI_ST_CONFIGURED calm_setup). intros []. apply settles_set.
Qed.

(** Recovering makes a faulted driver ready, whatever the hardware does. *)
Lemma recover_ok s : sp_state s = SPI_ST_FAULTED ->
  exists s', spi1_recover answer after_wait s = Ok (SPI_OK, s') /\ sp_state s' = SPI_ST_READY /\ no_bytes s s'.
Proof using.
  intros Hs. unfold spi1_recover. rewrite (prog_bind_ok (gets _) _ s (sp_state s) s) by done.
  rewrite Hs, bool_decide_true by done. cbn [negb].
  set (s1 := Spi (after_wait (sp_log s ++ [Lock]) SPI_ST_FAULTED) (sp_log s ++ [Lock])).
  rewrite (prog_bind_ok (sys_mutex_lock after_wait) _ s tt s1) by (unfold s1; by rewrite <- Hs).
  set (s2 := Spi SPI_ST_UNINIT (sp_log s ++ [Lock])). rewrite (prog_bind_ok (modify _) _ s1 tt s2) by done.
  destruct (configure_ok s2 eq_refl) as (s3 & E3 & S3 & N3). rewrite (prog_bind_ok _ _ _ _ _ E3).
  eexists. split; [done|]. split; [done|].
  apply (no_bytes_trans s s2); [exists [Lock]; split; reflexivity|]. apply (no_bytes_trans s2 s3); [exact N3|].
  eexists. cbn [sp_log set_sp_state]. rewrite <- app_assoc. split; reflexivity.
Qed.

(** ** A faulted driver refuses *)

Abbreviation bus := (spi_bus answer after_wait).

Section faulted.
Context (s : spi) (Hs : sp_state s = SPI_ST_FAULTED).

Lemma transfer_refused a b rd tx rx n :
  (rd = true -> rx <> None) -> (rd = false -> tx <> None) ->
  w5500_transfer (H := bus) a b rd tx rx n s = Ok ((W5500_ERR_FAULT, rx), s).
Proof using Hs.
  intros Hr Ht. unfold w5500_transfer.
  match goal with |- (bus_frame ?f ≫= _) _ = _ =>
    assert (bus_frame (SpiBus := bus) f s = Ok ((SPI_ERR_FAULT, rx), s)) as E end.
  { cbn [bus_frame spi_bus]. unfold spi1_transfer_frame.
    rewrite (prog_bind_ok (gets _) _ s (sp_state s) s) by done. rewrite Hs. cbn [header_len header data_len is_read tx_data rx_data].
    rewrite bool_decide_false by done. cbn [is_none]. rewrite andb_false_r, bool_decide_true by done.
    assert (rd && is_none rx || negb rd && is_none tx = false) as ->; [|by rewrite andb_false_r].
    destruct rd; [destruct rx|destruct tx]; naive_solver. }
  by rewrite (prog_bind_ok _ _ _ _ _ E).
Qed.

Lemma read8_refused a b d : w5500_read8 (H := bus) a b d s = Ok ((W5500_ERR_FAULT, d), s).
Proof using Hs. unfold w5500_read8. by rewrite (prog_bind_ok _ _ _ _ _ (transfer_refused a b true None (Some [d]) 1 ltac:(done) ltac:(done))). Qed.
Lemma write8_refused a b v : w5500_write8 (H := bus) a b v s = Ok (W5500_ERR_FAULT, s).
Proof using Hs. unfold w5500_write8. by rewrite (prog_bind_ok _ _ _ _ _ (transfer_refused a b false (Some [u8 v]) None 1 ltac:(done) ltac:(done))). Qed.
Lemma write16_refused a b v : w5500_write16 (H := bus) a b v s = Ok (W5500_ERR_FAULT, s).
Proof using Hs. unfold w5500_write16. by rewrite (prog_bind_ok _ _ _ _ _ (transfer_refused a b false (Some [u8 (Z.shiftr v 8); Z.land v 0xFF]) None 2 ltac:(done) ltac:(done))). Qed.
Lemma read16_refused a b d : w5500_read16 (H := bus) a b d s = Ok ((W5500_ERR_FAULT, d), s).
Proof using Hs. unfold w5500_read16. by rewrite (prog_bind_ok _ _ _ _ _ (transfer_refused a b true None (Some [0; 0]) 2 ltac:(done) ltac:(done))). Qed.
Lemma read16_stable_refused a b d : w5500_read16_stable (H := bus) a b d s = Ok ((W5500_ERR_FAULT, d), s).
Proof using Hs.
  unfold w5500_read16_stable. set (n := 254%nat). change 255%nat with (S n). cbn [stable_loop].
  by rewrite (prog_bind_ok _ _ _ _ _ (read16_refused a b 0)).
Qed.

Lemma sleep_ok t : exists s1, sys_sleep (SpiBus := bus) t s = Ok (tt, s1) /\ sp_state s1 = SPI_ST_FAULTED /\ no_bytes s s1.
Proof using Hs. eexists. split; [done|]. split; [exact Hs|]. by exists [Sleep t]. Qed.
End faulted.

(** A program that is refused: the status is FAULT. *)
Definition refused {A} (m : prog spi A) (st : A -> w5500_status) : Prop :=
  forall s, sp_state s = SPI_ST_FAULTED -> exists a s', m s = Ok (a, s') /\ st a = W5500_ERR_FAULT /\
    sp_state s' = SPI_ST_FAULTED /\ no_bytes s s'.

Lemma close_refused k : k_number k <= 7 -> refused (w5500_socket_close (H := bus) (Some k)) fst.
Proof using.
  intros Hk s Hs. unfold w5500_socket_close. rewrite Z.gtb_ltb, (proj2 (Z.ltb_ge 7 (k_number k))) by done. cbv zeta.
  rewrite (prog_bind_ok _ _ _ _ _ (write8_refused s Hs _ _ _)).
  destruct (sleep_ok s Hs 1) as (s1 & E1 & S1 & N1).
  match goal with |- context [(retry CLOSE_MAX_TRIES ?v ?body ?again ≫= ?f) s] =>
    assert (retry CLOSE_MAX_TRIES v body again s = Ok (inr W5500_ERR_FAULT, s1)) as Er end.
  { unfold CLOSE_MAX_TRIES. cbn [retry]. rewrite prog_bind_assoc, (prog_bind_ok _ _ _ _ _ E1), prog_bind_assoc.
    by rewrite (prog_bind_ok _ _ _ _ _ (read8_refused s1 S1 _ _ _)). }
  rewrite (prog_bind_ok _ _ _ _ _ Er). by eexists _, s1.
Qed.

Lemma open_refused k : k_number k <= 7 -> refused (w5500_socket_open (H := bus) (Some k)) fst.
Proof using.
  intros Hk s Hs. unfold w5500_socket_open. rewrite Z.gtb_ltb, (proj2 (Z.ltb_ge 7 (k_number k))) by done.
  destruct (close_refused k Hk s Hs) as ([st k'] & s1 & E1 & Est & H1). cbn [fst] in Est. subst st.
  rewrite (prog_bind_ok _ _ _ _ _ E1). cbn [ok_or]. by eexists _, s1.
Qed.

Lemma recv_refused k buf maxlen o : maxlen <> 0 ->
  refused (w5500_socket_recv (H := bus) (Some k) (Some buf) maxlen o) (fun r => r.1.1).
Proof using.
  intros Hm s Hs. unfold w5500_socket_recv. rewrite (proj2 (Z.eqb_neq _ _) Hm). cbv zeta.
  rewrite (prog_bind_ok _ _ _ _ _ (read16_stable_refused s Hs _ _ _)). cbn [ok_or].
  eexists _, s. split_and!; [done..|apply no_bytes_refl].
Qed.

Lemma send_refused k tx len sent ip port mac : len <> 0 -> port <> 0 ->
  refused (w5500_socket_send (H := bus) (Some k) (Some tx) len sent ip port mac) (fun r => r.1.1).
Proof using.
  intros Hl Hp s Hs. unfold w5500_socket_send. rewrite (proj2 (Z.eqb_neq _ _) Hl), (proj2 (Z.eqb_neq _ _) Hp). cbn [orb]. cbv zeta.
  assert (reap_send (H := bus) k s = Ok (inr (W5500_ERR_FAULT, false, k), s)) as E.
  { unfold reap_send, w5500_ir_clear. destruct (k_has_unreaped_send k).
    - by rewrite (prog_bind_ok _ _ _ _ _ (read8_refused s Hs _ _ _)).
    - by rewrite (prog_bind_ok _ _ _ _ _ (write8_refused s Hs _ _ _)). }
  rewrite (prog_bind_ok _ _ _ _ _ E). eexists _, s. split_and!; [done..|apply no_bytes_refl].
Qed.

Lemma link_refused up : refused (w5500_link_up (H := bus) up) fst.
Proof using.
  intros s Hs. unfold w5500_link_up. rewrite (prog_bind_ok _ _ _ _ _ (read8_refused s Hs _ _ _)).
  eexists _, s. split_and!; [done..|apply no_bytes_refl].
Qed.

(** ** A request *)

(** The request gets past the tests of its arguments. *)
Definition well_posed (j : net_job) (sockets : gmap ptr socket) : Prop :=
  match j_op j with
  | NET_OP_LINK => True
  | NET_OP_SOCKET_OPEN | NET_OP_SOCKET_CLOSE =>
      j_socket j <> NULL /\ exists k, sockets !! j_socket j = Some k /\ k_number k <= 7
  | NET_OP_RECV =>
      j_socket j <> NULL /\ is_Some (sockets !! j_socket j) /\ is_Some (j_buffer j) /\ j_buf_len j <> 0
  | NET_OP_SEND =>
      j_socket j <> NULL /\ is_Some (sockets !! j_socket j) /\ is_Some (j_buffer j) /\ j_buf_len j <> 0 /\
      j_dst_port j <> 0
  end.

Lemma socket_at_ok p sockets k s : p <> NULL -> sockets !! p = Some k ->
  socket_at (B := spi) p sockets s = Ok (Some k, s).
Proof using. intros Hp Ek. unfold socket_at. rewrite (proj2 (Z.eqb_neq _ _) Hp). unfold fetch. by rewrite Ek. Qed.

Lemma call_refused j sockets : well_posed j sockets ->
  refused (net_call (H := bus) j sockets) (fun r => r.1.1.1.1).
Proof using.
  unfold well_posed. intros Hj s Hs. unfold net_call. destruct (j_op j).
  - destruct (link_refused 0 s Hs) as ([st up] & s1 & E1 & Est & H1). cbn [fst] in Est. subst st.
    rewrite (prog_bind_ok _ _ _ _ _ E1). by eexists _, s1.
  - destruct Hj as (Hp & k & Ek & Hk). rewrite (prog_bind_ok _ _ _ _ _ (socket_at_ok _ _ _ s Hp Ek)).
    destruct (open_refused k Hk s Hs) as ([st k'] & s1 & E1 & Est & H1). cbn [fst] in Est. subst st.
    rewrite (prog_bind_ok _ _ _ _ _ E1). by eexists _, s1.
  - destruct Hj as (Hp & k & Ek & Hk). rewrite (prog_bind_ok _ _ _ _ _ (socket_at_ok _ _ _ s Hp Ek)).
    destruct (close_refused k Hk s Hs) as ([st k'] & s1 & E1 & Est & H1). cbn [fst] in Est. subst st.
    rewrite (prog_bind_ok _ _ _ _ _ E1). by eexists _, s1.
  - destruct Hj as (Hp & [k Ek] & [buf Eb] & Hl). rewrite (prog_bind_ok _ _ _ _ _ (socket_at_ok _ _ _ s Hp Ek)), Eb.
    destruct (recv_refused k buf (j_buf_len j) (y_out (j_reply j)) Hl s Hs) as ([[st b] o] & s1 & E1 & Est & H1).
    cbn [fst] in Est. subst st. rewrite (prog_bind_ok _ _ _ _ _ E1). by eexists _, s1.
  - destruct Hj as (Hp & [k Ek] & [buf Eb] & Hl & Hpo). rewrite (prog_bind_ok _ _ _ _ _ (socket_at_ok _ _ _ s Hp Ek)), Eb.
    destruct (send_refused k buf (j_buf_len j) (rv_got (y_out (j_reply j))) (j_dst_ip j) (j_dst_port j)
      (if j_use_mac j then Some (j_dst_mac j) else None) Hl Hpo s Hs) as ([[st b] o] & s1 & E1 & Est & H1).
    cbn [fst] in Est. subst st. rewrite (prog_bind_ok _ _ _ _ _ E1). by eexists _, s1.
Qed.

Lemma fault_lasts_core L j sockets s : sp_state s = SPI_ST_FAULTED -> well_posed j sockets ->
  exists e s', net_turn (H := bus) L W5500_OK j sockets s = Ok (e, s') /\
    y_status (e_reply e) = NET_STATUS_FAULT /\ e_init_status e = W5500_OK /\
    sp_state s' = SPI_ST_READY /\ no_bytes s s'.
Proof using.
  intros Hs Hj. unfold net_turn.
  destruct (call_refused j sockets Hj s Hs) as ([[[[st k] r] o] b] & s1 & E1 & Est & S1 & N1). cbn [fst] in Est. subst st.
  rewrite (prog_bind_ok _ _ _ _ _ E1). cbn beta iota.
  destruct (recover_ok s1 S1) as (s2 & E2 & S2 & N2).
  assert (net_settle (H := bus) L W5500_ERR_FAULT k W5500_OK s1 = Ok ((NET_STATUS_FAULT, k, W5500_OK), s2)) as E.
  { unfold net_settle. change (bus_recover (SpiBus := bus)) with (spi1_recover answer after_wait).
    by rewrite (prog_bind_ok _ _ _ _ _ E2). }
  rewrite (prog_bind_ok _ _ _ _ _ E). eexists _, s2. split_and!; [done..|by eapply no_bytes_trans].
Qed.
End spec.
