(* ===== verification/NetProps.v ===== *)
(** * The network: the properties *)
From S2P Require Import Prelude Utils KState Pool Spi SpiSpec W5500 W5500Spec Syscall Net NetSpec NetLive Boot.

(** ** The SPI driver *)

(** C25: For every behaviour of the hardware a frame ends, after a number of
    register accesses bounded by its length; chip select goes low once and
    high once around it and the mutex is released.  Either all bytes went out
    in order and the words that came back are in the buffer, or the first ones
    went out, the status is SPI_ERR_TIMEOUT and the driver is faulted. *)
Theorem spi_frame_contract answer after_wait f h tx rx s :
  frame_ok f h tx rx -> sp_state s <> SPI_ST_UNINIT -> sp_state s <> SPI_ST_FAULTED ->
  let st := after_wait (sp_log s ++ [Lock]) (sp_state s) in
  st <> SPI_ST_FAULTED ->
  exists r rx' s' lead body, spi1_transfer_frame answer after_wait f s = Ok ((r, rx'), s') /\
    sp_log s' = sp_log s ++ Lock :: lead ++ cs_low :: body ++ [cs_high; Unlock] /\
    forallb quiet (lead ++ body) = true /\ dr_writes lead = [] /\
    (length (lead ++ body) <= 2 + 202 * (Z.to_nat (header_len f) + Z.to_nat (data_len f)))%nat /\
    frame_outcome f h tx st body r rx' (sp_state s').
Proof. apply spi1_transfer_frame_ok. Qed.

(** A register that always reads 3: both status bits are set. *)
Definition demo_answer : Z -> list access -> Z := fun _ _ => 3.
Definition demo_wait : list access -> spi_state -> spi_state := fun _ st => st.
Definition demo_frame : spi_frame := Frame (Some [0; 0x39; 0]) 3 None (Some [0; 0]) 2 true.

Lemma spi_frame_contract_witness :
  exists r rx' s' lead body, spi1_transfer_frame demo_answer demo_wait demo_frame (Spi SPI_ST_READY []) = Ok ((r, rx'), s') /\
    sp_log s' = [] ++ Lock :: lead ++ cs_low :: body ++ [cs_high; Unlock] /\
    forallb quiet (lead ++ body) = true /\ dr_writes lead = [] /\
    (length (lead ++ body) <= 2 + 202 * (3 + 2))%nat /\
    frame_outcome demo_frame [0; 0x39; 0] [] SPI_ST_READY body r rx' (sp_state s').
Proof.
  apply (spi_frame_contract demo_answer demo_wait demo_frame [0; 0x39; 0] [] [0; 0] (Spi SPI_ST_READY [])).
  - constructor; cbn; done.
  - done.
  - done.
  - done.
Defined.

(** ** The chip *)

(** C26: A receive that reports W5500_OK took the first datagram off the queue of
    the socket: it returns its payload cut to the buffer, its sender, and
    whether it was cut, or nothing if it found the queue empty; what is left is
    the rest of the queue, and the queues of the other sockets lost nothing.
    Datagrams may arrive at any time, also between the two bytes of a register
    ([new] before the driver looked, [later] after), and any frame may fail;
    then the status is another one and nothing is said. *)
Theorem socket_recv_pops `{W5500Chip B} (s : B) k ds buf maxlen o rx o' s' :
  0 <= k_number k < 8 -> rx_queue s (k_number k) ds -> 0 < maxlen <= Z.of_nat (length buf) ->
  w5500_socket_recv (Some k) (Some buf) maxlen o s = Ok ((W5500_OK, rx, o'), s') ->
  exists new later,
    recv_spec (ds ++ new) buf maxlen o = (W5500_OK, rx, o') /\
    rx_queue s' (k_number k) (tail (ds ++ new) ++ later) /\
    forall m ds', 0 <= m < 8 -> m <> k_number k -> rx_queue s m ds' -> exists more, rx_queue s' m (ds' ++ more).
Proof. apply socket_recv_pops_core. Qed.

(** A register file as a demonstration of a chip. *)
Definition toy : Type := Z -> Z -> Z.
Definition toy_write (b a : Z) (data : bytes) (s : toy) : toy := fun b' a' =>
  if (b' =? b) && (a <=? a') && (a' <? a + Z.of_nat (length data)) then List.nth (Z.to_nat (a' - a)) data 0 else s b' a'.
Definition toy_recv (b : Z) (s : toy) : toy :=
  let size := u16 (256 * (u8 (s b 0x2A) - u8 (s b 0x28)) + (u8 (s b 0x2B) - u8 (s b 0x29))) in
  toy_write b 0x26 [size / 256; size mod 256] (toy_write b 0x01 [0] s).
Definition toy_frame (f : spi_frame) : prog toy (spi_return * option bytes) := fun s =>
  match header f with
  | Some [hi; lo; c] =>
      let b := c / 8 in let a := 256 * hi + lo in
      if is_read f then
        Ok ((SPI_OK, (fun rx => ((fun i => u8 (s b (u16 (a + Z.of_nat i)))) <$> seq 0 (Z.to_nat (data_len f))) ++
                                 drop (Z.to_nat (data_len f)) rx) <$> rx_data f), s)
      else
        let tx := default [] (tx_data f) in
        Ok ((SPI_OK, rx_data f), if (a =? 1) && bool_decide (tx = [0x40]) then toy_recv b s else toy_write b a tx s)
  | _ => Trap Fault
  end.
#[export] Instance toy_bus : SpiBus toy := {|
  bus_mmio := {| mm_read _ := mret 0; mm_write _ _ := mret tt |};
  bus_frame := toy_frame;
  bus_recover := mret SPI_OK;
  sys_sleep _ := mret tt;
|}.

Lemma toy_block n : 0 <= n < 8 -> (8 * (4 * n + 1) + 4) / 8 = 4 * n + 1.
Proof. intros. Z.to_euclidean_division_equations; lia. Qed.
Lemma toy_div b : 0 <= b < 32 -> 8 * b / 8 = b.
Proof. intros. Z.to_euclidean_division_equations; lia. Qed.

#[export] Instance toy_regs : W5500Regs toy.
Proof. refine {| reg s b a := u8 (s b a) |}. intros. apply u8_range. Defined.

(** What the two writes of a receive do to the registers. *)
Lemma toy_write_rd (s : toy) n v w rx s' : 0 <= n < 8 -> is_byte v -> is_byte w ->
  toy_frame (Frame (Some [0; 0x28; 8 * (4 * n + 1) + 4]) 3 (Some [v; w]) None 2 false) s = Ok ((SPI_OK, rx), s') ->
  forall b a, reg s' b a =
    if (b =? block n) && (a =? 0x28) then v else if (b =? block n) && (a =? 0x29) then w else reg s b a.
Proof.
  intros Hn Hv Hw. unfold toy_frame. cbn [header is_read tx_data default from_option id].
  rewrite toy_block by done. change (256 * 0 + 0x28 =? 1) with false. cbn [andb]. change (256 * 0 + 0x28) with 0x28.
  intros [= _ <-] b a. cbn. unfold toy_write, block. cbn [length]. change (Z.of_nat 2) with 2. unfold is_byte in *.
  destruct (Z.eqb_spec b (4 * n + 1)); cbn [andb]; [|done].
  destruct (Z.eqb_spec a 0x28) as [->|]; [cbn; by apply u8_small|].
  destruct (Z.eqb_spec a 0x29) as [->|]; [cbn; by apply u8_small|].
  destruct (Z.leb_spec 0x28 a); cbn [andb]; [|done]. by rewrite (proj2 (Z.ltb_ge _ _)) by lia.
Qed.

Lemma toy_recv_regs (s : toy) n rx s' : 0 <= n < 8 ->
  toy_frame (Frame (Some [0; 0x01; 8 * (4 * n + 1) + 4]) 3 (Some [0x40]) None 1 false) s = Ok ((SPI_OK, rx), s') ->
  let size := u16 (reg16 s (block n) 0x2A - reg16 s (block n) 0x28) in
  forall b a, reg s' b a =
    if (b =? block n) && (a =? 0x01) then 0
    else if (b =? block n) && (a =? 0x26) then size / 256
    else if (b =? block n) && (a =? 0x27) then size mod 256 else reg s b a.
Proof.
  intros Hn. unfold toy_frame. cbn [header is_read tx_data default from_option id].
  rewrite toy_block by done. change (256 * 0 + 1 =? 1) with true. rewrite bool_decide_true by done. cbn [andb].
  intros [= _ <-]. cbv zeta. intros b a. set (size := u16 _). unfold toy_recv.
  assert (u16 (256 * (u8 (s (4 * n + 1) 0x2A) - u8 (s (4 * n + 1) 0x28)) +
    (u8 (s (4 * n + 1) 0x2B) - u8 (s (4 * n + 1) 0x29))) = size) as ->.
  { unfold size, reg16, block. cbn [reg toy_regs]. f_equal. change (0x2A + 1) with 0x2B. change (0x28 + 1) with 0x29. lia. }
  assert (0 <= size < 65536) as Hs by apply u16_range. clearbody size.
  unfold toy_write, block. cbn [length reg toy_regs]. change (Z.of_nat 2) with 2. change (Z.of_nat 1) with 1.
  destruct (Z.eqb_spec b (4 * n + 1)); cbn [andb]; [|done].
  destruct (Z.eqb_spec a 1) as [->|]; [done|].
  destruct (Z.eqb_spec a 0x26) as [->|]; [cbn; apply u8_small; Z.to_euclidean_division_equations; lia|].
  destruct (Z.eqb_spec a 0x27) as [->|]; [cbn; apply u8_small; Z.to_euclidean_division_equations; lia|].
  destruct (Z.leb_spec 0x26 a), (Z.ltb_spec a (0x26 + 2)), (Z.leb_spec 1 a), (Z.ltb_spec a (1 + 1)); cbn [andb]; try done; lia.
Qed.

(** A register file that differs from [s] in registers of block [n] only. *)
Lemma rx_state_other (s s' : toy) n m ds base rd :
  (forall b a, b <> block n -> reg s' b a = reg s b a) -> m <> n -> rx_state s m ds base rd ->
  rx_state s' m ds base rd.
Proof.
  intros Ho Hmn [H1 H2 H3 H4 H5 H6].
  assert (forall a, reg16 s' (block m) a = reg16 s (block m) a) as E
    by (intros a; unfold reg16; rewrite !Ho by (unfold block; lia); done).
  split; rewrite ?E; try done. intros i v Hi. rewrite Ho by (unfold block, rx_block; lia). by apply H6.
Qed.

#[export] Instance toy_chip : W5500Chip toy.
Proof.
  split.
  - intros s hi lo b rx n r rx' s' Hhi Hlo Hb Hn. cbn [bus_frame toy_bus]. unfold toy_frame.
    cbn [header is_read rx_data data_len fmap option_fmap option_map]. rewrite toy_div by done.
    intros [= <- <- <-]. split; [apply arrives_refl|]. intros _. exists (fun _ => s).
    split; [split; intros; apply arrives_refl|done].
  - intros s n v w rx s' Hn Hv Hw E m ds base rd Hm Hs. pose proof (toy_write_rd s n v w rx s' Hn Hv Hw E) as R.
    exists []. rewrite app_nil_r. destruct (Z.eqb_spec m n) as [->|Hmn].
    + destruct Hs as [H1 H2 H3 H4 H5 H6].
      assert (forall a, a <> 0x28 -> a <> 0x29 -> reg s' (block n) a = reg s (block n) a) as Ro.
      { intros a ? ?. by rewrite R, !(proj2 (Z.eqb_neq a _)), !andb_false_r. }
      split; try done.
      * unfold reg16. by rewrite !Ro.
      * unfold reg16. rewrite !R, Z.eqb_refl. done.
      * unfold reg16. by rewrite !Ro.
      * intros i x Hi. rewrite R, (proj2 (Z.eqb_neq (rx_block n) (block n))) by (unfold block, rx_block; lia). by apply H6.
    + apply (rx_state_other s s' n); [|done|done]. intros b a Hb. by rewrite R, (proj2 (Z.eqb_neq b _)).
  - intros s n rx s' Hn E. pose proof (toy_recv_regs s n rx s' Hn E) as R. cbv zeta in R.
    set (size := u16 _) in R. split.
    + intros d ds base rd [H1 H2 H3 H4 H5 H6] Erd. exists []. rewrite app_nil_r.
      apply Forall_cons in H1 as [Hd H1]. rewrite stored_all_cons, length_app in *.
      assert (size = Z.of_nat (length (stored_all ds))) as Es.
      { unfold size. change 0x28 with SOCKET_RX_RD. rewrite H4, H5, Erd. unfold u16.
        rewrite <- Zminus_mod. rewrite <- (Z.mod_small (Z.of_nat (length (stored_all ds))) (2 ^ 16)) by lia.
        f_equal. lia. }
      assert (forall a, a <> 1 -> a <> 0x26 -> a <> 0x27 -> reg s' (block n) a = reg s (block n) a) as Ro.
      { intros a ? ? ?. by rewrite R, !(proj2 (Z.eqb_neq a _)), !andb_false_r. }
      split.
      * done.
      * lia.
      * unfold reg16. rewrite !R, Z.eqb_refl. change (SOCKET_RX_RSR =? 1) with false.
        change (SOCKET_RX_RSR =? 0x26) with true. change (SOCKET_RX_RSR + 1 =? 1) with false.
        change (SOCKET_RX_RSR + 1 =? 0x26) with false. change (SOCKET_RX_RSR + 1 =? 0x27) with true. cbn [andb].
        rewrite <- Es. symmetry. by apply Z.div_mod.
      * unfold reg16. by rewrite !Ro.
      * transitivity (reg16 s (block n) 0x2A); [unfold reg16; by rewrite !Ro|]. rewrite H5, Erd. unfold u16.
        rewrite Zplus_mod_idemp_l. f_equal. lia.
      * intros i x Hi. rewrite R, (proj2 (Z.eqb_neq (rx_block n) (block n))) by (unfold block, rx_block; lia).
        cbn [andb]. rewrite <- (H6 (length (stored d) + i)%nat x).
        -- f_equal. rewrite Erd. unfold u16. rewrite Zplus_mod_idemp_l. f_equal. lia.
        -- by rewrite lookup_app_r, Nat.add_comm, Nat.add_sub by lia.
    + intros m ds base rd Hm Hmn Hs. exists []. rewrite app_nil_r.
      apply (rx_state_other s s' n); [|done|done]. intros b a Hb. by rewrite R, !(proj2 (Z.eqb_neq b _)).
  - intros s t s' E. injection E as <-. apply arrives_refl.
Qed.

(** A datagram of three bytes waits in socket 0, around the end of the
    address space. *)
Definition demo_datagram : datagram := Datagram [10; 0; 0; 9] 68 [7; 8; 9].
Definition demo_toy : toy := fun b a =>
  if b =? 3 then List.nth (Z.to_nat (u16 (a - 0xFFFE))) (stored demo_datagram) 0
  else if b =? 1 then
    (if a =? 0x27 then 11 else if a =? 0x28 then 0xFF else if a =? 0x29 then 0xFE else if a =? 0x2B then 9 else 0)
  else 0.
Definition demo_socket : socket := MkSocket 0 67 UDP SOCKET_STATUS_OPEN false.
Definition demo_out : recv_out := RecvOut 0 [0; 0; 0; 0] 0 false.

Lemma demo_toy_queue : rx_queue demo_toy 0 [demo_datagram].
Proof.
  exists 0xFFFE. split; [|done..|].
  - constructor; [by constructor|done].
  - intros i v Hi. do 11 (destruct i as [|i]; [cbn in Hi; injection Hi as <-; by vm_compute|]). done.
Qed.

Lemma socket_recv_pops_witness :
  exists s', w5500_socket_recv (Some demo_socket) (Some [0; 0]) 2 demo_out demo_toy =
      Ok ((W5500_OK, Some [7; 8], RecvOut 2 [10; 0; 0; 9] 68 true), s') /\
  exists new later,
    recv_spec ([demo_datagram] ++ new) [0; 0] 2 demo_out =
      (W5500_OK, Some [7; 8], RecvOut 2 [10; 0; 0; 9] 68 true) /\
    rx_queue s' 0 (tail ([demo_datagram] ++ new) ++ later) /\
    forall m ds', 0 <= m < 8 -> m <> 0 -> rx_queue demo_toy m ds' -> exists more, rx_queue s' m (ds' ++ more).
Proof.
  assert (exists s', w5500_socket_recv (Some demo_socket) (Some [0; 0]) 2 demo_out demo_toy =
      Ok ((W5500_OK, Some [7; 8], RecvOut 2 [10; 0; 0; 9] 68 true), s')) as [s' E].
  { eexists. vm_compute. reflexivity. }
  exists s'. split; [exact E|].
  apply (socket_recv_pops demo_toy demo_socket [demo_datagram] [0; 0] 2 demo_out _ _ s');
    [done|exact demo_toy_queue|done|exact E].
Defined.

(** ** The network task *)

(** A bus timeout that is noticed by the next request costs that request:
    when the network task, with the chip up, takes a request while the SPI
    driver is faulted, and the request passes the tests of its arguments, it
    ends with NET_STATUS_FAULT without a byte on the bus, whatever the hardware
    does; the driver is ready again then and the chip is not taken for dead.
    (A timeout during the bring-up, or inside the retries of a close or an
    open, is another case.) *)
Theorem fault_lasts_one_request answer after_wait L j sockets s :
  sp_state s = SPI_ST_FAULTED -> well_posed j sockets ->
  exists e s', net_turn (H := spi_bus answer after_wait) L W5500_OK j sockets s = Ok (e, s') /\
    y_status (e_reply e) = NET_STATUS_FAULT /\ e_init_status e = W5500_OK /\
    sp_state s' = SPI_ST_READY /\ no_bytes s s'.
Proof. apply fault_lasts_core. Qed.

Definition demo_job : net_job :=
  NetJob NET_OP_RECV 100 0 (NetReply demo_out NET_STATUS_OK) (Some [0; 0]) 2 [0; 0; 0; 0] 0 (repeat 0 6) false.
Definition demo_sockets : gmap ptr socket := {[ 100 := demo_socket ]}.

Lemma fault_lasts_one_request_witness :
  exists e s', net_turn (H := spi_bus demo_answer demo_wait) demo_layout W5500_OK demo_job demo_sockets (Spi SPI_ST_FAULTED [])
      = Ok (e, s') /\
    y_status (e_reply e) = NET_STATUS_FAULT /\ e_init_status e = W5500_OK /\
    sp_state s' = SPI_ST_READY /\ no_bytes (Spi SPI_ST_FAULTED []) s'.
Proof.
  apply (fault_lasts_one_request demo_answer demo_wait demo_layout demo_job demo_sockets (Spi SPI_ST_FAULTED [])); [done|].
  split; [done|]. split; [by eexists|]. split; [by eexists|done].
Defined.



