(* ===== verification/Printers.v ===== *)
(** * The diagnostic printers ([uprintf.c])

    A printer is the list of its calls of [uprintf], each a format and its
    arguments.  The lines are well typed and short enough for the buffer of
    [uprintf], so a task prints all of a message. *)
From Stdlib Require Import Ascii String.
From S2P Require Import Prelude Utils Kprintf KprintfSpec FormatTypes Dhcp Lease Net.

Definition line : Type := bytes * list va_arg.
Definition crlf : bytes := [13; 10].
Definition text (s : string) : line := (lit s, []).
Definition text_ln (s : string) : line := (lit s ++ crlf, []).

(** ** The code *)

Definition print_net_error (status : net_status) : list line :=
  text "![net] NET ERROR: " ::
  match status with
  | NET_STATUS_RETRY => [text_ln "RETRY"]
  | NET_STATUS_BAD_REQUEST => [text_ln "BAD REQUEST"]
  | NET_STATUS_FAULT => [text_ln "FAULT"]
  | NET_STATUS_DEAD => [text_ln "DEAD"]
  | NET_STATUS_UNREACHABLE => [text_ln "UNREACHABLE"]
  | _ => []
  end.

Definition print_dhcp_error (status : dhcp_status) : list line :=
  text "![dhcp] ERROR: " ::
  match status with
  | DHCP_ERR_MALFORMED => [text_ln "MALFORMED"]
  | DHCP_ERR_NOT_DHCP => [text_ln "NOT DHCP"]
  | DHCP_ERR_SHORT => [text_ln "SHORT"]
  | DHCP_ERR_ARG => [text_ln "ARG"]
  | _ => []
  end.

Definition DHCP_MSG_NAK : Z := 6.
Definition DHCP_MSG_INFORM : Z := 8.

Definition dhcp_print_msg_type (msg_type : Z) : list line :=
  if msg_type =? DHCP_MSG_DISCOVER then [text "DISCOVER"]
  else if msg_type =? DHCP_MSG_OFFER then [text "OFFER"]
  else if msg_type =? DHCP_MSG_REQUEST then [text "REQUEST"]
  else if msg_type =? DHCP_MSG_ACK then [text "ACK"]
  else if msg_type =? DHCP_MSG_NAK then [text "NAK"]
  else if msg_type =? DHCP_MSG_DECLINE then [text "DECLINE"]
  else if msg_type =? DHCP_MSG_RELEASE then [text "RELEASE"]
  else if msg_type =? DHCP_MSG_INFORM then [text "INFORM"]
  else [].

(** The first [n] bytes of an array as arguments. *)
Definition byte_args (a : bytes) (n : nat) : list va_arg := (fun i => VInt (byte a i)) <$> seq 0 n.
Definition addr_line (label : string) (a : bytes) : line :=
  (lit label ++ lit ": %d.%d.%d.%d" ++ crlf, byte_args a 4).

(** The tags whose bit is set, in the order of the two loops. *)
Definition requested_tags (bitmap : bytes) : list Z :=
  flat_map (fun i => flat_map (fun j =>
    if Z.land (byte bitmap i) (Z.shiftl 1 (Z.of_nat j)) =? 0 then []
    else [Z.of_nat i * 8 + Z.of_nat j]) (seq 0 8)) (seq 0 32).

Definition dhcp_msg_print (m : dhcp_msg) : list line :=
  let o := m_options m in
  [ (lit "OP: %d HTYPE: %d HLEN: %d HOPS: %d" ++ crlf,
      [VInt (m_op m); VInt (m_htype m); VInt (m_hlen m); VInt (m_hops m)]);
    (lit "XID: %x%x%x%x" ++ crlf, byte_args (m_xid m) 4);
    (lit "SECS: %d" ++ [9] ++ lit "FLAGS: %x" ++ crlf, [VInt (m_secs m); VInt (m_flags m)]);
    addr_line "CIADDR" (m_ciaddr m);
    addr_line "YIADDR" (m_yiaddr m);
    addr_line "SIADDR" (m_siaddr m);
    addr_line "GIADDR" (m_giaddr m);
    (lit "CHADDR: %02x:%02x:%02x:%02x:%02x:%02x" ++ crlf, byte_args (m_chaddr m) 6) ] ++
  (if o_has_requested_ip o then [addr_line "OPT[requested ip]" (o_requested_ip o)] else []) ++
  (if o_has_message_type o
   then text "OPT[message type]: " :: dhcp_print_msg_type (o_message_type o) ++ [text_ln ""] else []) ++
  (if o_has_server_id o then [addr_line "OPT[server id]" (o_server_id o)] else []) ++
  [text "OPT[requested]: ["] ++
  ((fun tag => (lit "%d, ", [VInt tag])) <$> requested_tags (o_requested_bitmap o)) ++
  [text_ln "]"] ++
  (if o_has_client_id o
   then [(lit "OPT[client_id]: %x%x%x%x" ++ crlf, byte_args (o_client_id o) 4)] else []).

(** ** What is written *)

(** The line is checked and its text fits the buffer of [uprintf]. *)
Definition line_fits (l : line) : bool :=
  well_typed l.1 l.2 && no_strings l.1 && (fmt_bound l.1 <? Z.to_nat UPRINTF_BUF_SIZE)%nat.

Lemma print_net_error_fits status : forallb line_fits (print_net_error status) = true.
Proof. by destruct status; vm_compute. Qed.
Lemma print_dhcp_error_fits status : forallb line_fits (print_dhcp_error status) = true.
Proof. by destruct status; vm_compute. Qed.
Lemma dhcp_print_msg_type_fits t : forallb line_fits (dhcp_print_msg_type t) = true.
Proof. unfold dhcp_print_msg_type. repeat (destruct (t =? _); [by vm_compute|]). done. Qed.

(** Whether a line fits depends on its format and on the kinds of its
    arguments only. *)
Lemma line_fits_types fmt a b :
  type_of <$> a = type_of <$> b -> line_fits (fmt, a) = line_fits (fmt, b).
Proof.
  intros E. unfold line_fits. cbn [fst snd]. do 2 f_equal. by apply well_typed_types.
Qed.
Lemma byte_args_types a n : type_of <$> byte_args a n = type_of <$> byte_args [] n.
Proof. unfold byte_args. rewrite <- !list_fmap_compose. by apply list_fmap_ext. Qed.
Lemma int_line_fits fmt a n : line_fits (fmt, byte_args a n) = line_fits (fmt, byte_args [] n).
Proof. apply line_fits_types, byte_args_types. Qed.

Lemma dhcp_msg_print_fits m : forallb line_fits (dhcp_msg_print m) = true.
Proof.
  unfold dhcp_msg_print. rewrite !forallb_app, !andb_true_iff.
  repeat match goal with |- _ /\ _ => split end.
  - cbn [forallb]. unfold addr_line. rewrite !int_line_fits.
    rewrite (line_fits_types _ [VInt (m_op m); _; _; _] (byte_args [] 4)) by done.
    rewrite (line_fits_types _ [VInt (m_secs m); _] (byte_args [] 2)) by done. by vm_compute.
  - destruct (o_has_requested_ip _); [|done]. cbn [forallb]. unfold addr_line. rewrite int_line_fits.
    by vm_compute.
  - destruct (o_has_message_type _); [|done]. cbn [forallb]. rewrite forallb_app, dhcp_print_msg_type_fits.
    by vm_compute.
  - destruct (o_has_server_id _); [|done]. cbn [forallb]. unfold addr_line. rewrite int_line_fits.
    by vm_compute.
  - by vm_compute.
  - apply forallb_forall. intros l Hl. apply list_elem_of_In, list_elem_of_fmap in Hl as (tag & -> & _).
    rewrite (line_fits_types _ [VInt tag] (byte_args [] 1)) by done. by vm_compute.
  - by vm_compute.
  - destruct (o_has_client_id _); [|done]. cbn [forallb]. rewrite int_line_fits. by vm_compute.
Qed.

(** A line that fits is written as a whole. *)
Lemma line_fits_uprintf l buf :
  line_fits l = true -> Z.of_nat (length buf) = UPRINTF_BUF_SIZE ->
  exists w, render l.1 l.2 = Ok w /\ uprintf buf l.1 l.2 = Ok (Z.of_nat (length w), u8 <$> w).
Proof.
  unfold line_fits, UPRINTF_BUF_SIZE. intros H Hbuf. apply andb_prop in H as [H Hb].
  apply andb_prop in H as [Ht Hs]. apply Nat.ltb_lt in Hb.
  destruct (bounded_text _ _ Ht Hs) as (w & Hw & Hl). exists w. split; [done|].
  destruct (clamped_output 128 buf _ _ w ltac:(lia) Hbuf Hw) as [E1 E2]; [lia|].
  unfold uprintf, UPRINTF_BUF_SIZE. rewrite E1. cbn [mbind result_bind]. rewrite E2.
  rewrite take_ge; [done|]. rewrite length_fmap. lia.
Qed.

(** The tags are those of the set bits. *)
Lemma requested_tags_spec bitmap tag :
  0 <= tag < 256 ->
  tag ∈ requested_tags bitmap <-> Z.testbit (byte bitmap (Z.to_nat (tag / 8))) (tag mod 8) = true.
Proof.
  intros Ht.
  assert (forall x j, 0 <= j -> (Z.land x (Z.shiftl 1 j) =? 0) = negb (Z.testbit x j)) as Hbit.
  { intros x j Hj. rewrite Z.shiftl_1_l. destruct (Z.testbit x j) eqn:E; cbn.
    - apply Z.eqb_neq. intros E0. apply (f_equal (fun z => Z.testbit z j)) in E0.
      rewrite Z.land_spec, E, Z.pow2_bits_true, Z.bits_0 in E0 by done. done.
    - apply Z.eqb_eq, Z.bits_inj'. intros n Hn. rewrite Z.land_spec, Z.bits_0.
      destruct (decide (n = j)) as [->|]; [by rewrite E|].
      by rewrite Z.pow2_bits_false, andb_false_r by lia. }
  unfold requested_tags. rewrite list_elem_of_In, in_flat_map. split.
  - intros (i & Hi & H). apply in_flat_map in H as (j & Hj & H). apply in_seq in Hi, Hj.
    rewrite Hbit in H by lia. destruct (Z.testbit _ (Z.of_nat j)) eqn:E; cbn [negb] in H; [|done].
    destruct H as [<-|[]]. rewrite Z.div_add_l, (Z.div_small (Z.of_nat j)), Z.add_0_r, Nat2Z.id by lia.
    by rewrite (Z.add_comm (_ * 8)), Z.mod_add, Z.mod_small by lia.
  - intros E. pose proof (Z.div_mod tag 8 ltac:(lia)). pose proof (Z.mod_pos_bound tag 8 ltac:(lia)).
    assert (0 <= tag / 8 < 32) by (split; [apply Z.div_pos; lia|apply Z.div_lt_upper_bound; lia]).
    exists (Z.to_nat (tag / 8)). split; [apply in_seq; lia|]. apply in_flat_map.
    exists (Z.to_nat (tag mod 8)). split; [apply in_seq; lia|]. rewrite Hbit by lia.
    rewrite Z2Nat.id, E by lia. left. lia.
Qed.
