(* ===== verification/UserCalls.v ===== *)
(** * The user side of the system calls ([syscall.c])

    Each function puts its arguments into registers and executes [svc]; the
    handler finds them in the exception frame.  The value in r0 comes back. *)
From S2P Require Import Prelude Utils KState Queue Abs Scheduler Semaphore Invariant Mutex Pool Tcb.
From S2P Require Import Preserve Inherit Kernel Spec Guarantees Heap Console Syscall.

(** The number the enumeration gives to a call. *)
Definition number_of (n : syscall_number) : Z :=
  match n with
  | SYS_YIELD => 0 | SYS_UPTIME => 1 | SYS_MALLOC => 2 | SYS_CALLOC => 3 | SYS_FREE => 4
  | SYS_SEM_CREATE => 5 | SYS_SEM_WAIT => 6 | SYS_SEM_POST => 7 | SYS_SEM_CLOSE => 8
  | SYS_MUTEX_CREATE => 9 | SYS_MUTEX_LOCK => 10 | SYS_MUTEX_UNLOCK => 11
  | SYS_TASK_CREATE => 12 | SYS_TASK_EXIT => 13 | SYS_TASK_SET_NAME => 14 | SYS_SLEEP => 15
  | SYS_PUTC => 16 | SYS_GETC => 17 | SYS_CONSOLE_WRITE => 18
  | SYS_SOCKET_GET => 19 | SYS_SOCKET_OPEN => 20 | SYS_SOCKET_CLOSE => 21
  | SYS_NET_LINK => 22 | SYS_NET_RECV => 23 | SYS_NET_SEND => 24
  end.

Lemma number_of_call n : syscall_of (number_of n) = Some n.
Proof. by destruct n. Qed.

Section user.
Context {D : Type} (L : layout) (task_wrapper heap_start heap_end : ptr).
Abbreviation SM := (prog (sys D)).

(** The registers r0 to r3 and r12 are words. *)
Definition syscall (n : syscall_number) (a0 a1 a2 a3 : Z) : SM Z :=
  svc_dispatch L task_wrapper heap_start heap_end (u32 a0) (u32 a1) (u32 a2) (u32 a3) (number_of n).
(** A call whose result is not used. *)
Definition syscall_ (n : syscall_number) (a0 a1 a2 a3 : Z) : SM unit := _r ← syscall n a0 a1 a2 a3; mret tt.

Definition sys_yield : SM unit := syscall_ SYS_YIELD 0 0 0 0.
Definition sys_uptime : SM Z := syscall SYS_UPTIME 0 0 0 0.
Definition sys_malloc (size : Z) : SM ptr := syscall SYS_MALLOC size 0 0 0.
Definition sys_calloc (count size : Z) : SM ptr := syscall SYS_CALLOC count size 0 0.
Definition sys_free (p : ptr) : SM unit := syscall_ SYS_FREE p 0 0 0.
Definition sys_task_create (priority func args : Z) : SM ptr :=
  syscall SYS_TASK_CREATE (u8 priority) func args 0.
Definition sys_sem_create (count : Z) : SM ptr := syscall SYS_SEM_CREATE count 0 0 0.
Definition sys_sem_wait (sem : ptr) : SM unit := syscall_ SYS_SEM_WAIT sem 0 0 0.
Definition sys_sem_post (sem : ptr) : SM unit := syscall_ SYS_SEM_POST sem 0 0 0.
Definition sys_mutex_create : SM ptr := syscall SYS_MUTEX_CREATE 0 0 0 0.
Definition sys_mutex_lock (m : ptr) : SM unit := syscall_ SYS_MUTEX_LOCK m 0 0 0.
Definition sys_mutex_unlock (m : ptr) : SM unit := syscall_ SYS_MUTEX_UNLOCK m 0 0 0.
Definition sys_task_exit : SM unit := syscall_ SYS_TASK_EXIT 0 0 0 0.
Definition sys_task_set_name (task name : ptr) : SM unit := syscall_ SYS_TASK_SET_NAME task name 0 0.
Definition sys_sleep (ticks : Z) : SM unit := syscall_ SYS_SLEEP ticks 0 0 0.
Definition sys_putc (c : Z) : SM unit := syscall_ SYS_PUTC (u8 c) 0 0 0.
Definition sys_getc (c : ptr) : SM bool := r ← syscall SYS_GETC c 0 0 0; mret (negb (r =? 0)).
Definition sys_console_write (buf : ptr) (len : Z) : SM Z :=
  r ← syscall SYS_CONSOLE_WRITE buf len 0 0; mret (s32 r).
Definition sys_net_link (up reply_slot : ptr) : SM unit := syscall_ SYS_NET_LINK up reply_slot 0 0.
Definition sys_socket_get (n : Z) : SM ptr := syscall SYS_SOCKET_GET (u8 n) 0 0 0.
Definition sys_socket_open (socket reply_slot : ptr) : SM ptr :=
  syscall SYS_SOCKET_OPEN socket reply_slot 0 0.
Definition sys_socket_close (socket reply_slot : ptr) : SM unit :=
  syscall_ SYS_SOCKET_CLOSE socket reply_slot 0 0.
Definition sys_net_recv (socket buffer : ptr) (buf_len : Z) (reply_slot : ptr) : SM unit :=
  syscall_ SYS_NET_RECV socket buffer (u16 buf_len) reply_slot.
Definition sys_net_send (socket args reply_slot : ptr) : SM unit :=
  syscall_ SYS_NET_SEND socket args reply_slot 0.

(** ** Network calls *)

(** A network call of a task. *)
Inductive net_request_call :=
| CallLink (up reply : ptr)
| CallOpen (socket reply : ptr)
| CallClose (socket reply : ptr)
| CallRecv (socket buffer : ptr) (buf_len : Z) (reply : ptr)
| CallSend (socket args reply : ptr).

Definition make_call (c : net_request_call) : SM unit :=
  match c with
  | CallLink up reply => sys_net_link up reply
  | CallOpen socket reply => _s ← sys_socket_open socket reply; mret tt
  | CallClose socket reply => sys_socket_close socket reply
  | CallRecv socket buffer len reply => sys_net_recv socket buffer len reply
  | CallSend socket args reply => sys_net_send socket args reply
  end.

(** The request that the call stands for. *)
Definition call_request (c : net_request_call) (y : sys D) : net_request :=
  let me := current_task (y_k y) in
  let none := [0; 0; 0; 0] in
  let no_mac := [0; 0; 0; 0; 0; 0] in
  match c with
  | CallLink up reply => NetRequest NET_OP_LINK me NULL up reply NULL 0 none 0 no_mac false
  | CallOpen socket reply => NetRequest NET_OP_SOCKET_OPEN me socket NULL reply NULL 0 none 0 no_mac false
  | CallClose socket reply => NetRequest NET_OP_SOCKET_CLOSE me socket NULL reply NULL 0 none 0 no_mac false
  | CallRecv socket buffer len reply =>
      NetRequest NET_OP_RECV me socket NULL reply buffer len none 0 no_mac false
  | CallSend socket args reply =>
      NetRequest NET_OP_SEND me socket NULL reply (ram_u32 args y) (ram_u16 (args + 4) y)
        (ram_bytes (args + 6) 4 y) (ram_u16 (args + 10) y) (ram_bytes (args + 13) 6 y)
        (negb (y_ram y (args + 12) =? 0))
  end.

(** The arguments have the types of the C functions, and the socket passes
    its check. *)
Definition is_ptr (p : Z) : Prop := 0 <= p < 2 ^ 32.
Definition call_ok (c : net_request_call) : Prop :=
  match c with
  | CallLink up reply => is_ptr up /\ is_ptr reply
  | CallOpen socket reply | CallClose socket reply =>
      is_ptr socket /\ is_ptr reply /\ validate_socket L socket = true
  | CallRecv socket buffer len reply =>
      is_ptr socket /\ is_ptr buffer /\ is_ptr reply /\ 0 <= len < 65536 /\ validate_socket L socket = true
  | CallSend socket args reply =>
      is_ptr socket /\ is_ptr args /\ is_ptr reply /\ validate_socket L socket = true
  end.

(** A call puts its request into the mailbox, then switches when it has to. *)
Lemma make_call_submits c y w y1 :
  call_ok c -> submit (call_request c y) y = Ok ((0, w), y1) ->
  make_call c y = (whenb w (in_kernel request_context_switch)) y1.
Proof using.
  intros Hc E.
  assert (forall n a0 a1 a2 a3, u32 a0 = a0 -> u32 a1 = a1 -> u32 a2 = a2 -> u32 a3 = a3 ->
    svc_case L task_wrapper heap_start heap_end n a0 a1 a2 a3 y = submit (call_request c y) y ->
    syscall_ n a0 a1 a2 a3 y = (whenb w (in_kernel request_context_switch)) y1) as H.
  { intros n a0 a1 a2 a3 E0 E1 E2 E3 Ec. unfold syscall_, syscall, svc_dispatch.
    rewrite number_of_call, E0, E1, E2, E3, prog_bind_assoc.
    rewrite (prog_bind_ok _ _ y (0, w) y1) by (by rewrite Ec).
    cbn beta iota. destruct w; cbn [whenb]; [|done].
    unfold mbind, prog_bind, in_kernel. by destruct (request_context_switch (y_k y1)) as [[[] ?]|]. }
  destruct c; cbn [call_ok make_call] in *; unfold is_ptr in Hc.
  - destruct Hc. by apply H; [(apply u32_small; lia)..|].
  - destruct Hc as (? & ? & Hv). change (_s ← sys_socket_open socket reply; mret tt) with
      (syscall_ SYS_SOCKET_OPEN socket reply 0 0). apply H; [(apply u32_small; lia)..|].
    unfold svc_case, mbind, prog_bind, gets. by rewrite Hv.
  - destruct Hc as (? & ? & Hv). apply H; [(apply u32_small; lia)..|].
    unfold svc_case, mbind, prog_bind, gets. by rewrite Hv.
  - destruct Hc as (? & ? & ? & ? & Hv). unfold sys_net_recv. rewrite u16_small by lia.
    apply H; [(apply u32_small; lia)..|].
    unfold svc_case, mbind, prog_bind, gets. rewrite Hv. cbn [negb]. by rewrite u16_small by lia.
  - destruct Hc as (? & ? & ? & Hv). apply H; [(apply u32_small; lia)..|].
    unfold svc_case, mbind, prog_bind, gets. by rewrite Hv.
Qed.
End user.
