(* ===== verification/Mailbox.v ===== *)
(** * The mailbox of the network task ([net.c], [syscall.c])

    A client leaves its request in the one static slot, posts a semaphore and
    waits for another; the network task waits for the first, copies the slot,
    and posts the second when the reply is written. *)
From S2P Require Import Prelude Utils KState Queue Abs Scheduler Sleep Semaphore Invariant Mutex Pool Tcb.
From S2P Require Import Preserve Inherit Kernel Spec Boot Guarantees Frame Heap Console Syscall UserCalls.

#[export] Instance net_op_eq : EqDecision net_op.
Proof. solve_decision. Defined.
#[export] Instance net_request_eq : EqDecision net_request.
Proof. solve_decision. Defined.

(** ** Reading queues *)

Lemma lseg_unique T p l l' : lseg T p l NULL -> lseg T p l' NULL -> l = l'.
Proof.
  revert p l'. induction l as [|x l IH]; intros p [|y l'] Hl Hl'; cbn in *; try done.
  - subst p. by destruct Hl' as (<- & ? & _).
  - subst p. by destruct Hl as (<- & ? & _).
  - destruct Hl as (-> & _ & t & Ht & Hl), Hl' as (<- & _ & t' & Ht' & Hl'). simplify_eq.
    f_equal. by eapply IH.
Qed.

(** What a queue holds is the list of the abstract state. *)
Lemma holds_view k a r l : Abs k a -> holds k r l -> aq a r = l.
Proof.
  intros Hs Hl. pose proof (Abs_holds _ _ r Hs) as Hl'. unfold holds in *.
  destruct (load_list r k) as [q|]; [|congruence].
  destruct Hl as [Hl _], Hl' as [Hl' _]. by eapply lseg_unique.
Qed.

(** ** What a post and a wait do to the tasks *)

(** What a task is doing. *)
Definition stat (t : tcb) : task_state * ptr * wait_type := (t_state t, t_waiting_on t, t_waiting_on_type t).
Definition stat_of (k : kstate) (x : ptr) : option (task_state * ptr * wait_type) := stat <$> tasks k !! x.
(** State and count of a semaphore. *)
Definition units_of (k : kstate) (p : ptr) : option (sem_state * Z) :=
  (fun v => (s_state v, s_count v)) <$> sems k !! p.

Section steps.
Context (L : layout) (tw : ptr) (HL : layout_ok L).

Lemma view_stat s a x : Abs s a -> stat_of s x = stat <$> tasks (av a) !! x.
Proof using. intros Hs. unfold stat_of. rewrite (view_task _ _ Hs). by destruct (tasks s !! x). Qed.
Lemma view_units s a p :
  Abs s a -> units_of s p = (fun v => (s_state v, s_count v)) <$> sems (av a) !! p.
Proof using. intros Hs. unfold units_of. rewrite (view_sem _ _ Hs). by destruct (sems s !! p). Qed.

(** The state of a task that runs, in a well-formed kernel. *)
Definition is_current_running (k : kstate) : Prop :=
  exists t, tasks k !! current_task k = Some t /\ t_state t = TASK_RUNNING.

Lemma view_is_running s a : Abs s a -> is_current_running s -> running a.
Proof using.
  intros Hs (t & Ht & Hst). exists (strip t). rewrite (view_current _ _ Hs), (view_task _ _ Hs), Ht. done.
Qed.

Lemma units_known s a p st n : Abs s a -> units_of s p = Some (st, n) ->
  exists v, sems (av a) !! p = Some v /\ s_state v = st /\ s_count v = n.
Proof using.
  intros Hs. rewrite (view_units s a p Hs). destruct (sems (av a) !! p) as [v|]; [|done].
  cbn. intros [= <- <-]. by exists v.
Qed.

(** A post wakes the task that waits longest, or adds a unit. *)
Lemma post_step k p n l :
  kernel_ok k -> units_of k p = Some (SEM_OPEN, n) -> holds k (QSem p) l ->
  exists k', semaphore_post p k = Ok (SEM_OK_YIELD, k') /\ kernel_ok k' /\ current_task k' = current_task k /\
    (forall x, stat_of k' x = if decide (List.head l = Some x) then Some (TASK_READY, NULL, NONE) else stat_of k x) /\
    (forall q, units_of k' q =
      if decide (l = [] /\ q = p) then Some (SEM_OPEN, u32 (n + 1)) else units_of k q) /\
    (forall q l', q <> p -> holds k (QSem q) l' -> holds k' (QSem q) l').
Proof using HL tw.
  intros (a & Hs & Ha & Hc) Hu Hl. destruct (units_known _ _ _ _ _ Hs Hu) as (v & Hv & Hst & Hn).
  pose proof (holds_view _ _ _ _ Hs Hl) as El.
  assert (may L (EPost p) k) as Hm.
  { intros b Hb _. cbn. destruct (units_known _ _ _ _ _ Hb Hu) as (w & ? & _). by exists w. }
  destruct (exec_ok L tw k _ HL (ex_intro _ a (conj Hs (conj Ha Hc))) Hm) as (k' & E & Hk').
  cbn [exec] in E. apply prog_bind_inv in E as (r & k1 & E & E1). injection E1 as <-.
  destruct (post_implements p k a Hs Ha Hc (ex_intro _ v Hv : known_sem a p)) as (k2 & E2 & Hs2).
  rewrite E in E2. injection E2 as -> <-. exists k1.
  pose proof (keeps_sem_post p _ _ _ E) as Hcur.
  unfold post_spec in *. rewrite Hv, decide_True, El in * by done. destruct l as [|x l]; cbn [fst snd] in *.
  - split_and!; [done..| | |].
    3: { intros q l' _ Hl'. rewrite <- (holds_view _ _ _ _ Hs Hl'). exact (Abs_holds _ _ (QSem q) Hs2). }
    + intros x. rewrite (view_stat _ _ _ Hs), (view_stat _ _ _ Hs2). by rewrite decide_False.
    + intros q. rewrite (view_units _ _ _ Hs), (view_units _ _ _ Hs2). cbn. rewrite lookup_alter.
      destruct (decide (p = q)) as [<-|Hq].
      * rewrite decide_True, Hv by done. cbn. by rewrite Hst, Hn.
      * rewrite decide_False by naive_solver. done.
  - split_and!; [done..| | |].
    3: { intros q l' Hq Hl'. rewrite <- (holds_view _ _ _ _ Hs Hl').
         pose proof (Abs_holds _ _ (QSem q) Hs2) as H2. cbn in H2.
         by rewrite !fn_lookup_insert_ne in H2 by congruence. }
    + intros y. rewrite (view_stat _ _ _ Hs), (view_stat _ _ _ Hs2). cbn.
      destruct (Abs_queued k a (QSem p) x Hs) as [_ [t Ht]]; [rewrite El; by left|].
      destruct (decide (x = y)) as [<-|Hy].
      * rewrite decide_True by done. by rewrite !lookup_alter_eq, Ht.
      * rewrite decide_False by congruence. by rewrite !lookup_alter_ne by done.
    + intros q. rewrite (view_units _ _ _ Hs), (view_units _ _ _ Hs2). cbn.
      rewrite decide_False by naive_solver. rewrite lookup_alter.
      destruct (decide (p = q)) as [<-|]; [|done]. by rewrite Hv.
Qed.

(** A wait without a unit blocks the caller behind the tasks that wait. *)
Lemma wait_step k p l :
  kernel_ok k -> is_current_running k -> units_of k p = Some (SEM_OPEN, 0) -> holds k (QSem p) l ->
  exists k', semaphore_wait p k = Ok (SEM_OK_YIELD, k') /\ kernel_ok k' /\ current_task k' = current_task k /\
    (forall x, stat_of k' x = if decide (x = current_task k) then Some (TASK_BLOCKED, p, SEM) else stat_of k x) /\
    (forall q, units_of k' q = units_of k q) /\ holds k' (QSem p) (l ++ [current_task k]).
Proof using HL tw.
  intros (a & Hs & Ha & Hc) Hr Hu Hl. destruct (units_known _ _ _ _ _ Hs Hu) as (v & Hv & Hst & Hn).
  pose proof (view_is_running _ _ Hs Hr) as Hra.
  pose proof (holds_view _ _ _ _ Hs Hl) as El.
  assert (may L (EWait p) k) as Hm.
  { intros b Hb _. cbn. split; [by eapply view_is_running|].
    destruct (units_known _ _ _ _ _ Hb Hu) as (w & ? & _). by exists w. }
  destruct (exec_ok L tw k _ HL (ex_intro _ a (conj Hs (conj Ha Hc))) Hm) as (k' & E & Hk').
  cbn [exec] in E. apply prog_bind_inv in E as (r & k1 & E & E1). injection E1 as <-.
  destruct (wait_implements p k a Hs Ha Hc (conj Hra (ex_intro _ v Hv : known_sem a p))) as (k2 & E2 & Hs2).
  rewrite E in E2. injection E2 as -> <-. exists k1.
  pose proof (keeps_sem_wait p _ _ _ E) as Hcur.
  unfold wait_spec in *. rewrite Hv, !decide_True in * by done. cbn [fst snd] in *.
  destruct Hr as (t & Ht & _). split_and!; [done..| | |].
  - intros x. rewrite (view_stat _ _ _ Hs), (view_stat _ _ _ Hs2). cbn.
    rewrite lookup_alter, (view_current _ _ Hs). destruct (decide (current_task k = x)) as [<-|Hx].
    + rewrite decide_True, (view_task _ _ Hs), Ht by done. done.
    + by rewrite decide_False by congruence.
  - intros q. rewrite (view_units _ _ _ Hs), (view_units _ _ _ Hs2). cbn. rewrite lookup_alter.
    destruct (decide (p = q)) as [<-|]; [|done]. by rewrite Hv.
  - pose proof (Abs_holds _ _ (QSem p) Hs2) as H2. cbn in H2. rewrite fn_lookup_insert in H2.
    by rewrite El, (view_current _ _ Hs) in H2.
Qed.

(** Asking for a switch changes no task. *)
Lemma request_step k :
  kernel_ok k -> current_task k <> NULL ->
  exists k', request_context_switch k = Ok (tt, k') /\ kernel_ok k' /\ current_task k' = current_task k /\
    (forall x, stat_of k' x = stat_of k x) /\ (forall q, units_of k' q = units_of k q) /\
    (forall r l, holds k r l -> holds k' r l).
Proof using.
  intros (a & Hs & Ha & Hc) Hn. pose proof (view_current _ _ Hs) as Ec.
  destruct (request_safe a Ha Hc ltac:(by rewrite Ec)) as (a0 & Hr0 & Ha0 & Hc0 & _).
  destruct (Hr0 k Hs) as (k' & E & Hs0). exists k'.
  destruct (kc_current _ Hc) as [?|[t Ht]]; [congruence|].
  destruct (runs_request a t Ht k Hs) as (k2 & E2 & Hs'). rewrite E in E2. injection E2 as <-.
  assert (tasks (av (arequest a)) = tasks (av a) /\ sems (av (arequest a)) = sems (av a) /\
    aq (arequest a) = aq a) as (Et & Es & Eq).
  { unfold arequest. destruct (aq a QReady), (tasks (av a) !! _); try done. by destruct (_ || _). }
  split_and!; [done|by exists a0|exact (keeps_request _ _ _ E)|..].
  - intros x. by rewrite (view_stat _ _ _ Hs), (view_stat _ _ _ Hs'), Et.
  - intros q. by rewrite (view_units _ _ _ Hs), (view_units _ _ _ Hs'), Es.
  - intros r l Hl. rewrite <- (holds_view _ _ _ _ Hs Hl), <- Eq. by apply Abs_holds.
Qed.
End steps.

(** ** A network call *)

Section call.
Context {D : Type} (L : layout) (tw hs he : ptr) (HL : layout_ok L).
Implicit Types y : sys D.

Lemma running_not_waiting k p l :
  kernel_ok k -> is_current_running k -> holds k (QSem p) l -> current_task k ∉ l.
Proof using.
  intros (a & Hs & Ha & _) (t & Ht & Hst) Hl Hin. rewrite <- (holds_view _ _ _ _ Hs Hl) in Hin.
  apply (wf_place _ (ki_wf _ Ha) _ _ _ (view_task_some _ _ _ _ Hs Ht)) in Hin.
  unfold place in Hin. cbn in Hin. by rewrite Hst in Hin.
Qed.

(** The state in which a client may call: the semaphores of the mailbox are
    open, [lp] waits for requests, [ld] for answers, and no answer is left
    over. *)
Record mailbox (y : sys D) (n : Z) (lp ld : list ptr) : Prop := {
  mb_kernel : kernel_ok (y_k y);
  mb_running : is_current_running (y_k y);
  mb_posted : units_of (y_k y) (n_posted (y_net y)) = Some (SEM_OPEN, n);
  mb_done : units_of (y_k y) (n_done (y_net y)) = Some (SEM_OPEN, 0);
  mb_servers : holds (y_k y) (QSem (n_posted (y_net y))) lp;
  mb_clients : holds (y_k y) (QSem (n_done (y_net y))) ld;
  mb_differ : n_posted (y_net y) <> n_done (y_net y);
}.

(** The state behind the call: the request is in the slot, the task that waits
    for it is ready or the request is counted, and the caller waits for its
    answer, last in line. *)
Record mailed (y y' : sys D) (req : net_request) (n : Z) (lp ld : list ptr) : Prop := {
  ml_kernel : kernel_ok (y_k y');
  ml_slot : n_current_req (y_net y') = Some req;
  ml_sems : n_posted (y_net y') = n_posted (y_net y) /\ n_done (y_net y') = n_done (y_net y);
  ml_caller : stat_of (y_k y') (current_task (y_k y)) = Some (TASK_BLOCKED, n_done (y_net y), SEM);
  ml_server : forall x, List.head lp = Some x -> stat_of (y_k y') x = Some (TASK_READY, NULL, NONE);
  ml_count : units_of (y_k y') (n_posted (y_net y)) =
    Some (SEM_OPEN, if decide (lp = []) then u32 (n + 1) else n);
  ml_clients : holds (y_k y') (QSem (n_done (y_net y))) (ld ++ [current_task (y_k y)]);
  ml_others : forall x, x <> current_task (y_k y) -> List.head lp <> Some x ->
    stat_of (y_k y') x = stat_of (y_k y) x;
}.

Lemma current_nonnull k : kernel_ok k -> is_current_running k -> current_task k <> NULL.
Proof using.
  intros (a & Hs & _) (t & Ht & _) E. rewrite E, (abs_null _ _ Hs) in Ht. done.
Qed.

Lemma submit_step y req n lp ld :
  mailbox y n lp ld ->
  exists y', submit req y = Ok ((0, true), y') /\ mailed y y' req n lp ld /\
    current_task (y_k y') = current_task (y_k y).
Proof using HL tw.
  intros [Hk Hr Hp Hd Hlp Hld Hne]. set (p := n_posted (y_net y)) in *. set (d := n_done (y_net y)) in *.
  set (k := y_k y) in *. pose proof (running_not_waiting _ _ _ Hk Hr Hlp) as Hnw.
  destruct (post_step L tw HL k p n lp Hk Hp Hlp) as (k1 & E1 & Hk1 & C1 & S1 & U1 & Q1).
  assert (forall x, x = current_task k -> List.head lp <> Some x) as Hhd.
  { intros x -> E. destruct lp; [done|]. injection E as ->. apply Hnw. by left. }
  assert (is_current_running k1) as Hr1.
  { destruct Hr as (t & Ht & Hst). pose proof (S1 (current_task k)) as S.
    rewrite decide_False in S by (by apply Hhd). unfold stat_of in S. rewrite Ht in S.
    unfold is_current_running. rewrite C1. destruct (tasks k1 !! current_task k) as [t1|]; [|done].
    injection S as S _ _. exists t1. by rewrite S. }
  assert (units_of k1 d = Some (SEM_OPEN, 0)) as Hd1 by (rewrite U1, decide_False by naive_solver; done).
  destruct (wait_step L tw HL k1 d ld Hk1 Hr1 Hd1 (Q1 d ld (not_eq_sym Hne) Hld)) as (k2 & E2 & Hk2 & C2 & S2 & U2 & Q2).
  rewrite C1 in *. exists (set_y_k k2 (set_y_net (NetState (Some req) p d) y)). split_and!.
  - unfold submit, net_send_request, net_will_wait, mbind, prog_bind, gets, modify, in_kernel.
    cbn [y_k y_net set_y_net n_posted n_done]. fold k p d. rewrite E1.
    cbn [y_k y_net set_y_net set_y_k n_posted n_done]. cbn [mret prog_ret y_k y_net set_y_net set_y_k n_posted n_done]. by rewrite E2.
  - split; cbn [y_k y_net set_y_k set_y_net n_posted n_done n_current_req]; try done.
    + rewrite S2. by rewrite decide_True.
    + intros x Hx. rewrite S2, decide_False by (intros E; by apply (Hhd x)).
      by rewrite S1, decide_True.
    + rewrite U2, U1. destruct lp; [by rewrite !decide_True|]. rewrite !decide_False by naive_solver. done.
    + intros x Hx Hh. rewrite S2, S1, !decide_False by done. done.
  - exact C2.
Qed.

Lemma network_call_mails c y n lp ld :
  call_ok L c -> mailbox y n lp ld ->
  exists y', make_call L tw hs he c y = Ok (tt, y') /\ mailed y y' (call_request c y) n lp ld.
Proof using HL tw hs he.
  intros Hc Hm. destruct (submit_step y (call_request c y) n lp ld Hm) as (y1 & E & H1 & C1).
  rewrite (make_call_submits L tw hs he c y true y1 Hc E). cbn [whenb].
  pose proof (current_nonnull _ (mb_kernel _ _ _ _ Hm) (mb_running _ _ _ _ Hm)) as Hn.
  rewrite <- C1 in Hn. destruct H1 as [M1 M2 M3 M4 M5 M6 M7 M8].
  destruct (request_step (y_k y1) M1 Hn) as (k' & E' & Hk' & C' & S' & U' & Q').
  exists (set_y_k k' y1). split; [unfold in_kernel; by rewrite E'|].
  split; cbn [y_k y_net set_y_k]; rewrite ?S', ?U'; try done.
  - intros x Hx. rewrite S'. by apply M5.
  - by apply Q'.
  - intros x Hx Hh. rewrite S'. by apply M8.
Qed.

(** The states that allowed events lead to while nobody posts or closes [d]. *)
Inductive unserved (d : ptr) (k0 : kstate) : kstate -> Prop :=
| unserved_start : unserved d k0 k0
| unserved_event e k k' :
    unserved d k0 k -> allowed L e k = true -> ~ serves e d -> exec L tw e k = Ok (tt, k') ->
    unserved d k0 k'.

Lemma unserved_head d k0 k x :
  kernel_ok k0 -> queue_head (QSem d) k0 = x -> x <> NULL -> unserved d k0 k ->
  kernel_ok k /\ queue_head (QSem d) k = x.
Proof using HL.
  intros H0 Hh Hx. induction 1 as [|e k k' _ [Hk IH] He Hd E]; [done|].
  destruct (exec_ok L tw k e HL Hk (allowed_may L _ _ He)) as (k1 & E1 & H1).
  rewrite E in E1. injection E1 as <-. split; [done|].
  by eapply (exec_keeps_head L tw k e).
Qed.

(** The first waiter of a semaphore is blocked on it, and there is no unit. *)
Lemma head_waits d k x :
  kernel_ok k -> queue_head (QSem d) k = x -> x <> NULL ->
  stat_of k x = Some (TASK_BLOCKED, d, SEM) /\ units_of k d = Some (SEM_OPEN, 0) /\
  exists l, holds k (QSem d) (x :: l).
Proof using.
  intros (a & Hs & Ha & _) Hh Hx. rewrite <- (view_head _ _ Hs) in Hh.
  destruct (aq a (QSem d)) as [|y l] eqn:El; [by subst x|]. cbn in Hh. subst y.
  destruct (Abs_queued k a (QSem d) x Hs) as [_ [t Ht]]; [rewrite El; by left|].
  assert (place t = Some (QSem d)) as Hp.
  { apply (wf_place _ (ki_wf _ Ha) _ _ _ Ht). rewrite El. by left. }
  split_and!.
  - rewrite (view_stat _ _ _ Hs), Ht. cbn. unfold stat. unfold place in Hp.
    destruct (t_state t), (t_waiting_on_type t); congruence.
  - rewrite (view_units _ _ _ Hs).
    destruct (kb_queue _ (Abs_base _ _ Hs) x (QSem d)) as [q Hq]; [rewrite El; by left|].
    cbn in Hq. destruct (sems (av a) !! d) as [v|] eqn:Hv; [|done]. cbn.
    destruct (sem_wait _ (ki_sem _ Ha) d v Hv) as [-> ->]; [by rewrite El|done].
  - exists l. rewrite <- El. by apply Abs_holds.
Qed.

Lemma holds_head k r x l : kernel_ok k -> holds k r (x :: l) -> queue_head r k = x.
Proof using.
  intros (a & Hs & _) Hl. by rewrite <- (view_head _ _ Hs), (holds_view _ _ _ _ Hs Hl).
Qed.

(** The network task has written the reply and posts the other semaphore: the
    client that waits longest goes on. *)
Lemma answer_step k d x ld :
  kernel_ok k -> units_of k d = Some (SEM_OPEN, 0) -> holds k (QSem d) (x :: ld) ->
  exists k', semaphore_post d k = Ok (SEM_OK_YIELD, k') /\ kernel_ok k' /\
    stat_of k' x = Some (TASK_READY, NULL, NONE) /\
    (forall z, z <> x -> stat_of k' z = stat_of k z).
Proof using HL tw.
  intros Hk Hu Hl. destruct (post_step L tw HL k d 0 (x :: ld) Hk Hu Hl) as (k' & E & Hk' & _ & S & _).
  exists k'. split_and!; [done..| |].
  - by rewrite S, decide_True.
  - intros z Hz. rewrite S, decide_False; [done|]. cbn. congruence.
Qed.
End call.

(** ** The network task around its turns ([net_task]) *)

Section server.
Context {D : Type} (L : layout) (tw hs he : ptr).
Abbreviation SM := (prog (sys D)).

(** The two semaphores are created first. *)
Definition net_start : SM unit :=
  p ← sys_sem_create L tw hs he 0;
  modify (fun y => set_y_net (NetState (n_current_req (y_net y)) p (n_done (y_net y))) y);;
  d ← sys_sem_create L tw hs he 0;
  modify (fun y => set_y_net (NetState (n_current_req (y_net y)) (n_posted (y_net y)) d) y).

(** The task waits for a request; what follows runs when it goes on. *)
Definition net_wait : SM unit :=
  p ← gets (fun y => n_posted (y_net y)); sys_sem_wait L tw hs he p.
(** The copy of the slot, with the interrupts masked. *)
Definition net_take : SM (option net_request) :=
  irq_state ← in_kernel irq_save;
  my_req ← gets (fun y => n_current_req (y_net y));
  in_kernel (irq_restore irq_state);;
  mret my_req.
(** The reply is written. *)
Definition net_finish : SM unit :=
  d ← gets (fun y => n_done (y_net y)); sys_sem_post L tw hs he d.

Lemma net_take_slot (y : sys D) : net_take y = Ok (n_current_req (y_net y), y).
Proof using. by destruct y as [[] ? ? ? ?]. Qed.

(** ** Interleavings *)

Definition pend (psp : ptr) : SM unit := in_kernel (_v ← pend_sv_handler psp; mret tt).
Definition tick : SM unit := in_kernel systick_handler.
Fixpoint ticks (n : nat) : SM unit := match n with O => mret tt | S n => tick;; ticks n end.
Definition irq_post (p : ptr) : SM unit := in_kernel (_v ← semaphore_post p; mret tt).
(** [m] runs in the task of slot [i]. *)
Definition as_task {A} (i : nat) (m : SM A) : SM A :=
  cur ← gets (fun y => current_task (y_k y));
  if cur =? task_slot L i then m else raise Fault.
End server.
