(* ===== verification/MailboxProps.v ===== *)
(** * Theorems: network calls and the mailbox *)
From S2P Require Import Prelude Utils KState Queue Abs Scheduler Sleep Semaphore Invariant Mutex Pool Tcb.
From S2P Require Import Kernel Boot Guarantees Heap HeapProps Console Syscall SyscallProps UserCalls Mailbox.

(** C8: A network call with a valid socket, made while the network task waits for
    a request and no other client waits for an answer, leaves exactly the
    request it stands for in the mailbox, wakes the network task, and blocks its
    caller.  Whatever allowed events follow, the caller stays blocked until
    somebody posts or closes the semaphore of the answers, and a post makes it
    ready.  (The pointers a task passes for buffers and replies are not checked
    by these calls; with a second client in line the request is replaced, see
    [second_request_replaces_first].) *)
Theorem network_call_answered {D} (L : layout) (tw hs he : ptr) c (y : sys D) n server l :
  layout_ok L -> call_ok L c -> mailbox y n (server :: l) [] ->
  let me := current_task (y_k y) in
  let finished := n_done (y_net y) in
  exists y', make_call L tw hs he c y = Ok (tt, y') /\ kernel_ok (y_k y') /\
    net_take y' = Ok (Some (call_request c y), y') /\
    stat_of (y_k y') server = Some (TASK_READY, NULL, NONE) /\
    stat_of (y_k y') me = Some (TASK_BLOCKED, finished, SEM) /\
    forall k2, unserved L tw finished (y_k y') k2 ->
      stat_of k2 me = Some (TASK_BLOCKED, finished, SEM) /\
      exists k3, semaphore_post finished k2 = Ok (SEM_OK_YIELD, k3) /\ kernel_ok k3 /\
        stat_of k3 me = Some (TASK_READY, NULL, NONE).
Proof.
  intros HL Hc Hm me finished.
  destruct (network_call_mails L tw hs he HL c y n _ _ Hc Hm) as (y' & E & M).
  exists y'. split_and!; [done|apply M| |by apply M|apply M|].
  - rewrite net_take_slot. by rewrite (ml_slot _ _ _ _ _ _ M).
  - intros k2 Hu.
    pose proof (holds_head _ _ _ _ (ml_kernel _ _ _ _ _ _ M) (ml_clients _ _ _ _ _ _ M)) as Hh.
    pose proof (current_nonnull _ (mb_kernel _ _ _ _ Hm) (mb_running _ _ _ _ Hm)) as Hn.
    destruct (unserved_head L tw HL finished _ k2 me (ml_kernel _ _ _ _ _ _ M) Hh Hn Hu) as [Hk2 Hh2].
    destruct (head_waits finished k2 me Hk2 Hh2 Hn) as (Hst & Hun & l2 & Hl2). split; [done|].
    destruct (answer_step L tw HL k2 finished me l2 Hk2 Hun Hl2) as (k3 & ? & ? & ? & _).
    by exists k3.
Qed.

(** Slot 1 is the network task, which waits for a request; slot 2 runs. *)
Definition demo_mail : sys unit :=
  set_y_net (NetState None (demo_sem 0) (demo_sem 1))
    (demo_sys (Boot.after [ECreate 255 0 0; ECreate 0 0 0; ECreate 1 0 0; EPendSV 1;
      ESemInit (demo_sem 0) 0; ESemInit (demo_sem 1) 0; EWait (demo_sem 0); EPendSV 2]) fresh).

Lemma demo_mailbox : mailbox demo_mail 0 [demo_task 1] [].
Proof.
  split.
  - by apply after_ok; vm_compute.
  - eexists. split; [by vm_compute|done].
  - by vm_compute.
  - by vm_compute.
  - assert (load_list (QSem (n_posted (y_net demo_mail))) (y_k demo_mail) =
      Some (TcbList (demo_task 1) (demo_task 1))) as E by by vm_compute.
    unfold holds. rewrite E. split; [|split; [done|apply NoDup_singleton]].
    split; [done|]. split; [done|]. eexists. split; [by vm_compute|done].
  - assert (load_list (QSem (n_done (y_net demo_mail))) (y_k demo_mail) = Some empty_list) as E by by vm_compute.
    unfold holds. rewrite E. split; [done|]. split; [done|constructor].
  - done.
Qed.

(** After the call PendSV dispatches another task; the caller stays blocked. *)
Lemma network_call_answered_witness :
  exists y', make_call demo_layout demo_wrapper demo_start 0x20020000 (CallLink 0x200 0x210) demo_mail = Ok (tt, y') /\
    net_take y' = Ok (Some (NetRequest NET_OP_LINK (demo_task 2) NULL 0x200 0x210 NULL 0 [0; 0; 0; 0] 0
      [0; 0; 0; 0; 0; 0] false), y') /\
    stat_of (y_k y') (demo_task 1) = Some (TASK_READY, NULL, NONE) /\
    exists k2, exec demo_layout demo_wrapper (EPendSV 9) (y_k y') = Ok (tt, k2) /\
      stat_of k2 (demo_task 2) = Some (TASK_BLOCKED, demo_sem 1, SEM) /\
      exists k3, semaphore_post (demo_sem 1) k2 = Ok (SEM_OK_YIELD, k3) /\ kernel_ok k3 /\
        stat_of k3 (demo_task 2) = Some (TASK_READY, NULL, NONE).
Proof.
  assert (call_ok demo_layout (CallLink 0x200 0x210)) as Hc by (split; split; (done || lia)).
  destruct (network_call_answered demo_layout demo_wrapper demo_start 0x20020000 _ demo_mail 0 _ [] demo_layout_ok
    Hc demo_mailbox) as (y' & E & _ & Et & Es & _ & Hlater).
  exists y'. split; [exact E|]. split; [rewrite Et; do 3 f_equal|]. split; [exact Es|].
  assert (exists k2, allowed demo_layout (EPendSV 9) (y_k y') = true /\
    exec demo_layout demo_wrapper (EPendSV 9) (y_k y') = Ok (tt, k2)) as (k2 & Ha & E2).
  { vm_compute in E. injection E as <-. eexists. split; vm_compute; reflexivity. }
  exists k2. split; [exact E2|]. apply Hlater.
  apply (unserved_event _ _ _ _ (EPendSV 9) (y_k y')); [apply unserved_start|exact Ha|intros []|exact E2].
Defined.

(** ** Two clients *)

Abbreviation on := (as_task demo_layout).
Abbreviation call := (make_call demo_layout demo_wrapper demo_start 0x20020000).
Abbreviation sys_call f := (f demo_layout demo_wrapper demo_start 0x20020000).

(** The four tasks in the slots and with the priorities that [main] gives them:
    shell, idle task, user task, network task. *)
Definition demo_four : sys unit :=
  demo_sys (Boot.after [ECreate 0 0 0; ECreate 255 0 0; ECreate 1 0 0; ECreate 0 0 0; EPendSV 1]) fresh.

(** The shell waits for a key, and the network task sleeps in its
    initialisation of the chip; meanwhile the user task and then, after a key
    press, the shell ask for the link status. *)
Definition race : prog (sys unit) (option net_request * option net_request) :=
  rx ← on 0%nat (rx ← sys_call sys_sem_create 0; sys_call sys_sem_wait rx;; mret rx); pend 0x100;;
  on 3%nat (sys_call net_start;; sys_call sys_sleep 60);; pend 0x300;;
  on 2%nat (call (CallLink 0x200 0x210));; pend 0x200;;
  on 1%nat (irq_post rx);; pend 0x0;;
  on 0%nat (call (CallLink 0x300 0x310));; pend 0x100;;
  on 1%nat (ticks 60);; pend 0x0;;
  first ← on 3%nat (sys_call net_wait;; net_take);
  on 3%nat (sys_call net_finish);;
  second ← on 3%nat (sys_call net_wait;; net_take);
  mret (first, second).

(** The mailbox holds one request.  When two tasks call before the network
    task has looked, it serves the second request twice: the first task goes on
    as if it had been answered, and its reply is never written. *)
Theorem second_request_replaces_first :
  exists req y', race demo_four = Ok ((Some req, Some req), y') /\
    r_caller req = demo_task 0 /\ r_reply_slot req = 0x310 /\
    stat_of (y_k y') (demo_task 2) = Some (TASK_READY, NULL, NONE) /\
    stat_of (y_k y') (demo_task 0) = Some (TASK_BLOCKED, n_done (y_net y'), SEM).
Proof.
  assert (match race demo_four with
    | Ok ((Some r1, Some r2), y') =>
        (r_caller r1 =? demo_task 0) && (r_reply_slot r1 =? 0x310) && bool_decide (r1 = r2) &&
        bool_decide (stat_of (y_k y') (demo_task 2) = Some (TASK_READY, NULL, NONE)) &&
        bool_decide (stat_of (y_k y') (demo_task 0) = Some (TASK_BLOCKED, n_done (y_net y'), SEM))
    | _ => false
    end = true) as H by by vm_compute.
  destruct (race demo_four) as [[[[r1|] [r2|]] y']|]; try done.
  rewrite !andb_true_iff, !bool_decide_eq_true, !Z.eqb_eq in H. destruct H as ((((? & ?) & <-) & ?) & ?).
  by exists r1, y'.
Qed.
