(* ===== verification/Shell.v ===== *)
(** * The commands of the debug shell ([cli.c])

    A command works on the state of the system and the lease table and calls
    [kprintf]; what it prints and which registers it writes is a list of
    events.  The model lets nothing else run while a command prints.  The
    exception is the link command, whose system call blocks: what the other
    tasks do until it goes on is a parameter. *)
From Stdlib Require Import Ascii String.
From S2P Require Import Prelude Utils KState Queue Abs Scheduler Semaphore Mutex Pool Heap.
From S2P Require Import Console Syscall UserCalls Kprintf Cli Dhcp Lease Spi.

(** The addresses the linker script defines. *)
Record image : Type := Image {
  vma_data_start : ptr; vma_data_end : ptr;
  bss_start : ptr; bss_end : ptr;
  img_heap_start : ptr; img_heap_end : ptr;
}.

Inductive shell_event :=
| Say (fmt : bytes) (args : list va_arg) (* kprintf *)
| Reg (a : access)
| Barrier. (* dsb *)

Section shell.
Context {D : Type}.

Record shell : Type := Shell {
  h_sys : sys D;
  h_leases : lease_table;
  h_events : list shell_event; (* oldest first *)
}.
Abbreviation HS := (prog shell).

Definition emit_event (e : shell_event) : HS unit :=
  modify (fun s => Shell (h_sys s) (h_leases s) (h_events s ++ [e])).
Definition say_f (fmt : bytes) (args : list va_arg) : HS unit := emit_event (Say fmt args).
Definition say_s (s : string) : HS unit := say_f (lit s) [].
(** A line that ends in CR LF. *)
Definition say_ln (s : string) (args : list va_arg) : HS unit := say_f (lit s ++ [13; 10]) args.
Definition in_system {A} (m : prog (sys D) A) : HS A := fun s =>
  match m (h_sys s) with
  | Ok (a, y) => Ok (a, Shell y (h_leases s) (h_events s))
  | Trap e => Trap e
  end.
Definition ask_kernel {A} (m : K A) : HS A := in_system (in_kernel m).
(** No command masks interrupts around a look at the heap. *)
Definition ask_heap {A} (m : HM A) : HS A := in_system (fun y =>
  match m (y_heap y) with Ok (a, h) => Ok (a, set_y_heap h y) | Trap e => Trap e end).

(** The parts of a heading with tabs between them. *)
Definition tabs (parts : list string) : bytes :=
  match parts with
  | [] => []
  | p :: ps => lit p ++ concat ((fun q => 9 :: lit q) <$> ps)
  end.

Section commands.
(** The pools, the entry of a task and the bounds of the heap; the bytes at an
    address up to a zero, if they can be read; the linker's symbols; what a
    register holds; the addresses of the two locals of the link command and the
    size of the second; what the system does while that command waits. *)
Context (L : layout) (task_wrapper heap_start heap_end : ptr).
Context (cstring_at : ptr -> option bytes) (img : image) (peek : Z -> Z).
Context (status_at reply_at sizeof_reply : Z) (others : sys D -> sys D).

#[local] Instance shell_mmio : Mmio shell := {|
  mm_read a := emit_event (Reg (Rd a (peek a)));; mret (peek a);
  mm_write a v := emit_event (Reg (Wr a v));
|}.

(** *** ps *)

Definition state_name (st : task_state) : bytes :=
  match st with
  | TASK_READY => lit "READY"
  | TASK_RUNNING => lit "RUNNING"
  | TASK_BLOCKED => lit "BLOCKED"
  | TASK_SLEEPING => lit "SLEEPING"
  | TASK_FINISHED => lit "FINISHED"
  | _ => lit "UNKNOWN"
  end.

(** The string a pointer leads to; a null pointer is passed on. *)
Definition read_name (p : ptr) : HS (option bytes) :=
  if p =? NULL then mret None else s ← fetch (fun _ => cstring_at p); mret (Some s).

Definition ps_line (i : nat) (t : tcb) : HS unit :=
  name ← read_name (t_name t);
  cur ← ask_kernel (gets current_task);
  say_ln "%2u %10s %10s %3u %3u %8x %s"
    [VInt (Z.of_nat i); VStr name; VStr (Some (state_name (t_state t)));
     VInt (t_base_priority t); VInt (t_effective_priority t); VInt (t_sp t);
     VStr (Some (if get_task L (Z.of_nat i) =? cur then lit "*" else []))].
Fixpoint ps_loop (n i : nat) : HS unit :=
  match n with
  | O => mret tt
  | S n =>
      t ← ask_kernel (rd_task (get_task L (Z.of_nat i)) id);
      (if bool_decide (t_state t = TASK_UNUSED) then mret tt else ps_line i t);;
      ps_loop n (S i)
  end.
Definition cli_cmd_ps : HS unit :=
  say_f (tabs ["PID"; "NAME"; "STATE"; "PRI EPRI"; "SP"]%string ++ [13; 10]) [];;
  say_ln "--------------------------------------" [];;
  ps_loop N_TASKS 0.

(** *** help, uptime *)

Fixpoint help_loop (cmds : list cli_command) : HS unit :=
  match cmds with
  | [] => mret tt
  | cmd :: cmds =>
      say_ln "%s > %s" [VStr (Some (cmd_name cmd)); VStr (Some (cmd_description cmd))];;
      help_loop cmds
  end.
Definition cli_cmd_help : HS unit := help_loop commands.

Definition cli_cmd_uptime : HS unit :=
  t ← ask_kernel (gets system_ticks);
  say_ln "Uptime: %u ms" [VInt t].

(** *** mem, heap *)

Definition SRAM_START : Z := 0x20000000.
Definition SRAM_END : Z := 0x20020000.
Definition rule : string := "----------------------------"%string.

Definition cli_cmd_mem : HS unit :=
  let data_size := u32 (vma_data_end img - vma_data_start img) in
  let bss_size := u32 (bss_end img - bss_start img) in
  let heap_size := u32 (img_heap_end img - img_heap_start img) in
  let static_used := u32 (data_size + bss_size) in
  say_ln "Memory" [];;
  say_ln rule [];;
  say_ln "SRAM    : %u KB" [VInt ((SRAM_END - SRAM_START) / 1024)];;
  say_ln "  .data   : %u bytes" [VInt data_size];;
  say_ln "  .bss    : %u bytes" [VInt bss_size];;
  say_ln "  static  : %u bytes" [VInt static_used];;
  say_ln "heap    : %u KB" [VInt (heap_size / 1024)];;
  say_ln "  start   : %x" [VInt (img_heap_start img)];;
  say_ln "  end     : %x" [VInt (img_heap_end img)].

Definition cli_cmd_heap : HS unit :=
  let heap_size := u32 (img_heap_end img - img_heap_start img) in
  heap_free ← ask_heap heap_free_size;
  say_ln "Heap" [];;
  say_ln rule [];;
  say_ln "size    : %u KB" [VInt (heap_size / 1024)];;
  say_ln "used    : %u" [VInt (u32 (heap_size - heap_free))];;
  say_ln "free    : %u" [VInt heap_free];;
  say_ln "start   : %x" [VInt (img_heap_start img)];;
  say_ln "end     : %x" [VInt (img_heap_end img)].

(** *** mutex *)

(** [j] is not changed by the loop. *)
Fixpoint mutex_rows (fuel : nat) (i j : Z) (tmp_m : ptr) : HS unit :=
  match fuel with
  | O => raise Diverge
  | S fuel =>
      if tmp_m =? NULL then mret tt
      else
        w ← ask_kernel (mutex_get_waiting tmp_m);
        say_f (tabs ["%d"; "%d"; "%d"]%string ++ [13; 10]) [VInt j; VInt i; VInt w];;
        next ← ask_kernel (rd_mutex tmp_m m_next_owned);
        mutex_rows fuel i j next
  end.
Fixpoint mutex_loop (n i : nat) : HS unit :=
  match n with
  | O => mret tt
  | S n =>
      t ← ask_kernel (rd_task (get_task L (Z.of_nat i)) id);
      (if bool_decide (t_state t = TASK_UNUSED) then mret tt
       else
         fuel ← ask_kernel owned_fuel;
         mutex_rows fuel (Z.of_nat i) 0 (t_owned_mutexes t));;
      mutex_loop n (S i)
  end.
Definition cli_cmd_mutex : HS unit :=
  say_ln "Mutexes" [];;
  say_ln rule [];;
  say_f (tabs ["ID"; "OWNER"; "WAITING"]%string ++ [13; 10]) [];;
  mutex_loop N_TASKS 0.

(** *** link, spioff, bench *)

(** [status = -1] and the cleared reply slot. *)
Definition link_locals (y : sys D) : sys D :=
  set_y_ram (memset reply_at 0 sizeof_reply (memset status_at 0xFF 4 (y_ram y))) y.
Definition cli_cmd_link : HS unit :=
  in_system (modify link_locals;;
    sys_net_link L task_wrapper heap_start heap_end status_at reply_at;;
    modify others);;
  status ← in_system (gets (ram_u32 status_at));
  say_ln "Link status: %d" [VInt status].

Definition cli_cmd_spioff : HS unit :=
  reg_and_not SPI1_CR1 SPI_CR1_SPE;;
  say_ln "Spi turned off" [].

(** Without BENCH. *)
Definition cli_cmd_bench : HS unit :=
  say_ln "Not a bench build. Set BENCH=1 and run from build-bench/ to use this command" [].

(** *** leasetable *)

Fixpoint key_loop (n j : nat) (slot : lease_slot) : HS unit :=
  match n with
  | O => mret tt
  | S n =>
      b ← fetch (fun _ => l_key slot !! j);
      say_f (lit "%x") [VInt b];;
      key_loop n (S j) slot
  end.

Definition lease_state_label (st : Z) : list bytes :=
  (if st =? LEASE_ST_OFFERED then [lit "OFFERED"] else []) ++
  (if st =? LEASE_ST_BOUND then [lit "BOUND"] else []) ++
  (if st =? LEASE_ST_DECLINED then [lit "DECLINED"] else []).
Fixpoint say_labels (ls : list bytes) : HS unit :=
  match ls with [] => mret tt | l :: ls => say_f (l ++ [9]) [];; say_labels ls end.

Definition lease_row (table : lease_table) (i : nat) (slot : lease_slot) : HS unit :=
  say_labels (lease_state_label (l_state slot));;
  say_f (lit "%d.%d.%d.%d" ++ [9])
    [VInt (byte (t_start_addr table) 0); VInt (byte (t_start_addr table) 1);
     VInt (byte (t_start_addr table) 2); VInt (byte (t_start_addr table) 3 + Z.of_nat i)];;
  key_loop (Z.to_nat (l_key_len slot)) 0 slot;;
  say_f ([9] ++ lit "%d" ++ [13; 10]) [VInt (l_expires_at slot)].

Fixpoint lease_loop (n i : nat) (table : lease_table) : HS unit :=
  match n with
  | O => mret tt
  | S n =>
      slot ← fetch (fun _ => t_slots table !! i);
      (if l_state slot =? LEASE_ST_FREE then mret tt else lease_row table i slot);;
      lease_loop n (S i) table
  end.

(** A table without slots is the one whose [slots] is null. *)
Definition cli_cmd_leasetable : HS unit :=
  say_ln "DHCP lease table: " [];;
  table ← gets h_leases;
  if bool_decide (t_slots table = []) || (t_size table =? 0) then
    say_ln "------ NOT INITIALIZED ------" []
  else
    say_f (tabs ["State"; "Address"; "Key"; "Expiry"]%string ++ [13; 10]) [];;
    say_ln "-------------------------" [];;
    lease_loop (Z.to_nat (t_size table)) 0 table.

(** *** reboot *)

Definition SCB_AIRCR : Z := 0xE000ED0C.
Definition SCB_AIRCR_VECTKEY : Z := 0x5FA.
Definition SCB_AIRCR_VECTKEY_Pos : Z := 16.
Definition SCB_AIRCR_SYSRESETREQ_Pos : Z := 2.

(** The loop behind it is never left. *)
Definition cli_cmd_reboot : HS unit :=
  say_s "Rebooting ...";;
  emit_event Barrier;;
  mm_write SCB_AIRCR (Z.lor (Z.shiftl SCB_AIRCR_VECTKEY SCB_AIRCR_VECTKEY_Pos)
                            (Z.shiftl 1 SCB_AIRCR_SYSRESETREQ_Pos));;
  emit_event Barrier.

(** The function of the command table; [false]: it does not return. *)
Definition run_command (f : cli_command_fn) : HS bool :=
  match f with
  | Cli.cli_cmd_help => cli_cmd_help;; mret true
  | Cli.cli_cmd_ps => cli_cmd_ps;; mret true
  | Cli.cli_cmd_uptime => cli_cmd_uptime;; mret true
  | Cli.cli_cmd_mem => cli_cmd_mem;; mret true
  | Cli.cli_cmd_heap => cli_cmd_heap;; mret true
  | Cli.cli_cmd_mutex => cli_cmd_mutex;; mret true
  | Cli.cli_cmd_bench => cli_cmd_bench;; mret true
  | Cli.cli_cmd_link => cli_cmd_link;; mret true
  | Cli.cli_cmd_spioff => cli_cmd_spioff;; mret true
  | Cli.cli_cmd_leasetable => cli_cmd_leasetable;; mret true
  | Cli.cli_cmd_reboot => cli_cmd_reboot;; mret false
  end.
End commands.
End shell.
Arguments shell D : clear implicits.
