(* ===== verification/ShellSpec.v ===== *)
(** * What the shell commands print

    The report of each command as a function of the state, the proof that the
    code prints exactly that and, but for the link command, changes nothing,
    and the types of all the formats it uses. *)
From Stdlib Require Import Ascii String.
From S2P Require Import Prelude Utils KState Queue Abs Scheduler Semaphore Invariant Mutex Pool.
From S2P Require Import Kernel Guarantees Heap HeapSpec Kprintf KprintfSpec FormatTypes Cli Dhcp Lease.
From S2P Require Import Console Syscall UserCalls Spi ServerSpec Shell.

(** ** Reading the kernel *)

Lemma lseg_waiting T fuel p l n s :
  tasks s = T -> lseg T p l NULL -> (length l < fuel)%nat ->
  get_waiting_loop fuel p (u32 n) s = Ok (u32 (n + Z.of_nat (length l)), s).
Proof.
  intros ET. revert p l n. induction fuel as [|fuel IH]; intros p l n Hl Hf; [lia|].
  cbn [get_waiting_loop]. destruct l as [|x l].
  { cbn in Hl. subst p. cbn. by rewrite Z.add_0_r. }
  destruct Hl as (-> & Hx & t & Ht & Hl). rewrite (proj2 (Z.eqb_neq _ _) Hx).
  rewrite (prog_bind_ok (rd_task x t_next) _ s (t_next t) s) by
    (unfold rd_task, fetch; by rewrite ET, Ht).
  replace (u32 (u32 n + 1)) with (u32 (n + 1)) by (unfold u32; by rewrite Zplus_mod_idemp_l).
  rewrite (IH _ l) by (done || cbn in Hf; lia). cbn [length]. do 3 f_equal. lia.
Qed.

(** The number of tasks that wait for a mutex. *)
Lemma mutex_get_waiting_ok s m v l :
  mutexes s !! m = Some v -> queue_rep (tasks s) (m_wait_queue v) l ->
  mutex_get_waiting m s = Ok (u32 (Z.of_nat (length l)), s).
Proof.
  intros Hv (Hl & _ & Hnd). unfold mutex_get_waiting.
  rewrite (prog_bind_ok _ _ s (q_head (m_wait_queue v)) s) by
    (unfold rd_mutex, fetch; by rewrite Hv).
  rewrite (prog_bind_ok (gets _) _ s (S (S (size (tasks s)))) s) by done.
  change 0 with (u32 0). rewrite (lseg_waiting (tasks s) _ _ l) by
    (done || (pose proof (lseg_length _ _ _ _ Hl Hnd); lia)).
  done.
Qed.

(** The mutexes that are linked from [p], and the tasks. *)
Fixpoint mutex_chain (fuel : nat) (M : gmap ptr mutex) (p : ptr) : list ptr :=
  match fuel with
  | O => []
  | S fuel => if p =? NULL then [] else p :: mutex_chain fuel M (default NULL (m_next_owned <$> M !! p))
  end.
Fixpoint task_chain (fuel : nat) (T : gmap ptr tcb) (p : ptr) : list ptr :=
  match fuel with
  | O => []
  | S fuel => if p =? NULL then [] else p :: task_chain fuel T (default NULL (t_next <$> T !! p))
  end.

Lemma mutex_chain_ok fuel M p l : mseg M p l -> (length l < fuel)%nat -> mutex_chain fuel M p = l.
Proof.
  revert p l. induction fuel as [|fuel IH]; intros p [|m l] Hl Hf; cbn in Hf; try lia; cbn [mutex_chain].
  - by rewrite Hl.
  - destruct Hl as (-> & Hm & v & Hv & Hl). rewrite (proj2 (Z.eqb_neq _ _) Hm), Hv. cbn. f_equal.
    apply IH; [done|lia].
Qed.
Lemma task_chain_ok fuel T p l : lseg T p l NULL -> (length l < fuel)%nat -> task_chain fuel T p = l.
Proof.
  revert p l. induction fuel as [|fuel IH]; intros p [|x l] Hl Hf; cbn in Hf; try lia; cbn [task_chain].
  - by rewrite Hl.
  - destruct Hl as (-> & Hx & t & Ht & Hl). rewrite (proj2 (Z.eqb_neq _ _) Hx), Ht. cbn. f_equal.
    apply IH; [done|lia].
Qed.

Lemma set_y_k_id {D} (y : sys D) : set_y_k (y_k y) y = y.
Proof. by destruct y. Qed.
Lemma set_y_heap_id {D} (y : sys D) : set_y_heap (y_heap y) y = y.
Proof. by destruct y. Qed.

(** ** The reports *)

Definition crlf : bytes := [13; 10].
Definition ln (s : string) (args : list va_arg) : shell_event := Say (lit s ++ crlf) args.

Section reports.
Context (L : layout) (cstring_at : ptr -> option bytes) (img : image) (peek : Z -> Z).
Context (k : kstate) (h : heap) (leases : lease_table).

Definition used_tasks : list (nat * tcb) :=
  omap (fun i => t ← tasks k !! task_slot L i;
    if bool_decide (t_state t = TASK_UNUSED) then None else Some (i, t)) (seq 0 N_TASKS).

Definition name_of (p : ptr) : option bytes := if p =? NULL then None else cstring_at p.

Definition ps_row (it : nat * tcb) : shell_event :=
  let '(i, t) := it in
  ln "%2u %10s %10s %3u %3u %8x %s"
    [VInt (Z.of_nat i); VStr (name_of (t_name t)); VStr (Some (state_name (t_state t)));
     VInt (t_base_priority t); VInt (t_effective_priority t); VInt (t_sp t);
     VStr (Some (if task_slot L i =? current_task k then lit "*" else []))].
Definition ps_report : list shell_event :=
  Say (tabs ["PID"; "NAME"; "STATE"; "PRI EPRI"; "SP"]%string ++ crlf) [] ::
  ln "--------------------------------------" [] :: (ps_row <$> used_tasks).

Definition help_report : list shell_event :=
  (fun cmd => ln "%s > %s" [VStr (Some (cmd_name cmd)); VStr (Some (cmd_description cmd))]) <$> commands.

Definition mem_report : list shell_event :=
  let data := u32 (vma_data_end img - vma_data_start img) in
  let bss := u32 (bss_end img - bss_start img) in
  [ ln "Memory" []; ln rule []; ln "SRAM    : %u KB" [VInt 128];
    ln "  .data   : %u bytes" [VInt data]; ln "  .bss    : %u bytes" [VInt bss];
    ln "  static  : %u bytes" [VInt (u32 (data + bss))];
    ln "heap    : %u KB" [VInt (u32 (img_heap_end img - img_heap_start img) / 1024)];
    ln "  start   : %x" [VInt (img_heap_start img)]; ln "  end     : %x" [VInt (img_heap_end img)] ].

(** [blocks] is what the heap is made of. *)
Definition heap_report (blocks : list block) : list shell_event :=
  let size := u32 (img_heap_end img - img_heap_start img) in
  [ ln "Heap" []; ln rule []; ln "size    : %u KB" [VInt (size / 1024)];
    ln "used    : %u" [VInt (u32 (size - free_size blocks))]; ln "free    : %u" [VInt (free_size blocks)];
    ln "start   : %x" [VInt (img_heap_start img)]; ln "end     : %x" [VInt (img_heap_end img)] ].

(** The mutexes that a task links and the tasks that wait for a mutex. *)
Definition owned_by (t : tcb) : list ptr :=
  mutex_chain (S (size (mutexes k))) (mutexes k) (t_owned_mutexes t).
Definition waiters (m : ptr) : list ptr :=
  task_chain (S (size (tasks k))) (tasks k) (default NULL ((fun v => q_head (m_wait_queue v)) <$> mutexes k !! m)).
Definition mutex_row (i : nat) (m : ptr) : shell_event :=
  Say (tabs ["%d"; "%d"; "%d"]%string ++ crlf)
    [VInt 0; VInt (Z.of_nat i); VInt (u32 (Z.of_nat (length (waiters m))))].
Definition mutex_report : list shell_event :=
  ln "Mutexes" [] :: ln rule [] :: Say (tabs ["ID"; "OWNER"; "WAITING"]%string ++ crlf) [] ::
  flat_map (fun it => mutex_row it.1 <$> owned_by it.2) used_tasks.

Definition key_report (slot : lease_slot) : list shell_event :=
  (fun b => Say (lit "%x") [VInt b]) <$> take (Z.to_nat (l_key_len slot)) (l_key slot).
Definition lease_report (i : nat) (slot : lease_slot) : list shell_event :=
  if l_state slot =? LEASE_ST_FREE then []
  else
    ((fun l => Say (l ++ [9]) []) <$> lease_state_label (l_state slot)) ++
    [Say (lit "%d.%d.%d.%d" ++ [9])
      [VInt (byte (t_start_addr leases) 0); VInt (byte (t_start_addr leases) 1);
       VInt (byte (t_start_addr leases) 2); VInt (byte (t_start_addr leases) 3 + Z.of_nat i)]] ++
    key_report slot ++ [Say ([9] ++ lit "%d" ++ crlf) [VInt (l_expires_at slot)]].
Definition leasetable_report : list shell_event :=
  ln "DHCP lease table: " [] ::
  if bool_decide (t_slots leases = []) then [ln "------ NOT INITIALIZED ------" []]
  else Say (tabs ["State"; "Address"; "Key"; "Expiry"]%string ++ crlf) [] ::
    ln "-------------------------" [] :: concat (imap lease_report (t_slots leases)).

Definition spioff_report : list shell_event :=
  [Reg (Rd SPI1_CR1 (peek SPI1_CR1)); Reg (Wr SPI1_CR1 (Z.land (peek SPI1_CR1) (u32 (Z.lnot SPI_CR1_SPE))));
   ln "Spi turned off" []].
Definition reboot_report : list shell_event :=
  [Say (lit "Rebooting ...") []; Barrier; Reg (Wr SCB_AIRCR 0x05FA0004); Barrier].

Definition report (blocks : list block) (f : cli_command_fn) : list shell_event :=
  match f with
  | Cli.cli_cmd_help => help_report
  | Cli.cli_cmd_ps => ps_report
  | Cli.cli_cmd_uptime => [ln "Uptime: %u ms" [VInt (system_ticks k)]]
  | Cli.cli_cmd_mem => mem_report
  | Cli.cli_cmd_heap => heap_report blocks
  | Cli.cli_cmd_mutex => mutex_report
  | Cli.cli_cmd_bench =>
      [ln "Not a bench build. Set BENCH=1 and run from build-bench/ to use this command" []]
  | Cli.cli_cmd_link => [] (* see [link_runs] *)
  | Cli.cli_cmd_spioff => spioff_report
  | Cli.cli_cmd_leasetable => leasetable_report
  | Cli.cli_cmd_reboot => reboot_report
  end.

(** ** The code prints the report *)

Context {D : Type} (y : sys D) (Ek : y_k y = k) (Eh : y_heap y = h).
Abbreviation HS := (prog (shell D)).

(** [m] ends with [v], adds [out] to the events and changes nothing else. *)
Definition says {A} (m : HS A) (v : A) (out : list shell_event) : Prop :=
  forall es, m (Shell y leases es) = Ok (v, Shell y leases (es ++ out)).

Lemma says_ret {A} (v : A) : says (mret v) v [].
Proof using. intros es. by rewrite app_nil_r. Qed.
Lemma says_bind {A B} (m : HS A) (f : A -> HS B) v w o1 o2 :
  says m v o1 -> says (f v) w o2 -> says (m ≫= f) w (o1 ++ o2).
Proof using. intros H1 H2 es. rewrite (prog_bind_ok _ _ _ _ _ (H1 es)), H2. by rewrite app_assoc. Qed.
Lemma says_then {B} e (m : HS B) w o : says m w o -> says (emit_event e;; m) w (e :: o).
Proof using. intros H. by apply (says_bind (emit_event e) _ tt w [e]). Qed.
Lemma says_read {A B} (m : HS A) (f : A -> HS B) v w o :
  says m v [] -> says (f v) w o -> says (m ≫= f) w o.
Proof using. intros H1 H2. by apply (says_bind m f v w [] o). Qed.
Lemma says_seq {B} (m : HS unit) (f : HS B) w o1 o2 :
  says m tt o1 -> says f w o2 -> says (m;; f) w (o1 ++ o2).
Proof using. apply (says_bind m (fun _ => f) tt w). Qed.
Lemma says_say e : says (emit_event e) tt [e].
Proof using. by intros es. Qed.

Lemma says_ask {A} (m : K A) v : m k = Ok (v, k) -> says (ask_kernel m) v [].
Proof using Ek.
  intros E es. unfold ask_kernel, in_system, in_kernel. cbn [h_sys]. rewrite Ek, E, app_nil_r, <- Ek.
  by rewrite set_y_k_id.
Qed.
Lemma says_fetch {A} (f : shell D -> option A) v :
  (forall es, f (Shell y leases es) = Some v) -> says (fetch f) v [].
Proof using. intros E es. unfold fetch. by rewrite E, app_nil_r. Qed.
Lemma says_task x t : tasks k !! x = Some t -> says (ask_kernel (rd_task x id)) t [].
Proof using Ek. intros Ht. apply says_ask. unfold rd_task, fetch. by rewrite Ht. Qed.
Lemma says_gets {A} (f : kstate -> A) : says (ask_kernel (gets f)) (f k) [].
Proof using Ek. by apply says_ask. Qed.

Definition slots_known : Prop := forall i, (i < N_TASKS)%nat -> is_Some (tasks k !! task_slot L i).
Definition names_readable : Prop := forall i t, (i < N_TASKS)%nat -> tasks k !! task_slot L i = Some t ->
  t_state t <> TASK_UNUSED -> t_name t <> NULL /\ is_Some (cstring_at (t_name t)).

Lemma get_task_slot i : (i < N_TASKS)%nat -> get_task L (Z.of_nat i) = task_slot L i.
Proof using.
  unfold get_task, N_TASKS. intros Hi. rewrite Z.geb_leb, (proj2 (Z.leb_gt _ _)) by lia.
  rewrite (proj2 (Z.ltb_ge _ _)) by lia. cbn. by rewrite Nat2Z.id.
Qed.

(** A loop over the slots of the tasks. *)
Lemma slot_loop (body : nat -> tcb -> HS unit) (loop : nat -> nat -> HS unit) (out : nat * tcb -> list shell_event) :
  (forall i, loop O i = mret tt) ->
  (forall n i, loop (S n) i =
    (t ← ask_kernel (rd_task (get_task L (Z.of_nat i)) id);
     (if bool_decide (t_state t = TASK_UNUSED) then mret tt else body i t);; loop n (S i))) ->
  slots_known ->
  (forall i t, (i < N_TASKS)%nat -> tasks k !! task_slot L i = Some t -> t_state t <> TASK_UNUSED ->
    says (body i t) tt (out (i, t))) ->
  says (loop N_TASKS 0%nat) tt (flat_map out used_tasks).
Proof using Ek.
  intros E0 ES Hs Hb. unfold used_tasks. set (sel := fun i : nat => _).
  enough (forall n i, (i + n <= N_TASKS)%nat -> says (loop n i) tt (flat_map out (omap sel (seq i n)))) as H
    by (apply H; lia).
  induction n as [|n IH]; intros i Hi; [rewrite E0; apply says_ret|].
  rewrite ES, get_task_slot by lia. destruct (Hs i ltac:(lia)) as [t Ht].
  eapply says_read; [by apply says_task|]. cbn [seq].
  change (omap sel (i :: seq (S i) n)) with
    (match sel i with Some y => y :: omap sel (seq (S i) n) | None => omap sel (seq (S i) n) end).
  assert (sel i = if bool_decide (t_state t = TASK_UNUSED) then None else Some (i, t)) as -> by
    (unfold sel; by rewrite Ht).
  case_bool_decide as E.
  - eapply says_read; [apply says_ret|]. apply IH. lia.
  - cbn [flat_map]. apply says_seq; [by apply Hb; [lia|..]|]. apply IH. lia.
Qed.

Lemma says_name p : p = NULL \/ is_Some (cstring_at p) -> says (read_name cstring_at p) (name_of p) [].
Proof using.
  intros Hp. unfold read_name, name_of. destruct (Z.eqb_spec p NULL) as [|Hn]; [apply says_ret|].
  destruct Hp as [?|[s Hs]]; [done|]. rewrite Hs. eapply says_read; [|apply says_ret].
  by apply says_fetch.
Qed.

Lemma says_ps_line i t :
  (i < N_TASKS)%nat -> t_name t = NULL \/ is_Some (cstring_at (t_name t)) ->
  says (ps_line L cstring_at i t) tt [ps_row (i, t)].
Proof using Ek.
  intros Hi Hn. unfold ps_line. eapply says_read; [by apply says_name|].
  eapply says_read; [apply says_gets|]. rewrite get_task_slot by done. apply says_say.
Qed.

Lemma says_ps : slots_known -> names_readable -> says (cli_cmd_ps L cstring_at) tt ps_report.
Proof using Ek.
  intros Hs Hn. unfold cli_cmd_ps, ps_report, say_f, say_ln. apply says_then, says_then.
  replace (ps_row <$> used_tasks) with (flat_map (fun it => [ps_row it]) used_tasks)
    by (induction used_tasks as [|x l IH]; [done|cbn; by rewrite IH]).
  apply (slot_loop (ps_line L cstring_at) (ps_loop L cstring_at) _ (fun _ => eq_refl) (fun _ _ => eq_refl) Hs).
  intros i t Hi Ht Hu. destruct (Hn i t Hi Ht Hu). apply says_ps_line; [done|by right].
Qed.

Lemma says_help : says cli_cmd_help tt help_report.
Proof using.
  unfold cli_cmd_help, help_report. generalize commands.
  induction l as [|cmd cmds IH]; [apply says_ret|]. by apply says_then.
Qed.

(** The kernel links lists: the mutexes of each task and their queues. *)
Definition lists_linked : Prop :=
  (forall x t, tasks k !! x = Some t -> exists l, mseg (mutexes k) (t_owned_mutexes t) l /\ NoDup l) /\
  (forall m v, mutexes k !! m = Some v -> exists l, queue_rep (tasks k) (m_wait_queue v) l).

Lemma says_mutex_rows i fuel p l :
  lists_linked -> mseg (mutexes k) p l -> (length l < fuel)%nat ->
  says (mutex_rows fuel (Z.of_nat i) 0 p) tt (mutex_row i <$> l).
Proof using Ek.
  intros [_ Hq]. revert p l. induction fuel as [|fuel IH]; intros p l Hl Hf; [lia|]. cbn [mutex_rows].
  destruct l as [|m l]; [cbn in Hl; subst p; apply says_ret|].
  destruct Hl as (-> & Hm & v & Hv & Hl). rewrite (proj2 (Z.eqb_neq _ _) Hm).
  destruct (Hq _ _ Hv) as [w Hw].
  assert (waiters m = w) as Ew.
  { unfold waiters. rewrite Hv. destruct Hw as (Hw & _ & Hnd). pose proof (lseg_length _ _ _ _ Hw Hnd).
    apply (task_chain_ok (S (size (tasks k))) _ _ w Hw). lia. }
  eapply says_read; [by apply says_ask, (mutex_get_waiting_ok k m v)|]. rewrite fmap_cons.
  unfold mutex_row at 1. rewrite Ew. apply says_then. eapply says_read.
  - apply says_ask. unfold rd_mutex, fetch. by rewrite Hv.
  - apply IH; [done|cbn in Hf; lia].
Qed.

Lemma says_mutex : slots_known -> lists_linked -> says (cli_cmd_mutex L) tt mutex_report.
Proof using Ek.
  intros Hs Hk. unfold cli_cmd_mutex, mutex_report, say_ln, say_f. do 3 apply says_then.
  apply (slot_loop (fun i t => _) (mutex_loop L) _ (fun _ => eq_refl) (fun _ _ => eq_refl) Hs).
  intros i t Hi Ht Hu. cbn beta. cbn [fst snd]. destruct (proj1 Hk _ _ Ht) as (l & Hl & Hnd).
  pose proof (mseg_length _ _ _ Hl Hnd). eapply says_read; [by apply says_gets|].
  unfold owned_by. rewrite (mutex_chain_ok _ _ _ l Hl) by lia.
  apply says_mutex_rows; [done|done|lia].
Qed.

Lemma says_key slot n j :
  (j + n <= length (l_key slot))%nat ->
  says (key_loop n j slot) tt ((fun b => Say (lit "%x") [VInt b]) <$> take n (drop j (l_key slot))).
Proof using.
  revert j. induction n as [|n IH]; intros j Hj; [apply says_ret|]. cbn [key_loop].
  destruct (lookup_lt_is_Some_2 (l_key slot) j) as [b Hb]; [lia|].
  eapply says_read; [by apply says_fetch|]. rewrite (drop_S _ _ _ Hb). cbn [take].
  rewrite fmap_cons. apply says_then, IH. lia.
Qed.

Definition leases_ok : Prop :=
  table_wf leases /\ Forall (fun s => 0 <= l_key_len s <= 16) (t_slots leases).

Lemma says_labels ls : says (say_labels ls) tt ((fun l => Say (l ++ [9]) []) <$> ls).
Proof using. induction ls as [|l ls IH]; [apply says_ret|]. by apply says_then. Qed.

Lemma says_lease_row i slot :
  length (l_key slot) = 16%nat -> 0 <= l_key_len slot <= 16 ->
  says (if l_state slot =? LEASE_ST_FREE then mret tt else lease_row leases i slot) tt (lease_report i slot).
Proof using.
  intros Hk Hl. unfold lease_report. destruct (_ =? _); [apply says_ret|]. unfold lease_row.
  apply says_seq; [apply says_labels|]. unfold say_f. apply says_then.
  apply (says_seq (key_loop _ _ _)); [|apply says_say]. unfold key_report.
  rewrite <- (drop_0 (l_key slot)). apply says_key. lia.
Qed.

Lemma says_leases : leases_ok -> says cli_cmd_leasetable tt leasetable_report.
Proof using.
  intros [[Hsz _ Hk] Hl]. unfold cli_cmd_leasetable, leasetable_report, say_ln, say_f. apply says_then.
  eapply (says_read (gets h_leases) _ leases); [intros es; unfold gets; by rewrite app_nil_r|]. cbn beta.
  case_bool_decide as E; [apply says_say|].
  assert ((t_size leases =? 0) = false) as ->.
  { apply Z.eqb_neq. rewrite <- Hsz. destruct (t_slots leases); [done|cbn; lia]. }
  cbn [orb]. do 2 apply says_then. rewrite <- Hsz, Nat2Z.id.
  enough (forall pre rest, t_slots leases = pre ++ rest ->
    says (lease_loop (length rest) (length pre) leases) tt
      (concat (imap (fun j => lease_report (length pre + j)) rest))) as H by (by apply (H [])).
  intros pre rest. revert pre. induction rest as [|slot rest IH]; intros pre Ep; [apply says_ret|].
  cbn [length lease_loop]. assert (t_slots leases !! length pre = Some slot) as Hs.
  { by rewrite Ep, lookup_app_r, Nat.sub_diag by lia. }
  eapply says_read; [by apply says_fetch|]. rewrite imap_cons. cbn [concat]. rewrite Nat.add_0_r.
  apply says_seq.
  - apply says_lease_row; [apply (proj1 (Forall_lookup _ _) Hk _ _ Hs)|apply (proj1 (Forall_lookup _ _) Hl _ _ Hs)].
  - specialize (IH (pre ++ [slot])). rewrite <- app_assoc in IH. specialize (IH Ep).
    rewrite length_app in IH. cbn [length] in IH. rewrite Nat.add_1_r in IH.
    rewrite (imap_ext _ (fun j => lease_report (S (length pre) + j))); [exact IH|].
    intros j x _. cbn. f_equal. lia.
Qed.

Lemma says_spioff : says (cli_cmd_spioff peek) tt spioff_report.
Proof using.
  unfold cli_cmd_spioff, spioff_report. apply (says_seq _ _ _ [_; _] [_]); [|apply says_say].
  unfold reg_and_not. apply (says_bind _ _ (peek SPI1_CR1) tt [_] [_]); [|apply says_say].
  apply (says_bind _ _ tt _ [_] []); [apply says_say|apply says_ret].
Qed.
Lemma says_reboot : says (cli_cmd_reboot peek) tt reboot_report.
Proof using. unfold cli_cmd_reboot, reboot_report, say_s, say_f. do 3 apply says_then. apply says_say. Qed.

Definition returns (f : cli_command_fn) : bool :=
  match f with Cli.cli_cmd_reboot => false | _ => true end.

(** Every command but the link command. *)
Lemma says_command tw hs he status_at reply_at sz others base blocks f :
  slots_known -> names_readable -> lists_linked -> heap_rep false h base blocks -> leases_ok ->
  f <> Cli.cli_cmd_link ->
  says (run_command L tw hs he cstring_at img peek status_at reply_at sz others f) (returns f) (report blocks f).
Proof using Ek Eh.
  intros Hs Hn Hk Hh Hl Hf.
  assert (forall m (r : bool) out, says m tt out -> says (m;; mret r) r out) as Hret.
  { intros m r out Hm. rewrite <- (app_nil_r out). by eapply says_seq, says_ret. }
  destruct f; try (by destruct Hf); cbn [run_command]; apply Hret.
  - apply says_help.
  - by apply says_ps.
  - eapply says_read; [apply says_gets|apply says_say].
  - unfold cli_cmd_mem, say_ln, say_f. do 8 apply says_then. apply says_say.
  - unfold cli_cmd_heap. eapply says_read; [|unfold say_ln, say_f; do 6 apply says_then; apply says_say].
    intros es. unfold ask_heap, in_system. cbn [h_sys].
    rewrite (heap_free_size_ok base blocks), set_y_heap_id, app_nil_r by (by rewrite Eh). done.
  - by apply says_mutex.
  - apply says_say.
  - apply says_spioff.
  - by apply says_leases.
  - apply says_reboot.
Qed.
End reports.

(** ** The state the commands need *)

Record shell_ok {D} (L : layout) (cstring_at : ptr -> option bytes) (blocks : list block) (s : shell D) : Prop := {
  sh_kernel : kernel_ok (y_k (h_sys s));
  sh_slots : slots_known L (y_k (h_sys s));
  sh_names : names_readable L cstring_at (y_k (h_sys s));
  sh_heap : exists base, heap_rep false (y_heap (h_sys s)) base blocks;
  sh_leases : leases_ok (h_leases s);
}.

Lemma kernel_lists k : kernel_ok k -> lists_linked k.
Proof.
  intros (a & Hs & Ha & _). split.
  - intros x t Ht.
    destruct (ki_owned _ Ha x _ (view_task_some _ _ _ _ Hs Ht)) as (l & Hl & Hnd & _). exists l.
    split; [|done]. eapply mseg_ext; [|exact Hl]. intros m _. rewrite (Boot.view_mutex _ _ Hs).
    by destruct (mutexes k !! m).
  - intros m v Hv. exists (aq a (QMutex m)). apply (abs_queue _ _ Hs). cbn. by rewrite Hv.
Qed.

Section run.
Context {D : Type} (L : layout) (tw hs he : ptr) (cstring_at : ptr -> option bytes) (img : image).
Context (peek : Z -> Z) (status_at reply_at sz : Z) (others : sys D -> sys D).
Abbreviation run := (run_command L tw hs he cstring_at img peek status_at reply_at sz others).

Lemma run_command_ok blocks f s :
  shell_ok L cstring_at blocks s -> f <> Cli.cli_cmd_link ->
  run f s = Ok (returns f, Shell (h_sys s) (h_leases s)
    (h_events s ++ report L cstring_at img peek (y_k (h_sys s)) (h_leases s) blocks f)).
Proof using.
  intros [Hk Hs Hn [base Hh] Hl] Hf. destruct s as [y t es].
  apply (says_command L cstring_at img peek (y_k y) (y_heap y) t y eq_refl eq_refl tw hs he status_at reply_at sz
    others base blocks f); try done. by apply kernel_lists.
Qed.

(** The link command makes its call and prints what is in [status] when it goes
    on. *)
Lemma link_runs s y' :
  sys_net_link L tw hs he status_at reply_at (link_locals status_at reply_at sz (h_sys s)) = Ok (tt, y') ->
  run Cli.cli_cmd_link s = Ok (true, Shell (others y') (h_leases s)
    (h_events s ++ [ln "Link status: %d" [VInt (ram_u32 status_at (others y'))]])).
Proof using.
  intros E. cbn [run_command]. unfold cli_cmd_link. rewrite !prog_bind_assoc.
  rewrite (prog_bind_ok _ _ s tt (Shell (others y') (h_leases s) (h_events s))); [done|].
  unfold in_system. rewrite (prog_bind_ok (modify _) _ _ tt (link_locals status_at reply_at sz (h_sys s))) by done.
  by rewrite (prog_bind_ok _ _ _ tt y').
Qed.
End run.

(** ** The formats of the reports *)

Definition event_typed (e : shell_event) : bool :=
  match e with Say fmt args => well_typed fmt args | _ => true end.

Lemma forallb_map {A} (f : A -> shell_event) (l : list A) :
  (forall x, event_typed (f x) = true) -> forallb event_typed (f <$> l) = true.
Proof. intros H. induction l as [|x l IH]; [done|]. rewrite fmap_cons. cbn [forallb]. by rewrite H, IH. Qed.
Lemma forallb_flat_map {A} (f : A -> list shell_event) (l : list A) :
  (forall x, forallb event_typed (f x) = true) -> forallb event_typed (flat_map f l) = true.
Proof. intros H. induction l as [|x l IH]; [done|]. cbn [flat_map]. by rewrite forallb_app, H, IH. Qed.

Lemma lease_report_typed t i slot : forallb event_typed (lease_report t i slot) = true.
Proof.
  unfold lease_report. destruct (_ =? LEASE_ST_FREE); [done|]. rewrite !forallb_app, !andb_true_iff.
  split_and!; [|by vm_compute| |by vm_compute].
  - unfold lease_state_label. by destruct (_ =? _), (_ =? _), (_ =? _); vm_compute.
  - apply forallb_map. intros b. by vm_compute.
Qed.

(** The names in the list of tasks are those of used slots. *)
Lemma ps_report_typed L cstring_at k :
  names_readable L cstring_at k -> forallb event_typed (ps_report L cstring_at k) = true.
Proof.
  intros Hn. unfold ps_report. cbn [forallb]. rewrite !andb_true_iff. split_and!; [by vm_compute..|].
  apply forallb_forall. intros e (it & -> & Hi)%list_elem_of_In%list_elem_of_fmap.
  apply list_elem_of_omap in Hi as (i & Hi & E). apply elem_of_seq in Hi.
  destruct (tasks k !! task_slot L i) as [t|] eqn:Et; [|done]. cbn in E.
  case_bool_decide as Hu; [done|]. injection E as <-.
  destruct (Hn i t ltac:(lia) Et Hu) as [Hp [s Hs]]. unfold ps_row, name_of.
  rewrite (proj2 (Z.eqb_neq _ _) Hp), Hs. by vm_compute.
Qed.

Lemma report_typed L cstring_at img peek k t blocks f :
  names_readable L cstring_at k ->
  forallb event_typed (report L cstring_at img peek k t blocks f) = true.
Proof.
  intros Hn. destruct f; cbn [report].
  - by vm_compute.
  - by apply ps_report_typed.
  - by vm_compute.
  - by vm_compute.
  - by vm_compute.
  - unfold mutex_report. cbn [forallb]. rewrite forallb_flat_map; [by vm_compute|].
    intros x. apply forallb_map. intros m. by vm_compute.
  - by vm_compute.
  - by vm_compute.
  - by vm_compute.
  - unfold leasetable_report. cbn [forallb]. case_bool_decide; [by vm_compute|]. cbn [forallb].
    assert (forallb event_typed (concat (imap (lease_report t) (t_slots t))) = true) as Hl; [|rewrite Hl; by vm_compute].
    generalize (t_slots t). intros l. induction l as [|s l IH] using rev_ind; [done|].
    rewrite imap_app, concat_app, forallb_app, IH. cbn [imap concat andb].
    by rewrite app_nil_r, lease_report_typed.
  - by vm_compute.
Qed.
