(* ===== verification/ShellProps.v ===== *)
(** * Theorems about formats, the shell commands and the printers *)
From Stdlib Require Import Ascii String.
From S2P Require Import Prelude Utils KState Queue Abs Scheduler Semaphore Invariant Mutex Pool Tcb.
From S2P Require Import Kernel Guarantees Boot Heap HeapSpec HeapProps Kprintf KprintfSpec FormatTypes.
From S2P Require Import Cli Console Syscall SyscallProps UserCalls Mailbox MailboxProps Dhcp Lease Spi ServerSpec Net Printers Shell ShellSpec DhcpProps.

(** ** Format strings *)


(** ** The commands *)

(** The names that [main] gives to its tasks, at some address. *)
Definition named (js : list nat) (k : kstate) : kstate :=
  fold_left (fun k i => match task_set_name (demo_task i) 0x100 k with Ok (_, k') => k' | Trap _ => k end) js k.

Lemma set_name_ok x p k k' : kernel_ok k -> task_set_name x p k = Ok (tt, k') -> kernel_ok k'.
Proof.
  intros (a & Hs & Ha & Hc). unfold task_set_name. destruct (negb (x =? NULL)).
  2: { intros [= <-]. by exists a. }
  intros E. destruct (tasks k !! x) as [t|] eqn:Ht.
  2: { unfold upd_task, fetch, mbind, prog_bind in E. by rewrite Ht in E. }
  pose proof (view_task_some _ _ _ _ Hs Ht) as Hta.
  destruct (runs_upd_task' a x (strip t) (set_t_name p) Hta ltac:(done) ltac:(done) k Hs) as (k1 & E1 & Hs1).
  rewrite E in E1. injection E1 as <-.
  destruct (upd_task_kinv a x (strip t) (set_t_name p)) as [Hm Hi]; [done..|].
  eexists. split; [exact Hs1|]. split; [done|]. eapply moved_kcur; [exact Hm|done|done| |].
  - apply (kc_running _ Hc _ _ Hta).
  - apply (kc_dead _ Hc _ _ Hta).
Qed.

Lemma named_ok js k : kernel_ok k -> kernel_ok (named js k).
Proof.
  revert k. induction js as [|i js IH]; intros k Hk; [done|]. cbn. apply IH.
  destruct (task_set_name _ _ k) as [[[] k']|] eqn:E; [|done]. by eapply set_name_ok.
Qed.

Definition demo_names (p : ptr) : option bytes := if p =? 0x100 then Some (lit "task") else None.
Definition demo_image : image :=
  Image 0x20000000 0x20000100 0x20000100 0x20008000 demo_start 0x20020000.
Definition demo_shell : shell unit :=
  Shell (demo_sys (named (seq 0 N_TASKS) (Boot.after demo_chain)) two_blocks) demo_table [].

Lemma demo_shell_ok : shell_ok demo_layout demo_names demo_two_blocks demo_shell.
Proof.
  split.
  - by apply named_ok, after_ok; vm_compute.
  - intros i Hi. do 8 (destruct i as [|i]; [eexists; by vm_compute|]). unfold N_TASKS in Hi. lia.
  - intros i t Hi Ht _.
    assert (check_tasks (fun t => t_name t =? 0x100) (y_k (h_sys demo_shell)) = true) as H by by vm_compute.
    pose proof (check_tasks_ok _ _ _ _ H Ht) as E. clear H Ht. apply Z.eqb_eq in E. rewrite E.
    split; [discriminate|by eexists].
  - exists demo_start. destruct demo_two_rep as [H1 H2 H3]. split; [done|done|by apply chain_weaken].
  - split; [split; [done|done|by repeat constructor]|]. by repeat constructor.
Qed.

(** The demonstration shell: the locals of the link command are on the stack,
    and nothing else happens while it waits. *)
Abbreviation demo_run :=
  (run_command demo_layout demo_wrapper demo_start 0x20020000 demo_names demo_image (fun _ => 0)
     0x2001F000 0x2001F010 12 (fun y => y)).



(** The [link] command leaves its request in the mailbox and blocks until the
    network task answers, whatever the system does meanwhile ([others]); then
    it prints what is in its local [status]. *)
Theorem link_waits {D} L tw hs he cstring_at img peek status_at reply_at sz others (s : shell D) n server l :
  layout_ok L -> is_ptr status_at -> is_ptr reply_at -> mailbox (h_sys s) n (server :: l) [] ->
  let me := current_task (y_k (h_sys s)) in
  exists y', kernel_ok (y_k y') /\
    net_take y' = Ok (Some (call_request (CallLink status_at reply_at) (h_sys s)), y') /\
    stat_of (y_k y') server = Some (TASK_READY, NULL, NONE) /\
    stat_of (y_k y') me = Some (TASK_BLOCKED, n_done (y_net (h_sys s)), SEM) /\
    run_command L tw hs he cstring_at img peek status_at reply_at sz others Cli.cli_cmd_link s =
      Ok (true, Shell (others y') (h_leases s)
        (h_events s ++ [ln "Link status: %d" [VInt (ram_u32 status_at (others y'))]])).
Proof.
  intros HL H1 H2 Hm me. set (y0 := link_locals status_at reply_at sz (h_sys s)).
  assert (mailbox y0 n (server :: l) []) as Hm0 by (destruct Hm; by split).
  destruct (network_call_mails L tw hs he HL (CallLink status_at reply_at) y0 n _ _ (conj H1 H2) Hm0) as (y' & E & M).
  exists y'. split_and!; [apply M| |by apply M|apply M|by apply link_runs].
  rewrite net_take_slot. by rewrite (ml_slot _ _ _ _ _ _ M).
Qed.

Lemma link_waits_witness :
  exists y', stat_of (y_k y') (demo_task 1) = Some (TASK_READY, NULL, NONE) /\
    demo_run Cli.cli_cmd_link (Shell demo_mail demo_table []) =
      Ok (true, Shell y' demo_table [ln "Link status: %d" [VInt (ram_u32 0x2001F000 y')]]).
Proof.
  destruct (link_waits demo_layout demo_wrapper demo_start 0x20020000 demo_names demo_image (fun _ => 0)
    0x2001F000 0x2001F010 12 (fun y => y) (Shell demo_mail demo_table []) 0 _ [] demo_layout_ok
    ltac:(unfold is_ptr; lia) ltac:(unfold is_ptr; lia) demo_mailbox) as (y' & _ & _ & Es & _ & E).
  exists y'. split; [exact Es|exact E].
Defined.

(** C35: Every call of [kprintf] that a command makes has arguments of the
    kinds its format asks for, so it returns; for [ps] because every used slot
    has a name ([shell_ok]). *)
Theorem command_prints_typed {D} L tw hs he cstring_at img peek status_at reply_at sz others blocks f (s : shell D) :
  shell_ok L cstring_at blocks s -> f <> Cli.cli_cmd_link ->
  exists r s', run_command L tw hs he cstring_at img peek status_at reply_at sz others f s = Ok (r, s') /\
    forall fmt args, Say fmt args ∈ drop (length (h_events s)) (h_events s') ->
      well_typed fmt args = true /\ forall buf, exists n out, kprintf buf fmt args = Ok (n, out).
Proof.
  intros Hs Hf. eexists _, _. split; [by apply run_command_ok|]. cbn [h_events].
  rewrite drop_app_length. intros fmt args He.
  assert (well_typed fmt args = true) as Ht.
  { apply (proj1 (forallb_forall event_typed _) (report_typed L cstring_at img peek _ (h_leases s) blocks f
      (sh_names _ _ _ _ Hs)) (Say fmt args)). by apply list_elem_of_In. }
  split; [done|]. intros buf. pose proof (kvsnprintf_typed buf KPRINTF_BUF_SIZE fmt args) as H.
  rewrite Ht in H. destruct H as (n & out & E & _). unfold kprintf. rewrite E. cbn. by eauto.
Qed.

Lemma command_prints_typed_witness :
  exists r s', demo_run Cli.cli_cmd_ps demo_shell = Ok (r, s') /\
    forall fmt args, Say fmt args ∈ drop 0 (h_events s') ->
      well_typed fmt args = true /\ forall buf, exists n out, kprintf buf fmt args = Ok (n, out).
Proof. apply (command_prints_typed _ _ _ _ _ _ _ _ _ _ _ _ _ _ demo_shell_ok). discriminate. Defined.

(** ** The printers *)

(** C36: A task that prints a message or an error prints all of it: every line
    fits into the buffer of [uprintf]. *)
Theorem printers_complete (buf : bytes) (l : line) m status err t :
  Z.of_nat (length buf) = UPRINTF_BUF_SIZE ->
  l ∈ dhcp_msg_print m ++ print_net_error status ++ print_dhcp_error err ++ dhcp_print_msg_type t ->
  exists w, render l.1 l.2 = Ok w /\ uprintf buf l.1 l.2 = Ok (Z.of_nat (length w), u8 <$> w).
Proof.
  intros Hb Hl. apply line_fits_uprintf; [|done].
  pose proof (proj1 (forallb_forall line_fits (dhcp_msg_print m ++ print_net_error status ++
    print_dhcp_error err ++ dhcp_print_msg_type t))) as H.
  apply H; [|by apply list_elem_of_In].
  by rewrite !forallb_app, dhcp_msg_print_fits, print_net_error_fits, print_dhcp_error_fits,
    dhcp_print_msg_type_fits.
Qed.

Lemma printers_complete_witness :
  exists w, render (lit "CIADDR" ++ lit ": %d.%d.%d.%d" ++ Printers.crlf) (byte_args [0; 0; 0; 0] 4) = Ok w /\
    uprintf (repeat 0 128) (lit "CIADDR" ++ lit ": %d.%d.%d.%d" ++ Printers.crlf) (byte_args [0; 0; 0; 0] 4) =
      Ok (Z.of_nat (length w), u8 <$> w).
Proof.
  apply (printers_complete (repeat 0 128) (addr_line "CIADDR" (m_ciaddr demo_msg)) demo_msg
    NET_STATUS_OK DHCP_OK 0); [done|].
  apply elem_of_app. left. apply (list_elem_of_lookup_2 _ 3). by vm_compute.
Defined.

(** ** Names *)

Section names.
Context {D : Type} (L : layout) (tw hs he : ptr) (cstring_at : ptr -> option bytes) (img : image) (peek : Z -> Z).
Context (status_at reply_at sz : Z) (others : sys D -> sys D).

Lemma ps_loop_faults (y : sys D) t es n j i x (k := y_k y) :
  slots_known L k -> (j <= i < j + n)%nat -> (j + n <= N_TASKS)%nat ->
  tasks k !! task_slot L i = Some x -> t_state x <> TASK_UNUSED -> t_name x <> NULL ->
  cstring_at (t_name x) = None ->
  ps_loop L cstring_at n j (Shell y t es) = Trap Fault.
Proof using.
  intros Hs Hi Hn Hx Hu Hp Hc. revert j es Hi Hn. induction n as [|n IH]; intros j es Hi Hn; [lia|].
  cbn [ps_loop]. rewrite get_task_slot by lia. destruct (Hs j ltac:(lia)) as [tj Htj].
  rewrite (prog_bind_ok _ _ _ _ _ (says_task k t y eq_refl _ _ Htj es)), app_nil_r.
  destruct (decide (j = i)) as [->|].
  - simplify_eq. rewrite bool_decide_false by done. apply prog_bind_trap. unfold ps_line, read_name.
    rewrite (proj2 (Z.eqb_neq _ _) Hp). unfold fetch, mbind, prog_bind. by rewrite Hc.
  - case_bool_decide as E; [rewrite (prog_bind_ok _ _ _ tt (Shell y t es)) by done; apply IH; lia|].
    destruct (decide (t_name tj = NULL \/ is_Some (cstring_at (t_name tj)))) as [Hr|Hr].
    + rewrite (prog_bind_ok _ _ _ _ _ (says_ps_line L cstring_at k t y eq_refl j tj ltac:(lia) Hr es)).
      apply IH; lia.
    + apply prog_bind_trap. unfold ps_line, read_name.
      rewrite (proj2 (Z.eqb_neq _ _)) by (intros ?; apply Hr; by left). unfold fetch, mbind, prog_bind.
      destruct (cstring_at (t_name tj)); [exfalso; apply Hr; right; by eexists|done].
Qed.

(** [SYS_TASK_SET_NAME] takes any pointer as the name of a task; the next
    [ps] reads from it, with the privileges of the shell. *)
Theorem set_name_faults_ps (y : sys D) t es i x p a2 a3 :
  layout_ok L -> slots_known L (y_k y) -> (i < N_TASKS)%nat ->
  tasks (y_k y) !! task_slot L i = Some x -> t_state x <> TASK_UNUSED ->
  p <> NULL -> cstring_at p = None ->
  exists y', svc_dispatch L tw hs he (task_slot L i) p a2 a3 14 y = Ok (0, y') /\
    run_command L tw hs he cstring_at img peek status_at reply_at sz others Cli.cli_cmd_ps (Shell y' t es) = Trap Fault.
Proof using.
  intros HL Hs Hi Hx Hu Hp Hc.
  set (k' := set_tasks (<[task_slot L i := set_t_name p x]> (tasks (y_k y))) (y_k y)).
  exists (set_y_k k' y). split.
  - unfold svc_dispatch. change (syscall_of 14) with (Some SYS_TASK_SET_NAME).
    rewrite (prog_bind_ok _ _ y (0, false) (set_y_k k' y)); [done|]. unfold svc_case.
    rewrite (prog_bind_ok _ _ y (current_task (y_k y)) y) by done.
    assert (validate_task L (task_slot L i) = true) as Hv.
    { apply (validate_member _ _ _ N_TASKS); [apply HL| |apply HL|done]. pose proof (lo_tasks _ HL). lia. }
    rewrite Hv. cbn [negb]. rewrite (prog_bind_ok _ _ y tt (set_y_k k' y)); [done|].
    unfold in_kernel, task_set_name. rewrite (proj2 (Z.eqb_neq _ _) (task_slot_nonnull L HL i)). cbn [negb].
    unfold upd_task, fetch, mbind, prog_bind. by rewrite Hx.
  - cbn [run_command y_k set_y_k]. apply prog_bind_trap. unfold cli_cmd_ps.
    do 2 (rewrite (prog_bind_ok _ _ _ tt (Shell (set_y_k k' y) t (_ ++ [_]))) by reflexivity).
    apply (ps_loop_faults _ _ _ _ _ i (set_t_name p x)); try done.
    + intros j Hj. cbn. destruct (decide (task_slot L i = task_slot L j)) as [->|];
        [rewrite lookup_insert_eq|rewrite lookup_insert_ne by done]; [done|by apply Hs].
    + lia.
    + cbn. by rewrite lookup_insert_eq.
Qed.
End names.

Definition demo_text : ptr -> option bytes := fun p => if p <? 2 ^ 30 then Some (lit "task") else None.
Lemma set_name_faults_ps_witness :
  exists y', svc_dispatch demo_layout demo_wrapper demo_start 0x20020000 (demo_task 1) 0xFFFFFFF0 0 0 14
      demo_sys_two = Ok (0, y') /\
    run_command demo_layout demo_wrapper demo_start 0x20020000 demo_text demo_image (fun _ => 0)
      0x2001F000 0x2001F010 12 (fun y => y) Cli.cli_cmd_ps (Shell y' demo_table []) = Trap Fault.
Proof.
  assert (exists t, tasks (y_k demo_sys_two) !! demo_task 1 = Some t /\ t_state t <> TASK_UNUSED) as (t & Ht & Hu)
    by (eexists; split; [by vm_compute|done]).
  refine (set_name_faults_ps demo_layout demo_wrapper demo_start 0x20020000 demo_text demo_image (fun _ => 0)
    0x2001F000 0x2001F010 12 (fun y => y) demo_sys_two demo_table [] 1 t 0xFFFFFFF0 0 0 demo_layout_ok _ _ Ht Hu _ _).
  - intros i Hi. do 8 (destruct i as [|i]; [eexists; by vm_compute|]). unfold N_TASKS in Hi. lia.
  - unfold N_TASKS. lia.
  - discriminate.
  - by vm_compute.
Defined.
