(* ===== verification/Platform.v ===== *)
(** * The processor and clock registers ([clock.c], [mpu.c], [scb.h], [nvic.h],
    [fpu_init], [systick_init], [usart2_init])

    Programs over the register interface [Mmio]; a log of accesses and an
    unknown hardware is one instance.  A wait for a bit is bounded by fuel. *)
From S2P Require Import Prelude Utils Spi.

(** ** Registers *)

Definition FLASH_ACR : Z := 0x40023C00.
Definition FLASH_ACR_LATENCY_2WS : Z := 0x2.
Definition FLASH_ACR_PRFTEN : Z := Z.shiftl 1 8.
Definition FLASH_ACR_ICEN : Z := Z.shiftl 1 9.
Definition FLASH_ACR_DCEN : Z := Z.shiftl 1 10.

Definition RCC_CR : Z := 0x40023800.
Definition RCC_PLLCFGR : Z := 0x40023804.
Definition RCC_CFGR : Z := 0x40023808.
Definition RCC_APB1ENR : Z := 0x40023840.
Definition RCC_CR_HSION : Z := Z.shiftl 1 16.
Definition RCC_CR_HSIRDY : Z := Z.shiftl 1 17.
Definition RCC_CR_PLLON : Z := Z.shiftl 1 24.
Definition RCC_CR_PLLRDY : Z := Z.shiftl 1 25.
Definition RCC_PLLCFGR_PLLM_Pos : Z := 0.
Definition RCC_PLLCFGR_PLLN_Pos : Z := 6.
Definition RCC_PLLCFGR_PLLP_Pos : Z := 16.
Definition RCC_PLLCFGR_PLLQ_Pos : Z := 24.
Definition RCC_CFGR_SW_Msk : Z := Z.shiftl 3 0.
Definition RCC_CFGR_SW_PLL : Z := Z.shiftl 2 0.
Definition RCC_CFGR_SWS_Msk : Z := Z.shiftl 3 2.
Definition RCC_CFGR_SWS_PLL : Z := Z.shiftl 2 2.
Definition RCC_CFGR_HPRE_Msk : Z := Z.shiftl 0xF 4.
Definition RCC_CFGR_PRE1_Msk : Z := Z.shiftl 7 10.
Definition RCC_CFGR_PPRE1_DIV2 : Z := Z.shiftl 4 10.
Definition RCC_CFGR_PRE2_Msk : Z := Z.shiftl 7 13.
Definition RCC_APB1ENR_USART2EN : Z := Z.shiftl 1 17.

Definition CPACR : Z := 0xE000ED88.
Definition CPACR_CP_FULL_ACCESS : Z := 3.
Definition CPACR_CP_Pos (num : Z) : Z := 2 * num.
Definition FPCCR : Z := 0xE000EF34.
Definition FPCCR_LSPEN_Pos : Z := 30.
Definition FPCCR_ASPEN_Pos : Z := 31.

(** [SCB->SHPR[i]], [NVIC->ISER[i]], [NVIC->IPR[i]] *)
Definition SCB_SHPR (i : Z) : Z := 0xE000ED18 + 4 * i.
Definition SCB_SHCSR : Z := 0xE000ED24.
Definition SCB_SHCSR_MEMFAULTENABLE : Z := Z.shiftl 1 16.
Definition SYSTICK_SHPR : Z := 3.
Definition PENDSV_SHPR : Z := 3.
Definition SVCALL_SHPR : Z := 2.
Definition SYSTICK_PRIORITY_POS : Z := 24.
Definition PENDSV_PRIORITY_POS : Z := 16.
Definition SVCALL_PRIORITY_POS : Z := 24.
Definition NVIC_ISER (i : Z) : Z := 0xE000E100 + 4 * i.
Definition NVIC_IPR (i : Z) : Z := 0xE000E400 + i.
Definition USART2_IRQ : Z := 38.

Definition STK_CTRL : Z := 0xE000E010.
Definition STK_LOAD : Z := 0xE000E014.
Definition STK_VAL : Z := 0xE000E018.
Definition STK_CTRL_ENABLE : Z := 1.
Definition STK_CTRL_TICKINT : Z := Z.shiftl 1 1.
Definition STK_CTRL_CLKSOURCE : Z := Z.shiftl 1 2.

Definition MPU_CTRL : Z := 0xE000ED94.
Definition MPU_RNR : Z := 0xE000ED98.
Definition MPU_RBAR : Z := 0xE000ED9C.
Definition MPU_RASR : Z := 0xE000EDA0.
Definition MPU_RASR_XN_Pos : Z := 28.
Definition MPU_RASR_AP_Pos : Z := 24.
Definition MPU_RASR_SIZE_Pos : Z := 1.
Definition MPU_RASR_ENABLE_Pos : Z := 0.
Definition MPU_AP_RW_RW : Z := 3.
Definition MPU_AP_RO_RO : Z := 6.
Definition MPU_AP_RW___ : Z := 1.
Definition MPU_CTRL_ENABLE_Pos : Z := 0.
Definition MPU_CTRL_PRIVDEFENA_Pos : Z := 2.
Definition MPU_REGION_FLASH : Z := 0.
Definition MPU_REGION_TASK_STACK : Z := 1.
Definition MPU_REGION_HEAP : Z := 2.
Definition MPU_REGION_KERNEL_STACK : Z := 7.

Definition USART2_BRR : Z := 0x40004408.
Definition USART2_CR1 : Z := 0x4000440C.
Definition USART_ENABLE_RE : Z := Z.shiftl 1 2.
Definition USART_ENABLE_TE : Z := Z.shiftl 1 3.
Definition USART_ENABLE_RXNEIE : Z := Z.shiftl 1 5.
Definition USART_ENABLE : Z := Z.shiftl 1 13.

Section platform.
Context {S : Type} `{Mmio S}.

(** [while ((reg & mask) != want);] with at most [fuel] reads. *)
Fixpoint poll (fuel : nat) (reg mask want : Z) : prog S unit :=
  match fuel with
  | O => raise Diverge
  | Datatypes.S fuel =>
      v ← mm_read reg;
      if Z.land v mask =? want then mret tt else poll fuel reg mask want
  end.

(** ** clock.c *)

Definition clock_init (fuel : nat) : prog S unit :=
  mm_write FLASH_ACR (Z.lor (Z.lor (Z.lor FLASH_ACR_LATENCY_2WS FLASH_ACR_ICEN) FLASH_ACR_DCEN) FLASH_ACR_PRFTEN);;
  reg_or RCC_CR RCC_CR_HSION;;
  poll fuel RCC_CR RCC_CR_HSIRDY RCC_CR_HSIRDY;;
  reg_and_not RCC_CFGR (Z.lor (Z.lor RCC_CFGR_HPRE_Msk RCC_CFGR_PRE1_Msk) RCC_CFGR_PRE2_Msk);;
  reg_or RCC_CFGR RCC_CFGR_PPRE1_DIV2;;
  mm_write RCC_PLLCFGR (Z.lor (Z.lor (Z.lor (Z.shiftl 8 RCC_PLLCFGR_PLLM_Pos) (Z.shiftl 84 RCC_PLLCFGR_PLLN_Pos))
                                     (Z.shiftl 0 RCC_PLLCFGR_PLLP_Pos)) (Z.shiftl 4 RCC_PLLCFGR_PLLQ_Pos));;
  reg_or RCC_CR RCC_CR_PLLON;;
  poll fuel RCC_CR RCC_CR_PLLRDY RCC_CR_PLLRDY;;
  reg_and_not RCC_CFGR RCC_CFGR_SW_Msk;;
  reg_or RCC_CFGR RCC_CFGR_SW_PLL;;
  poll fuel RCC_CFGR RCC_CFGR_SWS_Msk RCC_CFGR_SWS_PLL.

(** ** main.c, scb.h, nvic.h *)

(** The barriers order accesses that the model runs in order anyway. *)
Definition fpu_init : prog S unit :=
  reg_or CPACR (Z.shiftl CPACR_CP_FULL_ACCESS (CPACR_CP_Pos 10));;
  reg_or CPACR (Z.shiftl CPACR_CP_FULL_ACCESS (CPACR_CP_Pos 11));;
  reg_or FPCCR (Z.lor (Z.shiftl 1 FPCCR_LSPEN_Pos) (Z.shiftl 1 FPCCR_ASPEN_Pos)).

Definition SCB_SET_PRIORITY (shpr pos priority : Z) : prog S unit :=
  reg_and_not (SCB_SHPR (shpr - 1)) (Z.shiftl 0xFF pos);;
  reg_or (SCB_SHPR (shpr - 1)) (Z.shiftl priority pos).
Definition NVIC_ENABLE_IRQ (irq_number : Z) : prog S unit :=
  reg_or (NVIC_ISER (irq_number / 32)) (Z.shiftl 1 (irq_number mod 32)).
Definition NVIC_SET_PRIORITY (irq_number priority : Z) : prog S unit :=
  mm_write (NVIC_IPR irq_number) priority.

(** The four priorities that [main] sets. *)
Definition set_priorities : prog S unit :=
  NVIC_SET_PRIORITY USART2_IRQ 0xC0;;
  SCB_SET_PRIORITY SVCALL_SHPR SVCALL_PRIORITY_POS 0xD0;;
  SCB_SET_PRIORITY SYSTICK_SHPR SYSTICK_PRIORITY_POS 0xE0;;
  SCB_SET_PRIORITY PENDSV_SHPR PENDSV_PRIORITY_POS 0xF0.

(** The registers of [systick_init]. *)
Definition systick_setup : prog S unit :=
  mm_write STK_LOAD (84000 - 1);;
  mm_write STK_VAL 0;;
  reg_or STK_CTRL (Z.lor (Z.lor STK_CTRL_TICKINT STK_CTRL_ENABLE) STK_CTRL_CLKSOURCE).

(** ** usart.c: the registers of [usart2_init] *)

Definition usart2_setup : prog S unit :=
  reg_or RCC_AHB1ENR RCC_AHB1ENR_GPIOAEN;;
  reg_or RCC_APB1ENR RCC_APB1ENR_USART2EN;;
  SET_GPIO_MODE GPIOA GPIO_MODE_AF 2;;
  SET_GPIO_MODE GPIOA GPIO_MODE_AF 3;;
  SET_GPIO_OTYPER GPIOA 0 2;;
  SET_GPIO_OTYPER GPIOA 0 3;;
  SET_GPIO_OSPEEDR GPIOA GPIO_OSPEEDR_FAST 2;;
  SET_GPIO_OSPEEDR GPIOA GPIO_OSPEEDR_FAST 3;;
  SET_GPIO_PUPDR GPIOA GPIO_PUPDR_NOPP 2;;
  SET_GPIO_PUPDR GPIOA GPIO_PUPDR_NOPP 3;;
  SET_GPIO_AF GPIOA 7 2;;
  SET_GPIO_AF GPIOA 7 3;;
  mm_write USART2_CR1 0;;
  mm_write USART2_BRR 0x016D;;
  reg_or USART2_CR1 (Z.lor (Z.lor USART_ENABLE_TE USART_ENABLE_RE) USART_ENABLE_RXNEIE);;
  reg_or USART2_CR1 USART_ENABLE;;
  NVIC_ENABLE_IRQ USART2_IRQ.

(** ** mpu.c *)

Definition mpu_region (number base rasr : Z) : prog S unit :=
  mm_write MPU_RNR number;; mm_write MPU_RBAR base;; mm_write MPU_RASR rasr.

Definition mpu_init : prog S unit :=
  mm_write MPU_CTRL 0;;
  mpu_region MPU_REGION_FLASH 0x08000000
    (Z.lor (Z.lor (Z.shiftl MPU_AP_RO_RO MPU_RASR_AP_Pos) (Z.shiftl 18 MPU_RASR_SIZE_Pos))
           (Z.shiftl 1 MPU_RASR_ENABLE_Pos));;
  mpu_region MPU_REGION_HEAP 0x20010000
    (Z.lor (Z.lor (Z.lor (Z.shiftl MPU_AP_RW_RW MPU_RASR_AP_Pos) (Z.shiftl 15 MPU_RASR_SIZE_Pos))
                  (Z.shiftl 1 MPU_RASR_XN_Pos)) (Z.shiftl 1 MPU_RASR_ENABLE_Pos));;
  mpu_region MPU_REGION_KERNEL_STACK 0x2001F000
    (Z.lor (Z.lor (Z.lor (Z.shiftl MPU_AP_RW___ MPU_RASR_AP_Pos) (Z.shiftl 11 MPU_RASR_SIZE_Pos))
                  (Z.shiftl 1 MPU_RASR_XN_Pos)) (Z.shiftl 1 MPU_RASR_ENABLE_Pos));;
  reg_or SCB_SHCSR SCB_SHCSR_MEMFAULTENABLE;;
  mm_write MPU_CTRL (Z.lor (Z.shiftl 1 MPU_CTRL_ENABLE_Pos) (Z.shiftl 1 MPU_CTRL_PRIVDEFENA_Pos)).

(** [__builtin_clz] of a word that is not 0. *)
Definition builtin_clz (x : Z) : Z := 31 - Z.log2 x.

(** The word for RASR, built up as the code does. *)
Definition region_rasr (size ap : Z) (exectute_never : bool) : Z :=
  let rasr := if exectute_never then Z.lor 0 (Z.shiftl 1 MPU_RASR_XN_Pos) else 0 in
  let rasr := Z.lor rasr (u32 (Z.shiftl ap MPU_RASR_AP_Pos)) in
  let size_encoding := u32 (31 - builtin_clz size - 1) in
  let rasr := Z.lor rasr (u32 (Z.shiftl size_encoding MPU_RASR_SIZE_Pos)) in
  Z.lor rasr (Z.shiftl 1 MPU_RASR_ENABLE_Pos).

Definition mpu_set_region (region base size ap : Z) (exectute_never : bool) : prog S unit :=
  mpu_region region base (region_rasr size ap exectute_never).
Definition mpu_configure_task_stack (base size : Z) : prog S unit :=
  mpu_set_region MPU_REGION_TASK_STACK base size MPU_AP_RW_RW true.
(** The stack of the incoming task; [pend_sv_handler] calls it. *)
Definition mpu_switch_to_task (stack_base stack_size : Z) : prog S unit :=
  mpu_configure_task_stack stack_base stack_size.
End platform.
