(* ===== verification/PlatformSpec.v ===== *)
(** * What the register setup amounts to

    Runs over a log of accesses and an unknown hardware, and the meaning that
    the reference manuals give to the words written. *)
From S2P Require Import Prelude Utils Spi Pool Platform.

(** ** Registers over a log *)

Section log.
Context (answer : Z -> list access -> Z).

#[export] Instance log_mmio : Mmio (list access) := {|
  mm_read a := v ← gets (answer a); modify (fun l => l ++ [Rd a v]);; mret v;
  mm_write a v := modify (fun l => l ++ [Wr a v]);
|}.
End log.

(** The value written to a register last. *)
Definition last_write (reg init : Z) (l : list access) : Z :=
  foldl (fun v a => match a with Wr r w => if r =? reg then w else v | _ => v end) init l.

Lemma last_write_app reg init l l' : last_write reg init (l ++ l') = last_write reg (last_write reg init l) l'.
Proof. unfold last_write. apply foldl_app. Qed.

Section runs.
Context (answer : Z -> list access -> Z).
Existing Instance log_mmio.
Local Abbreviation P := (prog (list access)).

Lemma two_steps reg (f : Z -> Z) (l : list access) :
  (v ← mm_read (Mmio := log_mmio answer) reg; mm_write (Mmio := log_mmio answer) reg (f v)) l =
  Ok (tt, l ++ [Rd reg (answer reg l); Wr reg (f (answer reg l))]).
Proof using.
  rewrite (prog_bind_ok _ _ l (answer reg l) (l ++ [Rd reg (answer reg l)])) by done.
  cbn. unfold modify. by rewrite <- app_assoc.
Qed.
Lemma reg_or_log reg mask (l : list access) : reg_or (H := log_mmio answer) reg mask l =
  Ok (tt, l ++ [Rd reg (answer reg l); Wr reg (Z.lor (answer reg l) (u32 mask))]).
Proof using. unfold reg_or. by apply two_steps. Qed.
Lemma reg_and_not_log reg mask (l : list access) : reg_and_not (H := log_mmio answer) reg mask l =
  Ok (tt, l ++ [Rd reg (answer reg l); Wr reg (Z.land (answer reg l) (u32 (Z.lnot mask)))]).
Proof using. unfold reg_and_not. by apply two_steps. Qed.
Lemma mm_write_log reg v (l : list access) : mm_write (Mmio := log_mmio answer) reg v l = Ok (tt, l ++ [Wr reg v]).
Proof using. done. Qed.

(** The log after [n] reads. *)
Fixpoint reads (n : nat) (reg : Z) (l : list access) : list access :=
  match n with O => l | S n => let l := l ++ [Rd reg (answer reg l)] in reads n reg l end.

(** The flag appears within [fuel] reads. *)
Definition comes (fuel : nat) (reg mask want : Z) (l : list access) : Prop :=
  exists n, (n < fuel)%nat /\ Z.land (answer reg (reads n reg l)) mask = want.

(** Reads of one register, of which the last one shows the flag. *)
Definition waited (reg mask want : Z) (t : list access) : Prop :=
  exists pre v, t = pre ++ [Rd reg v] /\ Z.land v mask = want /\
    Forall (fun a => exists x, a = Rd reg x) pre.

Lemma poll_ok fuel reg mask want (l : list access) :
  comes fuel reg mask want l ->
  exists t, poll (H := log_mmio answer) fuel reg mask want l = Ok (tt, l ++ t) /\ waited reg mask want t.
Proof using.
  revert l. induction fuel as [|fuel IH]; intros l (n & Hn & Hv); [lia|]. cbn [poll].
  rewrite (prog_bind_ok _ _ l (answer reg l) (l ++ [Rd reg (answer reg l)])) by done.
  destruct (Z.eqb_spec (Z.land (answer reg l) mask) want) as [E|E].
  - exists [Rd reg (answer reg l)]. split; [done|]. by exists [], (answer reg l).
  - destruct n as [|n]; [done|].
    destruct (IH (l ++ [Rd reg (answer reg l)])) as (t & Et & pre & v & -> & Hl & Hp).
    { exists n. split; [lia|exact Hv]. }
    exists (Rd reg (answer reg l) :: pre ++ [Rd reg v]). split; [by rewrite Et, <- app_assoc|].
    exists (Rd reg (answer reg l) :: pre), v. split_and!; [done|done|]. constructor; [by eexists|done].
Qed.
End runs.

(** ** The clock tree (RM0390) *)

Definition HSI_HZ : Z := 16000000.
(** The output of the PLL on the internal oscillator: VCO = HSI / M * N, output
    VCO / P with P = 2, 4, 6, 8. *)
Definition pll_output (pllcfgr : Z) : Z :=
  let m := pllcfgr mod 2 ^ 6 in
  let n := (pllcfgr / 2 ^ 6) mod 2 ^ 9 in
  let p := 2 * ((pllcfgr / 2 ^ 16) mod 4 + 1) in
  HSI_HZ / m * n / p.

(** The division of the APB1 clock that CFGR selects. *)
Definition ppre1_div (cfgr : Z) : Z :=
  let f := (cfgr / 2 ^ 10) mod 8 in if f <? 4 then 1 else 2 ^ (f - 3).
Definition ppre2_div (cfgr : Z) : Z :=
  let f := (cfgr / 2 ^ 13) mod 8 in if f <? 4 then 1 else 2 ^ (f - 3).
(** The division of the AHB clock: 2 to 16, then 64 to 512. *)
Definition hpre_div (cfgr : Z) : Z :=
  let f := (cfgr / 2 ^ 4) mod 16 in if f <? 8 then 1 else if f <? 12 then 2 ^ (f - 7) else 2 ^ (f - 6).
(** The clock that CFGR asks for: 2 is the PLL. *)
Definition clock_switch (cfgr : Z) : Z := cfgr mod 4.

(** Setting fields of a word. *)
Lemma clear_set_field v msk x :
  0 <= v < 2 ^ 32 -> 0 <= msk < 2 ^ 32 -> Z.land x msk = x -> 0 <= x ->
  Z.land (Z.lor (Z.land v (u32 (Z.lnot msk))) x) msk = x.
Proof.
  intros Hv Hm Hx H0. apply Z.bits_inj'. intros n Hn. rewrite Z.land_spec, Z.lor_spec, Z.land_spec.
  unfold u32. destruct (Z.ltb_spec n 32).
  - rewrite Z.mod_pow2_bits_low, Z.lnot_spec by lia. rewrite <- Hx, Z.land_spec.
    by destruct (Z.testbit v n), (Z.testbit msk n), (Z.testbit x n).
  - rewrite Z.mod_pow2_bits_high by lia. rewrite andb_false_r. cbn [orb].
    rewrite <- Z.land_spec. by rewrite Hx.
Qed.

(** ** Memory protection (ARMv7-M) *)

(** The region that RBAR and RASR describe: start and size. *)
Definition region_size (rasr : Z) : Z := 2 ^ ((rasr / 2) mod 32 + 1).
Definition region_base (rbar rasr : Z) : Z := rbar - rbar mod region_size rasr.
Definition region_enabled (rasr : Z) : bool := Z.odd rasr.
Definition region_ap (rasr : Z) : Z := (rasr / 2 ^ 24) mod 8.
Definition region_xn (rasr : Z) : bool := Z.testbit rasr 28.

(** The encoding of every power of two, access right and flag. *)
Lemma region_rasr_decodes k ap xn :
  5 <= k <= 31 -> 0 <= ap < 8 ->
  let r := region_rasr (2 ^ k) ap xn in
  region_size r = 2 ^ k /\ region_enabled r = true /\ region_ap r = ap /\ region_xn r = xn.
Proof.
  intros Hk Ha.
  assert (forallb (fun k => forallb (fun ap => forallb (fun xn =>
    let r := region_rasr (2 ^ Z.of_nat k) (Z.of_nat ap) xn in
    (region_size r =? 2 ^ Z.of_nat k) && region_enabled r && (region_ap r =? Z.of_nat ap) &&
    Bool.eqb (region_xn r) xn) [true; false]) (seq 0 8)) (seq 5 27) = true) as H by by vm_compute.
  rewrite forallb_forall in H. specialize (H (Z.to_nat k) ltac:(apply in_seq; lia)).
  rewrite forallb_forall in H. specialize (H (Z.to_nat ap) ltac:(apply in_seq; lia)).
  rewrite forallb_forall in H. specialize (H xn ltac:(destruct xn; cbn; auto)).
  cbv zeta in *. rewrite !Z2Nat.id in H by lia.
  rewrite !andb_true_iff, !Z.eqb_eq, eqb_true_iff in H. tauto.
Qed.

(** A region whose base is a multiple of its size starts there. *)
Lemma region_base_aligned base rasr : (region_size rasr | base) -> region_base base rasr = base.
Proof.
  intros Hd. assert (region_size rasr <> 0).
  { unfold region_size. pose proof (Z.mod_pos_bound (rasr / 2) 32 ltac:(lia)).
    pose proof (Z.pow_pos_nonneg 2 ((rasr / 2) mod 32 + 1) ltac:(lia) ltac:(lia)). lia. }
  unfold region_base. apply Z.mod_divide in Hd; lia.
Qed.

(** The registers of the unit: the selected region, RBAR and RASR of each
    region, and CTRL. *)
Record mpu_state : Type := Mpu { m_rnr : Z; m_regs : Z -> Z * Z; m_ctrl : Z }.
Definition mpu_reset : mpu_state := Mpu 0 (fun _ => (0, 0)) 0.

Definition mpu_step (s : mpu_state) (a : access) : mpu_state :=
  match a with
  | Wr r v =>
      let put x := Mpu (m_rnr s) (fun n => if n =? m_rnr s then x else m_regs s n) (m_ctrl s) in
      if r =? MPU_RNR then Mpu v (m_regs s) (m_ctrl s)
      else if r =? MPU_RBAR then put (v, (m_regs s (m_rnr s)).2)
      else if r =? MPU_RASR then put ((m_regs s (m_rnr s)).1, v)
      else if r =? MPU_CTRL then Mpu (m_rnr s) (m_regs s) v
      else s
  | _ => s
  end.
Definition mpu_after (l : list access) : mpu_state := foldl mpu_step mpu_reset l.

(** The region that decides about an address: the enabled one with the
    greatest number that contains it. *)
Definition holds_addr (x : Z * Z) (a : Z) : bool :=
  region_enabled x.2 && (region_base x.1 x.2 <=? a) && (a <? region_base x.1 x.2 + region_size x.2).
Definition deciding (s : mpu_state) (a : Z) : option (Z * Z) :=
  find (fun x => holds_addr x a) (m_regs s <$> [7; 6; 5; 4; 3; 2; 1; 0]).

Inductive access_kind := Reads | Writes | Executes.
Definition ap_allows (privileged : bool) (kind : access_kind) (ap : Z) : bool :=
  match kind with
  | Writes => if privileged then bool_decide (ap ∈ [1; 2; 3]) else ap =? 3
  | _ => if privileged then bool_decide (ap ∈ [1; 2; 3; 5; 6; 7]) else bool_decide (ap ∈ [2; 3; 6; 7])
  end.
(** Without a region only privileged code has access, when CTRL says so. *)
Definition mpu_allows (s : mpu_state) (privileged : bool) (kind : access_kind) (a : Z) : bool :=
  if Z.odd (m_ctrl s) then
    match deciding s a with
    | Some x => ap_allows privileged kind (region_ap x.2) &&
                match kind with Executes => negb (region_xn x.2) | _ => true end
    | None => privileged && Z.testbit (m_ctrl s) 2
    end
  else true.
