(* ===== verification/PlatformProps.v ===== *)
(** * Theorems about the register setup ([clock.c], [main.c], [mpu.c]) *)
From S2P Require Import Prelude Utils KState Pool Boot Spi Platform PlatformSpec.

(** ** The clock *)

(** The bits of CFGR that are only read. *)
Definition cfgr_kept (v : Z) : Z := Z.ldiff v RCC_CFGR_SWS_Msk.

(** The clock hardware: registers hold words, CFGR keeps what is written to
    it, and each flag follows the bit that asks for it within [fuel] reads. *)
Record clock_hw (answer : Z -> list access -> Z) (fuel : nat) : Prop := {
  hw_word reg l : 0 <= answer reg l < 2 ^ 32;
  hw_cfgr l : cfgr_kept (answer RCC_CFGR l) = cfgr_kept (u32 (last_write RCC_CFGR 0 l));
  hw_hsi l : Z.land (last_write RCC_CR 0 l) RCC_CR_HSION <> 0 ->
    comes answer fuel RCC_CR RCC_CR_HSIRDY RCC_CR_HSIRDY l;
  hw_pll l : Z.land (last_write RCC_CR 0 l) RCC_CR_PLLON <> 0 ->
    comes answer fuel RCC_CR RCC_CR_PLLRDY RCC_CR_PLLRDY l;
  hw_sws l : clock_switch (last_write RCC_CFGR 0 l) = 2 ->
    comes answer fuel RCC_CFGR RCC_CFGR_SWS_Msk RCC_CFGR_SWS_PLL l;
}.

(** What the registers say about the clocks. *)
Definition sysclk (reg : Z -> Z) : Z :=
  if clock_switch (reg RCC_CFGR) =? 2 then pll_output (reg RCC_PLLCFGR) else HSI_HZ.
Definition hclk (reg : Z -> Z) : Z := sysclk reg / hpre_div (reg RCC_CFGR).
Definition pclk1 (reg : Z -> Z) : Z := hclk reg / ppre1_div (reg RCC_CFGR).
Definition pclk2 (reg : Z -> Z) : Z := hclk reg / ppre2_div (reg RCC_CFGR).

(** The state of the clock tree as the driver has set it: the registers as last
    written, and whether the PLL showed that it is locked. *)
Record clock_tree : Type := ClockTree {
  ct_acr : Z;
  ct_cfgr : Z;
  ct_pllcfgr : Z;
  ct_locked : bool;
}.
Definition ct_reg (c : clock_tree) (r : Z) : Z :=
  if r =? RCC_CFGR then ct_cfgr c else if r =? RCC_PLLCFGR then ct_pllcfgr c else 0.

(** The limits of the STM32F446 at 3.3 V without overdrive (docs/02): 45 MHz on
    APB1, 90 MHz on APB2, 30 MHz of AHB per flash wait state and 120 MHz at
    most, and the PLL is not used before it is locked. *)
Definition within_limits (c : clock_tree) : bool :=
  let reg := ct_reg c in
  (pclk1 reg <=? 45000000) && (pclk2 reg <=? 90000000) && (hclk reg <=? 120000000) &&
  (hclk reg <=? 30000000 * (ct_acr c mod 16 + 1)) &&
  (negb (clock_switch (ct_cfgr c) =? 2) || ct_locked c).

Definition ct_step (c : clock_tree) (a : access) : clock_tree :=
  match a with
  | Rd r v =>
      if r =? RCC_CR then ClockTree (ct_acr c) (ct_cfgr c) (ct_pllcfgr c) (bit_set v RCC_CR_PLLRDY) else c
  | Wr r v =>
      if r =? FLASH_ACR then ClockTree v (ct_cfgr c) (ct_pllcfgr c) (ct_locked c)
      else if r =? RCC_CFGR then ClockTree (ct_acr c) v (ct_pllcfgr c) (ct_locked c)
      else if r =? RCC_PLLCFGR then ClockTree (ct_acr c) (ct_cfgr c) v (ct_locked c)
      else c
  | _ => c
  end.

(** The limits hold after every access. *)
Fixpoint clocks_safe (c : clock_tree) (t : list access) : bool :=
  match t with
  | [] => true
  | a :: t => let c := ct_step c a in within_limits c && clocks_safe c t
  end.
(** The reset state: 16 MHz from the internal oscillator. *)
Definition reset_tree : clock_tree := ClockTree 0 0 0 false.

(** CFGR holds one of four words when its writable bits are known. *)
Lemma cfgr_cases v k : cfgr_kept v = k -> v ∈ Z.lor k <$> [0; 4; 8; 12].
Proof.
  intros <-. assert (v = Z.lor (cfgr_kept v) (Z.land v RCC_CFGR_SWS_Msk)) as E.
  { apply Z.bits_inj'. intros n Hn. unfold cfgr_kept.
    rewrite Z.lor_spec, Z.ldiff_spec, Z.land_spec. by destruct (Z.testbit v n), (Z.testbit RCC_CFGR_SWS_Msk n). }
  assert (Z.land v RCC_CFGR_SWS_Msk ∈ [0; 4; 8; 12]) as Hs.
  { assert (Z.land v RCC_CFGR_SWS_Msk = 4 * ((v / 4) mod 4)) as ->.
    { apply Z.bits_inj'. intros n Hn. change RCC_CFGR_SWS_Msk with (Z.shiftl (Z.ones 2) 2).
      change 4 with (2 ^ 2). rewrite (Z.mul_comm (2 ^ 2)), <- Z.shiftl_mul_pow2 by lia.
      rewrite <- Z.land_ones, <- Z.shiftr_div_pow2 by lia. rewrite Z.land_spec.
      destruct (Z.ltb_spec n 2).
      - rewrite !Z.shiftl_spec_low by done. by rewrite andb_false_r.
      - rewrite !Z.shiftl_spec, Z.land_spec, Z.shiftr_spec by lia. do 2 f_equal. lia. }
    pose proof (Z.mod_pos_bound (v / 4) 4 ltac:(lia)) as Hm. set_unfold. lia. }
  rewrite E at 1. apply list_elem_of_fmap. by eexists.
Qed.

Lemma cfgr_forall (P : Z -> bool) v k :
  cfgr_kept v = k -> forallb P (Z.lor k <$> [0; 4; 8; 12]) = true -> P v = true.
Proof. intros Hv%cfgr_cases H. rewrite forallb_forall in H. by apply H, list_elem_of_In. Qed.

Lemma forallb_andb {A} (P Q : A -> bool) l : forallb (fun x => P x && Q x) l = forallb P l && forallb Q l.
Proof. induction l as [|x l IH]; cbn; [done|]. rewrite IH. by destruct (P x), (Q x), (forallb P l). Qed.

Lemma cfgr_step (f : Z -> Z) v k k' :
  cfgr_kept v = k -> forallb (fun v => cfgr_kept (f v) =? k') (Z.lor k <$> [0; 4; 8; 12]) = true ->
  cfgr_kept (f v) = k'.
Proof. intros Hv H. by apply Z.eqb_eq, (cfgr_forall (fun v => cfgr_kept (f v) =? k') v k). Qed.

Lemma cfgr_switch v k : cfgr_kept v = k -> clock_switch v = clock_switch k.
Proof.
  intros Hv%cfgr_cases. apply list_elem_of_fmap in Hv as (s & -> & Hs). unfold clock_switch.
  change 4 with (2 ^ 2) at 1 2. rewrite <- !Z.land_ones by lia. rewrite Z.land_lor_distr_l.
  replace (Z.land s (Z.ones 2)) with 0; [by rewrite Z.lor_0_r|].
  set_unfold. by repeat (destruct Hs as [->|Hs]; [done|]).
Qed.

Section clock.
Context (answer : Z -> list access -> Z) (fuel : nat) (Hhw : clock_hw answer fuel).
Existing Instance log_mmio.

Lemma safe_wait c reg mask want t rest :
  reg <> RCC_CR -> within_limits c = true -> waited reg mask want t ->
  clocks_safe c rest = true -> clocks_safe c (t ++ rest) = true.
Proof using.
  intros Hr Hc (pre & v & -> & _ & Hp) Hrest. rewrite <- app_assoc.
  induction Hp as [|? pre [x ->] Hp IH]; cbn [app clocks_safe ct_step];
    rewrite (proj2 (Z.eqb_neq _ _) Hr); cbv zeta; rewrite Hc; [exact Hrest|exact IH].
Qed.

(** Waiting on CR: the last read decides whether the PLL is locked. *)
Lemma safe_wait_cr a w p k mask want t rest :
  (forall k, within_limits (ClockTree a w p k) = true) -> waited RCC_CR mask want t ->
  (forall v, Z.land v mask = want -> clocks_safe (ClockTree a w p (bit_set v RCC_CR_PLLRDY)) rest = true) ->
  clocks_safe (ClockTree a w p k) (t ++ rest) = true.
Proof using.
  intros Hc (pre & v & -> & Hv & Hp) Hrest. rewrite <- app_assoc. revert k.
  induction Hp as [|? pre [x ->] Hp IH]; intros k; cbn [app clocks_safe ct_step ct_acr ct_cfgr ct_pllcfgr];
    rewrite Z.eqb_refl; cbv zeta; rewrite Hc; [by apply Hrest|exact (IH _)].
Qed.

(** One statement of the driver at a time. *)
Lemma safe_acr a w p k v t :
  within_limits (ClockTree v w p k) = true -> clocks_safe (ClockTree v w p k) t = true ->
  clocks_safe (ClockTree a w p k) (Wr FLASH_ACR v :: t) = true.
Proof using. intros H1 H2. apply andb_true_iff. by split. Qed.
Lemma safe_pllcfgr a w p k v t :
  within_limits (ClockTree a w v k) = true -> clocks_safe (ClockTree a w v k) t = true ->
  clocks_safe (ClockTree a w p k) (Wr RCC_PLLCFGR v :: t) = true.
Proof using. intros H1 H2. apply andb_true_iff. by split. Qed.
Lemma safe_cfgr a w p k x v t :
  within_limits (ClockTree a w p k) = true -> within_limits (ClockTree a v p k) = true ->
  clocks_safe (ClockTree a v p k) t = true ->
  clocks_safe (ClockTree a w p k) (Rd RCC_CFGR x :: Wr RCC_CFGR v :: t) = true.
Proof using. intros H1 H2 H3. apply andb_true_iff. split; [exact H1|]. apply andb_true_iff. by split. Qed.
Lemma safe_cr a w p k x v t :
  (forall k, within_limits (ClockTree a w p k) = true) ->
  (forall k, clocks_safe (ClockTree a w p k) t = true) ->
  clocks_safe (ClockTree a w p k) (Rd RCC_CR x :: Wr RCC_CR v :: t) = true.
Proof using.
  intros H1 H2. apply andb_true_iff. split; [apply H1|]. apply andb_true_iff. split; [apply H1|apply H2].
Qed.

Lemma last_write_waits reg reg' mask want init t : waited reg mask want t -> last_write reg' init t = init.
Proof using.
  intros (pre & v & -> & _ & Hp). rewrite !last_write_app.
  change (last_write reg' ?z [Rd reg v]) with z.
  induction Hp as [|? pre [x ->] Hp IH]; [done|exact IH].
Qed.
Lemma last_write_waited reg reg' mask want init t l :
  waited reg mask want t -> last_write reg' init (l ++ t) = last_write reg' init l.
Proof using. intros H. by rewrite last_write_app, (last_write_waits _ _ _ _ _ _ H). Qed.

(** Each of the three waits, whatever the log [l] before it. *)
Lemma wait_for reg mask want l (k : prog (list access) unit) :
  comes answer fuel reg mask want l ->
  exists t, waited reg mask want t /\
    (poll (H := log_mmio answer) fuel reg mask want;; k) l = k (l ++ t).
Proof using.
  intros (t & E & Hw)%poll_ok. exists t. split; [done|]. by rewrite (prog_bind_ok _ _ _ _ _ E).
Qed.

Lemma then_or reg mask l (k : prog (list access) unit) :
  (reg_or (H := log_mmio answer) reg mask;; k) l =
  k (l ++ [Rd reg (answer reg l); Wr reg (Z.lor (answer reg l) (u32 mask))]).
Proof using. by rewrite (prog_bind_ok _ _ _ _ _ (reg_or_log answer reg mask l)). Qed.
Lemma then_and_not reg mask l (k : prog (list access) unit) :
  (reg_and_not (H := log_mmio answer) reg mask;; k) l =
  k (l ++ [Rd reg (answer reg l); Wr reg (Z.land (answer reg l) (u32 (Z.lnot mask)))]).
Proof using. by rewrite (prog_bind_ok _ _ _ _ _ (reg_and_not_log answer reg mask l)). Qed.
Lemma then_write reg v l (k : prog (list access) unit) :
  (mm_write (Mmio := log_mmio answer) reg v;; k) l = k (l ++ [Wr reg v]).
Proof using. done. Qed.

(** A bit that was ored in is set. *)
Lemma lor_has v mask : 0 <= v < 2 ^ 32 -> 0 <= mask < 2 ^ 32 -> mask <> 0 -> Z.land (Z.lor v (u32 mask)) mask <> 0.
Proof using.
  intros Hv Hm Hn. rewrite u32_small by done. rewrite Z.land_comm, Z.lor_comm.
  intros E. apply Hn. apply Z.bits_inj'. intros n Hb. rewrite Z.bits_0.
  apply (f_equal (fun z => Z.testbit z n)) in E. rewrite Z.land_spec, Z.lor_spec, Z.bits_0 in E.
  by destruct (Z.testbit mask n).
Qed.

End clock.

(** A change of CFGR, known up to the bits that are only read. *)
Section cfgr.
Context (answer : Z -> list access -> Z) (fuel : nat) (Hhw : clock_hw answer fuel).

Lemma then_cfgr_and_not mask k k' l (p : prog (list access) unit) :
  cfgr_kept (last_write RCC_CFGR 0 l) = k ->
  forallb (fun v => (cfgr_kept (u32 v) =? k) && (cfgr_kept (Z.land v (u32 (Z.lnot mask))) =? k')) (Z.lor k <$> [0; 4; 8; 12]) = true ->
  exists c w, cfgr_kept w = k' /\
    (reg_and_not (H := log_mmio answer) RCC_CFGR mask;; p) l = p (l ++ [Rd RCC_CFGR c; Wr RCC_CFGR w]).
Proof using Hhw.
  intros Hl Hf. eexists _, _. split; [|apply then_and_not].
  rewrite forallb_andb in Hf. apply andb_true_iff in Hf as [Hu Hf].
  apply (cfgr_step (fun v => Z.land v (u32 (Z.lnot mask))) _ k); [|done]. rewrite (hw_cfgr _ _ Hhw). by apply (cfgr_step u32 _ k).
Qed.
Lemma then_cfgr_or mask k k' l (p : prog (list access) unit) :
  cfgr_kept (last_write RCC_CFGR 0 l) = k ->
  forallb (fun v => (cfgr_kept (u32 v) =? k) && (cfgr_kept (Z.lor v (u32 mask)) =? k')) (Z.lor k <$> [0; 4; 8; 12]) = true ->
  exists c w, cfgr_kept w = k' /\
    (reg_or (H := log_mmio answer) RCC_CFGR mask;; p) l = p (l ++ [Rd RCC_CFGR c; Wr RCC_CFGR w]).
Proof using Hhw.
  intros Hl Hf. eexists _, _. split; [|apply then_or].
  rewrite forallb_andb in Hf. apply andb_true_iff in Hf as [Hu Hf].
  apply (cfgr_step (fun v => Z.lor v (u32 mask)) _ k); [|done]. rewrite (hw_cfgr _ _ Hhw). by apply (cfgr_step u32 _ k).
Qed.

(** A bit of the control register that asks for something. *)
Lemma asked mask l : 0 <= mask < 2 ^ 32 -> mask <> 0 ->
  Z.land (last_write RCC_CR 0 (l ++ [Rd RCC_CR (answer RCC_CR l);
    Wr RCC_CR (Z.lor (answer RCC_CR l) (u32 mask))])) mask <> 0.
Proof using Hhw. intros Hm Hn. rewrite last_write_app. apply lor_has; [apply (hw_word _ _ Hhw)|done..]. Qed.

Lemma clock_log l :
  last_write RCC_CFGR 0 l = 0 ->
  exists t, clock_init (H := log_mmio answer) fuel l = Ok (tt, l ++ t) /\ clocks_safe reset_tree t = true /\
    last_write RCC_PLLCFGR 0 (l ++ t) = 0x4001508 /\
    cfgr_kept (last_write RCC_CFGR 0 (l ++ t)) = 0x1002.
Proof using Hhw.
  intros H0. unfold clock_init. rewrite then_write, then_or.
  edestruct (wait_for answer fuel RCC_CR RCC_CR_HSIRDY RCC_CR_HSIRDY) as (t1 & W1 & ->).
  { apply (hw_hsi _ _ Hhw). by apply asked. }
  edestruct (then_cfgr_and_not (Z.lor (Z.lor RCC_CFGR_HPRE_Msk RCC_CFGR_PRE1_Msk) RCC_CFGR_PRE2_Msk) 0 0) as (c1 & w1 & K1 & ->);
    [rewrite (last_write_waited _ _ _ _ _ _ _ W1), !last_write_app, H0; reflexivity|by vm_compute|].
  edestruct (then_cfgr_or RCC_CFGR_PPRE1_DIV2 0 0x1000) as (c2 & w2 & K2 & ->); [rewrite last_write_app; exact K1|by vm_compute|].
  rewrite then_write, then_or.
  edestruct (wait_for answer fuel RCC_CR RCC_CR_PLLRDY RCC_CR_PLLRDY) as (t2 & W2 & ->).
  { apply (hw_pll _ _ Hhw). by apply asked. }
  edestruct (then_cfgr_and_not RCC_CFGR_SW_Msk 0x1000 0x1000) as (c3 & w3 & K3 & ->);
    [rewrite (last_write_waited _ _ _ _ _ _ _ W2), !last_write_app; exact K2|by vm_compute|].
  edestruct (then_cfgr_or RCC_CFGR_SW_PLL 0x1000 0x1002) as (c4 & w4 & K4 & ->); [rewrite last_write_app; exact K3|by vm_compute|].
  edestruct (poll_ok answer fuel RCC_CFGR RCC_CFGR_SWS_Msk RCC_CFGR_SWS_PLL) as (t3 & -> & W3).
  { apply (hw_sws _ _ Hhw). rewrite last_write_app. exact (cfgr_switch _ _ K4). }
  rewrite <- !app_assoc. eexists. split; [reflexivity|]. split_and!.
  - assert (forall a p k k', forallb (fun w => within_limits (ClockTree a w p k)) (Z.lor k' <$> [0; 4; 8; 12]) = true ->
      forall w, cfgr_kept w = k' -> within_limits (ClockTree a w p k) = true) as Hlim.
    { intros a p k k' Hf w Hw. by apply (cfgr_forall (fun w => within_limits (ClockTree a w p k)) w k'). }
    assert (forall k, within_limits (ClockTree 0x702 0 0 k) = true) as L0 by (intros []; vm_compute; reflexivity).
    cbn [app]. apply safe_acr; [exact (L0 false)|].
    match goal with |- clocks_safe ?c _ = true => change c with (ClockTree 0x702 0 0 false) end.
    apply safe_cr; [exact L0|]. intros k1.
    apply (safe_wait_cr _ _ _ _ _ _ _ _ L0 W1). intros v1 _.
    assert (forall k, within_limits (ClockTree 0x702 w1 0 k) = true) as L1
      by (intros k; apply (Hlim _ _ _ 0); [destruct k; vm_compute; reflexivity|done]).
    assert (forall k, within_limits (ClockTree 0x702 w2 0 k) = true) as L2
      by (intros k; apply (Hlim _ _ _ 0x1000); [destruct k; vm_compute; reflexivity|done]).
    apply safe_cfgr; [apply L0|apply L1|]. apply safe_cfgr; [apply L1|apply L2|].
    assert (forall k, within_limits (ClockTree 0x702 w2 0x4001508 k) = true) as L3
      by (intros k; apply (Hlim _ _ _ 0x1000); [destruct k; vm_compute; reflexivity|done]).
    apply safe_pllcfgr; [apply L3|]. apply safe_cr; [exact L3|]. intros k2.
    apply (safe_wait_cr _ _ _ _ _ _ _ _ L3 W2). intros v2 Hv2. unfold bit_set. rewrite Hv2. cbn [negb].
    change (RCC_CR_PLLRDY =? 0) with false. cbn [negb].
    assert (within_limits (ClockTree 0x702 w3 0x4001508 true) = true) as L4 by (apply (Hlim _ _ _ 0x1000); [vm_compute; reflexivity|done]).
    assert (within_limits (ClockTree 0x702 w4 0x4001508 true) = true) as L5 by (apply (Hlim _ _ _ 0x1002); [vm_compute; reflexivity|done]).
    apply safe_cfgr; [apply L3|apply L4|]. apply safe_cfgr; [apply L4|apply L5|].
    rewrite <- (app_nil_r t3). by apply (safe_wait _ RCC_CFGR RCC_CFGR_SWS_Msk RCC_CFGR_SWS_PLL).
  - rewrite !last_write_app, (last_write_waits _ _ _ _ _ _ W3). cbn -[last_write].
    rewrite (last_write_waits _ _ _ _ _ _ W2). by vm_compute.
  - rewrite !last_write_app, (last_write_waits _ _ _ _ _ _ W3). exact K4.
Qed.
End cfgr.

(** A program that ends and writes only some registers. *)
Definition writes_only (answer : Z -> list access -> Z) (regs : list Z) (m : prog (list access) unit) : Prop :=
  forall l, exists t, m l = Ok (tt, l ++ t) /\
    forall reg init, reg ∉ regs -> last_write reg init t = init.

Section writes.
Context (answer : Z -> list access -> Z).

Lemma writes_bind rs1 rs2 m k :
  writes_only answer rs1 m -> writes_only answer rs2 k -> writes_only answer (rs1 ++ rs2) (m;; k).
Proof using.
  intros Hm Hk l. destruct (Hm l) as (t1 & E1 & H1), (Hk (l ++ t1)) as (t2 & E2 & H2).
  exists (t1 ++ t2). split; [by rewrite (prog_bind_ok _ _ _ _ _ E1), E2, app_assoc|].
  intros reg init [Hr1 Hr2]%not_elem_of_app. rewrite last_write_app, H1 by done. by apply H2.
Qed.
Lemma writes_write reg v : writes_only answer [reg] (mm_write (Mmio := log_mmio answer) reg v).
Proof using.
  intros l. exists [Wr reg v]. split; [done|]. intros r init Hr. cbn.
  rewrite (proj2 (Z.eqb_neq reg r)); [done|]. intros ->. apply Hr. by left.
Qed.
Lemma writes_update reg v w : forall r init, r ∉ [reg] -> last_write r init [Rd reg v; Wr reg w] = init.
Proof using.
  intros r init Hr. cbn. rewrite (proj2 (Z.eqb_neq reg r)); [done|]. intros ->. apply Hr. by left.
Qed.
Lemma writes_or reg mask : writes_only answer [reg] (reg_or (H := log_mmio answer) reg mask).
Proof using. intros l. eexists. split; [apply reg_or_log|apply writes_update]. Qed.
Lemma writes_and_not reg mask : writes_only answer [reg] (reg_and_not (H := log_mmio answer) reg mask).
Proof using. intros l. eexists. split; [apply reg_and_not_log|apply writes_update]. Qed.

(** ... and leaves [v] in one register. *)
Definition leaves (reg v : Z) (m : prog (list access) unit) : Prop :=
  forall l, exists t, m l = Ok (tt, l ++ t) /\ forall init, last_write reg init t = v.

Lemma leaves_write reg v : leaves reg v (mm_write (Mmio := log_mmio answer) reg v).
Proof using. intros l. exists [Wr reg v]. split; [done|]. intros init. cbn. by rewrite Z.eqb_refl. Qed.
Lemma leaves_after rs reg v m k : writes_only answer rs m -> leaves reg v k -> leaves reg v (m;; k).
Proof using.
  intros Hm Hk l. destruct (Hm l) as (t1 & E1 & _), (Hk (l ++ t1)) as (t2 & E2 & H2).
  exists (t1 ++ t2). split; [by rewrite (prog_bind_ok _ _ _ _ _ E1), E2, app_assoc|].
  intros init. by rewrite last_write_app, H2.
Qed.
Lemma leaves_before rs reg v m k : leaves reg v m -> writes_only answer rs k -> reg ∉ rs -> leaves reg v (m;; k).
Proof using.
  intros Hm Hk Hr l. destruct (Hm l) as (t1 & E1 & H1), (Hk (l ++ t1)) as (t2 & E2 & H2).
  exists (t1 ++ t2). split; [by rewrite (prog_bind_ok _ _ _ _ _ E1), E2, app_assoc|].
  intros init. by rewrite last_write_app, H1, H2.
Qed.
Lemma leaves_run reg v m l t init : leaves reg v m -> m l = Ok (tt, l ++ t) -> last_write reg init (l ++ t) = v.
Proof using.
  intros Hm E. destruct (Hm l) as (t' & E' & H). rewrite E in E'. injection E' as ->%app_inv_head.
  by rewrite last_write_app.
Qed.
Lemma writes_run rs reg m l t init :
  writes_only answer rs m -> m l = Ok (tt, l ++ t) -> reg ∉ rs -> last_write reg init (l ++ t) = last_write reg init l.
Proof using.
  intros Hm E Hr. destruct (Hm l) as (t' & E' & H). rewrite E in E'. injection E' as ->%app_inv_head.
  by rewrite last_write_app, H.
Qed.
End writes.
Ltac writes := repeat first [ apply writes_bind | apply writes_write | apply writes_or | apply writes_and_not].
Ltac absent := by refine (bool_decide_unpack _ _); vm_compute.
Ltac leaves :=
  lazymatch goal with
  | |- leaves ?r _ (mm_write ?r _) => apply leaves_write
  | |- leaves ?r _ (mbind _ (mm_write ?r _)) => eapply leaves_before; [apply leaves_write|writes|absent]
  | |- leaves _ _ (mbind _ _) => eapply leaves_after; [writes|leaves]
  end.

(** The two drivers' own registers. *)
Lemma usart2_sets answer :
  leaves USART2_BRR 0x16D (usart2_setup (H := log_mmio answer)) /\
  exists rs, writes_only answer rs (usart2_setup (H := log_mmio answer)) /\
    (RCC_CFGR ∉ rs) /\ (RCC_PLLCFGR ∉ rs) /\ (STK_LOAD ∉ rs).
Proof.
  unfold usart2_setup, SET_GPIO_MODE, SET_GPIO_OTYPER, SET_GPIO_OSPEEDR, SET_GPIO_PUPDR, SET_GPIO_AF,
    NVIC_ENABLE_IRQ. split; [leaves|]. eexists. split; [writes|]. split_and!; absent.
Qed.
Lemma systick_sets answer :
  leaves STK_LOAD 83999 (systick_setup (H := log_mmio answer)) /\
  exists rs, writes_only answer rs (systick_setup (H := log_mmio answer)) /\
    (RCC_CFGR ∉ rs) /\ (RCC_PLLCFGR ∉ rs) /\ (USART2_BRR ∉ rs).
Proof. unfold systick_setup. split; [leaves|]. eexists. split; [writes|]. split_and!; absent. Qed.

Lemma final_cfgr c :
  cfgr_kept c = 0x1002 -> clock_switch c = 2 /\ hpre_div c = 1 /\ ppre1_div c = 2.
Proof.
  intros Hc%cfgr_cases. apply list_elem_of_fmap in Hc as (s & -> & Hi).
  set_unfold. by repeat (destruct Hi as [->|Hi]; [by vm_compute|]).
Qed.

(** C28: From reset, [clock_init] ends; after every single access the clocks are
    within the limits of the chip (APB1 at most 45 MHz, APB2 90 MHz, the flash
    wait states enough for the AHB clock, the PLL used only once locked); and
    the registers ask for 84 MHz with APB1 at half of it.  With that, the
    reload value of SysTick is a tick of one millisecond and the divider of
    USART2 is 115200 baud within two parts in a thousand. *)
Theorem clock_reaches_84mhz answer fuel l :
  clock_hw answer fuel -> last_write RCC_CFGR 0 l = 0 ->
  exists t, clock_init (H := log_mmio answer) fuel l = Ok (tt, l ++ t) /\ clocks_safe reset_tree t = true /\
    exists t', (usart2_setup (H := log_mmio answer);; systick_setup (H := log_mmio answer)) (l ++ t) =
      Ok (tt, (l ++ t) ++ t') /\
    let reg r := last_write r 0 ((l ++ t) ++ t') in
    sysclk reg = 84 * 1000000 /\ hclk reg = 84 * 1000000 /\ pclk1 reg = 42 * 1000000 /\
    hclk reg = 1000 * (reg STK_LOAD + 1) /\
    Z.abs (pclk1 reg - 115200 * reg USART2_BRR) * 1000 <= 2 * pclk1 reg.
Proof.
  intros Hhw H0. destruct (clock_log answer fuel Hhw l H0) as (t & E & Hs & Hp & Hc).
  exists t. split; [exact E|]. split; [exact Hs|].
  destruct (usart2_sets answer) as (Hb & rs1 & Hw1 & A1 & A2 & A3).
  destruct (systick_sets answer) as (Hl & rs2 & Hw2 & B1 & B2 & B3).
  destruct (writes_bind _ _ _ _ _ Hw1 Hw2 (l ++ t)) as (t' & E' & Ht). exists t'. split; [exact E'|]. cbv zeta beta.
  assert (last_write STK_LOAD 0 ((l ++ t) ++ t') = 83999) as ->
    by exact (leaves_run _ _ _ _ _ _ (leaves_after _ _ _ _ _ _ Hw1 Hl) E').
  assert (last_write USART2_BRR 0 ((l ++ t) ++ t') = 0x16D) as ->
    by exact (leaves_run _ _ _ _ _ _ (leaves_before _ _ _ _ _ _ Hb Hw2 B3) E').
  assert (last_write RCC_PLLCFGR 0 ((l ++ t) ++ t') = 0x4001508) as P.
  { rewrite last_write_app, Hp. apply Ht. apply not_elem_of_app. split; assumption. }
  assert (last_write RCC_CFGR 0 ((l ++ t) ++ t') = last_write RCC_CFGR 0 (l ++ t)) as C.
  { rewrite last_write_app. apply Ht. apply not_elem_of_app. split; assumption. }
  unfold pclk1, hclk, sysclk. rewrite P, C.
  destruct (final_cfgr _ Hc) as (-> & -> & ->). vm_compute. split_and!; [reflexivity..|intros [=]].
Qed.

(** Hardware on which the flags come at once. *)
Definition ready_hw (reg : Z) (l : list access) : Z :=
  let w := last_write reg 0 l in
  u32 (if reg =? RCC_CR then Z.lor w (Z.shiftl (Z.land w (Z.lor RCC_CR_HSION RCC_CR_PLLON)) 1)
       else if reg =? RCC_CFGR then
         Z.lor (Z.ldiff w RCC_CFGR_SWS_Msk) (Z.shiftl (Z.land w RCC_CFGR_SW_Msk) 2)
       else w).

Lemma at_once answer reg mask want l : Z.land (answer reg l) mask = want -> comes answer 1 reg mask want l.
Proof. intros E. exists 0%nat. split; [lia|exact E]. Qed.

Lemma single_bit v n : 0 <= n -> Z.land v (2 ^ n) <> 0 -> Z.testbit v n = true.
Proof.
  intros Hn H. destruct (Z.testbit v n) eqn:E; [done|]. destruct H. apply Z.bits_inj'. intros k Hk.
  rewrite Z.land_spec, Z.pow2_bits_eqb, Z.bits_0 by done.
  destruct (Z.eqb_spec n k) as [<-|]; [by rewrite E|by rewrite andb_false_r].
Qed.
Lemma ready_bit w m n :
  0 <= n < 31 -> Z.land w (2 ^ n) <> 0 -> Z.testbit m n = true ->
  Z.land (u32 (Z.lor w (Z.shiftl (Z.land w m) 1))) (2 ^ (n + 1)) = 2 ^ (n + 1).
Proof.
  intros Hn H%single_bit Hm; [|lia]. apply Z.bits_inj'. intros k Hk.
  rewrite Z.land_spec, Z.pow2_bits_eqb by lia. destruct (Z.eqb_spec (n + 1) k) as [<-|]; [|by rewrite andb_false_r].
  unfold u32. rewrite Z.mod_pow2_bits_low, Z.lor_spec, Z.shiftl_spec by lia.
  replace (n + 1 - 1) with n by lia. by rewrite Z.land_spec, H, Hm, orb_true_r.
Qed.

Lemma ready_hw_ok : clock_hw ready_hw 1.
Proof.
  split.
  - intros reg l. apply u32_range.
  - intros l. apply Z.bits_inj'. intros n Hn. unfold cfgr_kept, ready_hw.
    rewrite !Z.ldiff_spec. unfold u32. destruct (Z.ltb_spec n 32).
    + rewrite !Z.mod_pow2_bits_low by lia. change (RCC_CFGR =? RCC_CR) with false. change (RCC_CFGR =? RCC_CFGR) with true.
      cbn match. rewrite Z.lor_spec, Z.ldiff_spec. destruct (Z.testbit RCC_CFGR_SWS_Msk n) eqn:E; [by rewrite !andb_false_r|].
      rewrite !andb_true_r. change RCC_CFGR_SWS_Msk with (Z.shiftl RCC_CFGR_SW_Msk 2) in E.
      rewrite Z.shiftl_spec in E by done. by rewrite Z.shiftl_spec, Z.land_spec, E, andb_false_r, orb_false_r by done.
    + by rewrite !Z.mod_pow2_bits_high by lia.
  - intros l H. apply at_once. by apply (ready_bit _ _ 16).
  - intros l H. apply at_once. by apply (ready_bit _ _ 24).
  - intros l H. apply at_once. unfold ready_hw. change (RCC_CFGR =? RCC_CR) with false. change (RCC_CFGR =? RCC_CFGR) with true.
    cbn match. generalize dependent (last_write RCC_CFGR 0 l). intros w H.
    change RCC_CFGR_SW_Msk with (Z.ones 2). rewrite Z.land_ones by lia. unfold clock_switch in H.
    change (2 ^ 2) with 4. rewrite H. change (Z.shiftl 2 2) with RCC_CFGR_SWS_PLL.
    apply Z.bits_inj'. intros n Hn. rewrite Z.land_spec. unfold u32. destruct (Z.ltb_spec n 32).
    + rewrite Z.mod_pow2_bits_low, Z.lor_spec, Z.ldiff_spec by lia.
      change RCC_CFGR_SWS_PLL with (Z.land RCC_CFGR_SWS_PLL RCC_CFGR_SWS_Msk). rewrite Z.land_spec.
      by destruct (Z.testbit w n), (Z.testbit RCC_CFGR_SWS_Msk n), (Z.testbit RCC_CFGR_SWS_PLL n).
    + rewrite Z.mod_pow2_bits_high by lia. rewrite (Z.bits_above_log2 RCC_CFGR_SWS_PLL n); [done|done|].
      change (Z.log2 RCC_CFGR_SWS_PLL) with 3. lia.
Qed.

Lemma clock_reaches_84mhz_witness :
  exists t, clock_init (H := log_mmio ready_hw) 1 [] = Ok (tt, t) /\ clocks_safe reset_tree t = true.
Proof. destruct (clock_reaches_84mhz ready_hw 1 [] ready_hw_ok eq_refl) as (t & E & Hs & _). by exists t. Defined.

(** ** Memory protection *)

(** The linker puts the task stacks, aligned to their size, below the heap. *)
Definition stacks_linked (L : layout) : Prop :=
  (TASK_STACK_SIZE | task_stacks L) /\ 0x20000000 <= task_stacks L /\
  task_stacks L + Z.of_nat N_TASKS * TASK_STACK_SIZE <= 0x20010000.

(** The regions after [mpu_init] and a switch to a task. *)
Lemma mpu_regions answer l base :
  exists t, (mpu_init (H := log_mmio answer);; mpu_switch_to_task (H := log_mmio answer) base TASK_STACK_SIZE) l =
      Ok (tt, l ++ t) /\
    let s := mpu_after (l ++ t) in
    m_ctrl s = 5 /\
    m_regs s <$> [7; 6; 5; 4; 3; 2; 1; 0] =
      let old := m_regs (mpu_after l) in
      [(0x2001F000, 0x11000017); old 6; old 5; old 4; old 3; (0x20010000, 0x1300001F);
       (base, region_rasr TASK_STACK_SIZE MPU_AP_RW_RW true); (0x08000000, 0x06000025)].
Proof.
  unfold mpu_init, mpu_switch_to_task, mpu_configure_task_stack, mpu_set_region, mpu_region.
  rewrite !prog_bind_assoc, !then_write.
  eexists. split.
  { repeat rewrite ?prog_bind_assoc, ?then_write, ?then_or. cbn. unfold modify. rewrite <- !app_assoc. reflexivity. }
  unfold mpu_after. rewrite !foldl_app. generalize (foldl mpu_step mpu_reset l). intros s0.
  match goal with |- context [Rd SCB_SHCSR ?v] => generalize v end. intros v.
  split; vm_compute; reflexivity.
Qed.

Lemma holds_addr_in x a lo size :
  region_enabled x.2 = true -> region_base x.1 x.2 = lo -> region_size x.2 = size ->
  holds_addr x a = (lo <=? a) && (a <? lo + size).
Proof. unfold holds_addr. by intros -> -> ->. Qed.
Lemma holds_addr_off x a : region_enabled x.2 = false -> holds_addr x a = false.
Proof. unfold holds_addr. by intros ->. Qed.

(** Which region decides, when only the four are enabled. *)
Lemma deciding_four s base old a :
  (TASK_STACK_SIZE | base) -> (forall n, region_enabled (old n : Z * Z).2 = false) ->
  let stack := (base, region_rasr TASK_STACK_SIZE MPU_AP_RW_RW true) in
  m_regs s <$> [7; 6; 5; 4; 3; 2; 1; 0] =
    [(0x2001F000, 0x11000017); old 6; old 5; old 4; old 3; (0x20010000, 0x1300001F); stack; (0x08000000, 0x06000025)] ->
  deciding s a =
    if (0x2001F000 <=? a) && (a <? 0x20020000) then Some (0x2001F000, 0x11000017)
    else if (0x20010000 <=? a) && (a <? 0x20020000) then Some (0x20010000, 0x1300001F)
    else if (base <=? a) && (a <? base + TASK_STACK_SIZE) then Some stack
    else if (0x08000000 <=? a) && (a <? 0x08080000) then Some (0x08000000, 0x06000025)
    else None.
Proof.
  intros Hb Ho stack Hr. unfold deciding. rewrite Hr. cbn [find].
  destruct (region_rasr_decodes 11 MPU_AP_RW_RW true) as (Es & Ee & _); [lia|by vm_compute|].
  change (2 ^ 11) with TASK_STACK_SIZE in Es, Ee.
  rewrite (holds_addr_in stack a base TASK_STACK_SIZE); [|exact Ee|apply region_base_aligned; unfold stack; cbn [snd]; by rewrite Es|exact Es].
  rewrite !(holds_addr_off (old _)) by done. rewrite (holds_addr_in (0x2001F000, _) a 0x2001F000 0x1000) by done.
  rewrite (holds_addr_in (0x20010000, _) a 0x20010000 0x10000) by done.
  rewrite (holds_addr_in (0x08000000, _) a 0x08000000 0x80000) by done. done.
Qed.

(** C27: With the unit on, a task can write exactly its own stack and the heap
    below the kernel's stack, execute exactly the flash and read both.  Even
    the kernel cannot write the flash, where the lease journal is. *)
Theorem mpu_confines_tasks answer L i l :
  stacks_linked L -> (i < N_TASKS)%nat -> (forall n, region_enabled (m_regs (mpu_after l) n).2 = false) ->
  exists t, (mpu_init (H := log_mmio answer);;
             mpu_switch_to_task (H := log_mmio answer) (task_stack L i) TASK_STACK_SIZE) l = Ok (tt, l ++ t) /\
    forall a, let allows := mpu_allows (mpu_after (l ++ t)) in
      let own := task_stack L i <= a < task_stack L i + TASK_STACK_SIZE \/ 0x20010000 <= a < 0x2001F000 in
      let flash := 0x08000000 <= a < 0x08080000 in
      (allows false Writes a = true <-> own) /\ (allows false Executes a = true <-> flash) /\
      (allows false Reads a = true <-> own \/ flash) /\ (allows true Writes a = true <-> ~ flash).
Proof.
  intros (Hd & Hlo & Hhi) Hi Ho. destruct (mpu_regions answer l (task_stack L i)) as (t & E & Hc & Hr).
  exists t. split; [exact E|]. intros a allows own flash. unfold allows, mpu_allows.
  rewrite Hc. rewrite (deciding_four _ (task_stack L i) (m_regs (mpu_after l)));
    [|apply Z.divide_add_r; [done|by apply Z.divide_factor_r]|done|exact Hr].
  assert (0x20000000 <= task_stack L i /\ task_stack L i + TASK_STACK_SIZE <= 0x20010000) as Hs
    by (unfold task_stack, TASK_STACK_SIZE in *; unfold N_TASKS in *; lia).
  clear -Hs. unfold own, flash, TASK_STACK_SIZE in *. change (Z.odd 5) with true. cbn match.
  repeat match goal with
  | |- context [?x <=? a] => destruct (Z.leb_spec x a)
  | |- context [a <? ?y] => destruct (Z.ltb_spec a y)
  end; cbn [andb snd]; try lia.
  all: repeat match goal with
  | |- context [ap_allows ?p ?k ?x && ?r] =>
      let v := eval vm_compute in (ap_allows p k x && r) in change (ap_allows p k x && r) with v
  | |- context [?p && Z.testbit ?x 2] =>
      let v := eval vm_compute in (p && Z.testbit x 2) in change (p && Z.testbit x 2) with v
  end.
  all: split_and!; (split; [intros; first [discriminate | lia] | intros; first [reflexivity | lia]]).
Qed.

Lemma mpu_confines_tasks_witness :
  exists t, (mpu_init (H := log_mmio ready_hw);;
             mpu_switch_to_task (H := log_mmio ready_hw) 0x20004800 TASK_STACK_SIZE) [] = Ok (tt, t) /\
    (mpu_allows (mpu_after t) false Writes 0x20005000 = true <->
     0x20004800 <= 0x20005000 < 0x20004800 + TASK_STACK_SIZE \/ 0x20010000 <= 0x20005000 < 0x2001F000).
Proof.
  assert (stacks_linked demo_layout) as HL.
  { split_and!; [by exists 0x40008|by vm_compute|by vm_compute]. }
  destruct (mpu_confines_tasks ready_hw demo_layout 1 [] HL) as (t & E & H).
  { unfold N_TASKS. lia. }
  { done. }
  exists t. split; [exact E|]. apply (proj1 (H 0x20005000)).
Defined.

(** ** Exception priorities *)

(** One of the four bytes of a word. *)
Definition byte_at (v pos : Z) : Z := (v / 2 ^ pos) mod 2 ^ 8.

Lemma byte_at_land v pos : 0 <= pos -> byte_at v pos = Z.land (Z.shiftr v pos) (Z.ones 8).
Proof. intros Hp. unfold byte_at. by rewrite Z.land_ones, Z.shiftr_div_pow2 by lia. Qed.

(** Clearing a byte and setting it. *)
Definition put_byte (v pos p : Z) : Z :=
  Z.lor (Z.land v (u32 (Z.lnot (Z.shiftl 0xFF pos)))) (u32 (Z.shiftl p pos)).

Lemma put_byte_at v pos p pos' :
  pos ∈ [0; 8; 16; 24] -> pos' ∈ [0; 8; 16; 24] -> 0 <= p < 256 ->
  byte_at (put_byte v pos p) pos' = if pos' =? pos then p else byte_at v pos'.
Proof.
  intros Hpos Hpos' Hp.
  assert (forall q, q ∈ [0; 8; 16; 24] -> exists k, q = 8 * k /\ 0 <= k < 4) as Hq.
  { intros q Hq. set_unfold. destruct Hq as [->|[->|[->|[->|[]]]]]; [by exists 0|by exists 1|by exists 2|by exists 3]. }
  destruct (Hq _ Hpos) as (k & -> & Hk), (Hq _ Hpos') as (k' & -> & Hk'). clear Hq.
  clear Hpos Hpos'. rewrite !byte_at_land by lia. unfold put_byte.
  replace p with (Z.land p (Z.ones 8)) at 1 2 by (rewrite Z.land_ones by lia; rewrite Z.mod_small; lia).
  apply Z.bits_inj'. intros n Hn. rewrite Z.land_spec, Z.testbit_ones by lia.
  assert (Z.testbit (if 8 * k' =? 8 * k then Z.land p (Z.ones 8) else Z.land (Z.shiftr v (8 * k')) (Z.ones 8)) n =
    (if 8 * k' =? 8 * k then Z.testbit p n else Z.testbit v (n + 8 * k')) && (n <? 8)) as ->.
  { destruct (8 * k' =? 8 * k); rewrite Z.land_spec, Z.testbit_ones by lia;
      rewrite (proj2 (Z.leb_le 0 n)) by done; [done|]. by rewrite Z.shiftr_spec. }
  rewrite (proj2 (Z.leb_le 0 n)) by done. cbn [andb]. destruct (Z.ltb_spec n 8); [|by rewrite !andb_false_r].
  rewrite !andb_true_r, Z.shiftr_spec, Z.lor_spec, Z.land_spec by done. unfold u32.
  rewrite !Z.mod_pow2_bits_low, Z.lnot_spec, !Z.shiftl_spec, Z.land_spec by lia.
  change 255 with (Z.ones 8). rewrite !Z.testbit_ones by lia.
  destruct (Z.eqb_spec (8 * k') (8 * k)) as [E|E].
  - rewrite E. replace (n + 8 * k - 8 * k) with n by lia.
    rewrite (proj2 (Z.leb_le 0 n)), (proj2 (Z.ltb_lt n 8)) by lia. cbn. by rewrite andb_false_r, andb_true_r.
  - replace ((0 <=? n + 8 * k' - 8 * k) && (n + 8 * k' - 8 * k <? 8)) with false.
    + cbn. by rewrite andb_true_r, andb_false_r, orb_false_r.
    + symmetry. apply andb_false_iff. rewrite Z.leb_gt, Z.ltb_ge. lia.
Qed.

(** Setting a priority on hardware that keeps the register. *)
Lemma set_priority_puts answer (init : Z -> Z) shpr pos p l :
  (forall l, answer (SCB_SHPR (shpr - 1)) l = last_write (SCB_SHPR (shpr - 1)) (init (SCB_SHPR (shpr - 1))) l) ->
  exists t, SCB_SET_PRIORITY (H := log_mmio answer) shpr pos p l = Ok (tt, l ++ t) /\
    forall r, last_write r (init r) (l ++ t) =
      if r =? SCB_SHPR (shpr - 1) then put_byte (last_write r (init r) l) pos p else last_write r (init r) l.
Proof.
  intros Hk. unfold SCB_SET_PRIORITY. rewrite then_and_not, reg_or_log. rewrite <- app_assoc.
  eexists. split; [reflexivity|]. intros r. rewrite !Hk. rewrite app_assoc, !last_write_app.
  cbn -[Z.lor Z.land u32]. destruct (Z.eqb_spec r (SCB_SHPR (shpr - 1))) as [->|E].
  - rewrite !Z.eqb_refl. done.
  - rewrite !(proj2 (Z.eqb_neq (SCB_SHPR (shpr - 1)) r)) by congruence. done.
Qed.

(** After boot the priorities are USART2 above SVCall above SysTick above
    PendSV, so a context switch interrupts no handler; the other bytes of the
    registers are as they were. *)
Theorem boot_priorities answer init l :
  (forall i l, 1 <= i <= 2 -> answer (SCB_SHPR i) l = last_write (SCB_SHPR i) (init (SCB_SHPR i)) l) ->
  exists t, set_priorities (H := log_mmio answer) l = Ok (tt, l ++ t) /\
    let old r := last_write r (init r) l in
    let new r := last_write r (init r) (l ++ t) in
    new (NVIC_IPR USART2_IRQ) = 0xC0 /\ byte_at (new (SCB_SHPR 1)) 24 = 0xD0 /\
    byte_at (new (SCB_SHPR 2)) 24 = 0xE0 /\ byte_at (new (SCB_SHPR 2)) 16 = 0xF0 /\
    (forall pos, pos ∈ [0; 8; 16] -> byte_at (new (SCB_SHPR 1)) pos = byte_at (old (SCB_SHPR 1)) pos) /\
    (forall pos, pos ∈ [0; 8] -> byte_at (new (SCB_SHPR 2)) pos = byte_at (old (SCB_SHPR 2)) pos).
Proof.
  intros Hk. unfold set_priorities, NVIC_SET_PRIORITY. rewrite then_write.
  destruct (set_priority_puts answer init SVCALL_SHPR SVCALL_PRIORITY_POS 0xD0
    (l ++ [Wr (NVIC_IPR USART2_IRQ) 0xC0])) as (t1 & E1 & H1); [intros; by apply Hk|].
  rewrite (prog_bind_ok _ _ _ _ _ E1). set (l1 := (l ++ _) ++ t1) in *.
  destruct (set_priority_puts answer init SYSTICK_SHPR SYSTICK_PRIORITY_POS 0xE0 l1) as (t2 & E2 & H2); [intros; by apply Hk|].
  rewrite (prog_bind_ok _ _ _ _ _ E2). set (l2 := l1 ++ t2) in *.
  destruct (set_priority_puts answer init PENDSV_SHPR PENDSV_PRIORITY_POS 0xF0 l2) as (t3 & E3 & H3); [intros; by apply Hk|].
  assert (l ++ ([Wr (NVIC_IPR USART2_IRQ) 0xC0] ++ t1 ++ t2 ++ t3) = l2 ++ t3) as El
    by (unfold l2, l1; by rewrite <- !app_assoc).
  assert (forall r, r <> NVIC_IPR USART2_IRQ ->
    last_write r (init r) (l ++ [Wr (NVIC_IPR USART2_IRQ) 0xC0]) = last_write r (init r) l) as Eo.
  { intros r Hr. rewrite last_write_app. cbn. by rewrite (proj2 (Z.eqb_neq (NVIC_IPR USART2_IRQ) r)) by congruence. }
  eexists. rewrite El. split; [exact E3|]. cbv zeta. rewrite !H3, !H2, !H1.
  change (SCB_SHPR (PENDSV_SHPR - 1)) with (SCB_SHPR 2). change (SCB_SHPR (SYSTICK_SHPR - 1)) with (SCB_SHPR 2).
  change (SCB_SHPR (SVCALL_SHPR - 1)) with (SCB_SHPR 1). rewrite (Eo (SCB_SHPR 1)), (Eo (SCB_SHPR 2)) by (intros Hn; vm_compute in Hn; discriminate).
  change (SCB_SHPR 1 =? SCB_SHPR 2) with false. change (SCB_SHPR 2 =? SCB_SHPR 1) with false.
  change (NVIC_IPR USART2_IRQ =? SCB_SHPR 1) with false. change (NVIC_IPR USART2_IRQ =? SCB_SHPR 2) with false.
  rewrite !Z.eqb_refl. cbn match. split; [by rewrite last_write_app|].
  split_and!; [by rewrite !put_byte_at by absent..| |].
  - intros pos Hpos. rewrite put_byte_at by (absent || set_solver).
    destruct (Z.eqb_spec pos SVCALL_PRIORITY_POS) as [->|]; [contradict Hpos; absent|done].
  - intros pos Hpos. rewrite !put_byte_at by (absent || set_solver).
    destruct (Z.eqb_spec pos PENDSV_PRIORITY_POS) as [->|]; [contradict Hpos; absent|].
    destruct (Z.eqb_spec pos SYSTICK_PRIORITY_POS) as [->|]; [contradict Hpos; absent|done].
Qed.

Lemma boot_priorities_witness :
  exists t, set_priorities (H := log_mmio (fun r l => last_write r 0 l)) [] = Ok (tt, t) /\
    byte_at (last_write (SCB_SHPR 2) 0 t) 16 = 0xF0.
Proof.
  destruct (boot_priorities (fun r l => last_write r 0 l) (fun _ => 0) []) as (t & E & _ & _ & _ & Hp & _).
  - done.
  - by exists t.
Defined.
