(* ===== verification/Bench.v ===== *)
(** * The benchmarks ([bench.c], [bench.h], the BENCH parts of [arm.c],
    [arm.h] and [cli.c])

    Cycle counts go into histograms of 256 buckets of 8 cycles; the command
    prints percentiles of them.  The counter is read through [Mmio]; the
    system calls are those of UserCalls.v. *)
From Stdlib Require Import Ascii String.
From S2P Require Import Prelude Utils KState Pool Syscall UserCalls Kprintf Lease Spi Shell.

(** ** Results *)

Definition HIST_BUCKETS : nat := 256.
Record bench_result : Type := BenchResult {
  hist : list Z; (* uint16_t *)
  overflow : Z;  (* uint16_t *)
  b_n : Z; b_sum : Z; b_min : Z; b_max : Z;
}.

(** All zero, with the greatest word as the minimum. *)
Definition empty_result : bench_result := BenchResult (repeat 0 HIST_BUCKETS) 0 0 0 0xFFFFFFFF 0.

Definition update_result (result : bench_result) (new_reading : Z) : bench_result :=
  let bucket := u16 (Z.shiftr new_reading 3) in
  let over := bucket >=? Z.of_nat HIST_BUCKETS in
  let overflow := if over then u16 (overflow result + 1) else overflow result in
  let bucket := if over then Z.of_nat HIST_BUCKETS - 1 else bucket in
  BenchResult (alter (fun h => u16 (h + 1)) (Z.to_nat bucket) (hist result)) overflow
    (u32 (b_n result + 1)) (u32 (b_sum result + new_reading))
    (if new_reading <? b_min result then new_reading else b_min result)
    (if new_reading >? b_max result then new_reading else b_max result).

(** The loop: the value of the first bucket that goes beyond [target], 0
    without one. *)
Fixpoint percentile_loop (hist : list Z) (b cum target : Z) : Z :=
  match hist with
  | [] => 0
  | h :: hist =>
      if u32 (cum + h) >? target then u32 (Z.shiftl b 3 + u32 (8 * u32 (target - cum)) / h)
      else percentile_loop hist (b + 1) (u32 (cum + h)) target
  end.
Definition calc_percentile (result : bench_result) (target : Z) : Z :=
  let val := percentile_loop (hist result) 0 0 target in
  let val := if val <? b_min result then b_min result else val in
  if val >? b_max result then b_max result else val.

(** ** The globals *)

Record bench : Type := Bench {
  bench_pendsv_start : Z;
  bench_pendsv_end : Z;
  bench_pendsv_lr : Z;
  bench_preemption_start : Z;
  bench_irq_t0 : Z;
  bench_irq_site : Z;
  preemption_result : bench_result;
  preemption_fp_result : bench_result;
  pendsv_result : bench_result;
  pendsv_fp_result : bench_result;
  irq_result : bench_result;
  bench_stop_flag : bool;
}.
Definition bench_boot : bench :=
  Bench 0 0 0 0 0 0 empty_result empty_result empty_result empty_result empty_result false.

Definition set_bench_pendsv_start (v : Z) (g : bench) : bench :=
  Bench v (bench_pendsv_end g) (bench_pendsv_lr g) (bench_preemption_start g) (bench_irq_t0 g) (bench_irq_site g)
    (preemption_result g) (preemption_fp_result g) (pendsv_result g) (pendsv_fp_result g) (irq_result g) (bench_stop_flag g).
Definition set_bench_pendsv_end (v : Z) (g : bench) : bench :=
  Bench (bench_pendsv_start g) v (bench_pendsv_lr g) (bench_preemption_start g) (bench_irq_t0 g) (bench_irq_site g)
    (preemption_result g) (preemption_fp_result g) (pendsv_result g) (pendsv_fp_result g) (irq_result g) (bench_stop_flag g).
Definition set_bench_pendsv_lr (v : Z) (g : bench) : bench :=
  Bench (bench_pendsv_start g) (bench_pendsv_end g) v (bench_preemption_start g) (bench_irq_t0 g) (bench_irq_site g)
    (preemption_result g) (preemption_fp_result g) (pendsv_result g) (pendsv_fp_result g) (irq_result g) (bench_stop_flag g).
Definition set_bench_preemption_start (v : Z) (g : bench) : bench :=
  Bench (bench_pendsv_start g) (bench_pendsv_end g) (bench_pendsv_lr g) v (bench_irq_t0 g) (bench_irq_site g)
    (preemption_result g) (preemption_fp_result g) (pendsv_result g) (pendsv_fp_result g) (irq_result g) (bench_stop_flag g).
Definition set_bench_irq_t0 (v : Z) (g : bench) : bench :=
  Bench (bench_pendsv_start g) (bench_pendsv_end g) (bench_pendsv_lr g) (bench_preemption_start g) v (bench_irq_site g)
    (preemption_result g) (preemption_fp_result g) (pendsv_result g) (pendsv_fp_result g) (irq_result g) (bench_stop_flag g).
Definition set_bench_stop_flag (v : bool) (g : bench) : bench :=
  Bench (bench_pendsv_start g) (bench_pendsv_end g) (bench_pendsv_lr g) (bench_preemption_start g) (bench_irq_t0 g) (bench_irq_site g)
    (preemption_result g) (preemption_fp_result g) (pendsv_result g) (pendsv_fp_result g) (irq_result g) v.

(** [here] is the address of the caller. *)
Definition update_irq_result (new_reading here : Z) (g : bench) : bench :=
  Bench (bench_pendsv_start g) (bench_pendsv_end g) (bench_pendsv_lr g) (bench_preemption_start g) (bench_irq_t0 g)
    (if new_reading >? b_max (irq_result g) then here else bench_irq_site g)
    (preemption_result g) (preemption_fp_result g) (pendsv_result g) (pendsv_fp_result g)
    (update_result (irq_result g) new_reading) (bench_stop_flag g).

(** The result is the argument, for the handler to return with. *)
Definition bench_record_switch (exc_return : Z) : prog bench Z := fun g =>
  let preemption_delta := u32 (bench_pendsv_end g - bench_preemption_start g) in
  let pendsv_delta := u32 (bench_pendsv_end g - bench_pendsv_start g) in
  let fpu := (Z.land exc_return 0x10 =? 0) || (Z.land (bench_pendsv_lr g) 0x10 =? 0) in
  let into b r d := if b : bool then update_result r d else r in
  Ok (exc_return,
    Bench (bench_pendsv_start g) (bench_pendsv_end g) (bench_pendsv_lr g) (bench_preemption_start g) (bench_irq_t0 g) (bench_irq_site g)
      (into (negb fpu) (preemption_result g) preemption_delta)
      (into fpu (preemption_fp_result g) preemption_delta)
      (into (negb fpu) (pendsv_result g) pendsv_delta)
      (into fpu (pendsv_fp_result g) pendsv_delta)
      (irq_result g) (bench_stop_flag g)).

Definition bench_reset (g : bench) : bench :=
  Bench (bench_pendsv_start g) (bench_pendsv_end g) (bench_pendsv_lr g) (bench_preemption_start g) (bench_irq_t0 g) (bench_irq_site g)
    empty_result empty_result empty_result empty_result empty_result false.

(** ** The counter and the calls *)

Definition DEMCR : Z := 0xE000EDFC.
Definition CoreDebug_DEMCR_TRCENA : Z := Z.shiftl 1 24.
Definition DWT_CTRL : Z := 0xE0001000.
Definition DWT_CYCCNT : Z := 0xE0001004.
Definition DWT_CTRL_CYCCNTENA : Z := 1.

Section bench.
Context {D : Type} (L : layout) (task_wrapper heap_start heap_end : ptr).
(** What a register read returns; what the other tasks and the interrupts do
    while the shell sleeps; the addresses of the task functions. *)
Context (answer : Z -> list shell_event -> Z).

(** The kernel, the benchmark's globals, and what the command printed and
    read, oldest first. *)
Record bstate : Type := BState {
  bs_sys : sys D;
  bs_bench : bench;
  bs_events : list shell_event;
}.
Abbreviation BM := (prog bstate).
Context (others : bstate -> bstate) (ping_task pong_task fpu_task : ptr).

Definition bs_emit (e : shell_event) : BM unit :=
  modify (fun s => BState (bs_sys s) (bs_bench s) (bs_events s ++ [e])).
Definition bs_put (f : bench -> bench) : BM unit :=
  modify (fun s => BState (bs_sys s) (f (bs_bench s)) (bs_events s)).
Definition bs_call {A} (m : prog (sys D) A) : BM A := fun s =>
  match m (bs_sys s) with
  | Ok (a, y) => Ok (a, BState y (bs_bench s) (bs_events s))
  | Trap e => Trap e
  end.
Definition bs_record {A} (m : prog bench A) : BM A := fun s =>
  match m (bs_bench s) with
  | Ok (a, g) => Ok (a, BState (bs_sys s) g (bs_events s))
  | Trap e => Trap e
  end.
#[export] Instance bench_mmio : Mmio bstate := {|
  mm_read a := v ← gets (fun s => answer a (bs_events s)); bs_emit (Reg (Rd a v));; mret v;
  mm_write a v := bs_emit (Reg (Wr a v));
|}.

Definition reset_counter : BM unit :=
  mm_write DWT_CYCCNT 0;;
  reg_or DWT_CTRL DWT_CTRL_CYCCNTENA.
Definition enable_counter : BM unit :=
  reg_or DEMCR CoreDebug_DEMCR_TRCENA;;
  reset_counter.
Definition read_cycles : BM Z := mm_read DWT_CYCCNT.

(** *** The measured places *)

(** In [request_context_switch], before the switch is requested. *)
Definition bench_at_request : BM unit := t ← read_cycles; bs_put (set_bench_preemption_start t).
(** At the start and at the end of [pend_sv_handler]. *)
Definition bench_at_pendsv_start (lr : Z) : BM unit :=
  t ← mm_read DWT_CYCCNT;
  bs_put (set_bench_pendsv_start t);; bs_put (set_bench_pendsv_lr lr).
Definition bench_at_pendsv_end (lr : Z) : BM Z :=
  t ← mm_read DWT_CYCCNT;
  bs_put (set_bench_pendsv_end t);;
  bs_record (bench_record_switch lr).
(** [irq_save] and [irq_restore] of a BENCH_IRQ build; [primask] is what was
    read from PRIMASK or is written back to it. *)
Definition bench_irq_save (primask : Z) : BM Z :=
  whenb (Z.land primask 1 =? 0) (t ← mm_read DWT_CYCCNT; bs_put (set_bench_irq_t0 t));;
  mret primask.
Definition bench_irq_restore (primask here : Z) : BM unit :=
  whenb (Z.land primask 1 =? 0)
    (t ← mm_read DWT_CYCCNT;
     bs_put (fun g => update_irq_result (u32 (t - bench_irq_t0 g)) here g)).

(** *** bench_syscall_roundtrip, start_workload *)

Definition SYSCALL_ROUNDTRIP_ITER : nat := 1000.
Fixpoint roundtrip_loop (n : nat) (res : bench_result) : BM bench_result :=
  match n with
  | O => mret res
  | S n =>
      start ← read_cycles;
      _r ← bs_call (UserCalls.syscall L task_wrapper heap_start heap_end SYS_UPTIME 0 0 0 0);
      now ← read_cycles;
      roundtrip_loop n (update_result res (u32 (now - start)))
  end.
Definition bench_syscall_roundtrip : BM bench_result := roundtrip_loop SYSCALL_ROUNDTRIP_ITER empty_result.

(** Three semaphores and a struct with them, which the tasks share.  The
    three stores go to the heap through the pointer. *)
Definition arg_wrap_size : Z := 12.
Definition store_word (p v : Z) : prog (sys D) unit :=
  modify (fun y => set_y_ram
    (store (store (store (store (y_ram y) p (u8 v)) (p + 1) (u8 (Z.shiftr v 8))) (p + 2) (u8 (Z.shiftr v 16)))
      (p + 3) (u8 (Z.shiftr v 24))) y).
Definition start_workload : BM unit :=
  let sem_create n := bs_call (sys_sem_create L task_wrapper heap_start heap_end n) in
  let task_create f arg := bs_call (sys_task_create L task_wrapper heap_start heap_end 3 f arg) in
  sem1 ← sem_create 1;
  sem2 ← sem_create 0;
  sem3 ← sem_create 0;
  arg1 ← bs_call (sys_malloc L task_wrapper heap_start heap_end arg_wrap_size);
  bs_call (store_word arg1 sem1);;
  bs_call (store_word (arg1 + 4) sem2);;
  bs_call (store_word (arg1 + 8) sem3);;
  _t ← task_create ping_task arg1;
  _t ← task_create pong_task arg1;
  _t ← task_create fpu_task arg1;
  mret tt.

(** *** The bench command of a BENCH build *)

Definition WARMUP : Z := 1000.
Definition BENCH_N : Z := 20000.

Definition bs_say (fmt : bytes) (args : list va_arg) : BM unit := bs_emit (Say fmt args).
Definition bs_say_ln (s : string) (args : list va_arg) : BM unit := bs_say (lit s ++ [13; 10]) args.

Definition print_bench_result (name : bytes) (result : bench_result) : BM unit :=
  let '(p50, p99) :=
    if negb (b_n result =? 0) then
      (calc_percentile result (b_n result / 2), calc_percentile result (u32 (b_n result * 99) / 100))
    else (0, 0) in
  bs_say_ln "%20s %5d %5d %5d %5d %d"
    [VStr (Some name); VInt (b_n result); VInt p50; VInt p99;
     VInt (if negb (b_n result =? 0) then b_min result else 0); VInt (b_max result)].

(** [while (pendsv_result->n + pendsv_fp_result->n < target) sys_sleep(10);] *)
Fixpoint sleep_until (fuel : nat) (target : Z) : BM unit :=
  match fuel with
  | O => raise Diverge
  | S fuel =>
      g ← gets bs_bench;
      if u32 (b_n (pendsv_result g) + b_n (pendsv_fp_result g)) <? target then
        bs_call (sys_sleep L task_wrapper heap_start heap_end 10);;
        modify others;;
        sleep_until fuel target
      else mret tt
  end.

(** [tag] is BENCH_TAG, when it is defined. *)
Definition cli_cmd_bench (tag : option bytes) (fuel : nat) : BM unit :=
  bs_put bench_reset;;
  start_workload;;
  sleep_until fuel WARMUP;;
  bs_put bench_reset;;
  sleep_until fuel BENCH_N;;
  bs_put (set_bench_stop_flag true);;
  syscall_result ← bench_syscall_roundtrip;
  bs_say_ln "----------------Benchmarks----------------" [];;
  (match tag with Some t => bs_say (lit "%s ") [VStr (Some t)] | None => mret tt end);;
  bs_say_ln "N=%d" [VInt BENCH_N];;
  bs_say_ln "Name          Count     p50     p99      Min     Max" [];;
  g ← gets bs_bench;
  print_bench_result (lit "Preemption") (preemption_result g);;
  print_bench_result (lit "Preemption FP") (preemption_fp_result g);;
  print_bench_result (lit "Pendsv") (pendsv_result g);;
  print_bench_result (lit "Pendsv FP") (pendsv_fp_result g);;
  print_bench_result (lit "Syscall roundtrip") syscall_result;;
  print_bench_result (lit "IRQ masked") (irq_result g);;
  if negb (b_n (irq_result g) =? 0) then
    bs_say_ln "Worst interrupts-masked window %d cycles in %x"
      [VInt (b_max (irq_result g)); VInt (bench_irq_site g)]
  else bs_say_ln "Worst interrupts-masked window not measured" [].

(** *** The tasks of the workload *)

(** The struct the tasks get. *)
Definition arg_sem (a : ptr) (i : Z) (s : bstate) : ptr := ram_u32 (a + 4 * i) (bs_sys s).
(** A round of the loop; [false]: the flag is set and the task ends.  The
    others run while the task waits.  The sum that [fpu_task] keeps is floating
    point and is left out. *)
Definition workload_round (a : ptr) (from to : Z) : BM bool :=
  g ← gets bs_bench;
  if bench_stop_flag g then mret false
  else
    w ← gets (arg_sem a from);
    bs_call (sys_sem_wait L task_wrapper heap_start heap_end w);;
    modify others;;
    p ← gets (arg_sem a to);
    bs_call (sys_sem_post L task_wrapper heap_start heap_end p);;
    mret true.
Definition ping_round (a : ptr) : BM bool := workload_round a 0 1.
Definition pong_round (a : ptr) : BM bool := workload_round a 1 2.
Definition fpu_round (a : ptr) : BM bool := workload_round a 2 0.
End bench.
