(* ===== verification/BenchProps.v ===== *)
(** * Theorems about the benchmarks ([bench.c]) *)
From Stdlib Require Import Sorting.Sorted.
From S2P Require Import Prelude Bench.

Definition readings (l : list Z) : bench_result := foldl update_result empty_result l.
(** How many readings are in bucket [b], and in the buckets before it. *)
Definition in_bucket (l : list Z) (b : Z) : Z := Z.of_nat (length (filter (fun x => x / 8 = b) l)).
Definition before (l : list Z) (b : Z) : Z := Z.of_nat (length (filter (fun x => x / 8 < b) l)).

Lemma before_succ l b : before l (b + 1) = before l b + in_bucket l b.
Proof.
  unfold before, in_bucket. induction l as [|x l IH]; [done|]. rewrite !filter_cons.
  repeat case_decide; cbn [length]; lia.
Qed.
Lemma in_bucket_length l b : 0 <= in_bucket l b <= Z.of_nat (length l).
Proof. unfold in_bucket. pose proof (length_filter (fun x => x / 8 = b) l). lia. Qed.

Lemma before_length l b : 0 <= before l b <= Z.of_nat (length l).
Proof. unfold before. pose proof (length_filter (fun x => x / 8 < b) l). lia. Qed.

Lemma in_bucket_snoc l x b : in_bucket (l ++ [x]) b = in_bucket l b + (if decide (x / 8 = b) then 1 else 0).
Proof.
  unfold in_bucket. rewrite filter_app, length_app, filter_cons, filter_nil. case_decide; cbn; lia.
Qed.

(** The record after some short readings. *)
Lemma readings_ok l :
  Forall (fun x => 0 <= x < 2048) l -> Z.of_nat (length l) < 65536 ->
  hist (readings l) = in_bucket l <$> (Z.of_nat <$> seq 0 256) /\
  b_n (readings l) = Z.of_nat (length l) /\ overflow (readings l) = 0 /\
  Forall (fun x => b_min (readings l) <= x <= b_max (readings l)) l /\
  (l <> [] -> b_min (readings l) ∈ l /\ b_max (readings l) ∈ l) /\
  (l = [] -> b_min (readings l) = 0xFFFFFFFF /\ b_max (readings l) = 0).
Proof.
  induction l as [|x l IH] using rev_ind; intros Hx Hl.
  { split_and!; [by vm_compute|done|done|constructor|done|done]. }
  apply Forall_app in Hx as [Hl0 [Hx _]%Forall_cons]. rewrite length_app in Hl. cbn in Hl.
  destruct IH as (Hh & Hn & Ho & Hm & He & H0); [done|lia|].
  unfold readings. rewrite foldl_app. fold (readings l). cbn [foldl]. unfold update_result. cbn [hist b_n overflow b_min b_max].
  cbv beta in Hx. assert (Z.shiftr x 3 = x / 8) as -> by (by rewrite Z.shiftr_div_pow2).
  assert (0 <= x / 8 < 256) as Hb by (Z.to_euclidean_division_equations; lia).
  rewrite u16_small by lia. change (Z.of_nat HIST_BUCKETS) with 256.
  rewrite Z.geb_leb, (proj2 (Z.leb_gt 256 (x / 8))) by lia. split_and!.
  - rewrite Hh. apply list_eq. intros i. destruct (decide (i < 256)%nat) as [Hi|Hi].
    2: { rewrite !lookup_ge_None_2; [done| |]; rewrite ?length_alter, !length_fmap, length_seq; lia. }
    assert ((in_bucket l <$> (Z.of_nat <$> seq 0 256)) !! i = Some (in_bucket l (Z.of_nat i))) as El.
    { rewrite !list_lookup_fmap, lookup_seq_lt by done. done. }
    rewrite !list_lookup_fmap, (lookup_seq_lt _ _ _ Hi). cbn [fmap option_fmap option_map Nat.add].
    rewrite in_bucket_snoc. pose proof (in_bucket_length l (Z.of_nat i)).
    destruct (decide (i = Z.to_nat (x / 8))) as [->|Hne].
    + rewrite list_lookup_alter_eq, El. cbn. rewrite Z2Nat.id, decide_True by lia.
      rewrite Z2Nat.id in * by lia. f_equal. rewrite u16_small; lia.
    + rewrite list_lookup_alter_ne, El by congruence. rewrite decide_False by lia. f_equal. lia.
  - rewrite Hn, length_app. cbn. rewrite u32_small; lia.
  - done.
  - apply Forall_app. split; [|constructor; [|constructor]].
    + eapply Forall_impl; [exact Hm|]. cbv beta. intros y Hy. repeat case_match; lia.
    + repeat case_match; lia.
  - intros _. destruct (decide (l = [])) as [->|Hne].
    + destruct (H0 eq_refl) as [-> ->]. rewrite (proj2 (Z.ltb_lt x 0xFFFFFFFF)) by lia.
      split; [by left|]. destruct (x >? 0) eqn:E; [by left|]. assert (x = 0) as -> by lia. by left.
    + destruct (He Hne). split; (case_match; rewrite elem_of_app; [right; by left|by left]).
  - by destruct l.
Qed.

(** The loop finds the bucket in which the count goes beyond [target]. *)
Lemma percentile_loop_ok l n b target :
  Z.of_nat (length l) < 65536 -> (b + n <= 256)%nat -> before l (Z.of_nat b) <= target ->
  target < before l (Z.of_nat (b + n)) ->
  exists c q, percentile_loop (in_bucket l <$> (Z.of_nat <$> seq b n)) (Z.of_nat b) (before l (Z.of_nat b)) target
      = 8 * c + q /\ 0 <= q < 8 /\ Z.of_nat b <= c < Z.of_nat (b + n) /\
    before l c <= target < before l (c + 1).
Proof.
  intros Hl. revert b. induction n as [|n IH]; intros b Hbn Hlo Hhi; [rewrite Nat.add_0_r in Hhi; lia|].
  cbn [seq fmap list_fmap percentile_loop].
  pose proof (before_succ l (Z.of_nat b)) as Hs. pose proof (in_bucket_length l (Z.of_nat b)) as Hc.
  pose proof (before_length l (Z.of_nat b)). pose proof (before_length l (Z.of_nat b + 1)).
  rewrite (u32_small (before _ _ + _)) by lia.
  destruct (before l (Z.of_nat b) + in_bucket l (Z.of_nat b) >? target) eqn:E.
  - exists (Z.of_nat b), (8 * (target - before l (Z.of_nat b)) / in_bucket l (Z.of_nat b)).
    assert (0 <= 8 * (target - before l (Z.of_nat b)) / in_bucket l (Z.of_nat b) < 8) as Hq.
    { split; [apply Z.div_pos; lia|apply Z.div_lt_upper_bound; lia]. }
    rewrite Z.shiftl_mul_pow2, (u32_small (target - _)), (u32_small (8 * _)), u32_small by lia.
    split_and!; lia.
  - destruct (IH (S b)) as (c & q & Ec & Hq & Hcb & Ht); [lia| | |].
    { rewrite Nat2Z.inj_succ, <- Z.add_1_r. lia. }
    { by replace (S b + n)%nat with (b + S n)%nat by lia. }
    exists c, q. split_and!; [|lia..]. rewrite <- Ec. rewrite <- Hs.
    by rewrite Nat2Z.inj_succ, <- Z.add_1_r.
Qed.

(** In a sorted list the first elements are those of the first buckets. *)
Lemma sorted_before l i s b :
  StronglySorted Z.le l -> l !! i = Some s -> (s / 8 < b <-> Z.of_nat i < before l b).
Proof.
  intros Hs. revert i. induction Hs as [|x l Hs IH Hx]; intros i Hi; [done|]. unfold before.
  rewrite filter_cons. destruct (decide (x / 8 < b)) as [Hb|Hb].
  - destruct i as [|i]; cbn in Hi; cbn [length]; [injection Hi as <-; lia|].
    rewrite (IH _ Hi). unfold before. lia.
  - assert (forall y, y ∈ x :: l -> ~ y / 8 < b) as Hall.
    { intros y [->|Hy]%elem_of_cons; [done|]. rewrite List.Forall_forall in Hx.
      apply list_elem_of_In, Hx in Hy. pose proof (Z.div_le_mono x y 8 ltac:(lia) Hy). lia. }
    pose proof (Hall s ltac:(by eapply list_elem_of_lookup_2)) as Hsb.
    destruct (filter (fun x => x / 8 < b) l) as [|y l'] eqn:E; [cbn; lia|]. exfalso.
    assert (y ∈ filter (fun x => x / 8 < b) l) as Hy by (rewrite E; by left).
    apply list_elem_of_filter in Hy as [Hy1 Hy2]. apply (Hall y); [by right|done].
Qed.

Lemma bucket_of v c : 8 * c <= v < 8 * c + 8 -> v / 8 = c.
Proof. intros. Z.to_euclidean_division_equations. lia. Qed.

(** A percentile of short readings lies in the bucket of the reading of that
    rank, and between the least and the greatest reading. *)
Theorem percentile_in_bucket l sorted target s :
  Forall (fun x => 0 <= x < 2048) l -> Z.of_nat (length l) < 65536 ->
  sorted ≡ₚ l -> StronglySorted Z.le sorted -> sorted !! target = Some s ->
  let v := calc_percentile (readings l) (Z.of_nat target) in
  v / 8 = s / 8 /\ exists lo hi, lo ∈ l /\ hi ∈ l /\ Forall (fun x => lo <= x <= hi) l /\ lo <= v <= hi.
Proof.
  intros Hx Hl Hp Hs Ht. destruct (readings_ok l Hx Hl) as (Hh & _ & _ & Hm & He & _).
  assert (forall b, before sorted b = before l b) as Hb by (intros b; unfold before; by rewrite Hp).
  assert (s ∈ l) as Hin by (rewrite <- Hp; by eapply list_elem_of_lookup_2).
  rewrite Forall_forall in Hm, Hx. pose proof (Hm _ Hin) as Hms. pose proof (Hx _ Hin) as Hxs. cbv beta in *.
  assert (before l (Z.of_nat 0) = 0) as B0.
  { unfold before. destruct (filter (fun x => x / 8 < Z.of_nat 0) l) as [|y l'] eqn:E; [done|].
    assert (y ∈ filter (fun x => x / 8 < Z.of_nat 0) l) as [Hy1 Hy2%Hx]%list_elem_of_filter by (rewrite E; by left).
    pose proof (Z.div_pos y 8 ltac:(lia) ltac:(lia)). lia. }
  assert (s / 8 < 256) as Hs8 by (Z.to_euclidean_division_equations; lia).
  destruct (percentile_loop_ok l 256 0 (Z.of_nat target)) as (c & q & E & Hq & Hc & Hrank); [done|lia| | |].
  { rewrite B0. lia. }
  { rewrite <- Hb. by apply (sorted_before _ _ s). }
  assert (s / 8 = c) as Hsc.
  { pose proof (sorted_before _ _ _ c Hs Ht) as H1. pose proof (sorted_before _ _ _ (c + 1) Hs Ht) as H2.
    rewrite Hb in H1, H2. lia. }
  unfold calc_percentile. rewrite Hh.
  rewrite B0 in E. change (Z.of_nat 0) with 0 in E. rewrite E. clear E Hh.
  destruct He as [H1 H2]; [by intros ->; apply not_elem_of_nil in Hin|]. pose proof (Hm _ H1). pose proof (Hm _ H2).
  rewrite Z.gtb_ltb. split.
  - rewrite Hsc. assert (8 * c <= s < 8 * c + 8) by (subst c; Z.to_euclidean_division_equations; lia).
    apply bucket_of. destruct (Z.ltb_spec (8 * c + q) (b_min (readings l))); case_match; lia.
  - exists (b_min (readings l)), (b_max (readings l)). split_and!; [done|done|by apply Forall_forall| |];
      destruct (Z.ltb_spec (8 * c + q) (b_min (readings l))); case_match; lia.
Qed.

Lemma percentile_in_bucket_witness :
  calc_percentile (readings [100; 7; 90; 105; 2000]) 2 / 8 = 100 / 8.
Proof.
  apply (percentile_in_bucket [100; 7; 90; 105; 2000] [7; 90; 100; 105; 2000] 2 100).
  - repeat constructor; lia.
  - done.
  - apply (bool_decide_unpack _). by vm_compute.
  - repeat constructor; lia.
  - done.
Defined.

(** The bucket index is cut to 16 bits before it is compared: a reading that
    is longer by a multiple of 2^19 cycles counts as the short one. *)
Theorem long_reading_aliases r x k :
  0 <= x -> 0 <= k ->
  let r1 := update_result r x in let r2 := update_result r (x + k * 2 ^ 19) in
  hist r2 = hist r1 /\ overflow r2 = overflow r1.
Proof.
  intros Hx Hk. cbv zeta. unfold update_result. cbn [hist overflow].
  assert (u16 (Z.shiftr (x + k * 2 ^ 19) 3) = u16 (Z.shiftr x 3)) as ->; [|done].
  rewrite !Z.shiftr_div_pow2 by lia. unfold u16. replace (x + k * 2 ^ 19) with (x + (k * 2 ^ 16) * 2 ^ 3) by lia.
  rewrite Z.div_add by lia. by rewrite Z.mod_add.
Qed.

Lemma long_reading_aliases_witness :
  hist (update_result empty_result (8 + 1 * 2 ^ 19)) = hist (update_result empty_result 8).
Proof. apply (long_reading_aliases empty_result 8 1); lia. Defined.
