(* ===== verification/UsartDriver.v ===== *)
(** * The USART2 driver's entry points ([usart.c], [usart_driver.c])

    The calls that wait take the interrupts that come while they wait, in
    order; a loop that is still waiting after the last one is [Diverge]. *)
From S2P Require Import Prelude RingBuffer Usart Spi Platform PlatformSpec.

(** The two reads of SR and the read of DR of a run of the handler. *)
Record irq : Type := Irq { irq_sr1 : Z; irq_sr2 : Z; irq_dr : Z }.
Definition handle (i : irq) : UM bool := usart2_handler (irq_sr1 i) (irq_sr2 i) (irq_dr i).

(** The driver and the count of [rx_sem], whose unit the reader takes or waits
    for. *)
Record rx_port : Type := RxPort { rp_usart : usart; rp_sem : Z }.
Abbreviation RP := (prog rx_port).

Definition port {A} (m : UM A) : RP A := fun p =>
  match m (rp_usart p) with Ok (a, u) => Ok (a, RxPort u (rp_sem p)) | Trap e => Trap e end.
(** The handler posts the semaphore. *)
Definition port_handle (i : irq) : RP unit :=
  posted ← port (handle i);
  if posted : bool then modify (fun p => RxPort (rp_usart p) (rp_sem p + 1)) else mret tt.
Fixpoint handle_all (irqs : list irq) : RP unit :=
  match irqs with
  | [] => mret tt
  | i :: irqs => port_handle i;; handle_all irqs
  end.

(** ** Writing *)

(** The result: the interrupts that are left. *)
Fixpoint usart2_putc_wait (irqs : list irq) (c : Z) : RP (list irq) :=
  full ← gets (fun p => ring_buffer_full (u_tx (rp_usart p)));
  if full : bool then
    match irqs with
    | [] => raise Diverge
    | i :: irqs => port_handle i;; usart2_putc_wait irqs c
    end
  else
    port (on_tx (ring_buffer_put (u8 c)));;
    port (modify (fun u => set_u_cr1 (Z.lor (u_cr1 u) USART_ENABLE_TXEIE) u));;
    mret irqs.

(** The string ends with a zero; memory without one faults at its end. *)
Fixpoint usart2_puts (irqs : list irq) (str : list Z) : RP (list irq) :=
  match str with
  | [] => raise Fault
  | c :: str => if c =? 0 then mret irqs else irqs ← usart2_putc_wait irqs c; usart2_puts irqs str
  end.

Fixpoint usart2_drv_write_loop (irqs : list irq) (buf : list Z) : RP (list irq) :=
  match buf with
  | [] => mret irqs
  | c :: buf => irqs ← usart2_putc_wait irqs c; usart2_drv_write_loop irqs buf
  end.
Definition usart2_drv_write (irqs : list irq) (buf : list Z) : RP (Z * list irq) :=
  irqs ← usart2_drv_write_loop irqs buf; mret (Z.of_nat (length buf), irqs).

(** ** Writing without interrupts *)

Definition USART2_SR : Z := 0x40004400.
Definition USART2_DR : Z := 0x40004404.

Section sync.
Context {S : Type} `{Mmio S}.

Definition usart2_fault_putc (fuel : nat) (c : Z) : prog S unit :=
  poll fuel USART2_SR USART_SR_TXE USART_SR_TXE;;
  mm_write USART2_DR (u8 c).
Fixpoint usart2_drv_write_sync_loop (fuel : nat) (buf : list Z) : prog S unit :=
  match buf with
  | [] => mret tt
  | c :: buf => usart2_fault_putc fuel c;; usart2_drv_write_sync_loop fuel buf
  end.
Definition usart2_drv_write_sync (fuel : nat) (buf : list Z) : prog S Z :=
  usart2_drv_write_sync_loop fuel buf;; mret (Z.of_nat (length buf)).
End sync.

(** ** Reading *)

Fixpoint rx_wait (irqs : list irq) : RP (list irq) :=
  n ← gets rp_sem;
  if n >? 0 then modify (fun p => RxPort (rp_usart p) (n - 1));; mret irqs
  else
    match irqs with
    | [] => raise Diverge
    | i :: irqs => port_handle i;; rx_wait irqs
    end.

Fixpoint usart2_drv_read_blocking (irqs : list irq) (len : nat) : RP (list Z * list irq) :=
  match len with
  | O => mret ([], irqs)
  | S len =>
      irqs ← rx_wait irqs;
      c ← port usart2_getc_blocking;
      '(cs, irqs) ← usart2_drv_read_blocking irqs len;
      mret (c :: cs, irqs)
  end.

(** ** Writing completes *)

(** While something waits to be sent, the transmit interrupt is enabled. *)
Definition tx_armed (u : usart) (t : list Z) : Prop :=
  t <> [] -> bits (u_cr1 u) USART_ENABLE_TXEIE = true.
Definition txe (i : irq) : Prop := bits (irq_sr1 i) USART_SR_TXE = true.
Definition tx_rep (u : usart) (r t : list Z) : Prop :=
  usart_rep u r t /\ rb_size (u_tx u) = Z.of_nat TX_BUFFER_SIZE /\ Forall (fun x => u8 x = x) t /\ tx_armed u t.

Lemma armed_lor v : bits (Z.lor v USART_ENABLE_TXEIE) USART_ENABLE_TXEIE = true.
Proof.
  unfold bits. destruct (Z.eqb_spec (Z.land (Z.lor v USART_ENABLE_TXEIE) USART_ENABLE_TXEIE) 0) as [E|]; [|done].
  apply (f_equal (fun z => Z.testbit z 7)) in E. rewrite Z.land_spec, Z.lor_spec in E.
  change (Z.testbit USART_ENABLE_TXEIE 7) with true in E. by destruct (Z.testbit v 7).
Qed.

(** The receiving half of the handler leaves the rest alone. *)
Definition taken (i : irq) (u : usart) : list Z := accepted (UIrq (irq_sr1 i) (irq_sr2 i) (irq_dr i)) u.
Definition rx_half (i : irq) : UM bool :=
  if bits (irq_sr2 i) USART_SR_RXNE then
    full ← gets (fun u => ring_buffer_full (u_rx u));
    if negb full then on_rx (ring_buffer_put (irq_dr i));; mret true else mret false
  else mret false.
Lemma rx_half_ok i u r :
  ring_rep (u_rx u) r ->
  exists rx, rx_half i u = Ok (bool_decide (taken i u <> []), Usart (u_cr1 u) rx (u_tx u) (u_sent u)) /\
    ring_rep rx (r ++ taken i u).
Proof.
  intros Hr. unfold rx_half, taken, accepted, gets, mbind, prog_bind.
  destruct (bits (irq_sr2 i) USART_SR_RXNE); cbn [andb].
  2: { exists (u_rx u). rewrite app_nil_r. by destruct u. }
  destruct (ring_buffer_full (u_rx u)) eqn:Ef; cbn [negb].
  { exists (u_rx u). rewrite app_nil_r. by destruct u. }
  destruct (ring_put_ok _ _ (irq_dr i) Hr Ef) as (rx & E & Hrx & _). exists rx.
  unfold on_rx. by rewrite E.
Qed.

Lemma tx_rep_nil u r :
  usart_rep u r [] -> rb_size (u_tx u) = Z.of_nat TX_BUFFER_SIZE -> tx_rep u r [].
Proof. intros Hu Hs. split; [done|]. split; [done|]. split; [constructor|]. by intros []. Qed.

(** A transmit interrupt sends the oldest byte; a received byte is taken when
    there is room. *)
Lemma handle_sends u r t i :
  tx_rep u r t -> txe i ->
  exists u', handle i u = Ok (bool_decide (taken i u <> []), u') /\ tx_rep u' (r ++ taken i u) (tail t) /\
    u_sent u' = u_sent u ++ take 1 t.
Proof.
  intros ([Hr Ht] & Hz & Hb & Ha) Hi. unfold handle, usart2_handler. fold (rx_half i).
  unfold gets. unfold mbind at 1, prog_bind at 1. rewrite Hi. cbn [andb].
  destruct t as [|x t].
  - destruct (bits (u_cr1 u) USART_ENABLE_TXEIE).
    + unfold mbind at 1, prog_bind at 1. unfold mbind at 1, prog_bind at 1. rewrite (ring_empty_ok _ _ Ht), bool_decide_true by done.
      cbn [negb]. unfold modify.
      destruct (rx_half_ok i (set_u_cr1 (Z.land (u_cr1 u) (Z.lnot USART_ENABLE_TXEIE)) u) r Hr) as (rx & E & Hrx).
      exists (Usart (Z.land (u_cr1 u) (Z.lnot USART_ENABLE_TXEIE)) rx (u_tx u) (u_sent u)). rewrite app_nil_r. split; [done|]. split; [by apply tx_rep_nil|done].
    + unfold mbind at 1, prog_bind at 1. cbn. destruct (rx_half_ok i u r Hr) as (rx & -> & Hrx). eexists. rewrite app_nil_r. split; [done|]. split; [by apply tx_rep_nil|done].
  - rewrite Ha by done. apply Forall_cons in Hb as [Hx Hb].
    destruct (ring_get_ok _ _ _ Ht) as (tx & Eg & Ht' & Hz').
    unfold mbind at 1, prog_bind at 1. unfold mbind at 1, prog_bind at 1. rewrite (ring_empty_ok _ _ Ht), bool_decide_false by done.
    cbn [negb]. unfold mbind at 1, prog_bind at 1, on_tx. rewrite Eg. unfold write_DR, modify. cbn [u_sent u_cr1 u_rx u_tx].
    rewrite Hx. destruct (rx_half_ok i (Usart (u_cr1 u) (u_rx u) tx (u_sent u ++ [x])) r Hr) as (rx & E & Hrx).
    eexists. split; [exact E|]. split; [|done].
    split; [done|]. split; [cbn; congruence|]. split; [done|]. intros _. by apply Ha.
Qed.

Lemma port_sends p r t i :
  tx_rep (rp_usart p) r t -> txe i ->
  exists p' r', port_handle i p = Ok (tt, p') /\ tx_rep (rp_usart p') r' (tail t) /\
    u_sent (rp_usart p') = u_sent (rp_usart p) ++ take 1 t /\
    rp_sem p' - rp_sem p = Z.of_nat (length r') - Z.of_nat (length r).
Proof.
  intros Hu Hi. destruct (handle_sends _ r t i Hu Hi) as (u' & E & Hu' & Es).
  unfold port_handle, port. unfold mbind, prog_bind. rewrite E.
  assert (length (taken i (rp_usart p)) = if bool_decide (taken i (rp_usart p) <> []) then 1 else 0)%nat as Hl.
  { unfold taken, accepted. destruct (_ && _); cbn; done. }
  case_bool_decide; eexists _, _; (split; [done|]); (split; [exact Hu'|]); (split; [exact Es|]);
    rewrite length_app, Hl; cbn; lia.
Qed.

Lemma handle_all_sends irqs p r t :
  tx_rep (rp_usart p) r t -> Forall txe irqs ->
  exists p' r', handle_all irqs p = Ok (tt, p') /\ tx_rep (rp_usart p') r' (drop (length irqs) t) /\
    u_sent (rp_usart p') = u_sent (rp_usart p) ++ take (length irqs) t /\
    rp_sem p' - rp_sem p = Z.of_nat (length r') - Z.of_nat (length r).
Proof.
  revert p r t. induction irqs as [|i irqs IH]; intros p r t Hu Hi.
  { exists p, r. cbn. rewrite drop_0, take_0, app_nil_r. split_and!; [done|apply Hu..|done|lia]. }
  apply Forall_cons in Hi as [Hi His]. destruct (port_sends p r t i Hu Hi) as (p1 & r1 & E & Hu1 & Es & Hn).
  destruct (IH _ _ _ Hu1 His) as (p' & r' & E' & Hu' & Es' & Hn'). exists p', r'. cbn [handle_all length].
  rewrite (prog_bind_ok _ _ _ _ _ E), E', Es', Es. split; [done|]. split; [by destruct t; rewrite ?drop_nil in *|].
  split; [|lia]. destruct t as [|x t]; cbn; [by rewrite take_nil, !app_nil_r|]. by rewrite <- app_assoc.
Qed.

(** What a write leaves of the state before it: the bytes of the receive
    buffer and the units of the semaphore grow together. *)
Definition written (p : rx_port) (r t : list Z) (p' : rx_port) (r' t' cs : list Z) : Prop :=
  tx_rep (rp_usart p') r' t' /\ u_sent (rp_usart p') ++ t' = u_sent (rp_usart p) ++ t ++ cs /\
  rp_sem p' - rp_sem p = Z.of_nat (length r') - Z.of_nat (length r).

(** Room: the character goes into the buffer. *)
Lemma putc_room irqs p r t c :
  tx_rep (rp_usart p) r t -> ring_buffer_full (u_tx (rp_usart p)) = false ->
  exists p', usart2_putc_wait irqs c p = Ok (irqs, p') /\ written p r t p' r (t ++ [u8 c]) [u8 c].
Proof.
  intros ([Hr Ht] & Hz & Hb & Ha) Hf.
  assert (usart2_putc_wait irqs c p = (port (on_tx (ring_buffer_put (u8 c)));;
    port (modify (fun u => set_u_cr1 (Z.lor (u_cr1 u) USART_ENABLE_TXEIE) u));; mret irqs) p) as ->.
  { destruct irqs; cbn [usart2_putc_wait]; unfold gets; unfold mbind at 1, prog_bind at 1; by rewrite Hf. }
  destruct (ring_put_ok _ _ (u8 c) Ht Hf) as (tx & E & Ht' & Hz'). rewrite u8_u8 in Ht'.
  unfold mbind, prog_bind, port, on_tx. rewrite E. eexists. split; [done|]. split; [|split; [done|cbn; lia]].
  split; [done|]. split; [cbn; congruence|]. split.
  - apply Forall_app. split; [done|]. by repeat constructor; rewrite u8_u8.
  - intros _. apply armed_lor.
Qed.

(** One character: at most one interrupt has to make room. *)
Lemma putc_wait_ok irqs p r t c :
  tx_rep (rp_usart p) r t -> Forall txe irqs -> irqs <> [] ->
  exists rest p' r' t', usart2_putc_wait irqs c p = Ok (rest, p') /\ Forall txe rest /\
    written p r t p' r' t' [u8 c] /\
    (length t' + length irqs = length t + 1 + length rest)%nat /\ (length irqs <= S (length rest))%nat.
Proof.
  intros Hu Hi Hne. destruct (ring_buffer_full (u_tx (rp_usart p))) eqn:Ef.
  2: { destruct (putc_room irqs p r t c Hu Ef) as (p' & E & Hw). exists irqs, p', r, (t ++ [u8 c]).
    split_and!; [done|done|apply Hw..|rewrite length_app; cbn; lia|lia]. }
  destruct irqs as [|i irqs]; [done|]. apply Forall_cons in Hi as [Hi His].
  destruct (port_sends p r t i Hu Hi) as (p1 & r1 & E & Hu1 & Es & Hn).
  destruct Hu as ([Hr Ht] & Hz & _). rewrite (ring_full_ok _ _ Ht), Hz in Ef. apply Z.eqb_eq in Ef.
  destruct t as [|x t]; [by cbn in Ef|]. cbn [tail] in Hu1.
  assert (ring_buffer_full (u_tx (rp_usart p1)) = false) as Ef1.
  { destruct Hu1 as ([_ Ht1] & Hz1 & _). rewrite (ring_full_ok _ _ Ht1), Hz1. apply Z.eqb_neq. cbn in *. lia. }
  destruct (putc_room irqs p1 _ t c Hu1 Ef1) as (p' & E' & Hu' & Es' & Hn'). exists irqs, p', r1, (t ++ [u8 c]).
  assert (usart2_putc_wait (i :: irqs) c p = (port_handle i;; usart2_putc_wait irqs c) p) as ->.
  { cbn [usart2_putc_wait]. unfold gets. unfold mbind at 1, prog_bind at 1. by rewrite (ring_full_ok _ _ Ht), Hz, Ef. }
  rewrite (prog_bind_ok _ _ _ _ _ E). split_and!; [done|done| | |cbn; lia].
  - split; [done|]. split; [|lia]. rewrite Es', Es. cbn. by rewrite take_0, <- !app_assoc.
  - rewrite length_app. cbn. lia.
Qed.

Lemma drv_write_ok irqs buf p r t :
  tx_rep (rp_usart p) r t -> Forall txe irqs -> (length buf <= length irqs)%nat ->
  exists rest p' r' t', usart2_drv_write irqs buf p = Ok ((Z.of_nat (length buf), rest), p') /\ Forall txe rest /\
    written p r t p' r' t' (u8 <$> buf) /\
    (length t' + length irqs = length t + length buf + length rest)%nat.
Proof.
  intros Hu Hi Hl. unfold usart2_drv_write.
  assert (exists rest p' r' t', usart2_drv_write_loop irqs buf p = Ok (rest, p') /\ Forall txe rest /\
    written p r t p' r' t' (u8 <$> buf) /\
    (length t' + length irqs = length t + length buf + length rest)%nat) as (rest & p' & r' & t' & E & H).
  { revert irqs p r t Hu Hi Hl. induction buf as [|c buf IH]; intros irqs p r t Hu Hi Hl.
    { exists irqs, p, r, t. unfold written. cbn. rewrite app_nil_r. split_and!; [done|done|apply Hu..|done|lia|lia]. }
    cbn [length] in Hl. destruct (putc_wait_ok irqs p r t c Hu Hi) as (i1 & p1 & r1 & t1 & E1 & Hi1 & (Hu1 & Es1 & Hc1) & Hn1 & Hm1).
    { by destruct irqs; [cbn in Hl; lia|]. }
    destruct (IH i1 p1 r1 t1 Hu1 Hi1) as (i2 & p2 & r2 & t2 & E2 & Hi2 & (Hu2 & Es2 & Hc2) & Hn2); [lia|].
    exists i2, p2, r2, t2. cbn [usart2_drv_write_loop]. rewrite (prog_bind_ok _ _ _ _ _ E1), E2.
    split_and!; [done|done| |cbn [length]; lia]. split; [done|]. split; [|lia].
    change (u8 <$> c :: buf) with ([u8 c] ++ (u8 <$> buf)). by rewrite Es2, app_assoc, Es1, <- !app_assoc. }
  exists rest, p', r', t'. by rewrite (prog_bind_ok _ _ _ _ _ E).
Qed.

(** C29: A write returns and everything is sent in order, once there were as many
    transmit interrupts as bytes; so does what was waiting before it. *)
Theorem usart_write_delivers irqs buf p r t :
  tx_rep (rp_usart p) r t -> Forall txe irqs -> (length t + length buf <= length irqs)%nat ->
  exists rest p1 p2, usart2_drv_write irqs buf p = Ok ((Z.of_nat (length buf), rest), p1) /\
    handle_all rest p1 = Ok (tt, p2) /\ u_sent (rp_usart p2) = u_sent (rp_usart p) ++ t ++ (u8 <$> buf) /\
    ring_buffer_empty (u_tx (rp_usart p2)) = true.
Proof.
  intros Hu Hi Hl. destruct (drv_write_ok irqs buf p r t Hu Hi) as (rest & p1 & r1 & t1 & E & Hr & (Hu1 & Es & _) & Hn); [lia|].
  destruct (handle_all_sends rest p1 r1 t1 Hu1 Hr) as (p2 & r2 & E2 & Hu2 & Es2 & _).
  exists rest, p1, p2. rewrite drop_ge in Hu2 by lia. rewrite take_ge in Es2 by lia.
  split_and!; [done|done|by rewrite Es2, Es|]. destruct Hu2 as ([_ Ht] & _). by rewrite (ring_empty_ok _ _ Ht).
Qed.

Lemma usart_write_delivers_witness :
  exists rest p1 p2, usart2_drv_write (repeat (Irq 0x80 0 0) 20) (Z.of_nat <$> seq 48 20) (RxPort usart_boot 0) = Ok ((20, rest), p1) /\
    handle_all rest p1 = Ok (tt, p2) /\ u_sent (rp_usart p2) = Z.of_nat <$> seq 48 20.
Proof.
  destruct (usart_write_delivers (repeat (Irq 0x80 0 0) 20) (Z.of_nat <$> seq 48 20) (RxPort usart_boot 0) [] [])
    as (rest & p1 & p2 & E & E2 & Es & _).
  - apply tx_rep_nil; [apply usart_boot_rep|done].
  - by repeat constructor.
  - cbn. lia.
  - exists rest, p1, p2. split; [exact E|]. split; [exact E2|]. rewrite Es. vm_compute. reflexivity.
Defined.

(** ** Writing without interrupts *)

(** What is written to the data register, in order. *)
Definition dr_writes (t : list access) : list Z :=
  omap (fun a => match a with Wr r v => if r =? USART2_DR then Some v else None | _ => None end) t.
(** Each of these writes comes right after a read that showed TXE. *)
Fixpoint polite (ready : bool) (t : list access) : bool :=
  match t with
  | [] => true
  | Rd r v :: t => polite ((r =? USART2_SR) && bit_set v USART_SR_TXE) t
  | Wr r v :: t => (ready || negb (r =? USART2_DR)) && polite false t
  | _ :: t => polite false t
  end.

Lemma polite_waited b t c rest :
  waited USART2_SR USART_SR_TXE USART_SR_TXE t ->
  polite b (t ++ Wr USART2_DR c :: rest) = polite false rest /\
  dr_writes (t ++ Wr USART2_DR c :: rest) = c :: dr_writes rest.
Proof.
  intros (pre & v & -> & Hv & Hp). rewrite <- app_assoc. revert b.
  induction Hp as [|? pre [x ->] Hp IH]; intros b; [|apply (IH _)].
  cbn [app polite]. unfold bit_set. rewrite Hv. cbn. split; [by destruct (polite false rest)|done].
Qed.

(** A blocking write, byte by byte. *)
Lemma sync_write_ok answer fuel buf l :
  (forall l, comes answer fuel USART2_SR USART_SR_TXE USART_SR_TXE l) ->
  exists t, usart2_drv_write_sync (H := log_mmio answer) fuel buf l = Ok (Z.of_nat (length buf), l ++ t) /\
    dr_writes t = u8 <$> buf /\ polite false t = true.
Proof.
  intros Hc. unfold usart2_drv_write_sync.
  assert (exists t, usart2_drv_write_sync_loop (H := log_mmio answer) fuel buf l = Ok (tt, l ++ t) /\
    dr_writes t = u8 <$> buf /\ polite false t = true) as (t & E & H).
  { revert l. induction buf as [|c buf IH]; intros l; cbn [usart2_drv_write_sync_loop].
    { exists []. by rewrite app_nil_r. }
    destruct (poll_ok answer fuel _ _ _ l (Hc l)) as (t1 & E1 & Hw).
    destruct (IH ((l ++ t1) ++ [Wr USART2_DR (u8 c)])) as (t2 & E2 & Hd & Hp).
    exists (t1 ++ Wr USART2_DR (u8 c) :: t2). unfold usart2_fault_putc. rewrite prog_bind_assoc.
    rewrite (prog_bind_ok _ _ _ _ _ E1).
    destruct (polite_waited false t1 (u8 c) t2 Hw) as [-> ->]. split_and!; [|by rewrite Hd|done].
    rewrite (prog_bind_ok _ _ _ tt ((l ++ t1) ++ [Wr USART2_DR (u8 c)])) by done.
    by rewrite E2, <- !app_assoc. }
  exists t. by rewrite (prog_bind_ok _ _ _ _ _ E).
Qed.

(** The panic path: when the hardware becomes ready each time, all bytes are
    written in order, each after TXE was seen. *)
Theorem usart_sync_write answer fuel buf l :
  (forall l, comes answer fuel USART2_SR USART_SR_TXE USART_SR_TXE l) ->
  exists t, usart2_drv_write_sync (H := log_mmio answer) fuel buf l = Ok (Z.of_nat (length buf), l ++ t) /\
    dr_writes t = u8 <$> buf /\ polite false t = true.
Proof. apply sync_write_ok. Qed.

Lemma usart_sync_write_witness :
  exists t, usart2_drv_write_sync (H := log_mmio (fun _ _ => 0xC0)) 1 [72; 105] [] = Ok (2, t) /\ dr_writes t = [72; 105].
Proof.
  destruct (usart_sync_write (fun _ _ => 0xC0) 1 [72; 105] []) as (t & E & Ht & _).
  - intros l. exists 0%nat. split; [lia|done].
  - exists t. split; [exact E|exact Ht].
Defined.

(** ** Reading with blocking *)

Definition rxne (i : irq) : Prop := bits (irq_sr2 i) USART_SR_RXNE = true.
(** The semaphore counts the bytes of the receive buffer. *)
Definition port_rep (p : rx_port) (r : list Z) : Prop :=
  exists t, usart_rep (rp_usart p) r t /\ Forall (fun x => u8 x = x) t /\ rp_sem p = Z.of_nat (length r).

Lemma rx_wait_ok irqs p r :
  port_rep p r -> Forall rxne irqs -> (r <> [] \/ irqs <> []) ->
  exists x r' p1 rest, rx_wait irqs p = Ok (rest, p1) /\
    r ++ (u8 ∘ irq_dr <$> irqs) = (x :: r') ++ (u8 ∘ irq_dr <$> rest) /\ Forall rxne rest /\
    (exists t, usart_rep (rp_usart p1) (x :: r') t /\ Forall (fun x => u8 x = x) t) /\
    rp_sem p1 = Z.of_nat (length r').
Proof.
  intros (t & Hu & Hb & Hs) Hi Hne. destruct r as [|x r].
  - destruct irqs as [|i irqs]; [by destruct Hne|]. apply Forall_cons in Hi as [Hi His].
    destruct (handler_ok _ _ t (irq_sr1 i) (irq_sr2 i) (irq_dr i) Hu Hb) as (u1 & t1 & E & Hu1 & _ & Hb1).
    assert (ring_buffer_full (u_rx (rp_usart p)) = false) as Hf.
    { destruct Hu as [Hr _]. rewrite (ring_full_ok _ _ Hr). destruct Hr as [? _ _ _ _ _]. apply Z.eqb_neq. cbn. lia. }
    unfold rxne in Hi. cbn [accepted] in Hu1. rewrite Hi, Hf in E, Hu1. cbn in Hu1.
    exists (u8 (irq_dr i)), [], (RxPort u1 0), irqs. split_and!; [|done|done|by exists t1|done].
    cbn [rx_wait]. unfold gets. unfold mbind at 1, prog_bind at 1.
    replace (rp_sem p >? 0) with false by (by rewrite Hs).
    rewrite (prog_bind_ok _ _ p tt (RxPort u1 1)).
    + destruct irqs; cbn [rx_wait]; done.
    + unfold port_handle. rewrite (prog_bind_ok _ _ p true (RxPort u1 0)); [done|].
      unfold port, handle. rewrite E. by rewrite Hs.
  - exists x, r, (RxPort (rp_usart p) (Z.of_nat (length r))), irqs. split_and!; [|done|done|by exists t|done].
    assert ((rp_sem p >? 0) = true) as Hgt by (by rewrite Hs).
    destruct irqs; cbn [rx_wait]; unfold gets; unfold mbind at 1, prog_bind at 1; rewrite Hgt;
      unfold mbind, prog_bind, modify; cbn; (replace (rp_sem p - 1) with (Z.of_nat (length r)) by (rewrite Hs; cbn [length]; lia)); done.
Qed.

(** A blocking read returns the bytes in the order of their arrival, the ones
    that were waiting first, when enough interrupts bring one. *)
Theorem usart_read_blocks irqs len p r :
  port_rep p r -> Forall rxne irqs -> (len <= length r + length irqs)%nat ->
  exists rest p' r', usart2_drv_read_blocking irqs len p =
      Ok ((take len (r ++ (u8 ∘ irq_dr <$> irqs)), rest), p') /\
    port_rep p' r' /\ r' ++ (u8 ∘ irq_dr <$> rest) = drop len (r ++ (u8 ∘ irq_dr <$> irqs)).
Proof.
  revert irqs p r. induction len as [|len IH]; intros irqs p r Hp Hi Hl.
  { exists irqs, p, r. by rewrite take_0, drop_0. }
  destruct (rx_wait_ok irqs p r Hp Hi) as (x & r1 & p1 & rest & E & Eq & Hi1 & (t & [Hr Ht] & Hb) & Hs).
  { destruct r; [right|by left]. destruct irqs; [cbn in Hl; lia|done]. }
  destruct (ring_get_ok _ _ _ Hr) as (rx & Eg & Hr' & _).
  destruct (IH rest (RxPort (Usart (u_cr1 (rp_usart p1)) rx (u_tx (rp_usart p1)) (u_sent (rp_usart p1))) (rp_sem p1)) r1)
    as (rest' & p' & r' & E' & Hp' & Eq').
  - by exists t.
  - done.
  - apply (f_equal length) in Eq. rewrite !length_app, !length_fmap in Eq. cbn in Eq. lia.
  - exists rest', p', r'. rewrite Eq. cbn [app take drop]. split_and!; [|done|done].
    cbn [usart2_drv_read_blocking]. rewrite (prog_bind_ok _ _ _ _ _ E).
    unfold mbind at 1, prog_bind at 1, port, usart2_getc_blocking, on_rx. rewrite Eg.
    by rewrite (prog_bind_ok _ _ _ _ _ E').
Qed.

Lemma usart_read_blocks_witness :
  exists rest p', usart2_drv_read_blocking [Irq 0 0x20 65; Irq 0 0x20 66; Irq 0 0x20 67] 2 (RxPort usart_boot 0) =
    Ok (([65; 66], rest), p').
Proof.
  destruct (usart_read_blocks [Irq 0 0x20 65; Irq 0 0x20 66; Irq 0 0x20 67] 2 (RxPort usart_boot 0) [])
    as (rest & p' & r' & E & _).
  - exists []. split; [apply usart_boot_rep|done].
  - by repeat constructor.
  - cbn. lia.
  - exists rest, p'. exact E.
Defined.
