(* ===== verification/Main.v ===== *)
(** * Start-up ([main.c], [user_main.c], the initialisation of [usart.c])

    [main] on the whole system: the statics as the image has them, then every
    call in the order of the code up to the endless loop at its end.  The
    devices behind the console are one state with the log of all register
    accesses. *)
From Stdlib Require Import Ascii String.
From S2P Require Import Prelude Utils KState Scheduler Semaphore Pool Tcb Kernel Heap Kprintf Console Cli.
From S2P Require Import Syscall UserCalls RingBuffer Usart UsartDriver Spi Platform PlatformSpec Dhcp Net.

(** ** Devices *)

Record dev : Type := Dev {
  dv_log : list access; (* oldest first *)
  dv_spi : spi_state;
  dv_usart : rx_port;
  dv_irqs : list irq; (* the interrupts of USART2 that are still to come *)
  dv_rx_sem : ptr;
}.
Definition on_log {A} (m : prog (list access) A) : prog dev A := fun d =>
  match m (dv_log d) with
  | Ok (a, l) => Ok (a, Dev l (dv_spi d) (dv_usart d) (dv_irqs d) (dv_rx_sem d))
  | Trap e => Trap e
  end.
Definition on_spi {A} (m : prog spi A) : prog dev A := fun d =>
  match m (Spi (dv_spi d) (dv_log d)) with
  | Ok (a, s) => Ok (a, Dev (sp_log s) (sp_state s) (dv_usart d) (dv_irqs d) (dv_rx_sem d))
  | Trap e => Trap e
  end.
Definition on_usart {A} (m : RP A) : prog dev A := fun d =>
  match m (dv_usart d) with
  | Ok (a, u) => Ok (a, Dev (dv_log d) (dv_spi d) u (dv_irqs d) (dv_rx_sem d))
  | Trap e => Trap e
  end.
Definition set_dv_irqs (v : list irq) (d : dev) : dev :=
  Dev (dv_log d) (dv_spi d) (dv_usart d) v (dv_rx_sem d).
Definition set_dv_rx_sem (v : ptr) (d : dev) : dev :=
  Dev (dv_log d) (dv_spi d) (dv_usart d) (dv_irqs d) v.

(** ** The addresses the linker gives *)

Record image_symbols : Type := Symbols {
  i_cli_task : ptr; i_idle_func : ptr; i_user_main : ptr; i_net_task : ptr; i_dhcp_task : ptr;
  i_usart2_driver : ptr;
  (* the string literals of the names *)
  i_CLI : ptr; i_IDLE : ptr; i_user : ptr; i_net_name : ptr; i_dhcp_name : ptr;
}.

Section main.
Context (L : layout) (task_wrapper heap_start heap_end : ptr) (I : image_symbols).
(** What the registers hold; the uninitialised buffer of [kprintf]; how often
    a flag is read at most. *)
Context (answer : Z -> list access -> Z) (stack : bytes) (fuel : nat).
Context (after_wait : list access -> spi_state -> spi_state).
Existing Instance log_mmio.

(** The system and the sockets of the pool. *)
Record board : Type := Board {
  bd_sys : sys dev;
  bd_sockets : gmap ptr socket;
}.
Abbreviation BD := (prog board).
Definition on_sys {A} (m : prog (sys dev) A) : BD A := fun b =>
  match m (bd_sys b) with
  | Ok (a, y) => Ok (a, Board y (bd_sockets b))
  | Trap e => Trap e
  end.
Definition kern {A} (m : K A) : BD A := on_sys (in_kernel m).
Definition cons {A} (m : prog (console dev) A) : BD A := on_sys (in_console m).
Definition devices {A} (m : prog dev A) : BD A := cons (on_device m).
Definition registers (m : prog (list access) unit) : BD unit := devices (on_log m).

(** ** usart.c, usart_driver.c *)

(** [usart2_init] up to its last statement, the creation of [rx_sem]; that one
    needs the kernel and follows in [main]. *)
Definition usart2_init : prog dev unit :=
  on_log (usart2_setup (H := log_mmio answer));;
  on_usart (port (modify (fun u =>
    Usart (u_cr1 u)
      (Ring (repeat 0 RX_BUFFER_SIZE) (rb_size (u_rx u)) (rb_head (u_rx u)) (rb_tail (u_rx u)))
      (Ring (repeat 0 TX_BUFFER_SIZE) (rb_size (u_tx u)) (rb_head (u_tx u)) (rb_tail (u_tx u)))
      (u_sent u)))).
Definition usart2_init_sem : BD unit :=
  sem ← on_sys (sys_sem_create L task_wrapper heap_start heap_end 0);
  devices (modify (set_dv_rx_sem sem)).

Definition usart2_drv_init : prog dev Z := usart2_init;; mret 0.
Definition usart2_driver : driver dev := {|
  d_name := Some (lit "usart2");
  d_init := Some usart2_drv_init;
  d_write := Some (fun buf =>
    irqs ← gets dv_irqs;
    '(n, irqs) ← on_usart (usart2_drv_write irqs buf);
    modify (set_dv_irqs irqs);;
    mret n);
  d_write_sync := Some (fun buf => on_log (usart2_drv_write_sync (H := log_mmio answer) fuel buf));
  d_read := Some (fun len =>
    cs ← on_usart (port (usart2_drv_read (Z.to_nat len))); mret (Z.of_nat (length cs), cs));
  d_read_blocking := Some (fun len =>
    irqs ← gets dv_irqs;
    '(cs, irqs) ← on_usart (usart2_drv_read_blocking irqs (Z.to_nat len));
    modify (set_dv_irqs irqs);;
    mret (Z.of_nat (length cs), cs));
|}.

(** ** kprintf, kpanicf *)

Definition print_with (write : bytes -> prog (console dev) unit) (fmt : bytes) (args : list va_arg) : BD unit :=
  match kprintf stack fmt args with
  | Ok (_, text) => cons (write text)
  | Trap e => raise e
  end.
Definition main_kprintf : bytes -> list va_arg -> BD unit := print_with console_write.
Definition main_kpanicf : bytes -> list va_arg -> BD unit := print_with console_write_sync.

(** ** main.c *)

Definition static_memory_init : BD unit :=
  kern (task_memory_init L);;
  kern (semaphore_memory_init L);;
  kern (mutex_memory_init L);;
  modify (fun b => Board (bd_sys b) (socket_memory_init L (bd_sockets b))).

Definition systick_init : BD unit :=
  registers (systick_setup (H := log_mmio answer));;
  kern (modify (set_system_ticks 0)).

(** [NULL] faults: the results are used without a test. *)
Definition create_tasks : K (ptr * ptr * ptr * ptr) :=
  cli ← create_task L task_wrapper 0 (i_cli_task I) 0;
  upd_task cli (set_t_name (i_CLI I));;
  upd_task cli (set_t_unprivileged 0);;
  idle_task ← create_task L task_wrapper 0xFF (i_idle_func I) 0;
  upd_task idle_task (set_t_name (i_IDLE I));;
  user_task ← create_task L task_wrapper 1 (i_user_main I) 0;
  upd_task user_task (set_t_name (i_user I));;
  net_t ← create_task L task_wrapper 0 (i_net_task I) 0;
  upd_task net_t (set_t_name (i_net_name I));;
  upd_task net_t (set_t_unprivileged 0);;
  mret (cli, idle_task, user_task, net_t).
Definition start_tasks : K unit :=
  '(cli, idle_task, user_task, net_t) ← create_tasks;
  scheduler_put_task idle_task;;
  scheduler_put_task cli;;
  scheduler_put_task user_task;;
  scheduler_put_task net_t.

Definition boot_spi : BD unit :=
  spi_ret ← devices (on_spi (spi1_configure answer));
  if negb (bool_decide (spi_ret = SPI_OK)) then
    main_kprintf (lit "[!][boot] Couldn't configure SPI1" ++ [13; 10]) []
  else
    spi_ret ← devices (on_spi spi1_start);
    if negb (bool_decide (spi_ret = SPI_OK)) then
      main_kprintf (lit "[!][boot] Couldn't start SPI1" ++ [13; 10]) []
    else mret tt.

(** A build without BENCH, up to the loop at the end. *)
Definition main : BD unit :=
  static_memory_init;;
  on_sys (in_heap (heap_init heap_start (u32 (heap_end - heap_start))));;
  registers (fpu_init (H := log_mmio answer));;
  registers (clock_init (H := log_mmio answer) fuel);;
  _r ← cons (driver_register (i_usart2_driver I));
  usart2_init_sem;;
  drv ← cons (driver_find (lit "usart2"));
  _r ← cons (console_attach drv);
  boot_spi;;
  kern scheduler_init;;
  registers (set_priorities (H := log_mmio answer));;
  main_kprintf (lit "[boot] ok, sysclk 84MHz, console=%s" ++ [13; 10]) [VStr (Some (lit "usart2"))];;
  kern start_tasks;;
  systick_init.
End main.
