(* ===== verification/Startup.v ===== *)
(** * The kernel after start-up

    The statics of the image, what the initialisation functions and the
    creation of the first semaphore leave, and the four tasks of [main]. *)
From S2P Require Import Prelude KState Queue Abs Scheduler Sleep Semaphore Invariant Mutex Pool.
From S2P Require Import Tcb Preserve Inherit Kernel Boot Main.

#[local] Arguments slots : simpl never.

Section startup.
Context (L : layout) (HL : layout_ok L) (tw : ptr).

(** ** The image *)

(** A pool of tasks, given slot by slot. *)
Definition tmap (tk : nat -> tcb) : gmap ptr tcb :=
  list_to_map ((fun i => (task_slot L i, tk i)) <$> seq 0 N_TASKS).

(** The kernel's statics: everything is zero. *)
Definition image_k : kstate :=
  MkK (tmap (fun _ => blank_task)) (slots (sem_slot L) N_SEMAPHORES blank_sem)
      (slots (mutex_slot L) N_MUTEXES blank_mutex) empty_list empty_list NULL NULL 0 0 0 0 ∅.

Lemma tmap_lookup tk i : (i < N_TASKS)%nat -> tmap tk !! task_slot L i = Some (tk i).
Proof using HL.
  intros Hi. unfold tmap. apply elem_of_list_to_map_1'.
  - intros y (j & [= E ->] & _)%list_elem_of_fmap. by apply (task_slot_inj L HL) in E as ->.
  - apply list_elem_of_fmap. exists i. split; [done|]. apply elem_of_seq. lia.
Qed.
Lemma tmap_Some tk x t : tmap tk !! x = Some t -> exists i, (i < N_TASKS)%nat /\ x = task_slot L i /\ t = tk i.
Proof using.
  unfold tmap. intros (i & [= -> ->] & Hi%elem_of_seq)%elem_of_list_to_map_2%list_elem_of_fmap.
  exists i. split_and!; [lia|done..].
Qed.
Lemma tmap_alter tk i g :
  (i < N_TASKS)%nat -> alter g (task_slot L i) (tmap tk) = tmap (<[i := g (tk i)]> tk).
Proof using HL.
  intros Hi. apply map_eq. intros x. destruct (tmap (<[i := g (tk i)]> tk) !! x) as [t|] eqn:E.
  - apply tmap_Some in E as (j & Hj & -> & ->). destruct (decide (j = i)) as [->|Hne].
    + by rewrite lookup_alter_eq, tmap_lookup, fn_lookup_insert.
    + rewrite lookup_alter_ne by (intros E; by apply (task_slot_inj L HL) in E).
      by rewrite tmap_lookup, fn_lookup_insert_ne.
  - apply lookup_alter_None. destruct (tmap tk !! x) as [t|] eqn:E'; [|done].
    apply tmap_Some in E' as (j & Hj & -> & _). by rewrite tmap_lookup in E.
Qed.

(** ** The initialisation of the pools changes nothing *)

Lemma for_slots_same body n i (s : kstate) :
  (forall j, (i <= j < i + n)%nat -> body j s = Ok (tt, s)) -> for_slots n i body s = Ok (tt, s).
Proof using.
  revert i. induction n as [|n IH]; intros i H; [done|]. cbn [for_slots].
  rewrite (prog_bind_ok _ _ s tt s) by (apply H; lia). apply IH. intros j Hj. apply H. lia.
Qed.
Lemma upd_task_same x t g s : tasks s !! x = Some t -> g t = t -> upd_task x g s = Ok (tt, s).
Proof using.
  intros Ht Hg. unfold upd_task, fetch, modify, mbind, prog_bind. rewrite Ht, Hg, insert_id by done. by destruct s.
Qed.
Lemma upd_sem_same x v g s : sems s !! x = Some v -> g v = v -> upd_sem x g s = Ok (tt, s).
Proof using.
  intros Ht Hg. unfold upd_sem, fetch, modify, mbind, prog_bind. rewrite Ht, Hg, insert_id by done. by destruct s.
Qed.
Lemma upd_mutex_same x v g s : mutexes s !! x = Some v -> g v = v -> upd_mutex x g s = Ok (tt, s).
Proof using.
  intros Ht Hg. unfold upd_mutex, fetch, modify, mbind, prog_bind. rewrite Ht, Hg, insert_id by done. by destruct s.
Qed.

Lemma image_sem i : (i < N_SEMAPHORES)%nat -> sems image_k !! sem_slot L i = Some blank_sem.
Proof using HL. intros Hi. apply slots_lookup; [done|]. apply (sem_slot_inj L HL). Qed.
Lemma image_mutex i : (i < N_MUTEXES)%nat -> mutexes image_k !! mutex_slot L i = Some blank_mutex.
Proof using HL.
  intros Hi. apply slots_lookup; [done|].
  intros a b E. pose proof (lo_mutex _ HL). unfold mutex_slot in E. nia.
Qed.

Lemma task_memory_image : task_memory_init L image_k = Ok (tt, image_k).
Proof using HL.
  apply for_slots_same. intros j Hj. pose proof (tmap_lookup (fun _ => blank_task) j ltac:(lia)) as Ht.
  repeat (rewrite (prog_bind_ok _ _ image_k tt image_k); [|by apply (upd_task_same _ blank_task)]).
  by apply (upd_task_same _ blank_task).
Qed.
Lemma semaphore_memory_image : semaphore_memory_init L image_k = Ok (tt, image_k).
Proof using HL.
  apply for_slots_same. intros j Hj. pose proof (image_sem j ltac:(lia)) as Ht.
  repeat (rewrite (prog_bind_ok _ _ image_k tt image_k); [|by apply (upd_sem_same _ blank_sem)]).
  by apply (upd_sem_same _ blank_sem).
Qed.
Lemma mutex_memory_image : mutex_memory_init L image_k = Ok (tt, image_k).
Proof using HL.
  apply for_slots_same. intros j Hj. pose proof (image_mutex j ltac:(lia)) as Ht.
  repeat (rewrite (prog_bind_ok _ _ image_k tt image_k); [|by apply (upd_mutex_same _ blank_mutex)]).
  by apply (upd_mutex_same _ blank_mutex).
Qed.

(** ** The abstract states of start-up *)

(** No task waits for anything, no mutex is owned, nothing runs yet; the pool
    holds [tk] and the ready queue [rq]. *)
Record stage (a : aview) (tk : nat -> tcb) (rq : list ptr) : Prop := {
  st_tasks : tasks (av a) = tmap tk;
  st_ready : aq a QReady = rq;
  st_queues : forall r, r <> QReady -> aq a r = [];
  st_stale : astale a = ∅;
  st_sems : forall p v, sems (av a) !! p = Some v -> 0 <= s_count v < 2 ^ 32;
  st_mutexes : forall m v, mutexes (av a) !! m = Some v -> v = blank_mutex;
  st_current : current_task (av a) = NULL;
}.

Definition image_a : aview := AV image_k (fun _ => []) ∅.

Lemma image_tasks x t : tasks image_k !! x = Some t -> t = blank_task /\ x <> NULL.
Proof using HL.
  intros (i & _ & -> & ->)%tmap_Some. split; [done|]. by apply task_slot_nonnull.
Qed.

Lemma image_abs : Abs image_k image_a.
Proof using HL.
  assert (tasks image_k !! NULL = None) as HN.
  { destruct (tasks image_k !! NULL) eqn:E; [|done]. by apply image_tasks in E as [_ ?]. }
  split; try done.
  - assert (strip <$> tasks image_k = tasks image_k) as E1.
    { apply map_eq. intros x. rewrite lookup_fmap. destruct (tasks image_k !! x) eqn:E; [|done].
      by apply image_tasks in E as [-> _]. }
    assert (strip_sem <$> sems image_k = sems image_k) as E2.
    { apply map_eq. intros x. rewrite lookup_fmap. destruct (sems image_k !! x) eqn:E; [|done].
      by apply slots_Some in E as [-> _]. }
    assert (strip_mutex <$> mutexes image_k = mutexes image_k) as E3.
    { apply map_eq. intros x. rewrite lookup_fmap. destruct (mutexes image_k !! x) eqn:E; [|done].
      by apply slots_Some in E as [-> _]. }
    unfold strip_k. by rewrite E1, E2, E3.
  - intros r q Hq. assert (q = empty_list) as ->; [|split_and!; [done..|constructor]].
    destruct r; cbn [load_list] in Hq; [by injection Hq as <-..| |].
    + destruct (sems image_k !! p) as [v|] eqn:E; [|done].
      apply slots_Some in E as [-> _]. by injection Hq as <-.
    + destruct (mutexes image_k !! p) as [v|] eqn:E; [|done].
      apply slots_Some in E as [-> _]. by injection Hq as <-.
  - intros r1 r2 x Hx. by apply elem_of_nil in Hx.
  - by intros x t [-> _]%image_tasks _.
Qed.

Lemma image_stage : stage image_a (fun _ => blank_task) [].
Proof using.
  split; [done..| | |done].
  - intros p v [-> _]%slots_Some. done.
  - by intros m v [-> _]%slots_Some.
Qed.

(** [sys_sem_create(0)] takes the first semaphore. *)
Lemma first_sem_runs : exists a,
  runs image_a (p ← alloc_sem L; whenb (negb (p =? 0)) (semaphore_init p 0);; mret p) (sem_slot L 0) a /\
  stage a (fun _ => blank_task) [].
Proof using HL.
  assert (first_slot (sem_unused L image_a) N_SEMAPHORES 0 = Some 0%nat) as E.
  { apply first_slot_Some. split; [unfold N_SEMAPHORES; lia|]. split; [|intros; lia].
    unfold sem_unused. cbn [av image_a]. by rewrite image_sem by (unfold N_SEMAPHORES; lia). }
  eexists. split.
  - eapply runs_bind.
    { apply runs_alloc_sem. intros k Hk. exists blank_sem. by apply image_sem. }
    rewrite E. cbn beta. cbn [slot_ptr aopen].
    rewrite (proj2 (Z.eqb_neq (sem_slot L 0) 0)) by (by apply sem_slot_nonnull). cbn [negb whenb].
    eapply runs_bind; [|apply runs_ret]. eapply runs_sem_init; [|done].
    cbn. rewrite lookup_alter_eq, image_sem by (unfold N_SEMAPHORES; lia). done.
  - split; [done..| | |done].
    + intros p v. cbn. rewrite !lookup_alter. intros Hv.
      pose proof (image_sem 0 ltac:(unfold N_SEMAPHORES; lia)) as E0.
      change (sems image_k) with (slots (sem_slot L) N_SEMAPHORES blank_sem) in E0. rewrite E0 in Hv.
      repeat case_decide; cbn in Hv; [by injection Hv as <-..|]. by apply slots_Some in Hv as [-> _].
    + by intros m v [-> _]%slots_Some.
Qed.

(** [scheduler_init] on a kernel without ready tasks. *)
Lemma scheduler_init_runs a tk : stage a tk [] ->
  exists a', runs a scheduler_init tt a' /\ stage a' tk [].
Proof using.
  intros [H1 H2 H3 H4 H5 H6 H7]. eexists. split.
  - unfold scheduler_init. eapply (runs_bind _ _ tt a).
    { intros s Hs. exists (set_ready_queue empty_list s). split; [done|]. destruct Hs as [S1 S2 S3 S4 S5 S6].
      split; [exact S1| | |exact S4|exact S5|exact S6].
      - intros [] q Hq; [|by apply S2..]. cbn in Hq. injection Hq as <-. rewrite H2. split_and!; [done..|constructor].
      - intros [] Hq; [done|by apply S3..]. }
    cbn beta. run_step. eapply runs_equiv; [|apply runs_modify; scalar_solve]. reflexivity.
  - by split.
Qed.

(** ** The tasks *)

(** The tcb of a task that was created in a blank slot. *)
Definition born (i : nat) (priority func args : Z) : tcb := newborn L i priority func args blank_task.

(** A task goes into the first blank slot. *)
Lemma create_step a tk n priority func args :
  stage a tk [] -> (n < N_TASKS)%nat -> (forall k, (k < n)%nat -> t_state (tk k) = TASK_READY) ->
  tk n = blank_task ->
  exists a', runs a (create_task L tw priority func args) (task_slot L n) a' /\
    stage a' (<[n := born n priority func args]> tk) [].
Proof using HL.
  intros [H1 H2 H3 H4 H5 H6 H7] Hn Hk Hb.
  assert (first_slot (task_dead L a) N_TASKS 0 = Some n) as E.
  { apply first_slot_Some. unfold task_dead. rewrite H1. split; [lia|]. split.
    - rewrite (tmap_lookup tk n Hn), Hb. reflexivity.
    - intros k Hk'. rewrite (tmap_lookup tk k) by lia. rewrite Hk by lia. reflexivity. }
  pose proof (runs_create_task L tw a priority func args HL) as Hr. cbv zeta in Hr. rewrite E in Hr. cbn [slot_ptr acreate] in Hr.
  eexists. split.
  - apply Hr.
    + intros k Hkn. exists (tk k). rewrite H1. by apply tmap_lookup.
    + intros i _. split; [|rewrite H4; apply not_elem_of_empty].
      intros r. destruct (decide (r = QReady)) as [->|Hq]; [rewrite H2|rewrite H3 by done]; apply not_elem_of_nil.
  - split; [|done..]. unfold amap, aupd_task, amap. cbn [av]. cbn. rewrite H1, tmap_alter by done. by rewrite Hb.
Qed.

(** A field of a task that is in no queue. *)
Lemma field_step a tk rq n g :
  stage a tk rq -> (n < N_TASKS)%nat ->
  (forall t', strip (g t') = g (strip t')) -> (forall t', t_next (g t') = t_next t') ->
  exists a', runs a (upd_task (task_slot L n) g) tt a' /\ stage a' (<[n := g (tk n)]> tk) rq.
Proof using HL.
  intros [H1 H2 H3 H4 H5 H6 H7] Hn Hs Hx. eexists. split.
  - apply (runs_upd_task' _ _ (tk n)); [rewrite H1; by apply tmap_lookup|done..].
  - split; [|done..]. unfold aupd_task, amap. cbn. by rewrite H1, tmap_alter.
Qed.

(** The task goes into the ready queue. *)
Lemma put_step a tk rq n :
  stage a tk rq -> (n < N_TASKS)%nat -> t_state (tk n) = TASK_READY ->
  exists a', runs a (scheduler_put_task (task_slot L n)) tt a' /\
    stage a' tk (ins (key_of t_effective_priority (tmap tk)) (task_slot L n) (del (task_slot L n) rq)).
Proof using HL.
  intros [H1 H2 H3 H4 H5 H6 H7] Hn Hst. eexists. split.
  - apply (runs_put_task _ _ (tk n)); [rewrite H1; by apply tmap_lookup|by apply task_slot_nonnull|rewrite Hst; by intros [?|[?|?]]|].
    intros r Hr. rewrite H3 by done. apply not_elem_of_nil.
  - assert (alter (set_t_state TASK_READY) (task_slot L n) (tmap tk) = tmap tk) as E.
    { apply alter_id. intros t. rewrite (tmap_lookup tk n Hn). intros [= <-]. destruct (tk n); cbn in Hst; by subst. }
    unfold aready, aupd_task, amap. split; cbn.
    + by rewrite H1.
    + rewrite fn_lookup_insert, H2. unfold prio. cbn. by rewrite H1.
    + intros r Hr. rewrite fn_lookup_insert_ne by done. by apply H3.
    + rewrite H4. apply no_stale.
    + done.
    + done.
    + done.
Qed.

Lemma stage_ext a tk tk' rq : stage a tk rq -> (forall i, (i < N_TASKS)%nat -> tk i = tk' i) -> stage a tk' rq.
Proof using.
  intros [H1 H2 H3 H4 H5 H6 H7] He. split; [|done..]. rewrite H1. unfold tmap. f_equal.
  apply list_fmap_ext. intros j i [-> Hi]%lookup_seq. by rewrite He.
Qed.

(** The four tasks of [main] in the first four slots. *)
Context (I : image_symbols).
Definition boot_tasks (i : nat) : tcb :=
  match i with
  | 0%nat => set_t_unprivileged 0 (set_t_name (i_CLI I) (born 0 0 (i_cli_task I) 0))
  | 1%nat => set_t_name (i_IDLE I) (born 1 0xFF (i_idle_func I) 0)
  | 2%nat => set_t_name (i_user I) (born 2 1 (i_user_main I) 0)
  | 3%nat => set_t_unprivileged 0 (set_t_name (i_net_name I) (born 3 0 (i_net_task I) 0))
  | _ => blank_task
  end.

Lemma create_tasks_runs a :
  stage a (fun _ => blank_task) [] ->
  exists a', runs a (create_tasks L tw I) (task_slot L 0, task_slot L 1, task_slot L 2, task_slot L 3) a' /\
    stage a' boot_tasks [].
Proof using HL.
  intros S0. unfold create_tasks.
  assert (forall i, (i < 4)%nat -> (i < N_TASKS)%nat) as H4 by (unfold N_TASKS; lia).
  destruct (create_step a _ 0 0 (i_cli_task I) 0 S0 ltac:(apply H4; lia)) as (a1 & R1 & S1); [intros; lia|done|].
  destruct (field_step a1 _ _ 0 (set_t_name (i_CLI I)) S1 ltac:(apply H4; lia)) as (a2 & R2 & S2); [done..|].
  destruct (field_step a2 _ _ 0 (set_t_unprivileged 0) S2 ltac:(apply H4; lia)) as (a3 & R3 & S3); [done..|].
  destruct (create_step a3 _ 1 0xFF (i_idle_func I) 0 S3 ltac:(apply H4; lia)) as (a4 & R4 & S4); [by intros [|k] Hk; [|lia]|done|].
  destruct (field_step a4 _ _ 1 (set_t_name (i_IDLE I)) S4 ltac:(apply H4; lia)) as (a5 & R5 & S5); [done..|].
  destruct (create_step a5 _ 2 1 (i_user_main I) 0 S5 ltac:(apply H4; lia)) as (a6 & R6 & S6); [by intros [|[|k]] Hk; [| |lia]|done|].
  destruct (field_step a6 _ _ 2 (set_t_name (i_user I)) S6 ltac:(apply H4; lia)) as (a7 & R7 & S7); [done..|].
  destruct (create_step a7 _ 3 0 (i_net_task I) 0 S7 ltac:(apply H4; lia)) as (a8 & R8 & S8); [by intros [|[|[|k]]] Hk; [| | |lia]|done|].
  destruct (field_step a8 _ _ 3 (set_t_name (i_net_name I)) S8 ltac:(apply H4; lia)) as (a9 & R9 & S9); [done..|].
  destruct (field_step a9 _ _ 3 (set_t_unprivileged 0) S9 ltac:(apply H4; lia)) as (a10 & R10 & S10); [done..|].
  exists a10. split.
  - repeat (eapply runs_bind; [eassumption|]; cbn beta). apply runs_ret.
  - eapply stage_ext; [exact S10|]. by intros [|[|[|[|i]]]] _.
Qed.

Lemma boot_key i : (i < 4)%nat -> key_of t_effective_priority (tmap boot_tasks) (task_slot L i) = nth i [0; 255; 1; 0] 0.
Proof using HL.
  intros Hi. unfold key_of. rewrite tmap_lookup by (unfold N_TASKS; lia).
  by destruct i as [|[|[|[|i]]]]; [..|lia].
Qed.

Lemma start_tasks_runs a :
  stage a (fun _ => blank_task) [] ->
  exists a', runs a (start_tasks L tw I) tt a' /\
    stage a' boot_tasks [task_slot L 0; task_slot L 3; task_slot L 2; task_slot L 1].
Proof using HL.
  intros S0. destruct (create_tasks_runs a S0) as (a0 & R0 & S1).
  assert (forall i, (i < 4)%nat -> (i < N_TASKS)%nat) as H4 by (unfold N_TASKS; lia).
  assert (forall i l, i ∉ l -> del (task_slot L i) (task_slot L <$> l) = task_slot L <$> l) as Hd.
  { intros i l Hi. apply del_notin. intros (j & E%(task_slot_inj L HL) & Hj)%list_elem_of_fmap. congruence. }
  assert (forall i l, i ∉ l -> forall l', ins (key_of t_effective_priority (tmap boot_tasks)) (task_slot L i) (task_slot L <$> l) = l' ->
    ins (key_of t_effective_priority (tmap boot_tasks)) (task_slot L i) (del (task_slot L i) (task_slot L <$> l)) = l') as Hi
    by (intros i l Hi l' <-; by rewrite Hd).
  destruct (put_step a0 _ _ 1 S1) as (a1 & R1 & S2); [apply H4; lia|done|].
  change (ins _ _ (del (task_slot L 1) [])) with (task_slot L <$> [1%nat]) in S2.
  destruct (put_step a1 _ _ 0 S2) as (a2 & R2 & S3); [apply H4; lia|done|].
  rewrite (Hi 0%nat [1%nat] ltac:(by refine (bool_decide_unpack _ _)) (task_slot L <$> [0; 1]%nat)) in S3
    by (cbn; by rewrite !boot_key by lia).
  destruct (put_step a2 _ _ 2 S3) as (a3 & R3 & S4); [apply H4; lia|done|].
  rewrite (Hi 2%nat [0; 1]%nat ltac:(by refine (bool_decide_unpack _ _)) (task_slot L <$> [0; 2; 1]%nat)) in S4
    by (cbn; by rewrite !boot_key by lia).
  destruct (put_step a3 _ _ 3 S4) as (a4 & R4 & S5); [apply H4; lia|done|].
  rewrite (Hi 3%nat [0; 2; 1]%nat ltac:(by refine (bool_decide_unpack _ _)) (task_slot L <$> [0; 3; 2; 1]%nat)) in S5
    by (cbn; by rewrite !boot_key by lia).
  exists a4. split; [|exact S5].
  unfold start_tasks. eapply runs_bind; [exact R0|]. cbn beta iota.
  repeat (eapply runs_bind; [eassumption|]; cbn beta). exact R4.
Qed.

(** ** The invariant *)

Lemma boot_tasks_cases i : (i < N_TASKS)%nat ->
  (i < 4)%nat /\ t_state (boot_tasks i) = TASK_READY \/ (4 <= i)%nat /\ boot_tasks i = blank_task.
Proof using.
  intros Hi. destruct i as [|[|[|[|i]]]]; [left; split; [lia|done]..|right; split; [lia|done]].
Qed.
Lemma boot_tasks_fields i :
  t_owned_mutexes (boot_tasks i) = NULL /\ t_effective_priority (boot_tasks i) = t_base_priority (boot_tasks i).
Proof using. by destruct i as [|[|[|[|i]]]]. Qed.

Lemma boot_stage_kinv a :
  stage a boot_tasks (task_slot L <$> [0; 3; 2; 1]%nat) -> kinv a /\ kcur a.
Proof using HL.
  intros [H1 H2 H3 H4 H5 H6 H7].
  assert (forall m, aq a (QMutex m) = []) as Hm by (intros m; by apply H3).
  assert (forall x r, x ∈ aq a r <-> r = QReady /\ exists i, (i < 4)%nat /\ x = task_slot L i) as Hq.
  { intros x r. destruct (decide (r = QReady)) as [->|Hr].
    - rewrite H2. rewrite list_elem_of_fmap. split.
      + intros (i & -> & Hi). split; [done|]. exists i. split; [|done]. set_unfold. lia.
      + intros (_ & i & Hi & ->). exists i. split; [done|]. set_unfold. lia.
    - rewrite H3 by done. split; [by intros ?%elem_of_nil|]. by intros [? _]. }
  assert (forall x t, tasks (av a) !! x = Some t -> exists i, (i < N_TASKS)%nat /\ x = task_slot L i /\ t = boot_tasks i) as Ht
    by (intros x t; rewrite H1; apply tmap_Some).
  assert (forall m v, mutexes (av a) !! m = Some v -> m_owner v = NULL) as Ho by (by intros m v ->%H6).
  assert (kinv a) as Hki; [split|split; [done|]].
  - split.
    + intros x t r (i & Hi & -> & ->)%Ht. rewrite Hq. unfold place.
        destruct (boot_tasks_cases i Hi) as [[Hi4 ->]|[Hi4 ->]].
        -- split; [by intros [-> _]|]. intros [= <-]. split; [done|]. by exists i.
        -- split; [|done]. intros (_ & j & Hj & E%(task_slot_inj L HL)). lia.
    + intros m v _ _. apply Hm.
    + intros m v Hv Hn. by apply Ho in Hv.
  - split; [|intros m; rewrite Hm; constructor]. rewrite H2. unfold prio. rewrite H1.
    cbn. unfold ordered. repeat constructor; rewrite !boot_key by lia; cbn; lia.
  - rewrite H3 by done. constructor.
  - intros x t (i & Hi & -> & ->)%Ht. destruct (boot_tasks_fields i) as [Eo _].
    exists []. split; [exact Eo|]. split; [constructor|]. intros m. split; [by intros ?%elem_of_nil|]. intros (v & Hv & E). rewrite (Ho _ _ Hv) in E.
    by destruct (task_slot_nonnull L HL i).
  - split; [|exact H5]. intros p v _. by rewrite H3.
  - intros x t (i & Hi & -> & ->)%Ht. destruct (boot_tasks_fields i) as [_ Ee]. split; [rewrite Ee; done| |by left].
    intros w (m & v & _ & _ & Hw). rewrite Hm in Hw. by apply elem_of_nil in Hw.
  - done.
  - split.
    + intros x t (i & Hi & -> & ->)%Ht Hs. destruct (boot_tasks_cases i Hi) as [[_ Hr]|[_ Hr]]; rewrite Hr in Hs; done.
    + by left.
    + intros x t (i & Hi & -> & ->)%Ht _. apply boot_tasks_fields.
Qed.
End startup.
