(* ===== verification/MainProps.v ===== *)
(** * Theorem about start-up ([main.c])

    [main] from the image of the program to its endless loop. *)
From Stdlib Require Import Ascii String.
From S2P Require Import Prelude Utils KState Queue Abs Scheduler Semaphore Invariant Pool Tcb Preserve Kernel Boot.
From S2P Require Import Guarantees Heap HeapSpec Kprintf KprintfSpec Console Syscall UserCalls RingBuffer.
From S2P Require Import Usart UsartDriver Spi Platform PlatformSpec PlatformProps Main Startup.

Section steps.
Context (L : layout) (HL : layout_ok L) (tw heap_start heap_end : ptr) (I : image_symbols).
Context (answer : Z -> list access -> Z) (stack : bytes) (fuel : nat).
Context (drv : ptr).
Abbreviation the_driver := (usart2_driver answer fuel).

(** The parts of the system during start-up. *)
Record at_boot (b : board) (a : aview) (h : heap) (reg sinks : list ptr) (d : dev) (S : gmap ptr socket) : Prop := {
  ab_kernel : Abs (y_k (bd_sys b)) a;
  ab_heap : heap_head (y_heap (bd_sys b)) = heap_head h /\ h_blocks (y_heap (bd_sys b)) = h_blocks h;
  ab_driver : c_drivers (y_console (bd_sys b)) !! drv = Some the_driver;
  ab_registry : c_registry (y_console (bd_sys b)) = reg;
  ab_sinks : c_sinks (y_console (bd_sys b)) = sinks;
  ab_device : c_device (y_console (bd_sys b)) = d;
  ab_sockets : bd_sockets b = S;
}.

Lemma kern_at {A} (m : K A) v a a' b h reg sinks d S :
  runs a m v a' -> at_boot b a h reg sinks d S ->
  exists b', kern m b = Ok (v, b') /\ at_boot b' a' h reg sinks d S.
Proof using.
  intros Hm [H1 H2 H3 H4 H5 H6 H7]. destruct (Hm _ H1) as (k' & E & Hk').
  eexists. unfold kern, on_sys, in_kernel. rewrite E. split; [reflexivity|]. by split.
Qed.

(** A console operation, whatever PRIMASK is. *)
Lemma cons_at {A} (m : prog (console dev) A) v a b h reg sinks d S reg' sinks' d' :
  (forall dr pm, dr !! drv = Some the_driver ->
    m (Console dr reg sinks d pm) = Ok (v, Console dr reg' sinks' d' pm)) ->
  at_boot b a h reg sinks d S ->
  exists b', cons m b = Ok (v, b') /\ at_boot b' a h reg' sinks' d' S.
Proof using.
  intros Hm [H1 H2 H3 H4 H5 H6 H7]. unfold cons, on_sys, in_console, set_c_primask.
  rewrite H4, H5, H6, (Hm _ _ H3). eexists. split; [reflexivity|]. split; try done.
  cbn. by destruct (y_k (bd_sys b)).
Qed.
Lemma devices_at {A} (m : prog dev A) v a b h reg sinks d S d' :
  m d = Ok (v, d') -> at_boot b a h reg sinks d S ->
  exists b', devices m b = Ok (v, b') /\ at_boot b' a h reg sinks d' S.
Proof using.
  intros Hm. apply cons_at. intros dr pm _. unfold on_device. cbn. by rewrite Hm.
Qed.
Lemma registers_at (m : prog (list access) unit) a b h reg sinks d S t :
  m (dv_log d) = Ok (tt, dv_log d ++ t) -> at_boot b a h reg sinks d S ->
  exists b', registers m b = Ok (tt, b') /\
    at_boot b' a h reg sinks (Dev (dv_log d ++ t) (dv_spi d) (dv_usart d) (dv_irqs d) (dv_rx_sem d)) S.
Proof using. intros Hm. apply devices_at. unfold on_log. by rewrite Hm. Qed.

(** The driver registers itself and the console finds it. *)
Lemma register_at a b h d S t :
  drv <> NULL -> usart2_setup (H := log_mmio answer) (dv_log d) = Ok (tt, dv_log d ++ t) ->
  dv_usart d = RxPort usart_boot 0 ->
  at_boot b a h (repeat NULL DRIVER_MAX) (repeat NULL CONSOLE_MAX_SINKS) d S ->
  exists b', cons (driver_register drv) b = Ok (0, b') /\
    at_boot b' a h (drv :: repeat NULL 7) (repeat NULL CONSOLE_MAX_SINKS)
      (Dev (dv_log d ++ t) (dv_spi d) (dv_usart d) (dv_irqs d) (dv_rx_sem d)) S.
Proof using.
  intros Hd Ht Hu. apply cons_at. intros dr pm Hdr. unfold driver_register.
  rewrite (proj2 (Z.eqb_neq _ _) Hd). unfold deref, fetch. unfold mbind at 1, prog_bind at 1. cbn [c_drivers]. rewrite Hdr.
  cbn [d_name usart2_driver d_init].
  rewrite (prog_bind_ok _ _ _ 0 (Console dr (repeat NULL DRIVER_MAX) (repeat NULL CONSOLE_MAX_SINKS)
    (Dev (dv_log d ++ t) (dv_spi d) (dv_usart d) (dv_irqs d) (dv_rx_sem d)) pm)).
  - cbn. reflexivity.
  - unfold on_device. cbn [c_device]. unfold usart2_drv_init, usart2_init. rewrite prog_bind_assoc.
    unfold mbind at 1, prog_bind at 1, on_log. rewrite Ht. rewrite Hu. reflexivity.
Qed.

Lemma find_at a b h d S :
  drv <> NULL -> at_boot b a h (drv :: repeat NULL 7) (repeat NULL CONSOLE_MAX_SINKS) d S ->
  exists b', cons (driver_find (lit "usart2")) b = Ok (drv, b') /\
    at_boot b' a h (drv :: repeat NULL 7) (repeat NULL CONSOLE_MAX_SINKS) d S.
Proof using.
  intros Hd. apply cons_at. intros dr pm Hdr. unfold driver_find, gets. unfold mbind at 1, prog_bind at 1.
  cbn [c_registry driver_find_scan]. rewrite (proj2 (Z.eqb_neq _ _) Hd).
  unfold deref, fetch. unfold mbind at 1, prog_bind at 1. cbn [c_drivers]. by rewrite Hdr.
Qed.

Lemma attach_at a b h d S :
  drv <> NULL -> at_boot b a h (drv :: repeat NULL 7) (repeat NULL CONSOLE_MAX_SINKS) d S ->
  exists b', cons (console_attach drv) b = Ok (0, b') /\
    at_boot b' a h (drv :: repeat NULL 7) (drv :: repeat NULL 3) d S.
Proof using.
  intros Hd. apply cons_at. intros dr pm Hdr. rewrite (console_attach_ok drv _ Hd). cbn [c_sinks].
  unfold attached. rewrite bool_decide_false; [reflexivity|].
  intros Hin. apply list_elem_of_In, (repeat_spec CONSOLE_MAX_SINKS NULL drv) in Hin. done.
Qed.

(** The semaphore of the driver. *)
Lemma sem_at a0 a1 p b h reg sinks d S :
  runs a0 (p ← alloc_sem L; whenb (negb (p =? 0)) (semaphore_init p 0);; mret p) p a1 ->
  at_boot b a0 h reg sinks d S ->
  exists b', usart2_init_sem L tw heap_start heap_end b = Ok (tt, b') /\
    at_boot b' a1 h reg sinks (set_dv_rx_sem p d) S.
Proof using.
  intros Hr Hb. pose proof Hb as [H1 H2 H3 H4 H5 H6 H7]. destruct (Hr _ H1) as (k' & E & Hk').
  assert (exists b1, on_sys (sys_sem_create L tw heap_start heap_end 0) b = Ok (p, b1) /\ at_boot b1 a1 h reg sinks d S)
    as (b1 & E1 & Hb1).
  { exists (Board (set_y_k k' (bd_sys b)) (bd_sockets b)). split; [|by split].
    assert (svc_case L tw heap_start heap_end SYS_SEM_CREATE 0 0 0 0 (bd_sys b) = Ok ((p, false), set_y_k k' (bd_sys b))) as Ec.
    { unfold svc_case. revert E. unfold mbind, prog_bind, in_kernel, gets.
      destruct (alloc_sem L (y_k (bd_sys b))) as [[q k1]|]; [|done]. destruct (negb (q =? 0)); cbn [whenb].
      - cbn [y_k set_y_k]. destruct (semaphore_init q 0 k1) as [[[] k2]|]; [|done]. intros [= -> ->]. done.
      - intros [= -> ->]. done. }
    unfold on_sys, sys_sem_create, syscall, svc_dispatch. change (syscall_of (number_of SYS_SEM_CREATE)) with (Some SYS_SEM_CREATE).
    cbv iota. change (u32 0) with 0. by rewrite (prog_bind_ok _ _ _ _ _ Ec). }
  destruct (devices_at (modify (set_dv_rx_sem p)) tt a1 b1 h reg sinks d S (set_dv_rx_sem p d)) as (b2 & E2 & H); [done|done|].
  exists b2. split; [|done]. unfold usart2_init_sem. by rewrite (prog_bind_ok _ _ _ _ _ E1).
Qed.

(** *** The SPI driver *)

Section spi.
Context (after_wait : list access -> spi_state -> spi_state).

(** Only accesses are added. *)
Definition only_logs (m : prog spi unit) : Prop :=
  forall s, exists t, m s = Ok (tt, Spi (sp_state s) (sp_log s ++ t)).
Lemma only_logs_bind m k : only_logs m -> only_logs k -> only_logs (m;; k).
Proof using.
  intros Hm Hk s. destruct (Hm s) as [t E]. destruct (Hk (Spi (sp_state s) (sp_log s ++ t))) as [t' E'].
  exists (t ++ t'). rewrite (prog_bind_ok _ _ _ _ _ E), E'. cbn. by rewrite <- app_assoc.
Qed.
Lemma only_logs_write r v : only_logs (mm_write (Mmio := spi_mmio answer) r v).
Proof using. intros s. by exists [Wr r v]. Qed.
Lemma only_logs_or r m : only_logs (reg_or (H := spi_mmio answer) r m).
Proof using.
  intros s. exists [Rd r (answer r (sp_log s)); Wr r (Z.lor (answer r (sp_log s)) (u32 m))].
  unfold reg_or. rewrite (prog_bind_ok _ _ s (answer r (sp_log s)) (Spi (sp_state s) (sp_log s ++ [Rd r (answer r (sp_log s))]))) by done.
  cbn. unfold note, modify. cbn. by rewrite <- app_assoc.
Qed.
Lemma only_logs_and_not r m : only_logs (reg_and_not (H := spi_mmio answer) r m).
Proof using.
  intros s. exists [Rd r (answer r (sp_log s)); Wr r (Z.land (answer r (sp_log s)) (u32 (Z.lnot m)))].
  unfold reg_and_not. rewrite (prog_bind_ok _ _ s (answer r (sp_log s)) (Spi (sp_state s) (sp_log s ++ [Rd r (answer r (sp_log s))]))) by done.
  cbn. unfold note, modify. cbn. by rewrite <- app_assoc.
Qed.

Lemma spi1_setup_logs : only_logs (spi1_setup answer).
Proof using.
  unfold spi1_setup, setup_pin, spi1_cs_deselect, GPIO_PIN_HIGH, SET_GPIO_MODE, SET_GPIO_OTYPER, SET_GPIO_OSPEEDR,
    SET_GPIO_PUPDR, SET_GPIO_AF.
  repeat first [apply only_logs_bind | apply only_logs_write | apply only_logs_or | apply only_logs_and_not].
Qed.
End spi.

Lemma boot_spi_at a b h reg sinks d S :
  dv_spi d = SPI_ST_UNINIT -> at_boot b a h reg sinks d S ->
  exists b' l, boot_spi answer stack b = Ok (tt, b') /\
    at_boot b' a h reg sinks (Dev l SPI_ST_READY (dv_usart d) (dv_irqs d) (dv_rx_sem d)) S.
Proof using.
  intros Hs Hb. destruct (spi1_setup_logs (Spi SPI_ST_UNINIT (dv_log d))) as [t E].
  destruct (devices_at (on_spi (spi1_configure answer)) SPI_OK a b h reg sinks d S
    (Dev (dv_log d ++ t) SPI_ST_CONFIGURED (dv_usart d) (dv_irqs d) (dv_rx_sem d))) as (b1 & E1 & H1); [|done|].
  { unfold on_spi. rewrite Hs. unfold spi1_configure, gets. unfold mbind at 1, prog_bind at 1. cbn [sp_state].
    rewrite bool_decide_true by done. cbn [negb]. unfold mbind at 1, prog_bind at 1. rewrite E. reflexivity. }
  destruct (devices_at (on_spi spi1_start) SPI_OK a b1 h reg sinks
    (Dev (dv_log d ++ t) SPI_ST_CONFIGURED (dv_usart d) (dv_irqs d) (dv_rx_sem d)) S
    (Dev (dv_log d ++ t ++ [LockInit]) SPI_ST_READY (dv_usart d) (dv_irqs d) (dv_rx_sem d))) as (b2 & E2 & H2); [|exact H1|].
  { unfold on_spi, spi1_start, gets, note, modify, mbind, prog_bind. cbn. rewrite bool_decide_true by done. cbn. by rewrite <- app_assoc. }
  exists b2, (dv_log d ++ t ++ [LockInit]). split; [|done]. unfold boot_spi.
  rewrite (prog_bind_ok _ _ _ _ _ E1), bool_decide_true by done. cbn [negb].
  by rewrite (prog_bind_ok _ _ _ _ _ E2), bool_decide_true.
Qed.

(** *** The boot message *)

Definition boot_line : bytes := lit "[boot] ok, sysclk 84MHz, console=usart2" ++ [13; 10].

Lemma boot_line_printed :
  length stack = 256%nat ->
  kprintf stack (lit "[boot] ok, sysclk 84MHz, console=%s" ++ [13; 10]) [VStr (Some (lit "usart2"))] =
    Ok (Z.of_nat (length boot_line), boot_line).
Proof using.
  intros Hl. unfold kprintf.
  rewrite (kvsnprintf_ok stack KPRINTF_BUF_SIZE _ _ boot_line);
    [|by vm_compute|by rewrite Hl|vm_compute; reflexivity|by vm_compute].
  reflexivity.
Qed.

(** A message that the one sink takes. *)
Lemma print_at fmt args n text a b h d S rest p' r :
  kprintf stack fmt args = Ok (n, text) -> drv <> NULL ->
  usart2_drv_write (dv_irqs d) text (dv_usart d) = Ok ((r, rest), p') ->
  at_boot b a h (drv :: repeat NULL 7) (drv :: repeat NULL 3) d S ->
  exists b', main_kprintf stack fmt args b = Ok (tt, b') /\
    at_boot b' a h (drv :: repeat NULL 7) (drv :: repeat NULL 3)
      (Dev (dv_log d) (dv_spi d) p' rest (dv_rx_sem d)) S.
Proof using.
  intros Ek Hd Ew Hb. unfold main_kprintf, print_with. rewrite Ek. revert Hb. apply cons_at. intros dr pm Hdr.
  unfold console_write, gets. unfold mbind at 1, prog_bind at 1. cbn [c_sinks write_sinks repeat].
  rewrite (proj2 (Z.eqb_neq _ _) Hd). unfold deref, fetch. rewrite !prog_bind_assoc.
  unfold mbind at 1, prog_bind at 1. cbn [c_drivers]. rewrite Hdr. cbn [d_write usart2_driver].
  rewrite prog_bind_assoc.
  rewrite (prog_bind_ok _ _ _ r (Console dr (drv :: repeat NULL 7) (drv :: repeat NULL 3)
    (Dev (dv_log d) (dv_spi d) p' rest (dv_rx_sem d)) pm)); [done|].
  unfold on_device. cbn [c_device]. unfold gets. unfold mbind at 1, prog_bind at 1.
  unfold mbind at 1, prog_bind at 1, on_usart. rewrite Ew. done.
Qed.
End steps.

(** ** The whole of [main] *)

(** The system as the image of the program has it. *)
Definition reset_board (L : layout) (I : image_symbols) (answer : Z -> list access -> Z) (fuel : nat)
    (irqs : list irq) (ram : memory) : board :=
  Board (Sys (image_k L) (Heap NULL ∅ 0)
    (Console {[i_usart2_driver I := usart2_driver answer fuel]} (repeat NULL DRIVER_MAX) (repeat NULL CONSOLE_MAX_SINKS)
      (Dev [] SPI_ST_UNINIT (RxPort usart_boot 0) irqs NULL) 0)
    (NetState None NULL NULL) ram) ∅.

(** The memory pools and the heap. *)
Lemma pools_at L (HL : layout_ok L) heap_start heap_end I answer fuel irqs ram :
  exists b,
    (static_memory_init L;; on_sys (in_heap (heap_init heap_start (u32 (heap_end - heap_start)))))
      (reset_board L I answer fuel irqs ram) = Ok (tt, b) /\
    at_boot answer fuel (i_usart2_driver I) b (image_a L)
      (Heap heap_start (<[heap_start := HB (u32 (u32 (heap_end - heap_start) - 16)) NULL NULL 1]> ∅) 0)
      (repeat NULL DRIVER_MAX) (repeat NULL CONSOLE_MAX_SINKS)
      (Dev [] SPI_ST_UNINIT (RxPort usart_boot 0) irqs NULL) (socket_memory_init L ∅).
Proof.
  set (b0 := reset_board L I answer fuel irqs ram).
  assert (forall m : K unit, m (image_k L) = Ok (tt, image_k L) -> kern m b0 = Ok (tt, b0)) as Hk
    by (intros m E; unfold kern, on_sys, in_kernel; cbn [b0 reset_board bd_sys y_k]; by rewrite E).
  unfold static_memory_init. rewrite !prog_bind_assoc.
  rewrite (prog_bind_ok _ _ b0 tt b0) by (by apply Hk, task_memory_image). rewrite !prog_bind_assoc.
  rewrite (prog_bind_ok _ _ b0 tt b0) by (by apply Hk, semaphore_memory_image). rewrite !prog_bind_assoc.
  rewrite (prog_bind_ok _ _ b0 tt b0) by (by apply Hk, mutex_memory_image).
  unfold modify. unfold mbind, prog_bind. eexists. split; [reflexivity|].
  split; [by apply image_abs|done|apply lookup_singleton_eq|done..].
Qed.

Lemma set_priorities_logs answer l : exists t, set_priorities (H := log_mmio answer) l = Ok (tt, l ++ t).
Proof.
  assert (exists rs, writes_only answer rs (set_priorities (H := log_mmio answer))) as [rs H].
  { eexists. unfold set_priorities, NVIC_SET_PRIORITY, SCB_SET_PRIORITY. writes. }
  destruct (H l) as (t & E & _). by exists t.
Qed.

Lemma ticks_runs L a tk rq : stage L a tk rq ->
  exists a', runs a (modify (set_system_ticks 0)) tt a' /\ stage L a' tk rq.
Proof.
  intros [H1 H2 H3 H4 H5 H6 H7]. eexists. split; [apply runs_modify; scalar_solve|]. by split.
Qed.

Section boot.
Context (L : layout) (HL : layout_ok L) (tw heap_start heap_end : ptr) (I : image_symbols).
Context (answer : Z -> list access -> Z) (stack : bytes) (fuel : nat) (irqs : list irq).
Context (Hclk : clock_hw answer fuel) (Hd : i_usart2_driver I <> NULL).

Abbreviation drv := (i_usart2_driver I).
Abbreviation the_heap :=
  (Heap heap_start (<[heap_start := HB (u32 (u32 (heap_end - heap_start) - 16)) NULL NULL 1]> ∅) 0).
Abbreviation booted := (at_boot answer fuel drv).
Abbreviation start_dev l := (Dev l SPI_ST_UNINIT (RxPort usart_boot 0) irqs NULL).

(** From the clock to SPI: the console is attached and the semaphore of its
    driver exists. *)
Lemma devices_up b S :
  booted b (image_a L) the_heap (repeat NULL DRIVER_MAX) (repeat NULL CONSOLE_MAX_SINKS) (start_dev []) S ->
  exists b' a l,
    (forall k : prog board unit,
      (registers (fpu_init (H := log_mmio answer));; registers (clock_init (H := log_mmio answer) fuel);;
       _r ← cons (driver_register drv); usart2_init_sem L tw heap_start heap_end;;
       q ← cons (driver_find (lit "usart2")); _r ← cons (console_attach q);
       boot_spi answer stack;; k) b = k b') /\
    booted b' a the_heap (drv :: repeat NULL 7) (drv :: repeat NULL 3)
      (Dev l SPI_ST_READY (RxPort usart_boot 0) irqs (sem_slot L 0)) S /\
    stage L a (fun _ => blank_task) [].
Proof using HL Hclk Hd.
  intros H2.
  destruct (writes_bind answer _ _ _ _ (writes_or answer CPACR (Z.shiftl CPACR_CP_FULL_ACCESS (CPACR_CP_Pos 10)))
    (writes_bind answer _ _ _ _ (writes_or answer CPACR (Z.shiftl CPACR_CP_FULL_ACCESS (CPACR_CP_Pos 11)))
      (writes_or answer FPCCR (Z.lor (Z.shiftl 1 FPCCR_LSPEN_Pos) (Z.shiftl 1 FPCCR_ASPEN_Pos)))) []) as (t3 & E3 & W3).
  destruct (registers_at answer fuel drv (fpu_init (H := log_mmio answer)) _ _ _ _ _ (start_dev []) _ t3 E3 H2) as (b3 & F3 & H3).
  destruct (clock_log answer fuel Hclk t3) as (t4 & E4 & _); [by apply W3; absent|].
  destruct (registers_at answer fuel drv (clock_init (H := log_mmio answer) fuel) _ _ _ _ _ (start_dev t3) _ t4 E4 H3) as (b4 & F4 & H4).
  destruct (proj2 (usart2_sets answer)) as (rs5 & W5 & _). destruct (W5 (t3 ++ t4)) as (t5 & E5 & _).
  destruct (register_at answer fuel drv _ b4 _ (start_dev (t3 ++ t4)) _ t5 Hd E5 eq_refl H4) as (b5 & F5 & H5).
  destruct (first_sem_runs L HL) as (a6 & R6 & G6).
  destruct (sem_at L tw heap_start heap_end answer fuel drv _ _ _ _ _ _ _ _ _ R6 H5) as (b6 & F6 & H6).
  destruct (find_at answer fuel drv _ _ _ _ _ Hd H6) as (b7 & F7 & H7).
  destruct (attach_at answer fuel drv _ _ _ _ _ Hd H7) as (b8 & F8 & H8).
  destruct (boot_spi_at answer stack fuel drv _ _ _ _ _
    (Dev ((t3 ++ t4) ++ t5) SPI_ST_UNINIT (RxPort usart_boot 0) irqs (sem_slot L 0)) _ eq_refl H8) as (b9 & l9 & F9 & H9).
  exists b9, a6, l9. split; [|exact (conj H9 G6)]. intros k.
  rewrite (prog_bind_ok _ _ _ _ _ F3), (prog_bind_ok _ _ _ _ _ F4), (prog_bind_ok _ _ _ _ _ F5), (prog_bind_ok _ _ _ _ _ F6),
    (prog_bind_ok _ _ _ _ _ F7), (prog_bind_ok _ _ _ _ _ F8), (prog_bind_ok _ _ _ _ _ F9). reflexivity.
Qed.

(** From the scheduler to the tick. *)
Lemma kernel_up b a l S :
  length stack = 256%nat -> Forall txe irqs -> (length boot_line <= length irqs)%nat ->
  stage L a (fun _ => blank_task) [] ->
  booted b a the_heap (drv :: repeat NULL 7) (drv :: repeat NULL 3)
    (Dev l SPI_ST_READY (RxPort usart_boot 0) irqs (sem_slot L 0)) S ->
  exists b' a' l' p rest r t,
    (kern scheduler_init;; registers (set_priorities (H := log_mmio answer));;
     main_kprintf stack (lit "[boot] ok, sysclk 84MHz, console=%s" ++ [13; 10]) [VStr (Some (lit "usart2"))];;
     kern (start_tasks L tw I);; systick_init answer) b = Ok (tt, b') /\
    booted b' a' the_heap (drv :: repeat NULL 7) (drv :: repeat NULL 3)
      (Dev l' SPI_ST_READY p rest (sem_slot L 0)) S /\
    stage L a' (boot_tasks L I) (task_slot L <$> [0; 3; 2; 1]%nat) /\
    usart_rep (rp_usart p) r t /\ u_sent (rp_usart p) ++ t = boot_line.
Proof using HL Hd.
  intros Hstack Hirq Hn G6 H9.
  destruct (scheduler_init_runs L a _ G6) as (a10 & R10 & G10).
  destruct (kern_at answer fuel drv _ _ _ _ _ _ _ _ _ _ R10 H9) as (b10 & F10 & H10).
  destruct (set_priorities_logs answer l) as (t11 & E11).
  destruct (registers_at answer fuel drv (set_priorities (H := log_mmio answer)) _ _ _ _ _
    (Dev l SPI_ST_READY (RxPort usart_boot 0) irqs (sem_slot L 0)) _ t11 E11 H10) as (b11 & F11 & H11).
  destruct (drv_write_ok irqs boot_line (RxPort usart_boot 0) [] []) as (rest & p' & r' & t' & E12 & _ & (U12 & S12 & _) & _);
    [by apply tx_rep_nil; [apply usart_boot_rep|]|done|done|].
  destruct (print_at answer stack fuel drv _ _ _ _ _ _ _
    (Dev (l ++ t11) SPI_ST_READY (RxPort usart_boot 0) irqs (sem_slot L 0)) _ _ _ _ (boot_line_printed stack Hstack) Hd E12 H11)
    as (b12 & F12 & H12).
  destruct (start_tasks_runs L HL tw I a10 G10) as (a13 & R13 & G13).
  destruct (kern_at answer fuel drv _ _ _ _ _ _ _ _ _ _ R13 H12) as (b13 & F13 & H13).
  destruct (proj2 (systick_sets answer)) as (rs14 & W14 & _). destruct (W14 (l ++ t11)) as (t14 & E14 & _).
  destruct (registers_at answer fuel drv (systick_setup (H := log_mmio answer)) _ _ _ _ _
    (Dev (l ++ t11) SPI_ST_READY p' rest (sem_slot L 0)) _ t14 E14 H13) as (b14 & F14 & H14).
  destruct (ticks_runs L a13 _ _ G13) as (a15 & R15 & G15).
  destruct (kern_at answer fuel drv _ _ _ _ _ _ _ _ _ _ R15 H14) as (b15 & F15 & H15).
  exists b15, a15, ((l ++ t11) ++ t14), p', rest, r', t'. split; [|split_and!; [exact H15|exact G15|apply U12|]].
  - rewrite (prog_bind_ok _ _ _ _ _ F10), (prog_bind_ok _ _ _ _ _ F11), (prog_bind_ok _ _ _ _ _ F12), (prog_bind_ok _ _ _ _ _ F13).
    unfold systick_init. rewrite (prog_bind_ok _ _ _ _ _ F14). exact F15.
  - rewrite S12. vm_compute. reflexivity.
Qed.
End boot.

(** C5: [main] reaches its loop without a fault, when the clock becomes ready and
    the transmit interrupts come: the kernel is well formed and nothing runs
    yet, with the four tasks in the ready queue, the shell first, the idle
    task last; the heap is one free block, every socket is closed, SPI is
    ready, USART2 is the only console and the boot message is on its way. *)
Theorem main_starts_kernel L tw heap_start heap_end I answer stack fuel irqs ram :
  layout_ok L -> clock_hw answer fuel -> length stack = 256%nat -> i_usart2_driver I <> NULL ->
  Forall txe irqs -> (length boot_line <= length irqs)%nat ->
  region heap_start [(u32 (u32 (heap_end - heap_start) - 16), true)] ->
  exists b a, main L tw heap_start heap_end I answer stack fuel (reset_board L I answer fuel irqs ram) = Ok (tt, b) /\
    let y := bd_sys b in let d := c_device (y_console y) in
    Abs (y_k y) a /\ kinv a /\ kcur a /\
    holds (y_k y) QReady (task_slot L <$> [0; 3; 2; 1]%nat) /\
    tasks (av a) = tmap L (boot_tasks L I) /\ current_task (y_k y) = NULL /\
    heap_rep true (y_heap y) heap_start [(u32 (u32 (heap_end - heap_start) - 16), true)] /\
    bd_sockets b = socket_memory_init L ∅ /\
    c_sinks (y_console y) = i_usart2_driver I :: repeat NULL 3 /\
    dv_spi d = SPI_ST_READY /\ dv_rx_sem d = sem_slot L 0 /\
    exists r t, usart_rep (rp_usart (dv_usart d)) r t /\ u_sent (rp_usart (dv_usart d)) ++ t = boot_line.
Proof.
  intros HL Hclk Hstack Hd Hirq Hn Hreg.
  destruct (pools_at L HL heap_start heap_end I answer fuel irqs ram) as (b1 & E1 & H1).
  destruct (devices_up L HL tw heap_start heap_end I answer stack fuel irqs Hclk Hd _ _ H1) as (b2 & a2 & l2 & E2 & H2 & G2).
  destruct (kernel_up L HL tw heap_start heap_end I answer stack fuel irqs Hd _ _ _ _ Hstack Hirq Hn G2 H2)
    as (b & a & l & p & rest & r & t & E3 & [K1 [K2 K2'] K3 K4 K5 K6 K7] & G & U & Es).
  destruct (boot_stage_kinv L HL I a G) as [Hk Hc].
  exists b, a. split.
  - unfold main. rewrite <- prog_bind_assoc, (prog_bind_ok _ _ _ _ _ E1), E2. exact E3.
  - cbv zeta. rewrite K5, K6, K7. split_and!; try done.
    + rewrite <- (st_ready _ _ _ _ G). by apply Abs_holds.
    + by destruct G.
    + rewrite <- (st_current _ _ _ _ G), <- (abs_strip _ _ K1). done.
    + split; [exact K2|exact Hreg|]. rewrite K2'. cbn [h_blocks]. split; [pose proof (rg_base _ _ Hreg); unfold NULL; lia|].
      eexists. split; [apply lookup_insert_eq|]. split_and!; [reflexivity|reflexivity|reflexivity|by left|reflexivity].
    + by exists r, t.
Qed.

(** A processor that answers every read as the manual says, and a terminal
    that is fast enough. *)
Lemma main_starts_kernel_witness :
  exists b, main demo_layout 0x08000400 0x20010000 0x2001F000
      (Symbols 0x08001000 0x08002000 0x08003000 0x08004000 0x08005000 0x20000100
        0x08010000 0x08010004 0x0801000C 0x08010014 0x08010018)
      ready_hw (repeat 0 256) 1
      (reset_board demo_layout (Symbols 0x08001000 0x08002000 0x08003000 0x08004000 0x08005000 0x20000100
        0x08010000 0x08010004 0x0801000C 0x08010014 0x08010018) ready_hw 1 (repeat (Irq 0x80 0 0) 60) (fun _ => 0)) = Ok (tt, b) /\
    holds (y_k (bd_sys b)) QReady (task_slot demo_layout <$> [0; 3; 2; 1]%nat) /\
    dv_spi (c_device (y_console (bd_sys b))) = SPI_ST_READY.
Proof.
  destruct (main_starts_kernel demo_layout 0x08000400 0x20010000 0x2001F000
    (Symbols 0x08001000 0x08002000 0x08003000 0x08004000 0x08005000 0x20000100
        0x08010000 0x08010004 0x0801000C 0x08010014 0x08010018) ready_hw (repeat 0 256) 1 (repeat (Irq 0x80 0 0) 60) (fun _ => 0))
    as (b & a & E & H).
  - exact demo_layout_ok.
  - exact ready_hw_ok.
  - reflexivity.
  - discriminate.
  - apply Forall_forall. intros i Hi. apply list_elem_of_In, repeat_spec in Hi as ->. reflexivity.
  - vm_compute. lia.
  - change (u32 (u32 (0x2001F000 - 0x20010000) - 16)) with 61424. split; [done|by vm_compute|].
    constructor; [cbn; split; [lia|by exists 7678]|constructor].
  - exists b. cbv zeta in H. destruct H as (_ & _ & _ & H1 & _ & _ & _ & _ & _ & H2 & _). split_and!; [exact E|exact H1|exact H2].
Defined.
