(* ===== verification/Faults.v ===== *)
(** * The memory fault report ([debug_handlers.c])

    [mem_fault_callback] reads the fault registers and the stacked frame and
    prints them with [kpanicf], that is with the sinks that need neither
    interrupts nor the kernel. *)
From Stdlib Require Import Ascii String.
From S2P Require Import Prelude Utils KState Kprintf KprintfSpec FormatTypes Console Syscall Printers.
From S2P Require Import Usart UsartDriver RingBuffer Heap Spi Boot Platform PlatformSpec Main Startup.

Definition SCB_CFSR : Z := 0xE000ED28.
Definition SCB_MMFAR : Z := 0xE000ED34.
Definition SCB_CFSR_IACCVIOL_Msk : Z := Z.shiftl 1 0.
Definition SCB_CFSR_DACCVIOL_Msk : Z := Z.shiftl 1 1.
Definition SCB_CFSR_MUNSTKERR_Msk : Z := Z.shiftl 1 3.
Definition SCB_CFSR_MSTKERR_Msk : Z := Z.shiftl 1 4.
Definition SCB_CFSR_MMARVALID_Msk : Z := Z.shiftl 1 7.

(** ** The code *)

Definition hex_line (label : string) (v : Z) : line := (lit label ++ lit ": %x" ++ crlf, [VInt v]).
Definition when_set (cfsr mask : Z) (l : line) : list line :=
  if negb (Z.land cfsr mask =? 0) then [l] else [].

(** The calls of [kpanicf]; [stack i] is [stack[i]]. *)
Definition mem_fault_report (cfsr mmfar : Z) (stack : Z -> Z) : list line :=
  [ text_ln "";
    text_ln "========== MEMMANAGE FAULT ==========";
    hex_line "CFSR" cfsr;
    hex_line "MMFAR" mmfar;
    text_ln "MMFSR: " ] ++
  when_set cfsr SCB_CFSR_IACCVIOL_Msk (text_ln "  IACCVIOL  - instruction access violation") ++
  when_set cfsr SCB_CFSR_DACCVIOL_Msk (text_ln "  DACCVIOL  - data access violation") ++
  when_set cfsr SCB_CFSR_MUNSTKERR_Msk (text_ln "  MUNSTKERR - MPU fault during exception return") ++
  when_set cfsr SCB_CFSR_MSTKERR_Msk (text_ln "  MSTKERR   - MPU fault while stacking") ++
  when_set cfsr SCB_CFSR_MMARVALID_Msk (text_ln "  MMARVALID - MMFAR contains valid address") ++
  [ (crlf ++ lit "Stacked registers:" ++ crlf, []);
    hex_line "R0" (stack 0);
    hex_line "R1" (stack 1);
    hex_line "R2" (stack 2);
    hex_line "R3" (stack 3);
    hex_line "R12" (stack 4);
    hex_line "LR" (stack 5);
    hex_line "PC" (stack 6);
    hex_line "xPSR" (stack 7);
    text_ln "=====================================" ].

Section faults.
Context (answer : Z -> list access -> Z) (buf : bytes) (fuel : nat).

Fixpoint panic_lines (ls : list line) : prog board unit :=
  match ls with
  | [] => mret tt
  | (fmt, args) :: ls => main_kpanicf buf fmt args;; panic_lines ls
  end.

Definition read_register (r : Z) : prog board Z :=
  devices (on_log (mm_read (Mmio := log_mmio answer) r)).

(** Up to the endless loop at its end; [stack] is the stack pointer that
    [mem_fault_handler] chose. *)
Definition mem_fault_callback (stack : ptr) : prog board unit :=
  cfsr ← read_register SCB_CFSR;
  mmfar ← read_register SCB_MMFAR;
  frame ← gets (fun b i => ram_u32 (stack + 4 * i) (bd_sys b));
  panic_lines (mem_fault_report cfsr mmfar frame).

(** ** The report *)

Lemma hex_line_fits label v :
  line_fits (lit label ++ lit ": %x" ++ crlf, byte_args [] 1) = true -> line_fits (hex_line label v) = true.
Proof using. intros H. unfold hex_line. by rewrite (line_fits_types _ [VInt v] (byte_args [] 1)). Qed.

Lemma mem_fault_report_fits cfsr mmfar stack : forallb line_fits (mem_fault_report cfsr mmfar stack) = true.
Proof using.
  unfold mem_fault_report, when_set. rewrite !forallb_app, !andb_true_iff.
  split_and!; try (destruct (negb _); [by vm_compute|done]);
    cbn [forallb]; rewrite !hex_line_fits by (by vm_compute); by vm_compute.
Qed.

(** The text of a list of lines. *)
Definition text_of (ls : list line) : bytes :=
  concat ((fun l => match render l.1 l.2 with Ok w => u8 <$> w | Trap _ => [] end) <$> ls).

Lemma line_fits_kpanicf l :
  line_fits l = true -> length buf = 256%nat ->
  exists w, render l.1 l.2 = Ok w /\ kprintf buf l.1 l.2 = Ok (Z.of_nat (length w), u8 <$> w).
Proof using.
  unfold line_fits, UPRINTF_BUF_SIZE. intros H Hbuf. apply andb_prop in H as [H Hb].
  apply andb_prop in H as [Ht Hs]. apply Nat.ltb_lt in Hb.
  destruct (bounded_text _ _ Ht Hs) as (w & Hw & Hl). exists w. split; [done|].
  destruct (clamped_output 256 buf _ _ w ltac:(lia) ltac:(lia) Hw) as [E1 E2]; [lia|].
  unfold kprintf, KPRINTF_BUF_SIZE. rewrite E1. cbn [mbind result_bind]. rewrite E2.
  rewrite take_ge; [done|]. rewrite length_fmap. lia.
Qed.
End faults.

(** ** Printing it *)

(** The console writes to USART2 alone. *)
Definition usart_console (answer : Z -> list access -> Z) (fuel : nat) (b : board) : Prop :=
  let c := y_console (bd_sys b) in exists drv,
    drv <> NULL /\ c_drivers c !! drv = Some (usart2_driver answer fuel) /\ c_sinks c = drv :: repeat NULL 3.
(** Nothing but register accesses [t] happened. *)
Record only_printed (t : list access) (b b' : board) : Prop := {
  op_kernel : y_k (bd_sys b') = y_k (bd_sys b);
  op_heap : y_heap (bd_sys b') = y_heap (bd_sys b);
  op_net : y_net (bd_sys b') = y_net (bd_sys b);
  op_ram : y_ram (bd_sys b') = y_ram (bd_sys b);
  op_sockets : bd_sockets b' = bd_sockets b;
  op_drivers : c_drivers (y_console (bd_sys b')) = c_drivers (y_console (bd_sys b));
  op_registry : c_registry (y_console (bd_sys b')) = c_registry (y_console (bd_sys b));
  op_sinks : c_sinks (y_console (bd_sys b')) = c_sinks (y_console (bd_sys b));
  op_device : c_device (y_console (bd_sys b')) =
    let d := c_device (y_console (bd_sys b)) in
    Dev (dv_log d ++ t) (dv_spi d) (dv_usart d) (dv_irqs d) (dv_rx_sem d);
}.

Lemma only_printed_trans t1 t2 b1 b2 b3 :
  only_printed t1 b1 b2 -> only_printed t2 b2 b3 -> only_printed (t1 ++ t2) b1 b3.
Proof.
  intros [H1 H2 H3 H4 H5 H6 H7 H8 H9] [G1 G2 G3 G4 G5 G6 G7 G8 G9].
  split; [congruence..|]. rewrite G9, H9. cbn. by rewrite <- app_assoc.
Qed.
Lemma usart_console_printed answer fuel t b b' :
  usart_console answer fuel b -> only_printed t b b' -> usart_console answer fuel b'.
Proof. intros (drv & H1 & H2 & H3) [_ _ _ _ _ G1 _ G2 _]. exists drv. by rewrite G1, G2. Qed.

Lemma sent_writes_app t1 t2 : dr_writes (t1 ++ t2) = dr_writes t1 ++ dr_writes t2.
Proof. apply omap_app. Qed.
Lemma polite_mono b t : polite false t = true -> polite b t = true.
Proof. destruct b, t as [|[]]; cbn; try done. by intros [_ ?]%andb_prop. Qed.
Lemma polite_app b t1 t2 : polite b t1 = true -> polite false t2 = true -> polite b (t1 ++ t2) = true.
Proof.
  intros H1 H2. revert b H1. induction t1 as [|a t1 IH]; intros b H1; [by apply polite_mono|].
  destruct a; cbn in *; try (by apply IH). apply andb_prop in H1 as [-> H1]. by apply IH.
Qed.

Section report.
Context (answer : Z -> list access -> Z) (buf : bytes) (fuel : nat).
Context (Hbuf : length buf = 256%nat).
Context (Htxe : forall l, comes answer fuel USART2_SR USART_SR_TXE USART_SR_TXE l).
Abbreviation console_ok := (usart_console answer fuel).

(** The value read from a register. *)
Lemma read_printed r b :
  let v := answer r (dv_log (c_device (y_console (bd_sys b)))) in
  exists b', read_register answer r b = Ok (v, b') /\ only_printed [Rd r v] b b'.
Proof using.
  cbv zeta. unfold read_register, devices, cons, on_sys, in_console, on_device, set_c_primask, on_log. cbn. eexists.
  split; [done|]. split; cbn; try done. by destruct (y_k (bd_sys b)).
Qed.

Lemma sync_printed text b :
  console_ok b ->
  exists t b', cons (console_write_sync text) b = Ok (tt, b') /\ only_printed t b b' /\
    dr_writes t = u8 <$> text /\ polite false t = true.
Proof using Htxe.
  intros (drv & Hd & Hdr & Hs). destruct (sync_write_ok answer fuel text (dv_log (c_device (y_console (bd_sys b)))) Htxe)
    as (t & E & Ht & Hp).
  exists t. unfold cons, on_sys, in_console, set_c_primask. unfold console_write_sync, gets.
  unfold mbind at 1, prog_bind at 1. cbn [c_sinks]. rewrite Hs. cbn [write_sinks repeat].
  rewrite (proj2 (Z.eqb_neq _ _) Hd). unfold deref, fetch. rewrite prog_bind_assoc.
  unfold mbind at 1, prog_bind at 1. cbn [c_drivers]. rewrite Hdr. cbn [d_write_sync usart2_driver].
  unfold on_device, on_log, mbind, prog_bind. cbn [c_device]. rewrite E. cbn. eexists. split; [done|].
  split; [|done]. split; cbn; try done. by destruct (y_k (bd_sys b)).
Qed.

Lemma panic_line fmt args b :
  console_ok b -> line_fits (fmt, args) = true ->
  exists t b', main_kpanicf buf fmt args b = Ok (tt, b') /\ only_printed t b b' /\
    dr_writes t = text_of [(fmt, args)] /\ polite false t = true.
Proof using Hbuf Htxe.
  intros Hb Hf. destruct (line_fits_kpanicf buf (fmt, args) Hf Hbuf) as (w & Hw & Ek). cbn [fst snd] in *.
  destruct (sync_printed (u8 <$> w) b Hb) as (t & b' & E & Ho & Ht & Hp). exists t, b'.
  unfold main_kpanicf, print_with. rewrite Ek. split_and!; [exact E|exact Ho| |exact Hp].
  rewrite Ht. unfold text_of. cbn [fmap list_fmap concat fst snd]. rewrite Hw, app_nil_r, <- list_fmap_compose.
  apply list_fmap_ext. intros i x _. cbn. by rewrite (u8_small (u8 x)) by (pose proof (u8_range x); lia).
Qed.

Lemma panic_lines_ok ls b :
  console_ok b -> forallb line_fits ls = true ->
  exists t b', panic_lines buf ls b = Ok (tt, b') /\ only_printed t b b' /\
    dr_writes t = text_of ls /\ polite false t = true.
Proof using Hbuf Htxe.
  revert b. induction ls as [|[fmt args] ls IH]; intros b Hb Hf.
  - exists [], b. split_and!; [done| |done|done]. split; try done. destruct (c_device _). cbn. by rewrite app_nil_r.
  - cbn [forallb] in Hf. apply andb_prop in Hf as [Hf Hfs].
    destruct (panic_line fmt args b Hb Hf) as (t1 & b1 & E1 & H1 & Ht1 & Hp1).
    destruct (IH b1 (usart_console_printed _ _ _ _ _ Hb H1) Hfs) as (t2 & b2 & E2 & H2 & Ht2 & Hp2).
    exists (t1 ++ t2), b2. cbn [panic_lines]. rewrite (prog_bind_ok _ _ _ _ _ E1).
    split_and!; [exact E2|by eapply only_printed_trans| |by apply polite_app].
    rewrite sent_writes_app, Ht1, Ht2. unfold text_of. cbn [fmap list_fmap concat]. by rewrite app_nil_r.
Qed.
End report.

(** C37: When memory protection stops a task, the report comes out of USART2
    completely and in order, with the fault registers and the stacked frame of
    the task, each byte after the transmitter was seen empty; kernel, heap and
    console are not touched. *)
Theorem mem_fault_reports answer buf fuel stack b :
  length buf = 256%nat -> (forall l, comes answer fuel USART2_SR USART_SR_TXE USART_SR_TXE l) ->
  usart_console answer fuel b ->
  exists t b', mem_fault_callback answer buf stack b = Ok (tt, b') /\ only_printed t b b' /\ polite false t = true /\
    let l := dv_log (c_device (y_console (bd_sys b))) in
    let cfsr := answer SCB_CFSR l in
    let mmfar := answer SCB_MMFAR (l ++ [Rd SCB_CFSR cfsr]) in
    dr_writes t = text_of (mem_fault_report cfsr mmfar (fun i => ram_u32 (stack + 4 * i) (bd_sys b))).
Proof.
  intros Hbuf Htxe Hb. cbv zeta. unfold mem_fault_callback.
  set (l := dv_log (c_device (y_console (bd_sys b)))).
  destruct (read_printed answer SCB_CFSR b) as (b1 & E1 & H1). fold l in E1, H1. set (cfsr := answer SCB_CFSR l) in *.
  rewrite (prog_bind_ok _ _ _ _ _ E1).
  destruct (read_printed answer SCB_MMFAR b1) as (b2 & E2 & H2).
  replace (dv_log (c_device (y_console (bd_sys b1)))) with (l ++ [Rd SCB_CFSR cfsr]) in E2, H2 by (by rewrite (op_device _ _ _ H1)).
  rewrite (prog_bind_ok _ _ _ _ _ E2). set (mmfar := answer SCB_MMFAR _) in *.
  pose proof (only_printed_trans _ _ _ _ _ H1 H2) as H12.
  rewrite (prog_bind_ok (gets _) _ b2 (fun i => ram_u32 (stack + 4 * i) (bd_sys b2)) b2) by done.
  destruct (panic_lines_ok answer buf fuel Hbuf Htxe
    (mem_fault_report cfsr mmfar (fun i => ram_u32 (stack + 4 * i) (bd_sys b2))) b2) as (t & b3 & E3 & H3 & Ht & Hp);
    [by eapply usart_console_printed|apply mem_fault_report_fits|].
  exists ([Rd SCB_CFSR cfsr; Rd SCB_MMFAR mmfar] ++ t), b3. split_and!; [exact E3|exact (only_printed_trans _ _ _ _ _ H12 H3)|by apply polite_app|].
  rewrite sent_writes_app, Ht. unfold mem_fault_report, ram_u32, ram_u16. by rewrite (op_ram _ _ _ H12).
Qed.

(** A board after start-up, with the console attached. *)
Definition demo_board : board :=
  Board (Sys (image_k demo_layout) (Heap NULL ∅ 0)
    (Console {[0x20000100 := usart2_driver (fun _ _ => 0xC0) 1]} (repeat NULL DRIVER_MAX)
      (0x20000100 :: repeat NULL 3) (Dev [] SPI_ST_READY (RxPort usart_boot 0) [] NULL) 0)
    (NetState None NULL NULL) (fun _ => 0)) ∅.

Lemma mem_fault_reports_witness :
  exists t b', mem_fault_callback (fun _ _ => 0xC0) (repeat 0 256) 0x20000F00 demo_board = Ok (tt, b') /\
    dr_writes t = text_of (mem_fault_report 0xC0 0xC0 (fun _ => 0)).
Proof.
  destruct (mem_fault_reports (fun _ _ => 0xC0) (repeat 0 256) 1 0x20000F00 demo_board) as (t & b' & E & _ & _ & Ht).
  - done.
  - intros l. exists 0%nat. split; [lia|done].
  - exists 0x20000100. split; [done|]. split; [apply lookup_singleton_eq|done].
  - exists t, b'. split; [exact E|]. cbv zeta in Ht. exact Ht.
Defined.
