(* ===== verification/UserTasks.v ===== *)
(** * The tasks of the user ([user_main.c], [dhcp_task] of [dhcp.c])

    A task is the list of what it does through system calls, as a function of
    the answers it gets: the replies of the network task, the datagrams and
    the clock.  A list of answers that ends leaves the task waiting in its
    next call.  Memory from [sys_malloc] is there, except where [NULL] is
    asked about. *)
From Stdlib Require Import Ascii String.
From S2P Require Import Prelude Utils Pool Kprintf Dhcp Flash Lease Server Net Printers.

(** A system call of a task, with the text for the calls of [uprintf]. *)
Inductive action :=
| Say (l : line)
| NetLink
| NetOpen (protocol : socket_protocol) (port : Z)
| NetRecv (len : Z)
| NetSend (args : net_send_args)
| Sleep (ticks : Z)
| Spawn (priority : Z) (cfg : dhcp_cfg) (* sys_task_create of dhcp_task *)
| SetName (name : bytes).
Definition say (ls : list line) : list action := Say <$> ls.

(** ** user_main.c *)

Definition local_cfg : dhcp_cfg :=
  DhcpCfg [192; 168; 0; 110] [192; 168; 0; 200] [192; 168; 0; 105] 3600
    [192; 168; 0; 255] [192; 168; 0; 1] [8; 8; 8; 8] [255; 255; 255; 255].

(** What ends a loop: [break], [return], or no answer yet. *)
Inductive loop_end := Broken | Returned | Waiting.

(** An answer is the value of [link] and the status of the reply. *)
Fixpoint link_loop (answers : list (Z * net_status)) : list action * loop_end :=
  match answers with
  | [] => ([NetLink], Waiting)
  | (link, status) :: answers =>
      if negb (bool_decide (status = NET_STATUS_OK)) then ([NetLink], Returned)
      else
        let acts := [NetLink; Say (lit "[user] link status %d" ++ crlf, [VInt link]); Sleep 1000] in
        if link =? 1 then (acts, Broken)
        else let '(rest, e) := link_loop answers in (acts ++ rest, e)
  end.

(** [config] is what [sys_malloc] returned. *)
Definition user_main (config : ptr) (answers : list (Z * net_status)) : result (list action) :=
  let hello := say [text_ln "[user] user task"] in
  if config =? NULL then Trap Fault
  else
    let '(acts, e) := link_loop answers in
    Ok (hello ++ acts ++
      match e with
      | Broken => say [text_ln "[user] Starting DHCP server"] ++ [Spawn 1 local_cfg; SetName (lit "dhcp server")]
      | _ => []
      end).

(** ** dhcp_task *)

(** What one turn of the loop gets: the reply to the receive with the buffer,
    the clock, the uninitialised argument struct, the reply to a send. *)
Record round : Type := Round {
  r_status : net_status; r_got : Z; r_buffer : bytes;
  r_uptime : nat -> Z; r_now : Z; r_now' : Z;
  r_args : net_send_args;
  r_sent : net_status;
}.

Definition start_dhcp_server (opened : net_status) : list action * bool :=
  if negb (bool_decide (opened = NET_STATUS_OK))
  then (NetOpen UDP DHCP_SERVER_PORT :: say (print_net_error opened), false)
  else ([NetOpen UDP DHCP_SERVER_PORT], true).

Section task.
Context `{NorFlash} (sr : Z) (cfg : dhcp_cfg) (reply_buffer : ptr).

(** The status that is printed is that of the receive. *)
Definition send_offer (r : round) (args : net_send_args) : list action :=
  say [text_ln "[dhcp] Sending an offer"] ++ [NetSend args] ++
  (if negb (bool_decide (r_sent r = NET_STATUS_OK))
   then say (text_ln "[dhcp][!] Couldn't send an offer" :: print_net_error (r_status r)) else []).
Definition send_ack (r : round) (args : net_send_args) : list action :=
  say [text_ln "[dhcp] Sending ACK"] ++ [NetSend args] ++
  (if negb (bool_decide (r_sent r = NET_STATUS_OK))
   then say (text_ln "[dhcp][!] Couldn't send ACK" :: print_net_error (r_sent r)) else []).

(** The texts of the handlers. *)
Definition note_line (n : note) : line :=
  match n with
  | NO_ADDRESS => text_ln "[dhcp] Didn't chose an address"
  | NO_OFFER => text_ln "[dhcp][!] Couldn't build an offer"
  | NO_ACK => text_ln "[dhcp][!] Couldn't build a ACK message"
  end.
Definition answer_offer (r : round) (m : dhcp_msg) : DM (list action) :=
  '(notes, st, args) ← dhcp_build_offer_args cfg reply_buffer (r_uptime r) (r_buffer r) m (r_args r);
  mret (say (note_line <$> notes) ++ if bool_decide (st = DHCP_OK) then send_offer r args else []).
Definition answer_request (r : round) (m : dhcp_msg) : DM (list action) :=
  '(notes, st, args) ← dhcp_handle_request sr cfg reply_buffer (r_now r) (r_now' r) (r_buffer r) m (r_args r);
  mret (say (note_line <$> notes) ++ if bool_decide (st = DHCP_OK) && negb (bool_decide (args = zero_args)) then send_ack r args else []).

(** The switch on the type of the message. *)
Definition dhcp_dispatch (r : round) (m : dhcp_msg) : DM (list action) :=
  let type := o_message_type (m_options m) in
  if type =? DHCP_MSG_DISCOVER then answer_offer r m
  else if type =? DHCP_MSG_REQUEST then answer_request r m
  else if type =? DHCP_MSG_DECLINE then dhcp_handle_decline (r_now r) m;; answer_offer r m
  else if type =? DHCP_MSG_RELEASE then dhcp_handle_release sr m;; mret []
  else mret (say [(lit "[dhcp] Can't handle message type %d" ++ crlf, [VInt type])]).

Definition turn_end (r : round) : list action :=
  (if negb (bool_decide (r_status r = NET_STATUS_OK)) then say (print_net_error (r_status r)) else []) ++ [Sleep 20].

(** A [continue] skips the sleep. *)
Definition dhcp_task_turn (r : round) : DM (list action) :=
  if bool_decide (r_status r = NET_STATUS_OK) && negb (r_got r =? 0) then
    m ← gets v_msg;
    '(st, m) ← pure (dhcp_parse (r_buffer r) (r_got r) m);
    modify (set_v_msg m);;
    match st with
    | DHCP_OK =>
        let log := say (text_ln "[dhcp] Received message:" :: dhcp_msg_print m) in
        if negb (m_op m =? BOOTREQUEST) || negb (o_has_message_type (m_options m)) then
          mret (log ++ say [text_ln "[dhcp] Message is not bootrequest or has no message type"])
        else
          let log := log ++ say (text "[dhcp] Recevied " ::
            dhcp_print_msg_type (o_message_type (m_options m)) ++ [text_ln ""]) in
          acts ← dhcp_dispatch r m;
          mret (log ++ acts ++ turn_end r)
    | st => mret (say (print_dhcp_error st))
    end
  else mret (turn_end r).

Fixpoint dhcp_loop (rounds : list round) : DM (list action) :=
  match rounds with
  | [] => mret [NetRecv 1500]
  | r :: rounds =>
      acts ← dhcp_task_turn r;
      rest ← dhcp_loop rounds;
      mret (NetRecv 1500 :: acts ++ rest)
  end.

(** [opened] is the reply to the opening of the socket. *)
Definition dhcp_task (opened : net_status) (rounds : list round) : DM (list action) :=
  let hello := say [text_ln "[dhcp] Starting server..."] in
  let '(acts, started) := start_dhcp_server opened in
  if negb started then mret (hello ++ acts ++ say [text_ln "[dhcp][!] Couldn't start"])
  else
    table ← on_flash (setup_lease_table sr cfg);
    modify (set_v_table table);;
    rest ← dhcp_loop rounds;
    mret (hello ++ acts ++ say [(lit "[dhcp] Listening on %d" ++ crlf, [VInt DHCP_SERVER_PORT])] ++ rest).
End task.
