(* ===== verification/UserTasksProps.v ===== *)
(** * Theorems about the tasks of the user

    When the server is started, and that it serves: [user_main] against the
    answers of the network task, the turn of [dhcp_task] against [dhcp_turn],
    and [dhcp_task] from its start through any list of datagrams. *)
From Stdlib Require Import Ascii String.
From S2P Require Import Prelude Utils Kprintf FormatTypes Pool Dhcp DhcpSpec DhcpParse DhcpReply.
From S2P Require Import Flash FlashSpec Lease JournalSpec Server ServerSpec DhcpProps Net Printers UserTasks.

(** ** [user_main] *)

(** The link is down, and the answer is no error. *)
Definition down (a : Z * net_status) : Prop := a.2 = NET_STATUS_OK /\ a.1 <> 1.

Definition spawns (acts : list action) : list (Z * dhcp_cfg) :=
  omap (fun a => match a with Spawn p c => Some (p, c) | _ => None end) acts.
Definition sleeps (acts : list action) : list Z :=
  omap (fun a => match a with Sleep n => Some n | _ => None end) acts.

(** The answers up to the one that ends the loop. *)
Lemma link_loop_ends waits a rest :
  Forall down waits -> ~ down a ->
  exists acts, link_loop (waits ++ a :: rest) = (acts, if bool_decide (a.2 = NET_STATUS_OK) then Broken else Returned) /\
    spawns acts = [] /\
    sleeps acts = repeat 1000 (length waits + if bool_decide (a.2 = NET_STATUS_OK) then 1 else 0).
Proof.
  intros Hw Ha. induction Hw as [|[link st] waits [Est El] Hw (acts & E & Hs & Hn)]; cbn [app link_loop].
  - destruct a as [link st]. unfold down in Ha. cbn [fst snd] in *. destruct (decide (st = NET_STATUS_OK)) as [->|Hst].
    + rewrite !bool_decide_true by done. cbn [negb]. destruct (Z.eqb_spec link 1) as [|Hl]; [|by destruct Ha].
      eexists. split; [done|]. done.
    + rewrite !bool_decide_false by done. by eexists.
  - cbn [fst snd] in *. rewrite bool_decide_true by done. cbn [negb]. rewrite (proj2 (Z.eqb_neq _ _) El), E.
    eexists. split; [done|]. unfold spawns, sleeps in *. cbn. by rewrite Hs, Hn.
Qed.
Lemma link_loop_waits answers :
  Forall down answers -> exists acts, link_loop answers = (acts, Waiting) /\ spawns acts = [].
Proof.
  induction 1 as [|[link st] answers [Est El] _ (acts & E & Hs)]; cbn [link_loop]; [by eexists|].
  cbn [fst snd] in *. rewrite bool_decide_true by done. cbn [negb]. rewrite (proj2 (Z.eqb_neq _ _) El), E.
  eexists. split; [done|]. unfold spawns in *. cbn. done.
Qed.

(** The first answer that is not [down]. *)
Lemma first_answer answers :
  Forall down answers \/ exists waits a rest, answers = waits ++ a :: rest /\ Forall down waits /\ ~ down a.
Proof.
  induction answers as [|a answers IH]; [by left|].
  assert (down a \/ ~ down a) as [Ha|Ha].
  { unfold down. destruct (decide (a.2 = NET_STATUS_OK)); destruct (decide (a.1 = 1)); tauto. }
  - destruct IH as [IH|(waits & b & rest & -> & Hw & Hb)]; [left; by constructor|].
    right. exists (a :: waits), b, rest. split; [done|]. split; [by constructor|done].
  - right. by exists [], a, answers.
Qed.
Lemma first_answer_unique waits a rest waits' a' rest' :
  waits ++ a :: rest = waits' ++ a' :: rest' -> Forall down waits -> Forall down waits' -> ~ down a -> ~ down a' ->
  waits = waits' /\ a = a'.
Proof.
  intros E Hw. revert waits' E. induction Hw as [|w waits Hd Hw IH]; intros [|w' waits'] E Hw' Ha Ha'.
  - by injection E as ->.
  - injection E as -> _. by apply Forall_cons in Hw' as [? _].
  - by injection E as -> _.
  - injection E as -> E. apply Forall_cons in Hw' as [_ Hw']. by destruct (IH _ E Hw' Ha Ha') as [-> ->].
Qed.

(** C38: [user_main] asks for the link once a second.  It starts the server, at
    priority 1 and with its configuration, exactly when the link comes up
    before any error; the first error ends the task, and no server ever runs. *)
Theorem user_main_starts_server config answers :
  config <> NULL ->
  exists acts, user_main config answers = Ok acts /\
    (forall waits rest, answers = waits ++ (1, NET_STATUS_OK) :: rest -> Forall down waits ->
      spawns acts = [(1, local_cfg)] /\ sleeps acts = repeat 1000 (S (length waits))) /\
    ((forall waits rest, answers = waits ++ (1, NET_STATUS_OK) :: rest -> ~ Forall down waits) -> spawns acts = []).
Proof.
  intros Hc. unfold user_main. rewrite (proj2 (Z.eqb_neq _ _) Hc).
  assert (~ down (1, NET_STATUS_OK)) as Hup by (by intros [_ ?]).
  destruct (first_answer answers) as [Hd|(waits & a & rest & -> & Hw & Ha)].
  - destruct (link_loop_waits answers Hd) as (acts & -> & Hs). eexists. split; [done|]. split.
    + intros waits rest -> _. apply Forall_app in Hd as [_ [Hd _]%Forall_cons]. done.
    + intros _. unfold spawns in *. cbn. by rewrite app_nil_r.
  - destruct (link_loop_ends waits a rest Hw Ha) as (acts & -> & Hs & Hn). eexists. split; [done|].
    unfold spawns, sleeps in *. split.
    + intros waits' rest' E Hw'. destruct (first_answer_unique _ _ _ _ _ _ E Hw Hw' Ha Hup) as [-> ->].
      cbn. rewrite !omap_app, Hs, Hn. cbn. by rewrite app_nil_r, Nat.add_1_r.
    + intros Hno. destruct (decide (a.2 = NET_STATUS_OK)) as [Hst|Hst].
      * destruct (Hno waits rest); [|done]. f_equal. f_equal. destruct a as [link st]. cbn in Hst. subst st.
        f_equal. unfold down in Ha. cbn in Ha. destruct (decide (link = 1)); tauto.
      * rewrite bool_decide_false by done. cbn. by rewrite omap_app, Hs.
Qed.

Lemma user_main_starts_server_witness :
  exists acts, user_main 0x20010010 [(0, NET_STATUS_OK); (0, NET_STATUS_OK); (1, NET_STATUS_OK)] = Ok acts /\
    spawns acts = [(1, local_cfg)] /\ sleeps acts = [1000; 1000; 1000].
Proof.
  destruct (user_main_starts_server 0x20010010 [(0, NET_STATUS_OK); (0, NET_STATUS_OK); (1, NET_STATUS_OK)])
    as (acts & E & H & _); [done|].
  exists acts. split; [exact E|]. apply (H [(0, NET_STATUS_OK); (0, NET_STATUS_OK)] []); [done|]. by repeat constructor.
Defined.

(** ** The turn of [dhcp_task] *)

Definition sends (acts : list action) : list net_send_args :=
  omap (fun a => match a with NetSend args => Some args | _ => None end) acts.
(** Every text is well typed and short enough to be printed completely. *)
Definition says_fit (acts : list action) : bool :=
  forallb (fun a => match a with Say l => line_fits l | _ => true end) acts.

Lemma sends_app a b : sends (a ++ b) = sends a ++ sends b.
Proof. apply omap_app. Qed.
Lemma sends_say ls : sends (say ls) = [].
Proof. by induction ls. Qed.
Lemma says_fit_app a b : says_fit (a ++ b) = says_fit a && says_fit b.
Proof. apply forallb_app. Qed.
Lemma says_fit_say ls : says_fit (say ls) = forallb line_fits ls.
Proof. unfold says_fit, say. induction ls as [|l ls IH]; [done|]. cbn. by rewrite IH. Qed.

(** What a step does besides sending. *)
Definition quiet (acts : list action) : Prop := sends acts = [] /\ says_fit acts = true.
Lemma quiet_say ls : forallb line_fits ls = true -> quiet (say ls).
Proof. intros H. split; [apply sends_say|by rewrite says_fit_say]. Qed.
Lemma quiet_app a b : quiet a -> quiet b -> quiet (a ++ b).
Proof. intros [H1 H2] [H3 H4]. split; [by rewrite sends_app, H1, H3|by rewrite says_fit_app, H2, H4]. Qed.

(** [m] does what [n] says: the same state, the same fault, the datagram that
    [n] returns and no other, and its texts are printed completely. *)
Definition performs (m : DM (list action)) (n : DM (option net_send_args)) : Prop := forall s,
  match n s with
  | Ok (sent, s') => exists acts, m s = Ok (acts, s') /\ sends acts = option_list sent /\ says_fit acts = true
  | Trap e => m s = Trap e
  end.

Lemma performs_ret acts sent :
  sends acts = option_list sent -> says_fit acts = true -> performs (mret acts) (mret sent).
Proof. intros H1 H2 s. by exists acts. Qed.
Lemma performs_bind {A} (c : DM A) m n :
  (forall x, performs (m x) (n x)) -> performs (x ← c; m x) (x ← c; n x).
Proof. intros H s. unfold mbind, prog_bind. destruct (c s) as [[x s']|]; [apply H|done]. Qed.
Lemma performs_log m n a b :
  performs m n -> quiet a -> quiet b -> performs (acts ← m; mret (a ++ acts ++ b)) n.
Proof.
  intros H [Ha1 Ha2] [Hb1 Hb2] s. specialize (H s). unfold mbind, prog_bind. destruct (n s) as [[sent s']|].
  - destruct H as (acts & -> & H1 & H2). eexists. split; [done|]. rewrite !sends_app, !says_fit_app.
    by rewrite Ha1, Hb1, H1, Ha2, H2, Hb2, app_nil_r.
  - by rewrite H.
Qed.

Section turn.
Context `{NorFlash} (sr : Z) (cfg : dhcp_cfg) (rb : ptr) (r : round).

Lemma send_offer_performs args : performs (mret (send_offer r args)) (mret (Some args)).
Proof using.
  apply performs_ret; unfold send_offer; rewrite ?sends_app, ?says_fit_app; destruct (negb _); try done.
  - by rewrite !sends_say.
  - by destruct (r_status r).
Qed.
Lemma send_ack_performs args : performs (mret (send_ack r args)) (mret (Some args)).
Proof using.
  apply performs_ret; unfold send_ack; rewrite ?sends_app, ?says_fit_app; destruct (negb _); try done.
  - by rewrite !sends_say.
  - by destruct (r_sent r).
Qed.
Lemma notes_quiet notes : quiet (say (note_line <$> notes)).
Proof using. apply quiet_say. induction notes as [|[] notes IH]; [done|cbn [fmap list_fmap forallb]; by rewrite IH..]. Qed.
Lemma performs_notes notes acts sent :
  performs (mret acts) (mret sent) -> performs (mret (say (note_line <$> notes) ++ acts)) (mret sent).
Proof using.
  intros Hp s. destruct (Hp s) as (acts' & E & H1 & H2). injection E as <-. eexists. split; [done|].
  destruct (notes_quiet notes) as [H3 H4]. by rewrite sends_app, says_fit_app, H1, H2, H3, H4.
Qed.
Lemma answer_offer_performs m :
  performs (answer_offer cfg rb r m)
    ('(_notes, st, args) ← dhcp_build_offer_args cfg rb (r_uptime r) (r_buffer r) m (r_args r);
     mret (if bool_decide (st = DHCP_OK) then Some args else None)).
Proof using.
  apply performs_bind. intros [[notes st] args]. apply performs_notes.
  destruct (bool_decide _); [apply send_offer_performs|by apply performs_ret].
Qed.

Lemma dhcp_dispatch_performs m :
  performs (dhcp_dispatch sr cfg rb r m)
    (let type := o_message_type (m_options m) in
     if type =? DHCP_MSG_DISCOVER then
       '(_notes, st, args) ← dhcp_build_offer_args cfg rb (r_uptime r) (r_buffer r) m (r_args r);
       mret (if bool_decide (st = DHCP_OK) then Some args else None)
     else if type =? DHCP_MSG_REQUEST then
       '(_notes, st, args) ← dhcp_handle_request sr cfg rb (r_now r) (r_now' r) (r_buffer r) m (r_args r);
       mret (if bool_decide (st = DHCP_OK) && negb (bool_decide (args = zero_args)) then Some args else None)
     else if type =? DHCP_MSG_DECLINE then
       dhcp_handle_decline (r_now r) m;;
       '(_notes, st, args) ← dhcp_build_offer_args cfg rb (r_uptime r) (r_buffer r) m (r_args r);
       mret (if bool_decide (st = DHCP_OK) then Some args else None)
     else if type =? DHCP_MSG_RELEASE then dhcp_handle_release sr m;; mret None
     else mret None).
Proof using.
  unfold dhcp_dispatch. cbv zeta. repeat case_match.
  - apply answer_offer_performs.
  - apply performs_bind. intros [[notes st] args]. apply performs_notes. destruct (_ && _); [apply send_ack_performs|by apply performs_ret].
  - apply performs_bind. intros _. apply answer_offer_performs.
  - apply performs_bind. intros _. by apply performs_ret.
  - apply performs_ret; [apply sends_say|]. rewrite says_fit_say. cbn [forallb].
    rewrite (line_fits_types _ [VInt _] (byte_args [] 1)) by done. by vm_compute.
Qed.

Lemma turn_end_quiet : quiet (turn_end r).
Proof using.
  unfold turn_end. apply quiet_app; [|done]. destruct (negb _); [|done]. apply quiet_say, print_net_error_fits.
Qed.

(** The turn on a datagram performs [dhcp_turn]. *)
Lemma task_turn_performs :
  r_status r = NET_STATUS_OK -> r_got r <> 0 ->
  performs (dhcp_task_turn sr cfg rb r)
    (dhcp_turn sr cfg rb (r_uptime r) (r_now r) (r_now' r) (r_buffer r) (r_got r) (r_args r)).
Proof using.
  intros Hst Hg. unfold dhcp_task_turn, dhcp_turn. rewrite bool_decide_true by done.
  rewrite (proj2 (Z.eqb_neq _ _) Hg). cbn [negb andb].
  apply performs_bind. intros m0. apply performs_bind. intros [st m]. apply performs_bind. intros _.
  assert (forall st', performs (mret (say (print_dhcp_error st'))) (mret None)) as Herr.
  { intros st'. apply performs_ret; [apply sends_say|]. by rewrite says_fit_say, print_dhcp_error_fits. }
  destruct st; try apply Herr. cbv zeta.
  assert (quiet (say (text_ln "[dhcp] Received message:" :: dhcp_msg_print m))) as Hq.
  { apply quiet_say. cbn [forallb]. by rewrite dhcp_msg_print_fits. }
  destruct (_ || _).
  - apply performs_ret; rewrite ?sends_app, ?says_fit_app, ?(proj1 Hq), ?(proj2 Hq); by vm_compute.
  - apply (performs_log (dhcp_dispatch sr cfg rb r m)); [apply dhcp_dispatch_performs| |apply turn_end_quiet].
    apply quiet_app; [done|]. apply quiet_say. cbn [forallb]. by rewrite forallb_app, dhcp_print_msg_type_fits.
Qed.
End turn.

(** ** [dhcp_task] *)

(** The datagrams that the turns send. *)
Fixpoint dhcp_serve `{NorFlash} (sr : Z) (cfg : dhcp_cfg) (rb : ptr) (rounds : list round) : DM (list net_send_args) :=
  match rounds with
  | [] => mret []
  | r :: rounds =>
      sent ← (if bool_decide (r_status r = NET_STATUS_OK) && negb (r_got r =? 0)
              then dhcp_turn sr cfg rb (r_uptime r) (r_now r) (r_now' r) (r_buffer r) (r_got r) (r_args r)
              else mret None);
      rest ← dhcp_serve sr cfg rb rounds;
      mret (option_list sent ++ rest)
  end.

(** A reply to a receive: at most as many bytes as the buffer has. *)
Record round_ok (r : round) : Prop := {
  rn_bytes : Forall is_byte (r_buffer r);
  rn_got : 0 <= r_got r <= Z.of_nat (length (r_buffer r));
  rn_word : r_got r < 2 ^ 16;
}.

(** The table before the journal is read. *)
Definition empty_table (cfg : dhcp_cfg) : lease_table :=
  let size := u8 (byte (g_end_addr cfg) 3 - byte (g_start_addr cfg) 3 + 1) in
  Table (repeat (Slot 0 (repeat 0 16) 0 0) (Z.to_nat size)) size (take 4 (g_start_addr cfg)).

(** The flash at a start, with [k] free words of the journal: erased, or with
    the journal of an earlier run for the same pool. *)
Inductive startable (cfg : dhcp_cfg) : flash -> Z -> Prop :=
| StartBlank f mem wr :
    jstate f mem 0 wr -> take 4 (drop journal_base mem) = repeat erased 4 ->
    (journal_base + 4096 <= length mem)%nat -> Z.of_nat (length mem) < 2 ^ 32 -> startable cfg f 4092
| StartJournal f t recs rd :
    journal f t recs rd -> table_ok t ->
    t_size t = t_size (empty_table cfg) -> t_start_addr t = t_start_addr (empty_table cfg) ->
    Forall (fun r => rec_valid r = true) recs -> (4 + 8 * S (length recs) <= 4096)%nat ->
    startable cfg (reboot f) (4092 - 8 * Z.of_nat (length recs)).

Section serve.
Context `{NorFlash} (sr : Z) (cfg : dhcp_cfg) (rb : ptr).
Context (Hstart : length (g_start_addr cfg) = 4%nat) (Hbytes : Forall is_byte (g_start_addr cfg)).

Lemma empty_table_ok : table_ok (empty_table cfg).
Proof using Hstart Hbytes.
  unfold empty_table. set (n := u8 _). pose proof (u8_range (byte (g_end_addr cfg) 3 - byte (g_start_addr cfg) 3 + 1)).
  fold n in H0. split; cbn [t_slots t_size t_start_addr].
  - rewrite repeat_length. lia.
  - lia.
  - rewrite length_take. lia.
  - by apply Forall_take.
  - apply Forall_forall. intros s Hs. apply list_elem_of_In, repeat_spec in Hs as ->.
    split; cbn; [lia|done|by repeat constructor|done|lia].
Qed.
Lemma table_ok_wf t : table_ok t -> table_wf t.
Proof using.
  intros [H1 _ H2 _ H3]. split; [done|done|]. eapply Forall_impl; [exact H3|]. by intros s [_ ? _ _ _].
Qed.

(** Valid records keep the table well formed and ask for no compaction. *)
Lemma replay_wf recs t :
  table_wf t -> Forall rec_ok recs -> Forall (fun r => rec_valid r = true) recs ->
  exists t', foldl replay (t, false) recs = (t', false) /\ table_wf t'.
Proof using.
  intros Ht Hr Hv. revert t Ht. induction Hr as [|r recs Hr _ IH]; intros t Ht; [by eexists|].
  apply Forall_cons in Hv as [Hv Hvs]. cbn [foldl]. unfold replay at 2. rewrite Hv. cbn [fst snd].
  apply (IH Hvs). unfold load_record. destruct (_ >=? _); [done|]. cbv zeta.
  destruct Ht as [H1 H2 H3]. split; cbn [t_slots t_size t_start_addr set_t_slots]; [by rewrite length_insert|done|].
  apply Forall_insert; [done|]. cbn. rewrite length_take, length_drop, (ro_length _ Hr). done.
Qed.

Lemma live_log_free n i : live_log i (repeat (Slot 0 (repeat 0 16) 0 0) n) = [].
Proof using. revert i. induction n as [|n IH]; intros i; [done|]. cbn. apply IH. Qed.

(** The server finds or makes its journal. *)
Lemma setup_ok f k : startable cfg f k ->
  exists t f', setup_lease_table sr cfg f = Ok (t, f') /\ table_wf t /\ flash_room f' k.
Proof using Hstart Hbytes.
  pose proof empty_table_ok as He. unfold setup_lease_table. cbv zeta. fold (empty_table cfg).
  intros [f' mem wr Hj Hm Hl Hx|f' t recs rd Hj Ht Esz Est Hv Hroom].
  - destruct (flash_read_journal_ok 4 f' mem 0 wr Hj ltac:(lia) ltac:(lia) Hx) as (f1 & E1 & Hj1).
    assert (exists f2, load_lease_table (empty_table cfg) f' = Ok ((empty_table cfg, true), f2) /\ jstate f2 mem 0 wr)
      as (f2 & E2 & Hj2).
    { unfold load_lease_table. change 4 with (Z.of_nat 4) at 1. rewrite (prog_bind_ok _ _ _ _ _ E1).
      change (Z.to_nat 0) with 0%nat. rewrite Nat.add_0_r, Hm.
      rewrite (bool_decide_false (take 4 (bytes_of (repeat erased 4)) = header_magic)) by (by vm_compute). cbn [negb orb].
      unfold flash_journal_reset_read_pointer, modify, mbind, prog_bind. eexists. split; [reflexivity|].
      change (Z.to_nat FLASH_JOURNAL_SECTOR) with 3%nat. destruct Hj1 as [J1 J2 J3 J4 J5 J6].
      destruct (nth_insert3 0 _ J2) as [En El]. by split. }
    rewrite (prog_bind_ok _ _ _ _ _ E2). cbn beta iota.
    destruct (journal_compact_ok sr f2 (empty_table cfg) mem 0 wr He Hj2 Hl Hx) as (f3 & E3 & [_ _ (pre & post & Hj3 & Hpre & Hx3)]).
    cbn [whenb]. rewrite (prog_bind_ok _ _ _ _ _ E3). exists (empty_table cfg), f3. split; [done|].
    split; [by apply table_ok_wf|].
    assert (live_log 0 (t_slots (empty_table cfg)) = []) as El by apply live_log_free.
    rewrite El in Hj3. eexists _, _, _. split; [exact Hj3|].
    destruct (header_ok (empty_table cfg) He) as [Hh Hhb]; [pose proof (to_size _ He); lia|].
    destruct (bytes_words _ 4 Hhb ltac:(lia)) as (_ & Ew & _).
    rewrite !length_app, Ew, repeat_length. cbn [log_records fmap list_fmap rec_words concat length] in *. lia.
  - destruct (load_lease_table_ok f' t (empty_table cfg) recs rd Hj Ht) as (f1 & rd1 & E1 & [_ _ (pre & post & Hj1 & Hpre & Hx)]);
      [lia|done|done|].
    destruct Hj as [Hrecs _ _].
    destruct (replay_wf recs (empty_table cfg) (table_ok_wf _ He) Hrecs Hv) as (t' & E2 & Ht'). rewrite E2 in E1.
    rewrite (prog_bind_ok _ _ _ _ _ E1). cbn beta iota. exists t', f1. split; [done|]. split; [done|].
    eexists _, _, _. split; [exact Hj1|].
    destruct (header_ok t Ht) as [Hh Hhb]; [pose proof (to_size _ Ht); lia|].
    destruct (bytes_words _ 4 Hhb ltac:(lia)) as (_ & Ew & _).
    rewrite !length_app, Ew, repeat_length, rec_words_length by done. lia.
Qed.
End serve.

Section loop.
Context `{NorFlash} (sr : Z) (cfg : dhcp_cfg) (rb : ptr) (Hcfg : cfg_wf cfg).

Lemma turn_serves r s k :
  server_ok s (8 + k) -> 0 <= k -> round_ok r ->
  exists acts sent s', dhcp_task_turn sr cfg rb r s = Ok (acts, s') /\
    (if bool_decide (r_status r = NET_STATUS_OK) && negb (r_got r =? 0)
     then dhcp_turn sr cfg rb (r_uptime r) (r_now r) (r_now' r) (r_buffer r) (r_got r) (r_args r)
     else mret None) s = Ok (sent, s') /\
    sends acts = option_list sent /\ says_fit acts = true /\ server_ok s' k.
Proof using Hcfg.
  intros Hs Hk [H1 H2 H3]. destruct (_ && _) eqn:Eb.
  - apply andb_prop in Eb as [Est%bool_decide_eq_true Eg%negb_true_iff%Z.eqb_neq].
    destruct (dhcp_turn_ok sr cfg rb (r_uptime r) (r_now r) (r_now' r) (r_buffer r) (r_got r) (r_args r) s k Hcfg Hs Hk H1 H2 H3)
      as (sent & s' & E & Hs' & _).
    pose proof (task_turn_performs sr cfg rb r Est Eg s) as Hp. rewrite E in Hp. destruct Hp as (acts & Ea & Hn & Hf).
    by exists acts, sent, s'.
  - exists (turn_end r), None, s. unfold dhcp_task_turn. rewrite Eb. destruct (turn_end_quiet r) as [Hn Hf].
    split_and!; [done|done|done|done|]. eapply server_ok_le; [exact Hs|lia].
Qed.

Lemma loop_serves rounds s k :
  server_ok s (8 * Z.of_nat (length rounds) + k) -> 0 <= k -> Forall round_ok rounds ->
  exists acts s', dhcp_loop sr cfg rb rounds s = Ok (acts ++ [NetRecv 1500], s') /\
    dhcp_serve sr cfg rb rounds s = Ok (sends acts, s') /\ says_fit acts = true /\ server_ok s' k.
Proof using Hcfg.
  intros Hs Hk Hr. revert s Hs. induction Hr as [|r rounds Hr _ IH]; intros s Hs.
  - exists [], s. split_and!; [done|done|done|]. eapply server_ok_le; [exact Hs|cbn; lia].
  - cbn [length] in Hs. destruct (turn_serves r s (8 * Z.of_nat (length rounds) + k)) as (a & sent & s1 & E1 & E2 & Hn & Hf & Hs1);
      [eapply server_ok_le; [exact Hs|lia]|lia|done|].
    destruct (IH s1 Hs1) as (acts & s2 & E3 & E4 & Hf2 & Hs2).
    exists (NetRecv 1500 :: a ++ acts), s2. cbn [dhcp_loop dhcp_serve].
    rewrite (prog_bind_ok _ _ _ _ _ E1), (prog_bind_ok _ _ _ _ _ E2), (prog_bind_ok _ _ _ _ _ E3), (prog_bind_ok _ _ _ _ _ E4).
    split_and!; [|change (sends (NetRecv 1500 :: a ++ acts)) with (sends (a ++ acts)); by rewrite sends_app, Hn| |done].
    + unfold mret, prog_ret. by rewrite <- app_comm_cons, <- app_assoc.
    + change (says_fit (NetRecv 1500 :: a ++ acts)) with (says_fit (a ++ acts)). by rewrite says_fit_app, Hf, Hf2.
Qed.
End loop.

(** C6: [dhcp_task] starts on an erased flash or on the journal of an earlier run,
    handles every datagram whatever it holds, and waits for the next one, as
    long as the journal has room: a turn takes at most 8 words, and
    [startable] gives 4092 free words on an erased flash, for 511 datagrams,
    and 8 fewer for each record of an earlier run.  (No code compacts the
    journal later, and the writes do not stop at the end of the sector.)  It
    sends what the turns of the server ask for, in their order, and every text
    on the console is complete. *)
Theorem dhcp_task_serves `{NorFlash} sr cfg rb rounds s k :
  cfg_wf cfg -> length (g_start_addr cfg) = 4%nat -> Forall is_byte (g_start_addr cfg) ->
  startable cfg (v_flash s) (8 * Z.of_nat (length rounds) + k) -> 0 <= k ->
  msg_wf (v_msg s) -> 1000 <= Z.of_nat (length (v_reply s)) -> Forall round_ok rounds ->
  exists acts table f s', dhcp_task sr cfg rb NET_STATUS_OK rounds s = Ok (acts ++ [NetRecv 1500], s') /\
    setup_lease_table sr cfg (v_flash s) = Ok (table, f) /\
    dhcp_serve sr cfg rb rounds (Server table f (v_msg s) (v_reply s)) = Ok (sends acts, s') /\
    says_fit acts = true /\ server_ok s' k.
Proof.
  intros Hc Hl Hb Hst Hk Hm Hr Hro.
  destruct (setup_ok sr cfg Hl Hb _ _ Hst) as (t & f & E & Ht & Hf).
  set (s0 := Server t f (v_msg s) (v_reply s)).
  assert (server_ok s0 (8 * Z.of_nat (length rounds) + k)) as Hs0 by (by split).
  destruct (loop_serves sr cfg rb Hc rounds s0 k Hs0 Hk Hro) as (acts & s' & E1 & E2 & Hfit & Hs').
  unfold dhcp_task, start_dhcp_server. rewrite bool_decide_true by done. cbn [negb].
  rewrite (prog_bind_ok _ _ s t (set_v_flash f s)) by (unfold on_flash; by rewrite E).
  rewrite (prog_bind_ok (modify _) _ _ tt s0) by done. rewrite (prog_bind_ok _ _ _ _ _ E1).
  eexists _, t, f, s'. split; [unfold mret, prog_ret; by rewrite !app_assoc|]. split; [done|]. fold s0.
  rewrite !sends_app, !says_fit_app, Hfit, !sends_say. by split_and!.
Qed.

Definition demo_round : round :=
  Round NET_STATUS_OK 250 demo_discover (fun _ => 5000) 5000 5000 demo_args NET_STATUS_OK.
Definition demo_boot : server := Server (Table [] 0 []) demo_flash demo_msg (repeat 0 (Z.to_nat 1000)).

Lemma demo_startable k : k = 4092 -> startable local_cfg demo_flash k.
Proof.
  intros ->. apply (StartBlank _ _ (repeat erased (Z.to_nat 16384)) 0); [exact demo_flash_ok|by vm_compute| |];
    rewrite repeat_length; unfold journal_base; lia.
Qed.

(** Three discover messages after the first start, the configuration of
    [user_main]. *)
Lemma dhcp_task_serves_witness :
  exists acts s', dhcp_task 0 local_cfg 0x20002000 NET_STATUS_OK [demo_round; demo_round; demo_round] demo_boot =
      Ok (acts ++ [NetRecv 1500], s') /\ says_fit acts = true /\ server_ok s' 4068.
Proof.
  destruct (dhcp_task_serves 0 local_cfg 0x20002000 [demo_round; demo_round; demo_round] demo_boot 4068)
    as (acts & t & f & s' & E & _ & _ & Hf & Hs).
  - by constructor.
  - done.
  - by repeat constructor.
  - by apply demo_startable.
  - lia.
  - exact demo_msg_wf.
  - cbn [demo_boot v_reply]. rewrite repeat_length. lia.
  - assert (round_ok demo_round) as Hr; [|by repeat constructor].
    constructor; [|vm_compute; split; intros [=]|done]. apply (bool_decide_unpack _). vm_compute. done.
  - exists acts, s'. split_and!; [exact E|exact Hf|exact Hs].
Defined.

(** The report of a send that failed shows the status of the receive, which
    is OK in that place: the reason of the failure is lost. *)
Theorem offer_failure_unnamed `{NorFlash} cfg rb r m s sent1 sent2 :
  sent1 <> NET_STATUS_OK -> sent2 <> NET_STATUS_OK ->
  let with_reply sent := Round (r_status r) (r_got r) (r_buffer r) (r_uptime r) (r_now r) (r_now' r) (r_args r) sent in
  answer_offer cfg rb (with_reply sent1) m s = answer_offer cfg rb (with_reply sent2) m s.
Proof.
  intros H1 H2 w. unfold answer_offer, send_offer, w. cbn [r_uptime r_buffer r_args r_sent r_status].
  by rewrite !bool_decide_false by done.
Qed.
